(* ===== verification/_CoqProject ===== *)
-Q . S2P
Prelude.v
Database.v
Block.v
StateManager.v
HotTier.v
Config.v
ConfigFile.v
PersistenceService.v
ColdStorage.v
Core.v
Archiver.v
Persistence.v
ConcurrentWrites.v
ConcurrentStorage.v
Linearizability.v
Recovery.v
Pipeline.v
Publish.v
Ingest.v
Subscriber.v
LiveSession.v
Access.v
Backfill.v
Peering.v
BackfillLoop.v
Metrics.v
Accounting.v
StatePlugin.v
QueryTypes.v
QueryHandlers.v
QueryServices.v
QueryState.v
Plugins.v
Node.v
Startup.v
NodeRun.v
Fixtures.v
UnitTests.v
PluginTests.v
CoreTests.v
StorageTheorems.v
IngestTheorems.v
ServingTheorems.v
QueryTheorems.v
QueryTests.v
SystemTheorems.v
NodeTheorems.v
