(* ===== verification/Prelude.v ===== *)
(** * Rock Node: a verification library

    Rock Node is a block node: publishers stream blocks to it, it verifies, stores
    and archives them, and it serves them to subscribers and other nodes.  The
    program is a set of plugins around a shared context; this library models the
    plugins that carry its logic as functions on explicit state and proves what
    makes them correct.

    ** The program and its model

    Blocks enter through the publish plugin: sessions compete for a block number,
    the winner's items are collected and the complete block goes into the block-data
    cache, with an event to the verifier.  The verifier passes the event on to the
    persistence plugin, which writes the block to the hot tier (RocksDB) and
    broadcasts that it is persisted; the session then acknowledges the block.  The
    archiver moves batches of old blocks from the hot tier to the cold one (indexed
    files).  Subscribers, block access and server status read through the
    [BlockReader] trait; the backfill plugin looks for gaps and fetches the missing
    blocks from peers through the [BlockWriter] trait; the state plugin applies the
    state changes of every persisted block, and the query plugin answers questions
    about accounts, files, topics, schedules, tokens and contracts from that state.
    The application assembles the plugins, which find each other through a table of
    providers, starts them and stops them in reverse.

    The files, in dependency order (paths under src/crates/rock-node-...):

    - [Prelude]: results, u64 and i64 arithmetic, bytes, big-endian keys and their
      order, tactics.
    - [Database]: the RocksDB interface, its laws, a reference store that runs;
      core/src/database.rs.
    - [Block]: blocks and their items, wire formats as the interface [Codec] with
      laws, a reference codec that runs.
    - [StateManager]: persistence-plugin/src/state.rs: metadata and the gap table.
    - [HotTier]: persistence-plugin/src/hot_tier.rs.
    - [Config]: core/src/config.rs: the records and their defaults; [ConfigFile]: the
      serde implementations derived there, over the interface [Format].
    - [PersistenceService]: [write_block] of persistence-plugin/src/service.rs and its
      specification [spec_write].
    - [ColdStorage]: persistence-plugin/src/cold_storage/writer.rs and reader.rs over
      a directory of byte files.
    - [Core]: core/src/events.rs, cache.rs, capability.rs, block_reader.rs and
      block_writer.rs; the contract [BlockStore] of the two traits.
    - [Archiver]: persistence-plugin/src/cold_storage/archiver.rs.
    - [Persistence]: the rest of service.rs and the start-up of
      persistence-plugin/src/lib.rs; the invariant of the two tiers and the instance
      that discharges [BlockStore].
    - [ConcurrentWrites]: overlapping calls of [write_block] as a step relation;
      [ConcurrentStorage]: writers, readers and the archiver on the same tiers,
      interleaved at every access; [Linearizability]: what a read may return then, and
      the map of the committed calls.
    - [Recovery]: crashes, the rebuilding of the index table by [initialize], and the
      histories of the service: writes, archiver turns and restarts in any order.
    - [Pipeline]: verifier-plugin/src/lib.rs, the event loop of
      persistence-plugin/src/lib.rs and the channels between them.
    - [Publish]: publish-plugin/src: validation, election and session handlers.
    - [Ingest]: all sessions, the shared state and the pipeline as one transition
      system.
    - [Subscriber], [Access], [Backfill], [StatePlugin]: subscriber-plugin,
      block-access-plugin with server-status-plugin, backfill-plugin,
      state-management-plugin.
    - [LiveSession]: a subscriber session step by step, beside the writes and
      announcements of blocks.
    - [Peering]: a backfill worker whose peer is another node of this program;
      [BackfillLoop]: the outer loops of the worker and the shutdown notification.
    - [Metrics], [Accounting]: core/src/metrics.rs, the table of metrics and their
      registration, and the updates that the handlers of all plugins make.
    - [QueryTypes], [QueryHandlers], [QueryServices]: query-plugin/src: the messages
      it reads and builds with the [StateReader] trait of core/src/state_reader.rs,
      the handlers, and the gRPC services around them.
    - [QueryState]: the state manager as the [StateReader] of the query plugin; what
      blocks do to the value under one key.
    - [Plugins]: core/src/app_context.rs, plugin.rs and error.rs, and the life cycle
      (initialize, register_grpc_services, start, stop) of the ten plugins; the
      session table of subscriber-plugin/src/service.rs and the readiness answer of
      observability-plugin/src/lib.rs.
    - [Node]: app/rock-node/src/main.rs: assembly, boot, start-up report, shutdown,
      and the steps of the spawned tasks; [Startup]: the steps of [main] before, which
      load, check and print the configuration, and [main] as a whole ([launch]).
    - [NodeRun]: the invariants of those steps, and what the shutdown needs of a
      plugin as the class [LawfulPlugin].
    - [Fixtures]: a concrete node on the reference store and codec.
    - [UnitTests], [PluginTests], [CoreTests], [QueryTests]: the unit tests of the source files,
      transcribed and run on the model, one [bool] per test function.
    - [StorageTheorems], [IngestTheorems], [ServingTheorems], [QueryTheorems],
      [SystemTheorems], [NodeTheorems]: the theorems.

    ** How the code is rendered

    A handle to shared state (an [Arc] of the database, the cache, the shared state
    of the sessions) is a value passed in and returned.  [anyhow::Result] is
    [Result Error]; [?] is the bind of that monad.  A u64 or i64 is a [Z], and every
    plain [+] and [-] of the source that could leave the range is written with its
    wrap-around; [as] casts are [as_i64] and [as_u64].  A [WriteBatch] is the list of
    its operations.  The file system is a finite map; a computation on it is the
    list of its operations and a result, so that [io_run] can cut it before any
    operation, which stands for an I/O error and for a crash alike (bytes a
    [BufWriter] still holds reach the file at the [write_all] in the model, which
    only concerns temporary files).  The tasks of the node are interleaved at their
    awaits: [pipeline_run] and [ingest_run] are inductive step relations, and what a
    session read from the shared state before it acts is an argument of its own, so
    that races between look-up and update are covered.  Between two awaits a
    handler is one step, and so is a handler that only awaits the sending of
    responses.  In [ConcurrentWrites] a call of [write_block] looks at the database at six
    moments that may see different states: the gap look-up, the latest mark, the earliest
    mark, the contiguous mark, the gap table, and the first hot block; the fifth of them,
    the walk over the gap table or its update, is one look, although the source reads the
    table several times there.  In [ConcurrentStorage] the tests at the head of an archival
    turn, which read two marks and a batch, are one step.  [Node.shutdown] stops the
    plugins one after the other with no step of a task between two stops.  In [Ingest] a
    broadcast receiver may be told at any time that it lagged or that the channel closed;
    in [LiveSession] it lags exactly when more announcements are unread than the channel
    holds.

    Code outside the repository is a parameter with laws: [RocksDB] (reads see the
    last commit, batches are atomic, iterators follow the byte order), [Codec]
    (prost, bincode and zstd: decoders invert encoders) and [QueryCodec] (the protobuf
    messages of the queries: enum numbers differ, keys and values can be told apart by
    their encoding), [Prometheus] (a registry refuses a metric it has, or one with a
    bad description), [Format] (the config and toml crates as serde uses them: what is
    written is read back, integers up to [i64::MAX]) and [ConfigCrate] (the settings made
    of the file and the environment, and the log filter).  The visitors that serde_derive
    generates are not in the repository either; [visit_map], [visit_seq] and [struct_serde]
    of [ConfigFile] follow its documentation, and what is translated from config.rs are the
    field lists, their defaults and the names of the variants.  All have instances that satisfy the laws and compute, on which
    all witnesses run.  The message records of [QueryTypes] and [QueryHandlers] have
    the fields the handlers read and set; which strings are IPv6 socket addresses is
    an argument ([SocketAddrV6]).  A plugin behind [Box<dyn Plugin>] is a value with
    its instance of [Plugin]; the context that all plugins share is the [World], with
    the running flag of each plugin as a cell under its name.  Peers, clients, timers
    and the order of a directory listing are arguments, quantified over.

    ** What the theorems show

    Storage.  [durability]: whatever sequence of writes, archiver turns and restarts
    the service goes through, the archiver failing or the process stopping at any
    file-system operation, a read returns the last block written under the number, or
    nothing if there is none; [restart_recovers] adds that start-up succeeds after any
    such stop and keeps the marks.  [contiguous_mark_sound] and
    [missing_blocks_recorded] say what the metadata means (the contiguous mark counts from
    block 1 at the earliest, so block 0 is outside of it); [write_block_refines] ties
    one call to [spec_write], one batch and nothing else; [add_gap_range_union] and
    [fill_gap_block_removes], with the lemma [find_containing_gap_correct], give the gap
    table as a set of numbers.
    [archiving_invisible] proves that the archiver terminates and that readers do not
    notice it, [archive_roundtrip], [archive_crash_safe] and [batch_write_readable] treat
    the archive files (with [archive_name_roundtrip] as a lemma).
    [concurrent_reads_atomic] says that a read beside any number of writers and the
    archiver returns what the storage held at one moment between its beginning and its
    end, and so never misses a block that was stored when it began;
    [concurrent_storage_refines_map] concludes that, for calls that write new numbers, the
    storage is the map of the committed calls at every moment
    ([overlapping_writes_keep_blocks] is the part about writers alone;
    [rewrite_during_archival_lost] shows that the condition on the numbers is needed).

    Ingestion.  [election_exclusive] and [acknowledged_is_stored] hold in every
    interleaving of sessions, verifier, persistence, cleanup, timeouts and tasks that
    share the store ([keeps]: the archiver by [archiver_turn_keeps], and writers of blocks
    that are missing);
    [persisted_events_sound] and [pipeline_delivers] treat the pipeline,
    [block_assembled_from_sets] a session.  [winners_are_connected] and
    [one_outcome_per_block] are lemmas beside them.

    Serving.  [subscription_in_order] and [subscription_delivers] say that a subscriber
    gets the stored blocks of its range, whole and in order; [latest_block_served] what
    status and block access say about the latest block; [gap_check_completes] and
    [state_catch_up_replays] treat backfill and state.  The lemmas beside them are
    [subscription_accepted_iff], [block_access_by_number] and [state_block_applied].  The
    reference semantics [block_spec] of a block's state changes includes the queue pop as
    the code executes it, which can delete an entry of another state
    ([queue_pop_deletes_other_state]).  What only needs the traits is proved against
    [BlockStore] and so holds of the persistence service.

    Components together.  [acknowledged_block_served]: a block that a publisher was
    told is persisted is what block access returns, and what a subscriber to its number
    gets unless the number is outside the range for which the store accepts subscriptions
    ([early_block_refused_to_subscribers] shows that this happens).
    [live_session_refines] ties a session beside the writers to [execute_stream] on the
    stores of the run, so that the theorems on sessions apply; [announced_block_wakes] says
    when such a session cannot time out, and that it sends an announced block within a
    bounded number of its own steps.  [backfill_copies_node] and [continuous_catches_up]
    (which does not fill gaps below the latest block) are about two nodes of this program;
    the lemmas [stop_ends_wait] and [stop_lost_on_check] say which stop signals the gap-fill
    loop hears.  [metric_updates_fit] (no update of a handler panics on its labels) and
    [counters_add_up] treat the metrics, with the lemma [metrics_registered_once].

    Queries.  [account_query_answers_chain] composes block store, state manager and
    handler: an answer is the last change the chain makes to the account (and
    [other_changes_invisible], a lemma, says that entities do not interfere).
    [token_relationships_follow_chain] gives the loop over the token list as the list,
    [account_queries_agree] relates the queries that report the same account,
    [failed_reads_are_errors] treats errors, and the lemmas [reported_numbers_in_range] and
    [services_answer_their_kind] bounds and the types of the services.

    The node.  [config_roundtrip] says that a configuration is read back as it was written
    (the lemma [sections_decode] what each section of the file means);
    [bad_config_stops_start] and [node_starts_from_file] say which files stop the
    start-up and what runs after the others: services, running plugins and reader, with
    the conditions of [plugin_runs] (the lemma [node_boots] is the part after the file is
    read).  [shutdown_stops_all],
    [ready_means_readable] and [persistence_reads_fed_channel] hold in every state that
    the tasks of a booted node reach in any order.  The lemmas
    [verifier_race_ends_persistence] and [disabled_publish_aborts_boot] are failures of
    the start-up, [continuous_empty_node_stuck] one of the backfill.

    The unit tests of the source pass on the model; the lemmas that say so end in
    [_tests_pass].  The remaining lemmas about concrete runs record behaviour that falls short of what the code says
    it does.

    ** Assumptions and bounds

    The storage theorems assume a device without RocksDB errors ([db_ok]), blocks
    that fit in memory, have a number below 10^10 and compress to less than 4 GiB
    ([storable]; [long_block_numbers_lost] shows that the bound on the number is
    needed), an archive batch size between 1 and 2^32 ([zero_batch_size_diverges]
    shows why not 0) and, for what they say about the marks, one writer at a time
    ([overlapping_writes_lose_update] shows that the marks need it).  The ingestion theorems assume publishers that finish a block before they send the next
    header ([well_behaved]; see [midblock_header_misfiles]) and that the winner
    cleanup does not run while a block that far behind is in flight.  The theorems about
    the state and the queries assume that the state changes of the applied blocks carry
    the key, value and timestamp their operation needs ([stored_complete]); at a block that
    lacks one the code stops with an error.  The theorems about subscriber sessions assume
    that the stores they read are in working order ([working], [holds]); the writers of
    [LiveSession] write blocks the store can take.

    Loops that are not structural take fuel: [walk] gets the number of blocks up to
    the latest one, which [walk_ok] shows to be enough; [run_archival_cycle] is
    proved to end within one turn per hot block plus one; a retry loop of the gap
    check gets one turn more than the retry limit, and [gap_peer_loop_total] shows
    that it never runs out.  The continuous backfill loop has no bound in the source,
    so its fuel is a parameter and running out is a result.

    ** What is not modelled

    Logs and tracing, apart from the start-up report and the printed configuration;
    durations and averages in the metrics (only that they are observed) and the text
    format of the metrics endpoint; gRPC and HTTP transport; the parsers of the command
    line, of TOML text and of environment variables, which are library code; the wait for
    a signal of the operating system; the generated protobuf code.  Unit tests that only concern these, or the [Send], [Clone] and
    [Debug] implementations of a type, are not transcribed.  Batch writes are modelled ([tiers_write_block_batch]) but not part of the
    histories of [durability]: no plugin calls them.  A stop of the process keeps what
    it wrote to files and committed to RocksDB; the loss of unsynced directory entries
    in a power failure is not modelled.  The steps of [Node] leave the contents of the
    storage and of the sessions open, since [Recovery] and [Ingest] treat them.

    ** What could be added

    The sessions of [Ingest] and [LiveSession] in one transition system with
    [ConcurrentStorage], where they now meet in the contract of the store; batch writes
    in the histories of [durability]; the integration tests under src/tests, which drive
    a running process over gRPC. *)
From stdpp Require Export base tactics list gmap strings sorting.
From Stdlib Require Export ZArith Lia.
From Stdlib Require Import Strings.Byte.

#[export] Set Default Goal Selector "!".
Open Scope Z_scope.

(** ** Results

    Rust's [Result<A, E>].  [anyhow::Error] carries a message; the model keeps
    one constructor per place of the source that builds or forwards one. *)
Inductive Result (E A : Type) : Type :=
| Ok (a : A)
| Err (e : E).
Arguments Ok {E A} a.
Arguments Err {E A} e.

#[export] Instance Result_bind E : MBind (Result E) := λ A B f m,
  match m with Ok a => f a | Err e => Err e end.
#[export] Instance Result_ret E : MRet (Result E) := λ A a, Ok a.
#[export] Instance Result_fmap E : FMap (Result E) := λ A B f m,
  match m with Ok a => Ok (f a) | Err e => Err e end.

Definition is_ok {E A} (r : Result E A) : bool :=
  match r with Ok _ => true | Err _ => false end.

(** [Option::ok_or] / [ok_or_else] followed by [?]. *)
Definition ok_or {E A} (o : option A) (e : E) : Result E A :=
  match o with Some a => Ok a | None => Err e end.

(** [Result::ok]. *)
Definition ok_of {E A} (r : Result E A) : option A :=
  match r with Ok a => Some a | Err _ => None end.

Lemma bind_Ok {E A B} (m : Result E A) (f : A → Result E B) b :
  (m ≫= f) = Ok b ↔ ∃ a, m = Ok a ∧ f a = Ok b.
Proof. destruct m; simpl; naive_solver. Qed.

Lemma bind_Err {E A B} (m : Result E A) (f : A → Result E B) e :
  (m ≫= f) = Err e ↔ m = Err e ∨ ∃ a, m = Ok a ∧ f a = Err e.
Proof. destruct m; simpl; naive_solver. Qed.

Lemma ok_or_Ok {E A} (o : option A) (e : E) a : ok_or o e = Ok a ↔ o = Some a.
Proof. destruct o; simpl; naive_solver. Qed.

(** ** Machine integers

    A [u64] is a [Z] in [0, 2^64); plain [+] and [-] of the source wrap around
    (the release profile, which the workspace does not override). *)
Abbreviation u64_modulus := 18446744073709551616 (only parsing).
Abbreviation u64_MAX := 18446744073709551615 (only parsing).
Definition is_u64 (x : Z) : Prop := 0 ≤ x < u64_modulus.
Definition wrap64 (x : Z) : Z := x mod u64_modulus.
Definition u64_add (a b : Z) : Z := wrap64 (a + b).
Definition u64_sub (a b : Z) : Z := wrap64 (a - b).
Definition saturating_add (a b : Z) : Z := Z.min (a + b) u64_MAX.
Definition saturating_sub (a b : Z) : Z := Z.max (a - b) 0.

(** [x as i64] of a [u64] and [x as u64] of an [i64]. *)
Definition as_i64 (x : Z) : Z :=
  if x <? 9223372036854775808 then x else x - u64_modulus.
Definition is_i64 (x : Z) : Prop := -9223372036854775808 ≤ x < 9223372036854775808.
Definition as_u64 (x : Z) : Z := wrap64 x.

#[global] Arguments wrap64 : simpl never.
#[global] Arguments u64_add : simpl never.
#[global] Arguments u64_sub : simpl never.
#[global] Arguments saturating_add : simpl never.
#[global] Arguments saturating_sub : simpl never.
#[global] Arguments as_i64 : simpl never.
#[global] Arguments as_u64 : simpl never.

#[export] Instance is_u64_dec x : Decision (is_u64 x).
Proof. unfold is_u64. apply _. Defined.

Lemma wrap64_small x : is_u64 x → wrap64 x = x.
Proof. apply Z.mod_small. Qed.

Lemma wrap64_u64 x : is_u64 (wrap64 x).
Proof. apply Z.mod_pos_bound. lia. Qed.

Lemma u64_add_small a b : is_u64 (a + b) → u64_add a b = a + b.
Proof. apply wrap64_small. Qed.

Lemma u64_sub_small a b : is_u64 (a - b) → u64_sub a b = a - b.
Proof. apply wrap64_small. Qed.

Lemma as_u64_as_i64 x : is_u64 x → as_u64 (as_i64 x) = x.
Proof.
  unfold is_u64, as_u64, as_i64, wrap64. intros H.
  destruct (Z.ltb_spec x 9223372036854775808).
  - by apply Z.mod_small.
  - rewrite <-(Z.mod_small x u64_modulus) at 2 by lia.
    rewrite <-(Z.mod_add (x - u64_modulus) 1 u64_modulus) by lia. f_equal; lia.
Qed.

Lemma as_i64_small x : 0 ≤ x < 9223372036854775808 → as_i64 x = x.
Proof. unfold as_i64. intros H. destruct (Z.ltb_spec x 9223372036854775808); lia. Qed.

Lemma as_u64_small x : is_u64 x → as_u64 x = x.
Proof. apply wrap64_small. Qed.

(** Unfolds the fixed-width operations and closes linear goals. *)
Ltac u64_lia :=
  unfold saturating_add, saturating_sub, is_u64, is_i64 in *; lia.

(** Reflects the boolean comparisons of the code into hypotheses. *)
Ltac bool_cases :=
  repeat match goal with
  | |- context [?a <? ?b] => destruct (Z.ltb_spec a b)
  | |- context [?a <=? ?b] => destruct (Z.leb_spec a b)
  | |- context [?a =? ?b] => destruct (Z.eqb_spec a b)
  | H : context [?a <? ?b] |- _ => destruct (Z.ltb_spec a b)
  | H : context [?a <=? ?b] |- _ => destruct (Z.leb_spec a b)
  | H : context [?a =? ?b] |- _ => destruct (Z.eqb_spec a b)
  end.

(** Splits a chain of [?]s that is known to return [Ok]. *)
Ltac ok_inv :=
  repeat match goal with
  | H : (_ ≫= _) = Ok _ |- _ => apply bind_Ok in H as (? & ? & H)
  | H : ok_or _ _ = Ok _ |- _ => apply ok_or_Ok in H
  | H : Ok _ = Ok _ |- _ => apply (inj Ok) in H
  | H : Err _ = Ok _ |- _ => discriminate H
  | H : mret _ = Ok _ |- _ => apply (inj Ok) in H
  end.

#[export] Instance Ok_inj E A : Inj (=) (=) (@Ok E A).
Proof. by intros ?? [= ->]. Qed.
#[export] Instance Err_inj E A : Inj (=) (=) (@Err E A).
Proof. by intros ?? [= ->]. Qed.

(** ** Bytes and big-endian integers *)
Abbreviation bytes := (list byte).

#[export] Instance byte_eq_dec : EqDecision byte := Byte.byte_eq_dec.
#[export] Instance byte_countable : Countable byte.
Proof.
  refine (inj_countable Byte.to_nat (λ n, Byte.of_nat n) _).
  intros b. apply Byte.of_to_nat.
Defined.

Definition byte_to_Z (b : byte) : Z := Z.of_N (Byte.to_N b).
Definition Z_to_byte (z : Z) : byte :=
  default x00 (Byte.of_N (Z.to_N (z mod 256))).

Lemma byte_to_Z_range b : 0 ≤ byte_to_Z b < 256.
Proof. unfold byte_to_Z. pose proof (Byte.to_N_bounded b). lia. Qed.

Lemma byte_to_Z_to_byte b : Z_to_byte (byte_to_Z b) = b.
Proof.
  unfold Z_to_byte. pose proof (byte_to_Z_range b).
  rewrite Z.mod_small by done. unfold byte_to_Z.
  by rewrite N2Z.id, Byte.of_to_N.
Qed.

Lemma Z_to_byte_to_Z z : byte_to_Z (Z_to_byte z) = z mod 256.
Proof.
  unfold Z_to_byte, byte_to_Z. pose proof (Z.mod_pos_bound z 256 ltac:(lia)).
  destruct (Byte.of_N (Z.to_N (z mod 256))) as [b|] eqn:E; simpl.
  - apply Byte.to_of_N in E. rewrite E. lia.
  - apply Byte.of_N_None_iff in E. lia.
Qed.

(** [to_be_bytes] of an [n]-byte unsigned integer. *)
Fixpoint be_bytes (n : nat) (z : Z) : bytes :=
  match n with
  | O => []
  | S n => Z_to_byte (z / 256 ^ Z.of_nat n) :: be_bytes n z
  end.

(** [from_be_bytes]. *)
Definition be_value (l : bytes) : Z :=
  foldl (λ acc b, acc * 256 + byte_to_Z b) 0 l.

Lemma length_be_bytes n z : length (be_bytes n z) = n.
Proof. induction n; simpl; congruence. Qed.

Lemma be_value_acc l acc :
  foldl (λ acc b, acc * 256 + byte_to_Z b) acc l
  = acc * 256 ^ Z.of_nat (length l) + be_value l.
Proof.
  revert acc. induction l as [|b l IH]; intros acc; unfold be_value; cbn [foldl length].
  - rewrite Z.pow_0_r. lia.
  - rewrite (IH (acc * 256 + byte_to_Z b)), (IH (0 * 256 + byte_to_Z b)).
    rewrite Nat2Z.inj_succ, Z.pow_succ_r by lia. lia.
Qed.

Lemma be_value_cons b l :
  be_value (b :: l) = byte_to_Z b * 256 ^ Z.of_nat (length l) + be_value l.
Proof. unfold be_value at 1. cbn [foldl]. by rewrite be_value_acc. Qed.

Lemma be_value_range l : 0 ≤ be_value l < 256 ^ Z.of_nat (length l).
Proof.
  induction l as [|b l IH]; [unfold be_value; simpl; lia|].
  rewrite be_value_cons. cbn [length]. rewrite Nat2Z.inj_succ, Z.pow_succ_r by lia.
  pose proof (byte_to_Z_range b). nia.
Qed.

Lemma be_value_be_bytes n z : be_value (be_bytes n z) = z mod 256 ^ Z.of_nat n.
Proof.
  induction n as [|n IH]; [by rewrite Z.pow_0_r, Z.mod_1_r|].
  cbn [be_bytes]. rewrite be_value_cons, length_be_bytes, IH, Z_to_byte_to_Z.
  rewrite Nat2Z.inj_succ, Z.pow_succ_r, (Z.mul_comm 256) by lia.
  rewrite Z.rem_mul_r by (try apply Z.pow_nonzero; lia). lia.
Qed.

Lemma be_bytes_be_value l : be_bytes (length l) (be_value l) = l.
Proof.
  assert (∀ n z k, be_bytes n (k * 256 ^ Z.of_nat n + z) = be_bytes n z) as Hshift.
  { induction n as [|n IH]; intros z k; [done|]. cbn [be_bytes].
    rewrite Nat2Z.inj_succ, Z.pow_succ_r by lia.
    replace (k * (256 * 256 ^ Z.of_nat n) + z)
      with ((k * 256) * 256 ^ Z.of_nat n + z) by lia.
    f_equal; [|apply IH]. pose proof (Z.pow_pos_nonneg 256 (Z.of_nat n)).
    rewrite Z.div_add_l by lia. unfold Z_to_byte.
    by rewrite Z.add_comm, Z.mod_add by lia. }
  induction l as [|b l IH]; [done|].
  cbn [length be_bytes]. rewrite be_value_cons, Hshift, IH. f_equal.
  pose proof (be_value_range l).
  rewrite Z.div_add_l, Z.div_small, Z.add_0_r by lia. apply byte_to_Z_to_byte.
Qed.

(** [u64::to_be_bytes], and [try_into::<[u8; 8]>] followed by
    [u64::from_be_bytes]: [None] when the slice is not eight bytes long. *)
Definition u64_to_be (n : Z) : bytes := be_bytes 8 n.
Definition u64_from_be (l : bytes) : option Z :=
  if decide (length l = 8%nat) then Some (be_value l) else None.

#[global] Arguments u64_to_be : simpl never.
#[global] Arguments u64_from_be : simpl never.

Lemma u64_from_to_be n : is_u64 n → u64_from_be (u64_to_be n) = Some n.
Proof.
  intros Hn. unfold u64_from_be, u64_to_be. rewrite length_be_bytes.
  rewrite decide_True, be_value_be_bytes by done.
  f_equal. by apply Z.mod_small.
Qed.

Lemma u64_from_be_Some l n :
  u64_from_be l = Some n ↔ l = u64_to_be n ∧ is_u64 n.
Proof.
  split.
  - unfold u64_from_be. case_decide as Hl; [|done]. intros [= <-].
    pose proof (be_value_range l) as Hr. rewrite Hl in Hr. split; [|exact Hr].
    unfold u64_to_be. by rewrite <-Hl, be_bytes_be_value.
  - intros [-> Hn]. by apply u64_from_to_be.
Qed.

Lemma u64_to_be_inj a b : is_u64 a → is_u64 b → u64_to_be a = u64_to_be b → a = b.
Proof.
  intros Ha Hb E. apply (f_equal u64_from_be) in E.
  rewrite !u64_from_to_be in E by done. by injection E.
Qed.

(** RocksDB's default comparator: bytewise lexicographic. *)
Fixpoint bytes_ltb (a b : bytes) : bool :=
  match a, b with
  | _, [] => false
  | [], _ :: _ => true
  | x :: a, y :: b =>
      (byte_to_Z x <? byte_to_Z y)
      || ((byte_to_Z x =? byte_to_Z y) && bytes_ltb a b)
  end.
Definition bytes_lt (a b : bytes) : Prop := bytes_ltb a b = true.
Definition bytes_le (a b : bytes) : Prop := bytes_ltb b a = false.

Lemma bytes_ltb_be a b :
  length a = length b → bytes_ltb a b = (be_value a <? be_value b).
Proof.
  revert b. induction a as [|x a IH]; intros [|y b] Hl; try done.
  injection Hl as Hl. cbn [bytes_ltb]. rewrite (IH b Hl), !be_value_cons, <-Hl.
  pose proof (be_value_range a) as Ha. pose proof (be_value_range b) as Hb.
  rewrite <-Hl in Hb. set (p := 256 ^ Z.of_nat (length a)) in *.
  apply eq_true_iff_eq.
  rewrite orb_true_iff, andb_true_iff, !Z.ltb_lt, Z.eqb_eq. nia.
Qed.

Lemma u64_to_be_ltb a b :
  is_u64 a → is_u64 b → bytes_ltb (u64_to_be a) (u64_to_be b) = (a <? b).
Proof.
  intros Ha Hb. rewrite bytes_ltb_be by (unfold u64_to_be; by rewrite !length_be_bytes).
  unfold u64_to_be. rewrite !be_value_be_bytes.
  by rewrite !(Z.mod_small _ (256 ^ Z.of_nat 8)).
Qed.

Lemma bytes_ltb_irrefl a : bytes_ltb a a = false.
Proof.
  induction a as [|x a IH]; [done|]. cbn. rewrite IH, Z.ltb_irrefl, Z.eqb_refl. done.
Qed.

Lemma byte_to_Z_inj x y : byte_to_Z x = byte_to_Z y → x = y.
Proof. intros E. by rewrite <-(byte_to_Z_to_byte x), E, byte_to_Z_to_byte. Qed.

Lemma bytes_ltb_total a b : bytes_ltb a b = false → bytes_ltb b a = false → a = b.
Proof.
  revert b. induction a as [|x a IH]; intros [|y b]; try done. cbn.
  intros H1 H2. apply orb_false_iff in H1 as [H1 H1'], H2 as [H2 H2'].
  apply Z.ltb_ge in H1, H2. assert (byte_to_Z x = byte_to_Z y) as E by lia.
  rewrite E, Z.eqb_refl in H1', H2'. cbn in *.
  f_equal; [by apply byte_to_Z_inj|by apply IH].
Qed.

Lemma bytes_lt_trans a b c : bytes_lt a b → bytes_lt b c → bytes_lt a c.
Proof.
  unfold bytes_lt. revert b c. induction a as [|x a IH]; intros [|y b] [|z c]; try done.
  cbn. rewrite !orb_true_iff, !andb_true_iff, !Z.ltb_lt, !Z.eqb_eq.
  intros [?|[??]] [?|[??]]; [left; lia|left; lia|left; lia|right].
  split; [lia|by eapply IH].
Qed.

#[export] Instance bytes_le_dec : RelDecision bytes_le.
Proof. unfold bytes_le. intros a b. apply _. Defined.
#[export] Instance bytes_le_trans : Transitive bytes_le.
Proof.
  intros a b c H1 H2. unfold bytes_le in *.
  destruct (bytes_ltb c a) eqn:E; [|done].
  destruct (bytes_ltb b a) eqn:E1; [done|]. destruct (bytes_ltb a b) eqn:E2.
  - pose proof (bytes_lt_trans c a b E E2) as E3. unfold bytes_lt in E3. congruence.
  - rewrite (bytes_ltb_total b a E1 E2) in H2. congruence.
Qed.
#[export] Instance bytes_le_total : Total bytes_le.
Proof.
  intros a b. unfold bytes_le. destruct (bytes_ltb b a) eqn:E; [right|by left].
  destruct (bytes_ltb a b) eqn:E'; [|done].
  pose proof (bytes_lt_trans a b a E' E) as E3. unfold bytes_lt in E3.
  by rewrite bytes_ltb_irrefl in E3.
Qed.

Lemma bytes_le_ne_lt a b : bytes_le a b → a ≠ b → bytes_lt a b.
Proof.
  unfold bytes_le, bytes_lt. intros H1 H2. destruct (bytes_ltb a b) eqn:E; [done|].
  by destruct H2; apply bytes_ltb_total.
Qed.

Lemma u64_to_be_le a b :
  is_u64 a → is_u64 b → bytes_le (u64_to_be a) (u64_to_be b) ↔ a ≤ b.
Proof. intros Ha Hb. unfold bytes_le. by rewrite u64_to_be_ltb, Z.ltb_ge. Qed.

Lemma u64_to_be_lt a b :
  is_u64 a → is_u64 b → bytes_lt (u64_to_be a) (u64_to_be b) ↔ a < b.
Proof. intros Ha Hb. unfold bytes_lt. by rewrite u64_to_be_ltb, Z.ltb_lt. Qed.

(** ** Rust ranges [a..b] and [a..=b] of [u64]s *)
Definition range (a b : Z) : list Z := seqZ a (b - a).

Lemma elem_of_range a b n : n ∈ range a b ↔ a ≤ n < b.
Proof. unfold range. rewrite elem_of_seqZ. lia. Qed.

Lemma range_cons a b : a < b → range a b = a :: range (a + 1) b.
Proof.
  intros H. unfold range. rewrite seqZ_cons by lia.
  do 2 f_equal; lia.
Qed.

Lemma range_nil a b : b ≤ a → range a b = [].
Proof. intros H. unfold range. apply seqZ_nil. lia. Qed.

Lemma seqZ_step i k : seqZ i (Z.of_nat (S k)) = i :: seqZ (i + 1) (Z.of_nat k).
Proof. rewrite seqZ_cons by lia. do 2 f_equal; lia. Qed.

(** ** Errors

    [anyhow::Error] as the persistence, backfill and state crates build it.
    [EPanic] is a panic of the task, [EDiverge] marks a loop of the source that
    does not terminate (the theorems show when it cannot occur). *)
Inductive Error :=
| ERocksDB
| ECfMissing (cf : string)
| EInvalidLength
| EDecode
| EEncode
| EBincode
| EZstd
| EIo
| EMissingBlock (n : Z)
| EMalformedBlock
| EEmptyArchive
| EBadIndexName (file : string)
| ENoDataFile (file : string)
| EPanic
| EDiverge
| EOther (msg : string).

#[export] Instance Error_eq_dec : EqDecision Error.
Proof. solve_decision. Defined.
