(* ===== verification/Database.v ===== *)
(** RocksDB as the node uses it: the interface (a parameter of the whole
    development), the documented behaviour the code relies on as a class of
    laws, and a reference store that satisfies the laws and runs.  Also the
    column-family names and [DatabaseManager::new] of
    crates/rock-node-core/src/database.rs. *)
From S2P Require Import Prelude.

(** ** Column families and metadata keys (database.rs) *)
Definition CF_METADATA : string := "metadata".
Definition CF_HOT_BLOCKS : string := "hot_blocks".
Definition CF_STATE_DATA : string := "state_data".
Definition CF_GAPS : string := "gaps".
Definition CF_SKIPPED_BATCHES : string := "skipped_batches".

(** A byte-string literal [b"..."]. *)
Definition bytes_of_string (s : string) : bytes := String.list_byte_of_string s.

#[global] Arguments bytes_of_string : simpl never.

Definition STATE_LAST_PROCESSED_BLOCK : bytes :=
  bytes_of_string "state_last_processed_block".

(** ** The interface *)

(** A [WriteBatch] is the sequence of its operations, oldest first. *)
Inductive BatchOp :=
| BPut (cf : string) (k v : bytes)
| BDelete (cf : string) (k : bytes).
Abbreviation WriteBatch := (list BatchOp).

Inductive Direction := Forward | Reverse.
Inductive IteratorMode := IterStart | IterFrom (k : bytes) (d : Direction).

(** [entries] and [healthy] are ghost: what a column family holds, and that the
    device reports no I/O error.  The code never calls them. *)
Class RocksDB := {
  DB : Type;
  cf_handle : DB → string → bool;
  get_cf : DB → string → bytes → Result Error (option bytes);
  iterator_cf : DB → string → IteratorMode → list (Result Error (bytes * bytes));
  put_cf : DB → string → bytes → bytes → Result Error DB;
  write : DB → WriteBatch → Result Error DB;
  open_cf_descriptors : list string → Result Error DB;
  entries : DB → string → gmap bytes bytes;
  healthy : DB → Prop;
}.

(** What one operation, and a batch, does to the contents of a column family. *)
Definition apply_op (cf : string) (m : gmap bytes bytes) (op : BatchOp)
    : gmap bytes bytes :=
  match op with
  | BPut cf' k v => if decide (cf' = cf) then <[k:=v]> m else m
  | BDelete cf' k => if decide (cf' = cf) then delete k m else m
  end.
Definition apply_batch (cf : string) (m : gmap bytes bytes) (b : WriteBatch)
    : gmap bytes bytes := foldl (apply_op cf) m b.

(** The pairs an iterator mode ranges over, and the order it yields them in. *)
Definition mode_bound (mode : IteratorMode) (k : bytes) : Prop :=
  match mode with
  | IterStart => True
  | IterFrom k0 Forward => bytes_le k0 k
  | IterFrom k0 Reverse => bytes_le k k0
  end.
Definition mode_order (mode : IteratorMode) (k1 k2 : bytes) : Prop :=
  match mode with
  | IterFrom _ Reverse => bytes_lt k2 k1
  | _ => bytes_lt k1 k2
  end.

(** The list an iterator yields on a device without errors. *)
Definition iterates (m : gmap bytes bytes) (mode : IteratorMode)
    (l : list (bytes * bytes)) : Prop :=
  StronglySorted (mode_order mode) l.*1 ∧
  ∀ k v, (k, v) ∈ l ↔ m !! k = Some v ∧ mode_bound mode k.

(** RocksDB's documented behaviour: reads see the last committed batch, a batch
    is atomic and applied in order, iterators follow the comparator. *)
Class RocksDBLaws `{RocksDB} : Prop := {
  get_cf_sound : ∀ db cf k v, get_cf db cf k = Ok v → v = entries db cf !! k;
  get_cf_healthy : ∀ db cf k, healthy db → get_cf db cf k = Ok (entries db cf !! k);
  iterator_healthy : ∀ db cf mode, healthy db →
    ∃ l, iterator_cf db cf mode = Ok <$> l ∧ iterates (entries db cf) mode l;
  write_sound : ∀ db b db', write db b = Ok db' →
    cf_handle db' = cf_handle db ∧
    ∀ cf, entries db' cf = apply_batch cf (entries db cf) b;
  write_healthy : ∀ db b, healthy db → ∃ db', write db b = Ok db' ∧ healthy db';
  put_cf_is_write : ∀ db cf k v, put_cf db cf k v = write db [BPut cf k v];
  open_sound : ∀ cfs db, open_cf_descriptors cfs = Ok db →
    ∀ cf, cf ∈ cfs → cf_handle db cf = true;
}.

(** [DatabaseManager::new]: the descriptor list it opens the store with. *)
Definition cf_descriptors : list string :=
  ["default"; CF_METADATA; CF_HOT_BLOCKS; CF_STATE_DATA; CF_GAPS;
   CF_SKIPPED_BATCHES].

Section database.
Context {RDB : RocksDB}.

Definition DatabaseManager_new : Result Error DB :=
  open_cf_descriptors cf_descriptors.

(** [db.cf_handle(cf).ok_or_else(|| anyhow!(...))?] *)
Definition need_cf (db : DB) (cf : string) : Result Error unit :=
  if cf_handle db cf then Ok tt else Err (ECfMissing cf).

(** The store the node runs on: every column family is open. *)
Definition db_open (db : DB) : Prop := ∀ cf, cf ∈ cf_descriptors → cf_handle db cf = true.

(** A store with all families open and a device without errors. *)
Definition db_ok (db : DB) : Prop := db_open db ∧ healthy db.

Context {LAWS : RocksDBLaws}.

Lemma need_cf_open db cf : db_open db → cf ∈ cf_descriptors → need_cf db cf = Ok tt.
Proof. intros H Hcf. unfold need_cf. by rewrite H. Qed.

Lemma DatabaseManager_new_open db : DatabaseManager_new = Ok db → db_open db.
Proof. intros H. unfold db_open. by apply open_sound. Qed.

Lemma write_open db b db' : write db b = Ok db' → db_open db → db_open db'.
Proof. intros [E _]%write_sound H cf Hcf. rewrite E. by apply H. Qed.

Lemma write_db_ok db b : db_ok db → ∃ db', write db b = Ok db' ∧ db_ok db' ∧
  ∀ cf, entries db' cf = apply_batch cf (entries db cf) b.
Proof.
  intros [Ho Hh]. destruct (write_healthy db b Hh) as (db' & E & Hh').
  exists db'. split_and!; [done|by split; [eapply write_open|]|by apply write_sound].
Qed.

Lemma iterator_head db cf mode : healthy db →
  match head (iterator_cf db cf mode) with
  | Some (Ok (k, v)) => entries db cf !! k = Some v ∧ mode_bound mode k ∧
      ∀ k' v', entries db cf !! k' = Some v' → mode_bound mode k' →
        k' = k ∨ mode_order mode k k'
  | Some (Err _) => False
  | None => ∀ k' v', entries db cf !! k' = Some v' → ¬ mode_bound mode k'
  end.
Proof.
  intros H. destruct (iterator_healthy db cf mode H) as (l & -> & Hs & Hl).
  destruct l as [|[k v] l]; simpl.
  - intros k' v' ??. destruct (not_elem_of_nil (k', v')). by apply Hl.
  - destruct (proj1 (Hl k v)) as [??]; [by left|]. split_and!; [done..|].
    intros k' v' ??. apply StronglySorted_inv in Hs as [_ Hs].
    assert ((k', v') ∈ (k, v) :: l) as [[= -> ->]|Hin]%elem_of_cons by (by apply Hl).
    + by left.
    + right. rewrite Forall_forall in Hs. apply Hs.
      apply list_elem_of_fmap. by exists (k', v').
Qed.
End database.

Lemma apply_batch_app cf m b1 b2 :
  apply_batch cf m (b1 ++ b2) = apply_batch cf (apply_batch cf m b1) b2.
Proof. apply foldl_app. Qed.

(** Operations on other column families leave a family alone. *)
Definition op_cf (op : BatchOp) : string :=
  match op with BPut cf _ _ => cf | BDelete cf _ => cf end.

Lemma apply_batch_nil cf m : apply_batch cf m [] = m.
Proof. done. Qed.

Lemma apply_batch_cons cf m op b :
  apply_batch cf m (op :: b) = apply_batch cf (apply_op cf m op) b.
Proof. done. Qed.

Lemma apply_op_put cf m k v : apply_op cf m (BPut cf k v) = <[k:=v]> m.
Proof. unfold apply_op. by rewrite decide_True. Qed.

Lemma apply_op_delete cf m k : apply_op cf m (BDelete cf k) = delete k m.
Proof. unfold apply_op. by rewrite decide_True. Qed.

Lemma apply_op_put_ne cf cf' m k v : cf' ≠ cf → apply_op cf m (BPut cf' k v) = m.
Proof. intros H. unfold apply_op. by rewrite decide_False. Qed.

Lemma apply_op_delete_ne cf cf' m k : cf' ≠ cf → apply_op cf m (BDelete cf' k) = m.
Proof. intros H. unfold apply_op. by rewrite decide_False. Qed.

Lemma apply_batch_other cf m b :
  Forall (λ op, op_cf op ≠ cf) b → apply_batch cf m b = m.
Proof.
  intros H. revert m. induction H as [|op b Hop _ IH]; intros m; [done|].
  change (apply_batch cf (apply_op cf m op) b = m). rewrite IH.
  destruct op; cbn in *; by rewrite decide_False.
Qed.

#[global] Arguments apply_batch : simpl never.
#[global] Arguments apply_op : simpl never.

(** Computes what a concrete batch does to one column family. *)
Create HintDb batch.
#[export] Hint Rewrite apply_batch_nil apply_batch_cons apply_batch_app
  apply_op_put apply_op_delete : batch.
#[export] Hint Rewrite apply_op_put_ne apply_op_delete_ne using done : batch.
Ltac batch_simpl := autorewrite with batch.

(** ** The reference store

    Column families as finite maps plus the state of the device; an iterator
    sorts what it ranges over.  It satisfies the laws, so the hypotheses of the
    development are consistent, and it runs, so the witnesses compute. *)
Module RefStore.
Record store := Store {
  st_handles : list string;
  st_cfs : gmap string (gmap bytes bytes);
  st_io_ok : bool;
}.

Definition cf_contents (m : gmap string (gmap bytes bytes)) (cf : string)
    : gmap bytes bytes := default ∅ (m !! cf).

Definition kv_le (p q : bytes * bytes) : Prop := bytes_le p.1 q.1.
#[export] Instance kv_le_dec : RelDecision kv_le.
Proof. intros p q. unfold kv_le. apply _. Defined.
#[export] Instance kv_le_trans : Transitive kv_le.
Proof. intros p q r. unfold kv_le. apply bytes_le_trans. Qed.
#[export] Instance kv_le_total : Total kv_le.
Proof. intros p q. apply bytes_le_total. Qed.

Definition mode_boundb (mode : IteratorMode) (k : bytes) : bool :=
  match mode with
  | IterStart => true
  | IterFrom k0 Forward => negb (bytes_ltb k k0)
  | IterFrom k0 Reverse => negb (bytes_ltb k0 k)
  end.

Definition listing (m : gmap bytes bytes) (mode : IteratorMode)
    : list (bytes * bytes) :=
  let l := merge_sort kv_le
             (filter (λ p, mode_boundb mode p.1 = true) (map_to_list m)) in
  match mode with IterFrom _ Reverse => reverse l | _ => l end.

Definition apply_to_cfs (m : gmap string (gmap bytes bytes)) (op : BatchOp) :=
  <[op_cf op := apply_op (op_cf op) (cf_contents m (op_cf op)) op]> m.

Definition commit (s : store) (b : WriteBatch) : Result Error store :=
  if st_io_ok s then
    Ok {| st_handles := st_handles s;
          st_cfs := foldl apply_to_cfs (st_cfs s) b;
          st_io_ok := st_io_ok s |}
  else Err ERocksDB.

Definition read {A} (s : store) (a : A) : Result Error A :=
  if st_io_ok s then Ok a else Err ERocksDB.

#[export] Instance ref_rocksdb : RocksDB := {|
  DB := store;
  cf_handle s cf := bool_decide (cf ∈ st_handles s);
  get_cf s cf k := read s (cf_contents (st_cfs s) cf !! k);
  iterator_cf s cf mode :=
    if st_io_ok s then Ok <$> listing (cf_contents (st_cfs s) cf) mode
    else [Err ERocksDB];
  put_cf s cf k v := commit s [BPut cf k v];
  write := commit;
  open_cf_descriptors cfs :=
    Ok {| st_handles := cfs; st_cfs := ∅; st_io_ok := true |};
  entries s cf := cf_contents (st_cfs s) cf;
  healthy s := st_io_ok s = true;
|}.

Lemma mode_boundb_spec mode k : mode_boundb mode k = true ↔ mode_bound mode k.
Proof.
  destruct mode as [|k0 []]; simpl; unfold bytes_le; rewrite ?negb_true_iff; done.
Qed.

Lemma contents_apply m op cf :
  cf_contents (apply_to_cfs m op) cf = apply_op cf (cf_contents m cf) op.
Proof.
  unfold apply_to_cfs, cf_contents at 1. destruct (decide (op_cf op = cf)) as [<-|Hne].
  - by rewrite lookup_insert_eq.
  - rewrite lookup_insert_ne by done.
    destruct op; simpl in *; by batch_simpl.
Qed.

Lemma contents_commit b m cf :
  cf_contents (foldl apply_to_cfs m b) cf = apply_batch cf (cf_contents m cf) b.
Proof.
  revert m. induction b as [|op b IH]; intros m; [done|].
  cbn [foldl]. rewrite IH, contents_apply. done.
Qed.

Lemma sorted_strict (l : list (bytes * bytes)) :
  NoDup l.*1 → StronglySorted kv_le l → StronglySorted bytes_lt l.*1.
Proof.
  induction l as [|p l IH]; cbn; [constructor|].
  intros [Hp Hd]%NoDup_cons [Hs Hall]%StronglySorted_inv.
  constructor; [by apply IH|]. apply Forall_fmap.
  apply Forall_forall. intros q Hq. rewrite Forall_forall in Hall.
  apply bytes_le_ne_lt; [by apply Hall|]. intros E. apply Hp.
  apply list_elem_of_fmap. by exists q.
Qed.

Lemma sorted_reverse {A} (R : relation A) (l : list A) :
  StronglySorted R l → StronglySorted (flip R) (reverse l).
Proof.
  induction 1 as [|x l Hs IH Hall]; [constructor|].
  rewrite reverse_cons. clear Hs.
  assert (Forall (λ y, flip R y x) (reverse l)) as Hr by by apply Forall_reverse.
  revert Hr IH. generalize (reverse l). intros r. induction r as [|y r IHr]; cbn.
  - intros _ _. repeat constructor.
  - intros [Hy Hr]%Forall_cons [Hs Hy']%StronglySorted_inv. constructor; [by apply IHr|].
    apply Forall_app. split; [done|]. by repeat constructor.
Qed.

Lemma iterates_listing m mode : iterates m mode (listing m mode).
Proof.
  set (f := filter (λ p : bytes * bytes, mode_boundb mode p.1 = true) (map_to_list m)).
  assert (merge_sort kv_le f ≡ₚ f) as Hp by apply merge_sort_Permutation.
  assert (StronglySorted bytes_lt (merge_sort kv_le f).*1) as Hs.
  { apply sorted_strict; [|apply (StronglySorted_merge_sort _)].
    rewrite Hp. unfold f. apply (sublist_NoDup _ (map_to_list m).*1).
    - apply NoDup_fst_map_to_list.
    - apply fmap_sublist, sublist_filter. }
  assert (∀ k v, (k, v) ∈ merge_sort kv_le f ↔ m !! k = Some v ∧ mode_bound mode k)
    as Hin.
  { intros k v. rewrite Hp. unfold f.
    rewrite list_elem_of_filter, elem_of_map_to_list. cbn.
    rewrite mode_boundb_spec. naive_solver. }
  unfold iterates, listing. fold f.
  destruct mode as [|k0 []]; [by split|by split|]. split.
  - rewrite fmap_reverse. by apply sorted_reverse in Hs.
  - intros k v. by rewrite elem_of_reverse.
Qed.

#[export] Instance ref_laws : RocksDBLaws.
Proof.
  constructor; cbn.
  - intros s cf k v. unfold read. by destruct (st_io_ok s); intros; simplify_eq.
  - intros s cf k H. unfold read. by rewrite H.
  - intros s cf mode H. rewrite H. eexists. split; [done|apply iterates_listing].
  - intros s b s'. unfold commit. destruct (st_io_ok s); [|done].
    intros [= <-]. split; [done|]. intros cf. apply contents_commit.
  - intros s b H. unfold commit. rewrite H. by eexists.
  - done.
  - intros cfs s [= <-] cf Hcf. by apply bool_decide_eq_true_2.
Qed.

(** The store [DatabaseManager::new] opens on an empty directory. *)
Definition fresh : store :=
  {| st_handles := cf_descriptors; st_cfs := ∅; st_io_ok := true |}.

Lemma fresh_new : DatabaseManager_new = Ok fresh.
Proof. done. Qed.

Lemma fresh_ok : db_ok fresh.
Proof. split; [by apply DatabaseManager_new_open|done]. Qed.
End RefStore.
