(* ===== verification/Block.v ===== *)
(** Blocks as the node handles them, the wire formats it calls (prost, bincode,
    zstd: parameters with their round-trip laws) and a reference codec.

    The protobuf messages are generated from a submodule; a message keeps the
    fields the code looks at and an opaque [pb] for the rest. *)
From S2P Require Import Prelude.
From Stdlib Require Import Strings.Byte.

(** An embedded protobuf message the code only encodes or forwards. *)
Record pb := Pb { pb_type : string; pb_body : bytes }.

#[export] Instance pb_eq_dec : EqDecision pb.
Proof. solve_decision. Defined.
#[export] Instance pb_countable : Countable pb.
Proof.
  refine (inj_countable' (λ m, (pb_type m, pb_body m)) (λ p, Pb p.1 p.2) _).
  by intros [].
Defined.

Record BlockHeader := Header { header_number : Z; header_rest : pb }.
Record BlockProof := Proof_ { proof_block : Z; proof_rest : pb }.

(** [singleton_update_change::NewValue]: the variants state_manager.rs stores,
    and the ones it does not know. *)
Inductive NewValueKind :=
| PlatformStateValue | NodeRewardsValue | BlockStreamInfoValue
| HintsConstructionValue | EntityCountsValue | CrsStateValue | EntityNumberValue
| NetworkStakingRewardsValue | ThrottleUsageSnapshotsValue
| CongestionLevelStartsValue | RunningHashesValue | BlockInfoValue
| ExchangeRateSetValue | BytesValue | TimestampValue | RosterStateValue
| OtherNewValue.

(** [queue_push_change::Value]. *)
Inductive QueueValueKind := TransactionReceiptEntriesElement | OtherQueueValue.

(** [state_change::ChangeOperation]. *)
Inductive ChangeOperation :=
| MapUpdate (key value : option pb)
| MapDelete (key : option pb)
| SingletonUpdate (new_value : option (NewValueKind * pb))
| QueuePush (value : option (QueueValueKind * pb))
| QueuePop
| OtherChange (op : pb).

Record StateChange := MkStateChange {
  state_id : Z;
  change_operation : option ChangeOperation;
}.

Record StateChanges := MkStateChanges {
  consensus_timestamp : option pb;
  state_changes : list StateChange;
}.

(** [block_item::Item]. *)
Inductive Item :=
| IBlockHeader (h : BlockHeader)
| IBlockProof (p : BlockProof)
| IStateChanges (s : StateChanges)
| IOther (m : pb).

(** [BlockItem] is its [item] field: a oneof may be absent. *)
Abbreviation BlockItem := (option Item).

Record Block := MkBlock { items : list BlockItem }.

(** Decidable equality and countability, for [decide] and the reference codec. *)
#[export] Instance NewValueKind_eq_dec : EqDecision NewValueKind.
Proof. solve_decision. Defined.
#[export] Instance QueueValueKind_eq_dec : EqDecision QueueValueKind.
Proof. solve_decision. Defined.
#[export] Instance ChangeOperation_eq_dec : EqDecision ChangeOperation.
Proof. solve_decision. Defined.
#[export] Instance StateChange_eq_dec : EqDecision StateChange.
Proof. solve_decision. Defined.
#[export] Instance StateChanges_eq_dec : EqDecision StateChanges.
Proof. solve_decision. Defined.
#[export] Instance BlockHeader_eq_dec : EqDecision BlockHeader.
Proof. solve_decision. Defined.
#[export] Instance BlockProof_eq_dec : EqDecision BlockProof.
Proof. solve_decision. Defined.
#[export] Instance Item_eq_dec : EqDecision Item.
Proof. solve_decision. Defined.
#[export] Instance Block_eq_dec : EqDecision Block.
Proof. solve_decision. Defined.

#[export] Instance NewValueKind_countable : Countable NewValueKind.
Proof.
  refine (inj_countable
    (λ k, match k with
          | PlatformStateValue => 0%nat | NodeRewardsValue => 1%nat
          | BlockStreamInfoValue => 2%nat | HintsConstructionValue => 3%nat
          | EntityCountsValue => 4%nat | CrsStateValue => 5%nat
          | EntityNumberValue => 6%nat | NetworkStakingRewardsValue => 7%nat
          | ThrottleUsageSnapshotsValue => 8%nat | CongestionLevelStartsValue => 9%nat
          | RunningHashesValue => 10%nat | BlockInfoValue => 11%nat
          | ExchangeRateSetValue => 12%nat | BytesValue => 13%nat
          | TimestampValue => 14%nat | RosterStateValue => 15%nat
          | OtherNewValue => 16%nat
          end)
    (λ n, [PlatformStateValue; NodeRewardsValue; BlockStreamInfoValue;
           HintsConstructionValue; EntityCountsValue; CrsStateValue;
           EntityNumberValue; NetworkStakingRewardsValue;
           ThrottleUsageSnapshotsValue; CongestionLevelStartsValue;
           RunningHashesValue; BlockInfoValue; ExchangeRateSetValue; BytesValue;
           TimestampValue; RosterStateValue; OtherNewValue] !! n) _).
  by intros [].
Defined.
#[export] Instance QueueValueKind_countable : Countable QueueValueKind.
Proof.
  refine (inj_countable' (λ k, bool_decide (k = OtherQueueValue))
    (λ b : bool, if b then OtherQueueValue else TransactionReceiptEntriesElement) _).
  by intros [].
Defined.
#[export] Instance ChangeOperation_countable : Countable ChangeOperation.
Proof.
  refine (inj_countable'
    (λ o, match o with
          | MapUpdate k v => inl (inl (k, v))
          | MapDelete k => inl (inr k)
          | SingletonUpdate v => inr (inl v)
          | QueuePush v => inr (inr (inl v))
          | QueuePop => inr (inr (inr (inl ())))
          | OtherChange p => inr (inr (inr (inr p)))
          end)
    (λ s, match s with
          | inl (inl (k, v)) => MapUpdate k v
          | inl (inr k) => MapDelete k
          | inr (inl v) => SingletonUpdate v
          | inr (inr (inl v)) => QueuePush v
          | inr (inr (inr (inl _))) => QueuePop
          | inr (inr (inr (inr p))) => OtherChange p
          end) _).
  by intros [].
Defined.
#[export] Instance StateChange_countable : Countable StateChange.
Proof.
  refine (inj_countable' (λ c, (state_id c, change_operation c))
    (λ p, MkStateChange p.1 p.2) _). by intros [].
Defined.
#[export] Instance StateChanges_countable : Countable StateChanges.
Proof.
  refine (inj_countable' (λ c, (consensus_timestamp c, state_changes c))
    (λ p, MkStateChanges p.1 p.2) _). by intros [].
Defined.
#[export] Instance BlockHeader_countable : Countable BlockHeader.
Proof.
  refine (inj_countable' (λ c, (header_number c, header_rest c))
    (λ p, Header p.1 p.2) _). by intros [].
Defined.
#[export] Instance BlockProof_countable : Countable BlockProof.
Proof.
  refine (inj_countable' (λ c, (proof_block c, proof_rest c))
    (λ p, Proof_ p.1 p.2) _). by intros [].
Defined.
#[export] Instance Item_countable : Countable Item.
Proof.
  refine (inj_countable'
    (λ i, match i with
          | IBlockHeader h => inl (inl h) | IBlockProof p => inl (inr p)
          | IStateChanges s => inr (inl s) | IOther m => inr (inr m)
          end)
    (λ s, match s with
          | inl (inl h) => IBlockHeader h | inl (inr p) => IBlockProof p
          | inr (inl s) => IStateChanges s | inr (inr m) => IOther m
          end) _).
  by intros [].
Defined.
#[export] Instance Block_countable : Countable Block.
Proof. refine (inj_countable' items MkBlock _). by intros []. Defined.

(** Integer fields are in range: what the generated Rust types guarantee. *)
Definition wf_item (i : BlockItem) : Prop :=
  match i with
  | Some (IBlockHeader h) => is_u64 (header_number h)
  | Some (IBlockProof p) => is_u64 (proof_block p)
  | Some (IStateChanges s) =>
      Forall (λ c, 0 ≤ state_id c < 4294967296) (state_changes s)
  | _ => True
  end.
Definition wf_block (b : Block) : Prop := Forall wf_item (items b).

(** ** [get_block_number] of service.rs and writer.rs *)
Definition get_block_number (b : Block) : Result Error Z :=
  match items b with
  | Some (IBlockHeader h) :: _ => Ok (header_number h)
  | _ => Err EMalformedBlock
  end.

(** [get_block_number_from_block] of worker.rs. *)
Definition get_block_number_from_block (b : Block) : option Z :=
  match head (items b) with
  | Some (Some (IBlockHeader h)) => Some (header_number h)
  | _ => None
  end.

Lemma get_block_number_agree b :
  get_block_number_from_block b = ok_of (get_block_number b).
Proof.
  unfold get_block_number_from_block, get_block_number.
  by destruct (items b) as [|[[]|] ?].
Qed.

Lemma get_block_number_u64 b n : wf_block b → get_block_number b = Ok n → is_u64 n.
Proof.
  unfold get_block_number, wf_block. destruct (items b) as [|[[]|] l]; try done.
  intros [H _]%Forall_cons [= <-]. done.
Qed.

(** [StoredBlock] of hot_tier.rs. *)
Record StoredBlock := MkStored { contents : bytes }.

(** ** Wire formats *)
Definition isize_MAX : Z := 9223372036854775807.

Class Codec := {
  encode_to_vec : Block → bytes;
  encode_block : Block → Result Error bytes;
  decode_block : bytes → Result Error Block;
  encode_msg : pb → bytes;
  bincode_serialize : StoredBlock → Result Error bytes;
  bincode_deserialize : bytes → Result Error StoredBlock;
  zstd_encode_all : bytes → Result Error bytes;
  zstd_decode_all : bytes → Result Error bytes;
}.

(** Documented behaviour: encoders into a [Vec] do not fail on messages that fit
    in memory, decoders invert them. *)
Class CodecLaws `{Codec} : Prop := {
  encode_block_ok : ∀ b, Z.of_nat (length (encode_to_vec b)) ≤ isize_MAX →
    encode_block b = Ok (encode_to_vec b);
  encode_block_sound : ∀ b bs, encode_block b = Ok bs → bs = encode_to_vec b;
  decode_encode_block : ∀ b, wf_block b → decode_block (encode_to_vec b) = Ok b;
  encode_nonempty : ∀ b, items b ≠ [] → encode_to_vec b ≠ [];
  bincode_total : ∀ s, ∃ bs, bincode_serialize s = Ok bs;
  bincode_roundtrip : ∀ s bs, bincode_serialize s = Ok bs → bincode_deserialize bs = Ok s;
  zstd_total : ∀ c, ∃ z, zstd_encode_all c = Ok z;
  zstd_roundtrip : ∀ c z, zstd_encode_all c = Ok z → zstd_decode_all z = Ok c;
}.

(** A block the process can hold in memory. *)
Definition fits `{Codec} (b : Block) : Prop :=
  Z.of_nat (length (encode_to_vec b)) ≤ isize_MAX.

(** ** The reference codec: a block's canonical code as a string of bits. *)
Module RefCodec.
Fixpoint pos_bytes (p : positive) : bytes :=
  match p with
  | xH => []
  | xO p => x00 :: pos_bytes p
  | xI p => x01 :: pos_bytes p
  end.
Fixpoint bytes_pos (l : bytes) : option positive :=
  match l with
  | [] => Some xH
  | x00 :: l => xO <$> bytes_pos l
  | x01 :: l => xI <$> bytes_pos l
  | _ => None
  end.

Lemma bytes_pos_bytes p : bytes_pos (pos_bytes p) = Some p.
Proof. induction p; cbn; by rewrite ?IHp. Qed.

Definition enc_block (b : Block) : bytes := pos_bytes (encode b).

#[export] Instance ref_codec : Codec := {|
  encode_to_vec := enc_block;
  encode_block b :=
    if Z.of_nat (length (enc_block b)) <=? isize_MAX then Ok (enc_block b)
    else Err EEncode;
  decode_block l := ok_or (bytes_pos l ≫= decode) EDecode;
  encode_msg m := pb_body m;
  bincode_serialize s := Ok (contents s);
  bincode_deserialize l := Ok (MkStored l);
  zstd_encode_all l := Ok l;
  zstd_decode_all l := Ok l;
|}.

#[export] Instance ref_codec_laws : CodecLaws.
Proof.
  constructor; cbn.
  - intros b H. apply Z.leb_le in H. by rewrite H.
  - intros b bs. by destruct (_ <=? _); intros [= <-].
  - intros b _. unfold enc_block. rewrite bytes_pos_bytes. cbn.
    by rewrite decode_encode.
  - intros b Hb E. assert (encode b = encode (MkBlock [])) as ->%(inj encode); [|done].
    assert (bytes_pos (enc_block b) = bytes_pos []) as E' by by rewrite E.
    unfold enc_block in E'. rewrite bytes_pos_bytes in E'. by injection E'.
  - eauto.
  - by intros [s] bs [= <-].
  - eauto.
  - by intros c z [= <-].
Qed.

(** Concrete blocks for the witnesses. *)
Definition block_of (n : Z) : Block :=
  MkBlock [Some (IBlockHeader (Header n (Pb "h" []))); None;
           Some (IBlockProof (Proof_ n (Pb "p" [])))].

Lemma block_of_wf n : is_u64 n → wf_block (block_of n).
Proof. intros H. unfold wf_block; cbn. by rewrite !Forall_cons. Qed.
End RefCodec.
