(* ===== verification/StateManager.v ===== *)
(** The persistence metadata store: crates/rock-node-persistence-plugin/src/state.rs.

    [StateManager] is a handle to the store; every method takes the store and
    returns what it reads, the extended batch, or the store it wrote. *)
From S2P Require Import Prelude Database.

Definition LATEST_PERSISTED_KEY : bytes := bytes_of_string "latest_persisted".
Definition EARLIEST_HOT_KEY : bytes := bytes_of_string "earliest_hot".
Definition HIGHEST_CONTIGUOUS_KEY : bytes := bytes_of_string "highest_contiguous".
Definition TRUE_EARLIEST_PERSISTED_KEY : bytes :=
  bytes_of_string "true_earliest_persisted".

(** [u64::from_be_bytes(bytes.try_into()?)]. *)
Definition parse_u64 (l : bytes) : Result Error Z := ok_or (u64_from_be l) EInvalidLength.

#[global] Arguments parse_u64 : simpl never.

Section state_manager.
Context {RDB : RocksDB}.
Implicit Types (db : DB) (batch : WriteBatch).

Definition get_u64_opt db (key : bytes) : Result Error (option Z) :=
  need_cf db CF_METADATA;;
  v ← get_cf db CF_METADATA key;
  match v with
  | Some value => n ← parse_u64 value; Ok (Some n)
  | None => Ok None
  end.

Definition set_u64 db (key : bytes) (value : Z) batch : Result Error WriteBatch :=
  need_cf db CF_METADATA;;
  Ok (batch ++ [BPut CF_METADATA key (u64_to_be value)]).

Definition put_u64_direct db (key : bytes) (value : Z) : Result Error DB :=
  need_cf db CF_METADATA;;
  put_cf db CF_METADATA key (u64_to_be value).

Definition get_latest_persisted db := get_u64_opt db LATEST_PERSISTED_KEY.
Definition get_earliest_hot db := get_u64_opt db EARLIEST_HOT_KEY.
Definition get_highest_contiguous db : Result Error Z :=
  o ← get_u64_opt db HIGHEST_CONTIGUOUS_KEY; Ok (default 0 o).
Definition get_true_earliest_persisted db := get_u64_opt db TRUE_EARLIEST_PERSISTED_KEY.

Definition update_true_earliest_if_less db (new_earliest : Z) : Result Error DB :=
  o ← get_true_earliest_persisted db;
  match o with
  | Some current_earliest =>
      if new_earliest <? current_earliest
      then put_u64_direct db TRUE_EARLIEST_PERSISTED_KEY new_earliest
      else Ok db
  | None => put_u64_direct db TRUE_EARLIEST_PERSISTED_KEY new_earliest
  end.

Definition set_latest_persisted db (n : Z) batch := set_u64 db LATEST_PERSISTED_KEY n batch.
Definition set_earliest_hot db (n : Z) batch := set_u64 db EARLIEST_HOT_KEY n batch.
Definition set_highest_contiguous db (n : Z) batch :=
  set_u64 db HIGHEST_CONTIGUOUS_KEY n batch.
Definition set_true_earliest_persisted db (n : Z) batch :=
  set_u64 db TRUE_EARLIEST_PERSISTED_KEY n batch.

Definition initialize_true_earliest_persisted db (n : Z) : Result Error DB :=
  o ← get_true_earliest_persisted db;
  match o with
  | None => put_u64_direct db TRUE_EARLIEST_PERSISTED_KEY n
  | Some _ => Ok db
  end.

Definition initialize_earliest_hot db (n : Z) batch : Result Error WriteBatch :=
  o ← get_earliest_hot db;
  match o with None => set_earliest_hot db n batch | Some _ => Ok batch end.

Definition initialize_highest_contiguous db (value : Z) : Result Error DB :=
  o ← get_u64_opt db HIGHEST_CONTIGUOUS_KEY;
  match o with
  | None => put_u64_direct db HIGHEST_CONTIGUOUS_KEY value
  | Some _ => Ok db
  end.

(** A reverse iterator from [block_number]: the gap that starts last before it. *)
Definition find_containing_gap db (block_number : Z) : Result Error (option (Z * Z)) :=
  need_cf db CF_GAPS;;
  match iterator_cf db CF_GAPS (IterFrom (u64_to_be block_number) Reverse) with
  | Ok (key_bytes, val_bytes) :: _ =>
      start ← parse_u64 key_bytes;
      end_ ← parse_u64 val_bytes;
      if (start <=? block_number) && (block_number <=? end_)
      then Ok (Some (start, end_)) else Ok None
  | _ => Ok None
  end.

(** The first block of [add_gap_range]: merge with the gap to the left. *)
Definition merge_left db (start end_ : Z) : Result Error (Z * Z) :=
  match iterator_cf db CF_GAPS (IterFrom (u64_to_be start) Reverse) with
  | Ok (k_bytes, v_bytes) :: _ =>
      k_start ← parse_u64 k_bytes;
      v_end ← parse_u64 v_bytes;
      if start <=? saturating_add v_end 1 then
        Ok (if k_start <? start then k_start else start,
            if end_ <? v_end then v_end else end_)
      else Ok (start, end_)
  | _ => Ok (start, end_)
  end.

(** Its second block: the [while let] over the forward iterator. *)
Fixpoint sweep (it : list (Result Error (bytes * bytes))) (final_end : Z)
    (batch : WriteBatch) : Result Error (Z * WriteBatch) :=
  match it with
  | Ok (k_bytes, v_bytes) :: it =>
      k_start ← parse_u64 k_bytes;
      if saturating_add final_end 1 <? k_start then Ok (final_end, batch)
      else
        v_end ← parse_u64 v_bytes;
        sweep it (if final_end <? v_end then v_end else final_end)
              (batch ++ [BDelete CF_GAPS k_bytes])
  | _ => Ok (final_end, batch)
  end.

Definition add_gap_range db (start end_ : Z) batch : Result Error WriteBatch :=
  need_cf db CF_GAPS;;
  if end_ <? start then Ok batch
  else
    '(final_start, final_end) ← merge_left db start end_;
    '(final_end, batch) ←
      sweep (iterator_cf db CF_GAPS (IterFrom (u64_to_be final_start) Forward))
            final_end batch;
    Ok (batch ++ [BPut CF_GAPS (u64_to_be final_start) (u64_to_be final_end)]).

Definition fill_gap_block db (block_number : Z) batch : Result Error WriteBatch :=
  need_cf db CF_GAPS;;
  gap ← find_containing_gap db block_number;
  match gap with
  | Some (start, end_) =>
      let batch := batch ++ [BDelete CF_GAPS (u64_to_be start)] in
      let batch :=
        if start <? block_number then
          batch ++ [BPut CF_GAPS (u64_to_be start) (u64_to_be (u64_sub block_number 1))]
        else batch in
      let batch :=
        if block_number <? end_ then
          batch ++ [BPut CF_GAPS (u64_to_be (u64_add block_number 1)) (u64_to_be end_)]
        else batch in
      Ok batch
  | None => Ok batch
  end.

Definition add_skipped_batch db (batch_start_block : Z) batch : Result Error WriteBatch :=
  need_cf db CF_SKIPPED_BATCHES;;
  Ok (batch ++ [BPut CF_SKIPPED_BATCHES (u64_to_be batch_start_block) []]).

Definition remove_skipped_batch db (batch_start_block : Z) batch
    : Result Error WriteBatch :=
  need_cf db CF_SKIPPED_BATCHES;;
  Ok (batch ++ [BDelete CF_SKIPPED_BATCHES (u64_to_be batch_start_block)]).

Definition is_batch_skipped db (batch_start_block : Z) : Result Error bool :=
  need_cf db CF_SKIPPED_BATCHES;;
  v ← get_cf db CF_SKIPPED_BATCHES (u64_to_be batch_start_block);
  Ok (match v with Some _ => true | None => false end).
End state_manager.

(** ** The gap set

    A gap table is abstractly a finite map from the first to the last missing
    number of each gap; [in_gap] is the set of block numbers it stands for. *)
Definition in_gap (g : gmap Z Z) (n : Z) : Prop :=
  ∃ s e, g !! s = Some e ∧ s ≤ n ≤ e.

(** Gaps are non-empty [u64] ranges, disjoint and not even adjacent. *)
Definition gap_inv (g : gmap Z Z) : Prop :=
  ∀ s e, g !! s = Some e →
    is_u64 s ∧ is_u64 e ∧ s ≤ e ∧
    ∀ s' e', g !! s' = Some e' → s < s' → e + 1 < s'.

(** The column family holds exactly the big-endian encoding of [g]. *)
Definition enc_repr (m : gmap bytes bytes) (g : gmap Z Z) : Prop :=
  ∀ k, m !! k = u64_from_be k ≫= λ s, u64_to_be <$> g !! s.
Definition gaps_repr (m : gmap bytes bytes) (g : gmap Z Z) : Prop :=
  gap_inv g ∧ enc_repr m g.

Definition enc_pair (p : Z * Z) : bytes * bytes := (u64_to_be p.1, u64_to_be p.2).

Lemma enc_repr_lookup m g s : enc_repr m g → is_u64 s →
  m !! u64_to_be s = u64_to_be <$> g !! s.
Proof. intros H Hs. by rewrite H, u64_from_to_be. Qed.

Lemma enc_repr_insert m g s e : enc_repr m g → is_u64 s →
  enc_repr (<[u64_to_be s := u64_to_be e]> m) (<[s := e]> g).
Proof.
  intros H Hs k. destruct (decide (u64_to_be s = k)) as [<-|Hne].
  - rewrite lookup_insert_eq, u64_from_to_be by done. cbn. by rewrite lookup_insert_eq.
  - rewrite lookup_insert_ne, H by done. destruct (u64_from_be k) as [s'|] eqn:E; [|done].
    cbn. apply u64_from_be_Some in E as [-> Hs'].
    rewrite lookup_insert_ne by (by intros ->). done.
Qed.

Lemma enc_repr_delete m g s : enc_repr m g → is_u64 s →
  enc_repr (delete (u64_to_be s) m) (delete s g).
Proof.
  intros H Hs k. destruct (decide (u64_to_be s = k)) as [<-|Hne].
  - rewrite lookup_delete_eq, u64_from_to_be by done. cbn. by rewrite lookup_delete_eq.
  - rewrite lookup_delete_ne, H by done. destruct (u64_from_be k) as [s'|] eqn:E; [|done].
    cbn. apply u64_from_be_Some in E as [-> Hs'].
    rewrite lookup_delete_ne by (by intros ->). done.
Qed.

Lemma enc_repr_entry m g k v : gaps_repr m g → m !! k = Some v →
  ∃ s e, k = u64_to_be s ∧ v = u64_to_be e ∧ is_u64 s ∧ is_u64 e ∧ g !! s = Some e.
Proof.
  intros [Hi H] Hk. rewrite H in Hk.
  destruct (u64_from_be k) as [s|] eqn:E; [|done]. cbn in Hk.
  apply u64_from_be_Some in E as [-> Hs].
  destruct (g !! s) as [e|] eqn:Eg; [|done]. apply (inj Some) in Hk as <-.
  exists s, e. destruct (Hi s e Eg) as (? & ? & _). done.
Qed.

Lemma parse_u64_be n : is_u64 n → parse_u64 (u64_to_be n) = Ok n.
Proof. intros H. unfold parse_u64. by rewrite u64_from_to_be. Qed.

Lemma in_gap_insert g s e n :
  s ≤ e → g !! s = None → in_gap (<[s:=e]> g) n ↔ s ≤ n ≤ e ∨ in_gap g n.
Proof.
  intros Hse Hn. unfold in_gap. split.
  - intros (s' & e' & Hl & Hb). apply lookup_insert_Some in Hl as [[-> ->]|[??]];
      [by left|right; eauto].
  - intros [Hb|(s' & e' & Hl & Hb)].
    + exists s, e. by rewrite lookup_insert_eq.
    + exists s', e'. rewrite lookup_insert_ne by (intros ->; congruence). done.
Qed.

(** ** Deleting a list of gaps *)
Definition delete_gaps (g : gmap Z Z) (p : list (Z * Z)) : gmap Z Z :=
  foldl (λ g x, delete x.1 g) g p.

Lemma lookup_delete_gaps g p s e :
  delete_gaps g p !! s = Some e ↔ g !! s = Some e ∧ s ∉ p.*1.
Proof.
  revert g. induction p as [|x p IH]; intros g; cbn.
  - set_solver.
  - change (delete_gaps (delete x.1 g) p !! s = Some e ↔ g !! s = Some e ∧ s ∉ x.1 :: p.*1).
    rewrite IH, lookup_delete_Some, not_elem_of_cons. naive_solver.
Qed.

Lemma enc_repr_delete_gaps m g p :
  enc_repr m g → Forall (λ x, is_u64 x.1) p →
  enc_repr (apply_batch CF_GAPS m ((λ x : Z * Z, BDelete CF_GAPS (u64_to_be x.1)) <$> p))
           (delete_gaps g p).
Proof.
  intros H Hp. revert m g H. induction Hp as [|x p Hx _ IH]; intros m g H; [done|].
  cbn. batch_simpl. apply IH. by apply enc_repr_delete.
Qed.

(** ** What the sweep consumes *)
Fixpoint absorb (l : list (Z * Z)) (fe : Z) : Z * list (Z * Z) :=
  match l with
  | x :: l =>
      if saturating_add fe 1 <? x.1 then (fe, [])
      else let r := absorb l (Z.max fe x.2) in (r.1, x :: r.2)
  | [] => (fe, [])
  end.

Definition u64_pair (x : Z * Z) : Prop := is_u64 x.1 ∧ is_u64 x.2.

Lemma sweep_absorb l fe batch : Forall u64_pair l →
  sweep (Ok <$> (enc_pair <$> l)) fe batch =
  Ok ((absorb l fe).1,
      batch ++ ((λ x : Z * Z, BDelete CF_GAPS (u64_to_be x.1)) <$> (absorb l fe).2)).
Proof.
  intros Hl. revert fe batch. induction Hl as [|x l [Hx1 Hx2] _ IH]; intros fe batch; cbn.
  - by rewrite app_nil_r.
  - rewrite (parse_u64_be x.1), (parse_u64_be x.2) by done. cbn.
    destruct (saturating_add fe 1 <? x.1); cbn; [by rewrite app_nil_r|].
    replace (if fe <? x.2 then x.2 else fe) with (Z.max fe x.2) by (bool_cases; lia).
    rewrite IH, <-app_assoc. done.
Qed.

Lemma absorb_spec l fs fe fe' p :
  Forall u64_pair l → is_u64 fe → fs ≤ fe →
  StronglySorted (λ x y : Z * Z, x.1 < y.1) l → Forall (λ x, fs ≤ x.1) l →
  absorb l fe = (fe', p) →
  fe ≤ fe' ∧ is_u64 fe' ∧ p ⊆ l ∧
  (∀ x, x ∈ l → x ∈ p ∧ x.2 ≤ fe' ∨ x ∉ p ∧ fe' + 1 < x.1) ∧
  (∀ n, fs ≤ n ≤ fe' → fs ≤ n ≤ fe ∨ ∃ x, x ∈ p ∧ x.1 ≤ n ≤ x.2).
Proof.
  intros Hu. revert fe p. induction Hu as [|x l [Hx1 Hx2] Hu IH];
    intros fe p Hfe Hfs Hs Hb; cbn.
  - intros [= <- <-]. split_and!; [lia|done|done|by intros ? ?%not_elem_of_nil|by left].
  - apply StronglySorted_inv in Hs as [Hs Hlt]. apply Forall_cons in Hb as [Hbx Hb].
    rewrite Forall_forall in Hlt.
    destruct (Z.ltb_spec (saturating_add fe 1) x.1) as [Hgt|Hle].
    + intros [= <- <-]. split_and!; [lia|done|set_solver| |by left].
      intros y Hy. right. split; [apply not_elem_of_nil|].
      assert (x.1 ≤ y.1) by (apply elem_of_cons in Hy as [->|Hy%Hlt]; lia).
      u64_lia.
    + destruct (absorb l (Z.max fe x.2)) as [fe1 p1] eqn:E. intros [= <- <-].
      destruct (IH (Z.max fe x.2) p1 ltac:(u64_lia) ltac:(lia) Hs Hb E) as (H1 & H2 & H3 & H4 & H5).
      split_and!; [lia|done|set_solver| |].
      * intros y [->|Hy]%elem_of_cons.
        { left. split; [by left|]. lia. }
        destruct (H4 y Hy) as [[??]|[??]]; [left; by split; [right|]|right].
        split; [|done]. intros [->|?]%elem_of_cons; [|done].
        specialize (Hlt x Hy). lia.
      * intros n Hn. destruct (decide (n ≤ fe)) as [|Hnfe]; [left; lia|right].
        destruct (H5 n Hn) as [Hle'|(y & Hy & ?)].
        -- exists x. split; [by left|]. u64_lia.
        -- exists y. split; [by right|done].
Qed.

Section gap_theory.
Context {RDB : RocksDB} {LAWS : RocksDBLaws}.
Implicit Types (db : DB) (g : gmap Z Z).

(** The store is usable and its gap family encodes [g]. *)
Definition gaps_ok db g : Prop := db_ok db ∧ gaps_repr (entries db CF_GAPS) g.

(** The gap a reverse iterator yields first: the last one starting at or before
    [n]; it is the only one that can contain [n]. *)
Lemma reverse_gap db g n : gaps_ok db g → is_u64 n →
  (∃ s e rest, iterator_cf db CF_GAPS (IterFrom (u64_to_be n) Reverse)
                 = Ok (u64_to_be s, u64_to_be e) :: rest ∧
     is_u64 s ∧ is_u64 e ∧ g !! s = Some e ∧ s ≤ n ∧
     ∀ s' e', g !! s' = Some e' → s' ≤ n → s' = s ∨ s' < s) ∨
  (iterator_cf db CF_GAPS (IterFrom (u64_to_be n) Reverse) = [] ∧
   ∀ s' e', g !! s' = Some e' → n < s').
Proof.
  intros [[_ Hh] Hr] Hn. pose proof Hr as [Hinv Henc].
  pose proof (iterator_head db CF_GAPS (IterFrom (u64_to_be n) Reverse) Hh) as Hhd.
  destruct (iterator_cf db CF_GAPS (IterFrom (u64_to_be n) Reverse))
    as [|[[k v]|e] rest]; cbn in Hhd; [right|left|done].
  - split; [done|]. intros s' e' Hs'.
    destruct (Hinv _ _ Hs') as (Hu & _). destruct (decide (n < s')); [done|].
    destruct (Hhd (u64_to_be s') (u64_to_be e')).
    + rewrite (enc_repr_lookup _ _ _ Henc), Hs' by done. done.
    + apply u64_to_be_le; [done..|lia].
  - destruct Hhd as (Hk & Hle & Hmax).
    destruct (enc_repr_entry _ _ _ _ Hr Hk) as (s & e & -> & -> & Hs & He & Hg).
    apply u64_to_be_le in Hle; [|done..].
    exists s, e, rest. split_and!; try done. intros s' e' Hs' Hs'n.
    destruct (Hinv _ _ Hs') as (Hu & _).
    destruct (Hmax (u64_to_be s') (u64_to_be e')) as [E|Hlt].
    + rewrite (enc_repr_lookup _ _ _ Henc), Hs' by done. done.
    + apply u64_to_be_le; done.
    + left. by apply u64_to_be_inj.
    + right. by apply u64_to_be_lt in Hlt.
Qed.

Lemma find_containing_gap_ok db g n : gaps_ok db g → is_u64 n →
  ∃ o, find_containing_gap db n = Ok o ∧
    match o with
    | Some (s, e) => g !! s = Some e ∧ s ≤ n ≤ e
    | None => ¬ in_gap g n
    end.
Proof.
  intros Hg Hn. unfold find_containing_gap.
  rewrite need_cf_open by (apply Hg || set_solver). cbn.
  destruct (reverse_gap db g n Hg Hn) as
    [(s & e & rest & -> & Hs & He & Hl & Hle & Hmax)|[-> Hnone]].
  - rewrite (parse_u64_be s), (parse_u64_be e) by done. cbn.
    destruct Hg as [_ [Hinv _]].
    destruct (Z.leb_spec s n), (Z.leb_spec n e); try lia; cbn; eexists; (split; [done|]).
    + done.
    + intros (s' & e' & Hl' & Hb). destruct (Hmax s' e' Hl' ltac:(lia)) as [->|Hlt].
      * simplify_eq. lia.
      * destruct (Hinv _ _ Hl') as (_ & _ & _ & Hsep).
        specialize (Hsep s e Hl Hlt). lia.
  - eexists. split; [done|]. intros (s' & e' & Hl' & Hb).
    specialize (Hnone _ _ Hl'). lia.
Qed.

Lemma forward_gaps db g fs : gaps_ok db g → is_u64 fs →
  ∃ l, iterator_cf db CF_GAPS (IterFrom (u64_to_be fs) Forward)
         = Ok <$> (enc_pair <$> l) ∧
    Forall u64_pair l ∧ StronglySorted (λ x y : Z * Z, x.1 < y.1) l ∧
    ∀ s e, (s, e) ∈ l ↔ g !! s = Some e ∧ fs ≤ s.
Proof.
  intros [[_ Hh] Hr] Hfs. pose proof Hr as [Hinv Henc].
  destruct (iterator_healthy db CF_GAPS (IterFrom (u64_to_be fs) Forward) Hh)
    as (bl & -> & Hsort & Hin). cbn in *.
  assert (∃ l, bl = enc_pair <$> l ∧ Forall u64_pair l) as (l & -> & Hu).
  { assert (∀ k v, (k, v) ∈ bl → ∃ x, (k, v) = enc_pair x ∧ u64_pair x) as Hdec.
    { intros k v [Hk _]%Hin.
      destruct (enc_repr_entry _ _ _ _ Hr Hk) as (s & e & -> & -> & Hs & He & _).
      by exists (s, e). }
    clear -Hdec. induction bl as [|[k v] bl IH]; [by exists []|].
    destruct (Hdec k v) as (x & Ex & Hx); [by left|].
    destruct IH as (l & -> & Hl); [intros; apply Hdec; by right|].
    exists (x :: l). rewrite Ex. split; [done|]. by constructor. }
  exists l. split_and!; [done|done| |].
  - clear -Hsort Hu. induction Hu as [|x l [Hx _] Hu IH]; [constructor|].
    cbn in Hsort. apply StronglySorted_inv in Hsort as [Hs Hall].
    constructor; [by apply IH|]. apply Forall_forall.
    rewrite Forall_forall in Hall. rewrite Forall_forall in Hu.
    intros y Hy. destruct (Hu y Hy) as [Hyu _].
    apply u64_to_be_lt; [done..|]. apply Hall.
    apply list_elem_of_fmap. exists (enc_pair y). split; [done|].
    apply list_elem_of_fmap. by exists y.
  - intros s e. rewrite Forall_forall in Hu. split.
    + intros Hse. destruct (Hu _ Hse) as [Hs He].
      assert (enc_pair (s, e) ∈ enc_pair <$> l) as [Hk Hle]%Hin
        by (apply list_elem_of_fmap; by exists (s, e)).
      cbn in *. rewrite (enc_repr_lookup _ _ _ Henc) in Hk by done.
      destruct (g !! s) as [e'|] eqn:Eg; [|done]. apply (inj Some) in Hk.
      destruct (Hinv _ _ Eg) as (_ & He' & _).
      rewrite (u64_to_be_inj e' e He' He Hk). split; [done|].
      by apply u64_to_be_le in Hle.
    + intros [Hl Hle]. destruct (Hinv _ _ Hl) as (Hs & He & _).
      assert ((u64_to_be s, u64_to_be e) ∈ enc_pair <$> l) as Hmem.
      { apply Hin. rewrite (enc_repr_lookup _ _ _ Henc), Hl by done.
        split; [done|]. by apply u64_to_be_le. }
      apply list_elem_of_fmap in Hmem as ([s' e'] & E & Hmem).
      pose proof (f_equal fst E) as E1. pose proof (f_equal snd E) as E2.
      destruct (Hu _ Hmem) as [Hs' He']. cbn in *.
      apply u64_to_be_inj in E1, E2; [|done..]. by subst.
Qed.

Lemma merge_left_ok db g start end_ :
  gaps_ok db g → is_u64 start → is_u64 end_ → start ≤ end_ →
  ∃ fs fe, merge_left db start end_ = Ok (fs, fe) ∧ is_u64 fs ∧ is_u64 fe ∧
    fs ≤ start ∧ end_ ≤ fe ∧
    (∀ n, fs ≤ n ≤ fe → start ≤ n ≤ end_ ∨ in_gap g n) ∧
    (∀ s e, g !! s = Some e → s < fs → e + 1 < fs).
Proof.
  intros Hg Hs He Hse. unfold merge_left.
  destruct (reverse_gap db g start Hg Hs) as
    [(k & v & rest & -> & Hk & Hv & Hl & Hle & Hmax)|[-> Hnone]].
  - rewrite (parse_u64_be k), (parse_u64_be v) by done. cbn.
    destruct Hg as [_ [Hinv _]]. destruct (Hinv _ _ Hl) as (_ & _ & Hkv & _).
    destruct (Z.leb_spec start (saturating_add v 1)) as [Hm|Hm].
    + exists k, (Z.max end_ v). split.
      { do 2 f_equal; bool_cases; lia. }
      split_and!; [done|u64_lia|lia|lia| |].
      * intros n Hn. destruct (decide (n ≤ v)).
        { right. exists k, v. split; [done|lia]. }
        left. u64_lia.
      * intros s e Hl' Hlt. destruct (Hinv _ _ Hl') as (_ & _ & _ & Hsep). eauto.
    + exists start, end_. split_and!; [done|done|done|lia|lia|by left|].
      intros s e Hl' Hlt. destruct (Hmax s e Hl' ltac:(lia)) as [->|Hlt'].
      * simplify_eq. u64_lia.
      * destruct (Hinv _ _ Hl') as (_ & _ & _ & Hsep). specialize (Hsep k v Hl Hlt').
        u64_lia.
  - exists start, end_. split_and!; [done|done|done|lia|lia|by left|].
    intros s e Hl Hlt. specialize (Hnone _ _ Hl). lia.
Qed.

(** Replacing the absorbed gaps by one range keeps the table well formed and
    stands for the same numbers plus the range. *)
Lemma merged_gaps g l p fs fe fe' :
  gap_inv g → is_u64 fs → is_u64 fe' → fs ≤ fe ≤ fe' → p ⊆ l →
  (∀ s e, (s, e) ∈ l ↔ g !! s = Some e ∧ fs ≤ s) →
  (∀ x, x ∈ l → x ∈ p ∧ x.2 ≤ fe' ∨ x ∉ p ∧ fe' + 1 < x.1) →
  (∀ n, fs ≤ n ≤ fe' → fs ≤ n ≤ fe ∨ ∃ x, x ∈ p ∧ x.1 ≤ n ≤ x.2) →
  (∀ s e, g !! s = Some e → s < fs → e + 1 < fs) →
  let g' := <[fs := fe']> (delete_gaps g p) in
  gap_inv g' ∧ ∀ n, in_gap g' n ↔ fs ≤ n ≤ fe ∨ in_gap g n.
Proof.
  intros Hinv Hfs Hfe' Hle Hsub Hin Habs Hcov Hleft g'.
  assert (∀ s e, delete_gaps g p !! s = Some e →
            g !! s = Some e ∧ (e + 1 < fs ∧ s < fs ∨ fe' + 1 < s)) as Hrest.
  { intros s e [Hl Hnp]%lookup_delete_gaps. split; [done|].
    destruct (decide (s < fs)); [left; eauto|right].
    assert ((s, e) ∈ l) as Hsl by (apply Hin; split; [done|lia]).
    destruct (Habs _ Hsl) as [[Hp _]|[_ ?]]; [|done].
    destruct Hnp. apply list_elem_of_fmap. by exists (s, e). }
  assert (delete_gaps g p !! fs = None) as Hfresh.
  { destruct (delete_gaps g p !! fs) as [e|] eqn:E; [|done].
    apply Hrest in E as [_ ?]. lia. }
  subst g'. split.
  - intros s e Hl. apply lookup_insert_Some in Hl as [[<- <-]|[Hne Hl]].
    + split_and!; [done..|lia|]. intros s' e' Hl' Hlt.
      rewrite lookup_insert_ne in Hl' by lia. apply Hrest in Hl' as [_ ?]. lia.
    + destruct (Hrest _ _ Hl) as [Hg Hpos].
      destruct (Hinv _ _ Hg) as (Hs & He & Hse & Hsep).
      split_and!; [done..|]. intros s' e' Hl' Hlt.
      apply lookup_insert_Some in Hl' as [[<- <-]|[_ Hl']]; [lia|].
      apply Hrest in Hl' as [Hg' _]. by eapply Hsep.
  - intros n. rewrite in_gap_insert by (done || lia). split.
    + intros [Hn|(s & e & Hl & Hb)].
      * destruct (Hcov n Hn) as [|([s e] & Hp & ?)]; [by left|right].
        exists s, e. split; [|done]. by apply Hin, Hsub.
      * right. exists s, e. split; [by apply Hrest in Hl as [? _]|done].
    + intros [Hn|(s & e & Hl & Hb)]; [left; lia|].
      destruct (decide (s ∈ p.*1)) as [Hp|Hp]; [left|right].
      * apply list_elem_of_fmap in Hp as ([s0 e0] & Es & Hp). cbn in Es. subst s0.
        assert ((s, e0) ∈ l) as Hsl by by apply Hsub.
        destruct (proj1 (Hin _ _) Hsl) as [Hl0 ?]. simplify_eq.
        destruct (Habs _ Hsl) as [[_ ?]|[? _]]; [cbn in *; lia|done].
      * exists s, e. split; [|done]. by apply lookup_delete_gaps.
Qed.

(** [add_gap_range] on the table: the recorded set becomes its union with
    [start..=end], and the ranges stay disjoint and non-adjacent. *)
Lemma add_gap_range_ok db g start end_ batch :
  gaps_ok db g → is_u64 start → is_u64 end_ → start ≤ end_ →
  ∃ ops g', add_gap_range db start end_ batch = Ok (batch ++ ops) ∧
    Forall (λ op, op_cf op = CF_GAPS) ops ∧
    gaps_repr (apply_batch CF_GAPS (entries db CF_GAPS) ops) g' ∧
    ∀ n, in_gap g' n ↔ start ≤ n ≤ end_ ∨ in_gap g n.
Proof.
  intros Hg Hs He Hse. unfold add_gap_range.
  rewrite need_cf_open by (apply Hg || set_solver). cbn.
  destruct (Z.ltb_spec end_ start); [lia|].
  destruct (merge_left_ok db g start end_ Hg Hs He Hse)
    as (fs & fe & -> & Hfs & Hfe & Hle1 & Hle2 & Hcov1 & Hleft). cbn.
  destruct (forward_gaps db g fs Hg Hfs) as (l & -> & Hu & Hsort & Hin).
  rewrite sweep_absorb by done. destruct (absorb l fe) as [fe' p] eqn:E. cbn.
  destruct Hg as [Hdb [Hinv Henc]].
  assert (Forall (λ x, fs ≤ x.1) l) as Hge.
  { apply Forall_forall. intros [s e] Hx. by apply Hin in Hx as [_ ?]. }
  destruct (absorb_spec l fs fe fe' p Hu Hfe ltac:(lia) Hsort Hge E)
    as (H1 & H2 & H3 & H4 & H5).
  destruct (merged_gaps g l p fs fe fe') as [Hinv' Hset]; [done|done|done|lia|done..|].
  rewrite <-app_assoc. eexists _, _. split; [done|]. split_and!.
  - apply Forall_app. split; [|by repeat constructor].
    apply Forall_fmap, Forall_forall. done.
  - split; [exact Hinv'|]. batch_simpl. apply enc_repr_insert; [|done].
    apply enc_repr_delete_gaps; [done|]. rewrite Forall_forall in Hu.
    apply Forall_forall. intros x Hx. apply Hu. by apply H3.
  - intros n. rewrite Hset. split.
    + intros [Hn|]; [by apply Hcov1|by right].
    + intros [|]; [left; lia|by right].
Qed.

(** Punching [n] out of the gap [s..=e]. *)
Definition punch (g : gmap Z Z) (s e n : Z) : gmap Z Z :=
  let g1 := if s <? n then <[s := n - 1]> (delete s g) else delete s g in
  if n <? e then <[n + 1 := e]> g1 else g1.

Lemma lookup_punch g s e n s' e' :
  gap_inv g → g !! s = Some e → s ≤ n ≤ e →
  punch g s e n !! s' = Some e' ↔
    (s' = s ∧ e' = n - 1 ∧ s < n) ∨ (s' = n + 1 ∧ e' = e ∧ n < e) ∨
    (s' ≠ s ∧ g !! s' = Some e').
Proof.
  intros Hinv Hl Hb. destruct (Hinv _ _ Hl) as (_ & _ & _ & Hsep).
  assert (g !! (n + 1) = None ∨ e ≤ n) as Hfree.
  { destruct (g !! (n + 1)) as [e2|] eqn:E2; [right|by left].
    specialize (Hsep _ _ E2). lia. }
  unfold punch. destruct (Z.ltb_spec n e), (Z.ltb_spec s n);
    rewrite ?lookup_insert_Some, ?lookup_delete_Some.
  - destruct (decide (s' = n + 1)) as [->|]; [|naive_solver lia].
    destruct Hfree as [E|]; [rewrite E|lia]. naive_solver lia.
  - destruct (decide (s' = n + 1)) as [->|]; [|naive_solver lia].
    destruct Hfree as [E|]; [rewrite E|lia]. naive_solver lia.
  - naive_solver lia.
  - naive_solver lia.
Qed.

Lemma punch_inv g s e n :
  gap_inv g → g !! s = Some e → s ≤ n ≤ e → gap_inv (punch g s e n).
Proof.
  intros Hinv Hl Hb. destruct (Hinv _ _ Hl) as (Hs & He & Hse & Hsep).
  intros s' e' Hl'. apply lookup_punch in Hl' as [(->&->&?)|[(->&->&?)|[Hne Hl']]];
    [| | |done..].
  - split_and!; [done|u64_lia|lia|]. intros s2 e2 Hl2 Hlt.
    apply lookup_punch in Hl2 as [?|[?|[_ Hl2]]]; [lia|lia| |done..].
    specialize (Hsep _ _ Hl2 Hlt). lia.
  - split_and!; [u64_lia|done|lia|]. intros s2 e2 Hl2 Hlt.
    apply lookup_punch in Hl2 as [?|[?|[_ Hl2]]]; [lia|lia| |done..].
    apply (Hsep _ e2); [done|lia].
  - destruct (Hinv _ _ Hl') as (Hs' & He' & Hse' & Hsep').
    split_and!; [done..|]. intros s2 e2 Hl2 Hlt.
    apply lookup_punch in Hl2 as [(->&_)|[(->&_)|[_ Hl2]]]; [| | |done..];
      [by eapply Hsep'| |by eapply Hsep'].
    destruct (decide (s' < s)); [specialize (Hsep' _ _ Hl); lia|].
    specialize (Hsep _ _ Hl'). lia.
Qed.

Lemma punch_set g s e n m :
  gap_inv g → g !! s = Some e → s ≤ n ≤ e →
  in_gap (punch g s e n) m ↔ in_gap g m ∧ m ≠ n.
Proof.
  intros Hinv Hl Hb. unfold in_gap. setoid_rewrite lookup_punch; [|done..]. split.
  - intros (s' & e' & [(->&->&?)|[(->&->&?)|[Hne Hl']]] & Hm).
    + split; [exists s, e; split; [done|lia]|lia].
    + split; [exists s, e; split; [done|lia]|lia].
    + split; [by exists s', e'|]. intros ->.
      destruct (Hinv _ _ Hl) as (_ & _ & _ & Hsep), (Hinv _ _ Hl') as (_ & _ & _ & Hsep').
      destruct (decide (s < s')); [specialize (Hsep _ _ Hl')|specialize (Hsep' _ _ Hl)]; lia.
  - intros [(s' & e' & Hl' & Hm) Hne].
    destruct (decide (s' = s)) as [->|]; [simplify_eq|exists s', e'; naive_solver].
    destruct (decide (m < n)).
    + exists s, (n - 1). split; [left; naive_solver lia|lia].
    + exists (n + 1), e. split; [right; left; naive_solver lia|lia].
Qed.

(** [fill_gap_block] removes exactly [block_number] from the recorded set. *)
Lemma fill_gap_block_ok db g n batch :
  gaps_ok db g → is_u64 n →
  ∃ ops g', fill_gap_block db n batch = Ok (batch ++ ops) ∧
    Forall (λ op, op_cf op = CF_GAPS) ops ∧
    gaps_repr (apply_batch CF_GAPS (entries db CF_GAPS) ops) g' ∧
    ∀ m, in_gap g' m ↔ in_gap g m ∧ m ≠ n.
Proof.
  intros Hg Hn. unfold fill_gap_block.
  rewrite need_cf_open by (apply Hg || set_solver). cbn.
  destruct (find_containing_gap_ok db g n Hg Hn) as ([[s e]|] & -> & Ho); cbn.
  2:{ exists [], g. rewrite app_nil_r. split_and!; [done|done|by apply Hg|].
      intros m. split; [|by intros [??]]. intros Hm. split; [done|]. by intros ->. }
  destruct Ho as [Hl Hb]. destruct Hg as [_ [Hinv Henc]].
  destruct (Hinv _ _ Hl) as (Hs & He & Hse & Hsep).
  exists ([BDelete CF_GAPS (u64_to_be s)]
    ++ (if s <? n then [BPut CF_GAPS (u64_to_be s) (u64_to_be (u64_sub n 1))] else [])
    ++ (if n <? e then [BPut CF_GAPS (u64_to_be (u64_add n 1)) (u64_to_be e)] else [])),
    (punch g s e n).
  split_and!.
  - destruct (s <? n), (n <? e); by rewrite <-?app_assoc.
  - destruct (s <? n), (n <? e); by repeat constructor.
  - split; [by apply punch_inv|]. pose proof (enc_repr_delete _ _ _ Henc Hs) as H0.
    unfold punch.
    assert (is_u64 (n + 1) ∨ e ≤ n) as Hn1 by u64_lia.
    destruct (Z.ltb_spec s n), (Z.ltb_spec n e); batch_simpl;
      rewrite ?(u64_sub_small n 1), ?(u64_add_small n 1) by u64_lia;
      repeat apply enc_repr_insert; try done; u64_lia.
  - intros m. by apply punch_set.
Qed.
End gap_theory.

(** ** Metadata keys *)
Section metadata.
Context {RDB : RocksDB} {LAWS : RocksDBLaws}.
Implicit Types (db : DB).

(** Metadata key [key] holds [o]. *)
Definition meta_is db (key : bytes) (o : option Z) : Prop :=
  entries db CF_METADATA !! key = u64_to_be <$> o ∧ ∀ n, o = Some n → is_u64 n.

Lemma get_u64_opt_ok db key o :
  db_ok db → meta_is db key o → get_u64_opt db key = Ok o.
Proof.
  intros [Ho Hh] [He Hu]. unfold get_u64_opt.
  rewrite need_cf_open by (done || set_solver). cbn.
  rewrite get_cf_healthy by done. cbn. rewrite He.
  destruct o as [n|]; cbn; [|done]. rewrite parse_u64_be by auto. done.
Qed.

Lemma get_u64_opt_sound db key o :
  get_u64_opt db key = Ok o → meta_is db key o.
Proof.
  unfold get_u64_opt, meta_is. intros H. ok_inv.
  match goal with H : get_cf _ _ _ = Ok ?x |- _ =>
    apply get_cf_sound in H as <-; destruct x as [v|] end.
  - ok_inv. subst o. unfold parse_u64 in *. ok_inv.
    match goal with H : u64_from_be v = Some _ |- _ =>
      apply u64_from_be_Some in H as [-> Hn] end.
    split; [done|]. by intros ? [= <-].
  - ok_inv. by subst o.
Qed.

Lemma set_u64_ok db key n batch :
  db_open db → set_u64 db key n batch = Ok (batch ++ [BPut CF_METADATA key (u64_to_be n)]).
Proof. intros Ho. unfold set_u64. by rewrite need_cf_open by (done || set_solver). Qed.

Lemma put_u64_direct_ok db key n : db_ok db → is_u64 n →
  ∃ db', put_u64_direct db key n = Ok db' ∧ db_ok db' ∧ meta_is db' key (Some n) ∧
    (∀ key' o, key' ≠ key → meta_is db key' o → meta_is db' key' o) ∧
    ∀ cf, cf ≠ CF_METADATA → entries db' cf = entries db cf.
Proof.
  intros Hdb Hn. unfold put_u64_direct.
  rewrite need_cf_open by (apply Hdb || set_solver). cbn. rewrite put_cf_is_write.
  destruct (write_db_ok db [BPut CF_METADATA key (u64_to_be n)] Hdb)
    as (db' & E & Hdb' & He).
  exists db'. split_and!; [done|done| | |].
  - split; [|by intros ? [= <-]]. rewrite He. batch_simpl. by rewrite lookup_insert_eq.
  - intros key' o Hne [H1 H2]. split; [|done]. rewrite He. batch_simpl.
    by rewrite lookup_insert_ne.
  - intros cf Hcf. rewrite He. by batch_simpl.
Qed.
End metadata.
