(* ===== verification/HotTier.v ===== *)
(** The hot tier: crates/rock-node-persistence-plugin/src/hot_tier.rs.
    Recent blocks, one RocksDB entry per block number. *)
From S2P Require Import Prelude Database Block.

Section hot_tier.
Context {RDB : RocksDB} {CODEC : Codec}.
Implicit Types (db : DB) (batch : WriteBatch).

Definition hot_read_block db (block_number : Z) : Result Error (option bytes) :=
  need_cf db CF_HOT_BLOCKS;;
  v ← get_cf db CF_HOT_BLOCKS (u64_to_be block_number);
  match v with
  | Some db_vec =>
      stored_block ← bincode_deserialize db_vec;
      Ok (Some (contents stored_block))
  | None => Ok None
  end.

Definition get_earliest_block_number db : Result Error (option Z) :=
  need_cf db CF_HOT_BLOCKS;;
  match iterator_cf db CF_HOT_BLOCKS IterStart with
  | Ok (key_bytes, _) :: _ =>
      n ← ok_or (u64_from_be key_bytes) EInvalidLength;
      Ok (Some n)
  | _ => Ok None
  end.

(** [for i in 0..batch_size]: [i] counts up, [k] iterations are left. *)
Fixpoint batch_complete_from db (start_block i : Z) (k : nat) : Result Error bool :=
  match k with
  | O => Ok true
  | S k =>
      v ← get_cf db CF_HOT_BLOCKS (u64_to_be (u64_add start_block i));
      match v with
      | None => Ok false
      | Some _ => batch_complete_from db start_block (i + 1) k
      end
  end.

Definition is_batch_complete db (start_block batch_size : Z) : Result Error bool :=
  need_cf db CF_HOT_BLOCKS;;
  batch_complete_from db start_block 0 (Z.to_nat batch_size).

Fixpoint read_batch_from db (start_block i : Z) (k : nat) (blocks : list Block)
    : Result Error (list Block) :=
  match k with
  | O => Ok blocks
  | S k =>
      let block_number := u64_add start_block i in
      o ← hot_read_block db block_number;
      match o with
      | Some block_bytes =>
          b ← decode_block block_bytes;
          read_batch_from db start_block (i + 1) k (blocks ++ [b])
      | None => Err (EMissingBlock block_number)
      end
  end.

Definition read_block_batch db (start_block count : Z) : Result Error (list Block) :=
  read_batch_from db start_block 0 (Z.to_nat count) [].

Definition add_block_to_batch db (block : Block) (block_number : Z) batch
    : Result Error WriteBatch :=
  need_cf db CF_HOT_BLOCKS;;
  block_bytes ← encode_block block;
  value ← bincode_serialize (MkStored block_bytes);
  Ok (batch ++ [BPut CF_HOT_BLOCKS (u64_to_be block_number) value]).

Definition add_delete_to_batch db (block_number : Z) batch : Result Error WriteBatch :=
  need_cf db CF_HOT_BLOCKS;;
  Ok (batch ++ [BDelete CF_HOT_BLOCKS (u64_to_be block_number)]).

Definition commit_batch db batch : Result Error DB := write db batch.
End hot_tier.

Section hot_theory.
Context {RDB : RocksDB} {LAWS : RocksDBLaws} {CODEC : Codec} {CLAWS : CodecLaws}.
Implicit Types (db : DB).

(** Entry [n] of the hot tier is the stored form of the block bytes [c]. *)
Definition hot_has db (n : Z) (c : bytes) : Prop :=
  ∃ v, entries db CF_HOT_BLOCKS !! u64_to_be n = Some v ∧
       bincode_deserialize v = Ok (MkStored c).

Lemma hot_read_block_found db n c :
  db_ok db → hot_has db n c → hot_read_block db n = Ok (Some c).
Proof.
  intros [Ho Hh] (v & Hv & Hd). unfold hot_read_block.
  rewrite need_cf_open by (done || set_solver). cbn.
  rewrite get_cf_healthy, Hv by done. cbn. by rewrite Hd.
Qed.

Lemma hot_read_block_absent db n :
  db_ok db → entries db CF_HOT_BLOCKS !! u64_to_be n = None →
  hot_read_block db n = Ok None.
Proof.
  intros [Ho Hh] Hv. unfold hot_read_block.
  rewrite need_cf_open by (done || set_solver). cbn.
  by rewrite get_cf_healthy, Hv.
Qed.

Lemma add_block_to_batch_ok db b n batch : db_open db → fits b →
  ∃ v, add_block_to_batch db b n batch = Ok (batch ++ [BPut CF_HOT_BLOCKS (u64_to_be n) v])
    ∧ bincode_deserialize v = Ok (MkStored (encode_to_vec b)).
Proof.
  intros Ho Hf. unfold add_block_to_batch.
  rewrite need_cf_open by (done || set_solver). cbn.
  rewrite encode_block_ok by done. cbn.
  destruct (bincode_total (MkStored (encode_to_vec b))) as [v Hv].
  exists v. rewrite Hv. split; [done|]. by apply bincode_roundtrip.
Qed.

Lemma batch_complete_from_ok db start i k :
  db_ok db →
  batch_complete_from db start i k =
  Ok (forallb (λ j, bool_decide (is_Some
        (entries db CF_HOT_BLOCKS !! u64_to_be (u64_add start j)))) (seqZ i (Z.of_nat k))).
Proof.
  intros Hdb. revert i. induction k as [|k IH]; intros i; [done|].
  cbn [batch_complete_from]. rewrite get_cf_healthy by apply Hdb. cbn.
  rewrite seqZ_cons by lia. cbn.
  destruct (entries db CF_HOT_BLOCKS !! u64_to_be (u64_add start i)) as [v|]; cbn; [|done].
  rewrite IH. repeat f_equal; lia.
Qed.

Lemma is_batch_complete_ok db start size :
  db_ok db → 0 ≤ size →
  ∃ b, is_batch_complete db start size = Ok b ∧
    (b = true ↔ ∀ i, 0 ≤ i < size →
       is_Some (entries db CF_HOT_BLOCKS !! u64_to_be (u64_add start i))).
Proof.
  intros Hdb Hs. unfold is_batch_complete.
  rewrite need_cf_open by (apply Hdb || set_solver). cbn.
  rewrite batch_complete_from_ok by done. eexists. split; [done|].
  rewrite forallb_forall. setoid_rewrite <-list_elem_of_In.
  setoid_rewrite elem_of_seqZ. setoid_rewrite bool_decide_eq_true.
  rewrite Z2Nat.id by done. naive_solver lia.
Qed.

Lemma read_batch_from_ok db start i k acc (bs : list Block) :
  db_ok db → length bs = k → Forall wf_block bs →
  (∀ j b, bs !! j = Some b →
     hot_has db (u64_add start (i + Z.of_nat j)) (encode_to_vec b)) →
  read_batch_from db start i k acc = Ok (acc ++ bs).
Proof.
  intros Hdb Hlen Hwf. revert i k acc Hlen.
  induction Hwf as [|b bs Hb _ IH]; intros i k acc Hlen Hread; subst k; cbn.
  - by rewrite app_nil_r.
  - assert (hot_has db (u64_add start i) (encode_to_vec b)) as H0.
    { specialize (Hread 0%nat b eq_refl). by rewrite Z.add_0_r in Hread. }
    rewrite (hot_read_block_found _ _ _ Hdb H0). cbn.
    rewrite decode_encode_block by done. cbn.
    rewrite (IH (i + 1) (length bs)); [by rewrite <-app_assoc|done|].
    intros j b' Hj. specialize (Hread (S j) b' Hj).
    replace (i + 1 + Z.of_nat j) with (i + Z.of_nat (S j)) by lia. done.
Qed.

Lemma read_block_batch_ok db start count (bs : list Block) :
  db_ok db → Z.of_nat (length bs) = count → Forall wf_block bs →
  (∀ j b, bs !! j = Some b → hot_has db (u64_add start (Z.of_nat j)) (encode_to_vec b)) →
  read_block_batch db start count = Ok bs.
Proof.
  intros Hdb Hlen Hwf Hread. unfold read_block_batch.
  apply (read_batch_from_ok db start 0 _ []); [done|lia|done|done].
Qed.
End hot_theory.
