(* ===== verification/Config.v ===== *)
(** The configuration the core logic reads: crates/rock-node-core/src/config.rs. *)
From S2P Require Import Prelude.

Record PersistenceServiceConfig := {
  persistence_enabled : bool;
  cold_storage_path : string;
  hot_storage_block_count : Z;
  archive_batch_size : Z;
}.

Definition PersistenceServiceConfig_default : PersistenceServiceConfig := {|
  persistence_enabled := true;
  cold_storage_path := "data/cold_storage";
  hot_storage_block_count := 100;
  archive_batch_size := 100;
|}.

Record PublishServiceConfig := {
  publish_enabled : bool;
  publish_max_concurrent_streams : Z;
  persistence_ack_timeout_seconds : Z;
  stale_winner_timeout_seconds : Z;
  winner_cleanup_interval_seconds : Z;
  winner_cleanup_threshold_blocks : Z;
  max_message_size_bytes : Z;
  max_items_per_set : Z;
}.

Definition PublishServiceConfig_default : PublishServiceConfig := {|
  publish_enabled := true;
  publish_max_concurrent_streams := 250;
  persistence_ack_timeout_seconds := 60;
  stale_winner_timeout_seconds := 10;
  winner_cleanup_interval_seconds := 150;
  winner_cleanup_threshold_blocks := 1000;
  max_message_size_bytes := 32 * 1024 * 1024;
  max_items_per_set := 10000;
|}.

Record SubscriberServiceConfig := {
  subscriber_enabled : bool;
  subscriber_max_concurrent_streams : Z;
  session_timeout_seconds : Z;
  live_stream_queue_size : Z;
  max_future_block_lookahead : Z;
}.

Definition SubscriberServiceConfig_default : SubscriberServiceConfig := {|
  subscriber_enabled := true;
  subscriber_max_concurrent_streams := 100;
  session_timeout_seconds := 60;
  live_stream_queue_size := 250;
  max_future_block_lookahead := 250;
|}.

Inductive BackfillMode := GapFill | Continuous.

#[export] Instance BackfillMode_eq_dec : EqDecision BackfillMode.
Proof. solve_decision. Defined.

Record BackfillConfig := {
  backfill_enabled : bool;
  mode : BackfillMode;
  peers : list string;
  check_interval_seconds : Z;
  max_batch_size : Z;
}.

Definition default_check_interval : Z := 60.
Definition default_max_batch_size : Z := 1000.

Definition BackfillConfig_default : BackfillConfig := {|
  backfill_enabled := false;
  mode := GapFill;
  peers := [];
  check_interval_seconds := 60;
  max_batch_size := 1000;
|}.

(** The services whose configuration is a single switch. *)
Record ObservabilityConfig := { observability_enabled : bool; listen_address : string }.
Definition ObservabilityConfig_default : ObservabilityConfig :=
  {| observability_enabled := true; listen_address := "0.0.0.0:9600" |}.

Record StateManagementServiceConfig := { state_management_enabled : bool }.
Definition StateManagementServiceConfig_default : StateManagementServiceConfig :=
  {| state_management_enabled := true |}.
Record VerificationServiceConfig := { verification_enabled : bool }.
Definition VerificationServiceConfig_default : VerificationServiceConfig :=
  {| verification_enabled := false |}.
Record BlockAccessServiceConfig := { block_access_enabled : bool }.
Definition BlockAccessServiceConfig_default : BlockAccessServiceConfig :=
  {| block_access_enabled := true |}.
Record ServerStatusServiceConfig := { server_status_enabled : bool }.
Definition ServerStatusServiceConfig_default : ServerStatusServiceConfig :=
  {| server_status_enabled := true |}.
Record QueryServiceConfig := { query_enabled : bool }.
Definition QueryServiceConfig_default : QueryServiceConfig := {| query_enabled := true |}.

Record CoreConfig := {
  log_level : string;
  database_path : string;
  core_start_block_number : Z;
  grpc_address : string;
  grpc_port : Z;
}.

Definition CoreConfig_default : CoreConfig := {|
  log_level := "INFO";
  database_path := "data/database";
  core_start_block_number := 0;
  grpc_address := "0.0.0.0";
  grpc_port := 8090;
|}.

Record PluginConfigs := {
  observability : ObservabilityConfig;
  persistence_service : PersistenceServiceConfig;
  publish_service : PublishServiceConfig;
  verification_service : VerificationServiceConfig;
  block_access_service : BlockAccessServiceConfig;
  server_status_service : ServerStatusServiceConfig;
  state_management_service : StateManagementServiceConfig;
  subscriber_service : SubscriberServiceConfig;
  query_service : QueryServiceConfig;
  backfill : BackfillConfig;
}.

Definition PluginConfigs_default : PluginConfigs := {|
  observability := ObservabilityConfig_default;
  persistence_service := PersistenceServiceConfig_default;
  publish_service := PublishServiceConfig_default;
  verification_service := VerificationServiceConfig_default;
  block_access_service := BlockAccessServiceConfig_default;
  server_status_service := ServerStatusServiceConfig_default;
  state_management_service := StateManagementServiceConfig_default;
  subscriber_service := SubscriberServiceConfig_default;
  query_service := QueryServiceConfig_default;
  backfill := BackfillConfig_default;
|}.

Record Config := {
  core : CoreConfig;
  plugins : PluginConfigs;
}.
