(* ===== verification/ConfigFile.v ===== *)
(** Reading and writing the configuration: the [Deserialize] and [Serialize]
    implementations that crates/rock-node-core/src/config.rs derives with serde.  The
    data formats (the config crate at start-up, the toml crate in the tests) are
    behind the interface [Format].  The attributes of the source are translated: the
    fields of every struct with their names, types and defaults, and the names of the
    backfill modes.  What serde_derive makes of them is library code; [visit_map],
    [visit_seq] and [struct_serde] state its documented behaviour (a table is read key by
    key, a field given twice is an error, unknown keys are ignored, missing fields take
    the value of the container default). *)
From S2P Require Import Prelude Config.

Inductive ConfigError :=
| FormatError (message : string)
| DuplicateField (field : string)
| UnknownVariant (variant : string).

Abbreviation res := (Result ConfigError).

(** A struct is given by named entries or by its fields in their order. *)
Inductive StructInput (V : Type) :=
| Entries (l : list (string * V))
| Elements (l : list V).
Arguments Entries {V} _.
Arguments Elements {V} _.

(** ** What serde asks of a data format *)
Class Format := {
  Val : Type;
  de_bool : Val → res bool;
  (** an integer of the type with the given greatest value *)
  de_unsigned : Z → Val → res Z;
  de_string : Val → res string;
  de_seq : Val → res (list Val);
  de_struct : Val → res (StructInput Val);
  (** the check after an array, given how many elements were left *)
  de_seq_end : nat → res unit;
  (** the name of a variant, and whether nothing comes with it *)
  de_variant : Val → res (string * res unit);
  ser_bool : bool → res Val;
  ser_unsigned : Z → res Val;
  ser_string : string → res Val;
  ser_seq : list Val → res Val;
  ser_struct : list (string * Val) → res Val;
  ser_variant : string → res Val;
}.

Abbreviation i64_MAX := 9223372036854775807 (only parsing).
Abbreviation u16_MAX := 65535 (only parsing).

(** What a format guarantees: an integer has the type that was asked for, and what was
    written is read back; integers only up to [i64::MAX], the entries of a table in
    any order. *)
Class FormatLaws (F : Format) : Prop := {
  de_unsigned_range : ∀ max v x, de_unsigned max v = Ok x → 0 ≤ x ≤ max;
  bool_back : ∀ b, ∃ v, ser_bool b = Ok v ∧ de_bool v = Ok b;
  unsigned_back : ∀ max x, 0 ≤ x ≤ max → x ≤ i64_MAX →
    ∃ v, ser_unsigned x = Ok v ∧ de_unsigned max v = Ok x;
  string_back : ∀ s, ∃ v, ser_string s = Ok v ∧ de_string v = Ok s;
  seq_back : ∀ l, ∃ v, ser_seq l = Ok v ∧ de_seq v = Ok l;
  variant_back : ∀ n, ∃ v, ser_variant n = Ok v ∧ de_variant v = Ok (n, Ok tt);
  struct_back : ∀ l, NoDup l.*1 →
    ∃ v l', ser_struct l = Ok v ∧ de_struct v = Ok (Entries l') ∧ l' ≡ₚ l;
}.

(** ** The derived implementations *)
Section serde.
Context {F : Format}.

Record Serde (A : Type) := MkSerde {
  deserialize : Val → res A;
  serialize : A → res Val;
}.
Arguments deserialize {A} _ _.
Arguments serialize {A} _ _.

(** A field of a struct: its name, its type's implementation and its place. *)
Record Field (T : Type) := MkField {
  field_name : string;
  field_type : Type;
  field_serde : Serde field_type;
  field_get : T → field_type;
  field_set : field_type → T → T;
}.
Arguments MkField {T} _ {_} _ _ _.
Arguments field_name {T} _.
Arguments field_type {T} _.
Arguments field_serde {T} _.
Arguments field_get {T} _ _.
Arguments field_set {T} _ _ _.

Definition find_field {T} (fs : list (Field T)) (k : string) : option (Field T) :=
  List.find (λ f, bool_decide (field_name f = k)) fs.

(** [Visitor::visit_map]: fields that do not come keep their value in [t], unknown keys
    are skipped, a second occurrence of a field is an error. *)
Fixpoint visit_map {T} (fs : list (Field T)) (seen : list string) (t : T)
    (l : list (string * Val)) : res T :=
  match l with
  | [] => Ok t
  | (k, v) :: l =>
      match find_field fs k with
      | None => visit_map fs seen t l
      | Some f =>
          if bool_decide (k ∈ seen) then Err (DuplicateField k)
          else x ← deserialize (field_serde f) v;
               visit_map fs (k :: seen) (field_set f x t) l
      end
  end.

(** [Visitor::visit_seq] and the elements it leaves. *)
Fixpoint visit_seq {T} (fs : list (Field T)) (t : T) (l : list Val) : res (T * list Val) :=
  match fs, l with
  | f :: fs, v :: l => x ← deserialize (field_serde f) v; visit_seq fs (field_set f x t) l
  | _, _ => Ok (t, l)
  end.

Definition struct_serde {T} (fs : list (Field T)) (missing : T) : Serde T := {|
  deserialize v :=
    input ← de_struct v;
    match input with
    | Entries l => visit_map fs [] missing l
    | Elements l =>
        '(t, rest) ← visit_seq fs missing l;
        _ ← de_seq_end (length rest);
        Ok t
    end;
  serialize t :=
    entries ← mapM (λ f, v ← serialize (field_serde f) (field_get f t);
                         Ok (field_name f, v)) fs;
    ser_struct entries
|}.

(** The types of the fields; [usize] is 64 bits wide. *)
Definition serde_bool : Serde bool := MkSerde _ de_bool ser_bool.
Definition serde_u64 : Serde Z := MkSerde _ (de_unsigned u64_MAX) ser_unsigned.
Definition serde_usize : Serde Z := MkSerde _ (de_unsigned u64_MAX) ser_unsigned.
Definition serde_u16 : Serde Z := MkSerde _ (de_unsigned u16_MAX) ser_unsigned.
Definition serde_string : Serde string := MkSerde _ de_string ser_string.
Definition serde_vec {A} (s : Serde A) : Serde (list A) := {|
  deserialize v := l ← de_seq v; mapM (deserialize s) l;
  serialize l := vs ← mapM (serialize s) l; ser_seq vs
|}.

Definition variant_of (n : string) : res BackfillMode :=
  if bool_decide (n ∈ ["gap-fill"; "GapFill"; "gapFill"; "GAPFILL"]) then Ok GapFill
  else if bool_decide (n ∈ ["Continuous"; "continuous"; "CONTINUOUS"]) then Ok Continuous
  else Err (UnknownVariant n).

Definition variant_name (m : BackfillMode) : string :=
  match m with GapFill => "gap-fill" | Continuous => "Continuous" end.

Definition serde_BackfillMode : Serde BackfillMode := {|
  deserialize v :=
    '(n, unit_variant) ← de_variant v;
    m ← variant_of n;
    _ ← unit_variant;
    Ok m;
  serialize m := ser_variant (variant_name m)
|}.

(** ** The structs *)
Definition CoreConfig_fields : list (Field CoreConfig) :=
  [MkField "log_level" serde_string log_level
     (λ x c, Build_CoreConfig x (database_path c) (core_start_block_number c) (grpc_address c)
        (grpc_port c));
   MkField "database_path" serde_string database_path
     (λ x c, Build_CoreConfig (log_level c) x (core_start_block_number c) (grpc_address c)
        (grpc_port c));
   MkField "start_block_number" serde_u64 core_start_block_number
     (λ x c, Build_CoreConfig (log_level c) (database_path c) x (grpc_address c) (grpc_port c));
   MkField "grpc_address" serde_string grpc_address
     (λ x c, Build_CoreConfig (log_level c) (database_path c) (core_start_block_number c) x
        (grpc_port c));
   MkField "grpc_port" serde_u16 grpc_port
     (λ x c, Build_CoreConfig (log_level c) (database_path c) (core_start_block_number c)
        (grpc_address c) x)].

(** The default of the struct, except for the field with a default of its own. *)
Definition CoreConfig_missing : CoreConfig := {|
  log_level := log_level CoreConfig_default;
  database_path := database_path CoreConfig_default;
  core_start_block_number := 0;
  grpc_address := grpc_address CoreConfig_default;
  grpc_port := grpc_port CoreConfig_default;
|}.

Definition serde_CoreConfig : Serde CoreConfig :=
  struct_serde CoreConfig_fields CoreConfig_missing.

Definition ObservabilityConfig_fields : list (Field ObservabilityConfig) :=
  [MkField "enabled" serde_bool observability_enabled
     (λ x c, Build_ObservabilityConfig x (listen_address c));
   MkField "listen_address" serde_string listen_address
     (λ x c, Build_ObservabilityConfig (observability_enabled c) x)].

Definition serde_ObservabilityConfig : Serde ObservabilityConfig :=
  struct_serde ObservabilityConfig_fields ObservabilityConfig_default.

Definition PersistenceServiceConfig_fields : list (Field PersistenceServiceConfig) :=
  [MkField "enabled" serde_bool persistence_enabled
     (λ x c, Build_PersistenceServiceConfig x (cold_storage_path c) (hot_storage_block_count c)
        (archive_batch_size c));
   MkField "cold_storage_path" serde_string cold_storage_path
     (λ x c, Build_PersistenceServiceConfig (persistence_enabled c) x
        (hot_storage_block_count c) (archive_batch_size c));
   MkField "hot_storage_block_count" serde_u64 hot_storage_block_count
     (λ x c, Build_PersistenceServiceConfig (persistence_enabled c) (cold_storage_path c) x
        (archive_batch_size c));
   MkField "archive_batch_size" serde_u64 archive_batch_size
     (λ x c, Build_PersistenceServiceConfig (persistence_enabled c) (cold_storage_path c)
        (hot_storage_block_count c) x)].

Definition serde_PersistenceServiceConfig : Serde PersistenceServiceConfig :=
  struct_serde PersistenceServiceConfig_fields PersistenceServiceConfig_default.

Definition StateManagementServiceConfig_fields : list (Field StateManagementServiceConfig) :=
  [MkField "enabled" serde_bool state_management_enabled
     (λ x c, Build_StateManagementServiceConfig x)].

Definition serde_StateManagementServiceConfig : Serde StateManagementServiceConfig :=
  struct_serde StateManagementServiceConfig_fields StateManagementServiceConfig_default.

Definition PublishServiceConfig_fields : list (Field PublishServiceConfig) :=
  [MkField "enabled" serde_bool publish_enabled
     (λ x c, Build_PublishServiceConfig x (publish_max_concurrent_streams c)
        (persistence_ack_timeout_seconds c) (stale_winner_timeout_seconds c)
        (winner_cleanup_interval_seconds c) (winner_cleanup_threshold_blocks c)
        (max_message_size_bytes c) (max_items_per_set c));
   MkField "max_concurrent_streams" serde_usize publish_max_concurrent_streams
     (λ x c, Build_PublishServiceConfig (publish_enabled c) x
        (persistence_ack_timeout_seconds c) (stale_winner_timeout_seconds c)
        (winner_cleanup_interval_seconds c) (winner_cleanup_threshold_blocks c)
        (max_message_size_bytes c) (max_items_per_set c));
   MkField "persistence_ack_timeout_seconds" serde_u64 persistence_ack_timeout_seconds
     (λ x c, Build_PublishServiceConfig (publish_enabled c) (publish_max_concurrent_streams c) x
        (stale_winner_timeout_seconds c) (winner_cleanup_interval_seconds c)
        (winner_cleanup_threshold_blocks c) (max_message_size_bytes c) (max_items_per_set c));
   MkField "stale_winner_timeout_seconds" serde_u64 stale_winner_timeout_seconds
     (λ x c, Build_PublishServiceConfig (publish_enabled c) (publish_max_concurrent_streams c)
        (persistence_ack_timeout_seconds c) x (winner_cleanup_interval_seconds c)
        (winner_cleanup_threshold_blocks c) (max_message_size_bytes c) (max_items_per_set c));
   MkField "winner_cleanup_interval_seconds" serde_u64 winner_cleanup_interval_seconds
     (λ x c, Build_PublishServiceConfig (publish_enabled c) (publish_max_concurrent_streams c)
        (persistence_ack_timeout_seconds c) (stale_winner_timeout_seconds c) x
        (winner_cleanup_threshold_blocks c) (max_message_size_bytes c) (max_items_per_set c));
   MkField "winner_cleanup_threshold_blocks" serde_u64 winner_cleanup_threshold_blocks
     (λ x c, Build_PublishServiceConfig (publish_enabled c) (publish_max_concurrent_streams c)
        (persistence_ack_timeout_seconds c) (stale_winner_timeout_seconds c)
        (winner_cleanup_interval_seconds c) x (max_message_size_bytes c) (max_items_per_set c));
   MkField "max_message_size_bytes" serde_usize max_message_size_bytes
     (λ x c, Build_PublishServiceConfig (publish_enabled c) (publish_max_concurrent_streams c)
        (persistence_ack_timeout_seconds c) (stale_winner_timeout_seconds c)
        (winner_cleanup_interval_seconds c) (winner_cleanup_threshold_blocks c) x
        (max_items_per_set c));
   MkField "max_items_per_set" serde_usize max_items_per_set
     (λ x c, Build_PublishServiceConfig (publish_enabled c) (publish_max_concurrent_streams c)
        (persistence_ack_timeout_seconds c) (stale_winner_timeout_seconds c)
        (winner_cleanup_interval_seconds c) (winner_cleanup_threshold_blocks c)
        (max_message_size_bytes c) x)].

Definition serde_PublishServiceConfig : Serde PublishServiceConfig :=
  struct_serde PublishServiceConfig_fields PublishServiceConfig_default.

Definition SubscriberServiceConfig_fields : list (Field SubscriberServiceConfig) :=
  [MkField "enabled" serde_bool subscriber_enabled
     (λ x c, Build_SubscriberServiceConfig x (subscriber_max_concurrent_streams c)
        (session_timeout_seconds c) (live_stream_queue_size c) (max_future_block_lookahead c));
   MkField "max_concurrent_streams" serde_usize subscriber_max_concurrent_streams
     (λ x c, Build_SubscriberServiceConfig (subscriber_enabled c) x (session_timeout_seconds c)
        (live_stream_queue_size c) (max_future_block_lookahead c));
   MkField "session_timeout_seconds" serde_u64 session_timeout_seconds
     (λ x c, Build_SubscriberServiceConfig (subscriber_enabled c)
        (subscriber_max_concurrent_streams c) x (live_stream_queue_size c)
        (max_future_block_lookahead c));
   MkField "live_stream_queue_size" serde_usize live_stream_queue_size
     (λ x c, Build_SubscriberServiceConfig (subscriber_enabled c)
        (subscriber_max_concurrent_streams c) (session_timeout_seconds c) x
        (max_future_block_lookahead c));
   MkField "max_future_block_lookahead" serde_u64 max_future_block_lookahead
     (λ x c, Build_SubscriberServiceConfig (subscriber_enabled c)
        (subscriber_max_concurrent_streams c) (session_timeout_seconds c)
        (live_stream_queue_size c) x)].

Definition serde_SubscriberServiceConfig : Serde SubscriberServiceConfig :=
  struct_serde SubscriberServiceConfig_fields SubscriberServiceConfig_default.

Definition VerificationServiceConfig_fields : list (Field VerificationServiceConfig) :=
  [MkField "enabled" serde_bool verification_enabled (λ x c, Build_VerificationServiceConfig x)].

Definition serde_VerificationServiceConfig : Serde VerificationServiceConfig :=
  struct_serde VerificationServiceConfig_fields VerificationServiceConfig_default.

Definition BlockAccessServiceConfig_fields : list (Field BlockAccessServiceConfig) :=
  [MkField "enabled" serde_bool block_access_enabled (λ x c, Build_BlockAccessServiceConfig x)].

Definition serde_BlockAccessServiceConfig : Serde BlockAccessServiceConfig :=
  struct_serde BlockAccessServiceConfig_fields BlockAccessServiceConfig_default.

Definition ServerStatusServiceConfig_fields : list (Field ServerStatusServiceConfig) :=
  [MkField "enabled" serde_bool server_status_enabled (λ x c, Build_ServerStatusServiceConfig x)].

Definition serde_ServerStatusServiceConfig : Serde ServerStatusServiceConfig :=
  struct_serde ServerStatusServiceConfig_fields ServerStatusServiceConfig_default.

Definition QueryServiceConfig_fields : list (Field QueryServiceConfig) :=
  [MkField "enabled" serde_bool query_enabled (λ x c, Build_QueryServiceConfig x)].

Definition serde_QueryServiceConfig : Serde QueryServiceConfig :=
  struct_serde QueryServiceConfig_fields QueryServiceConfig_default.

Definition BackfillConfig_fields : list (Field BackfillConfig) :=
  [MkField "enabled" serde_bool backfill_enabled
     (λ x c, Build_BackfillConfig x (mode c) (peers c) (check_interval_seconds c)
        (max_batch_size c));
   MkField "mode" serde_BackfillMode mode
     (λ x c, Build_BackfillConfig (backfill_enabled c) x (peers c) (check_interval_seconds c)
        (max_batch_size c));
   MkField "peers" (serde_vec serde_string) peers
     (λ x c, Build_BackfillConfig (backfill_enabled c) (mode c) x (check_interval_seconds c)
        (max_batch_size c));
   MkField "check_interval_seconds" serde_u64 check_interval_seconds
     (λ x c, Build_BackfillConfig (backfill_enabled c) (mode c) (peers c) x (max_batch_size c));
   MkField "max_batch_size" serde_u64 max_batch_size
     (λ x c, Build_BackfillConfig (backfill_enabled c) (mode c) (peers c)
        (check_interval_seconds c) x)].

(** The struct has no default of its own here, only its fields have. *)
Definition BackfillConfig_missing : BackfillConfig := {|
  backfill_enabled := false;
  mode := GapFill;
  peers := [];
  check_interval_seconds := default_check_interval;
  max_batch_size := default_max_batch_size;
|}.

Definition serde_BackfillConfig : Serde BackfillConfig :=
  struct_serde BackfillConfig_fields BackfillConfig_missing.

Definition PluginConfigs_fields : list (Field PluginConfigs) :=
  [MkField "observability" serde_ObservabilityConfig observability
     (λ x c, Build_PluginConfigs x (persistence_service c) (publish_service c)
        (verification_service c) (block_access_service c) (server_status_service c)
        (state_management_service c) (subscriber_service c) (query_service c) (backfill c));
   MkField "persistence_service" serde_PersistenceServiceConfig persistence_service
     (λ x c, Build_PluginConfigs (observability c) x (publish_service c)
        (verification_service c) (block_access_service c) (server_status_service c)
        (state_management_service c) (subscriber_service c) (query_service c) (backfill c));
   MkField "publish_service" serde_PublishServiceConfig publish_service
     (λ x c, Build_PluginConfigs (observability c) (persistence_service c) x
        (verification_service c) (block_access_service c) (server_status_service c)
        (state_management_service c) (subscriber_service c) (query_service c) (backfill c));
   MkField "verification_service" serde_VerificationServiceConfig verification_service
     (λ x c, Build_PluginConfigs (observability c) (persistence_service c) (publish_service c) x
        (block_access_service c) (server_status_service c) (state_management_service c)
        (subscriber_service c) (query_service c) (backfill c));
   MkField "block_access_service" serde_BlockAccessServiceConfig block_access_service
     (λ x c, Build_PluginConfigs (observability c) (persistence_service c) (publish_service c)
        (verification_service c) x (server_status_service c) (state_management_service c)
        (subscriber_service c) (query_service c) (backfill c));
   MkField "server_status_service" serde_ServerStatusServiceConfig server_status_service
     (λ x c, Build_PluginConfigs (observability c) (persistence_service c) (publish_service c)
        (verification_service c) (block_access_service c) x (state_management_service c)
        (subscriber_service c) (query_service c) (backfill c));
   MkField "state_management_service" serde_StateManagementServiceConfig state_management_service
     (λ x c, Build_PluginConfigs (observability c) (persistence_service c) (publish_service c)
        (verification_service c) (block_access_service c) (server_status_service c) x
        (subscriber_service c) (query_service c) (backfill c));
   MkField "subscriber_service" serde_SubscriberServiceConfig subscriber_service
     (λ x c, Build_PluginConfigs (observability c) (persistence_service c) (publish_service c)
        (verification_service c) (block_access_service c) (server_status_service c)
        (state_management_service c) x (query_service c) (backfill c));
   MkField "query_service" serde_QueryServiceConfig query_service
     (λ x c, Build_PluginConfigs (observability c) (persistence_service c) (publish_service c)
        (verification_service c) (block_access_service c) (server_status_service c)
        (state_management_service c) (subscriber_service c) x (backfill c));
   MkField "backfill" serde_BackfillConfig backfill
     (λ x c, Build_PluginConfigs (observability c) (persistence_service c) (publish_service c)
        (verification_service c) (block_access_service c) (server_status_service c)
        (state_management_service c) (subscriber_service c) (query_service c) x)].

Definition serde_PluginConfigs : Serde PluginConfigs :=
  struct_serde PluginConfigs_fields PluginConfigs_default.

Definition Config_fields : list (Field Config) :=
  [MkField "core" serde_CoreConfig core (λ x c, Build_Config x (plugins c));
   MkField "plugins" serde_PluginConfigs plugins (λ x c, Build_Config (core c) x)].

Definition Config_missing : Config := {|
  core := CoreConfig_default;
  plugins := PluginConfigs_default;
|}.

Definition serde_Config : Serde Config :=
  struct_serde Config_fields Config_missing.

End serde.
Arguments deserialize {_ _} _ _.
Arguments serialize {_ _} _ _.
Arguments MkField {_ _} _ {_} _ _ _.
Arguments field_name {_ _} _.
Arguments field_type {_ _} _.
Arguments field_serde {_ _} _.
Arguments field_get {_ _} _ _.
Arguments field_set {_ _} _ _ _.

(** The value under a key, and the keys that name a field. *)
Fixpoint assoc {A} (k : string) (l : list (string * A)) : option A :=
  match l with
  | [] => None
  | (k', a) :: l => if decide (k' = k) then Some a else assoc k l
  end.

Lemma assoc_None {A} k (l : list (string * A)) : assoc k l = None ↔ k ∉ l.*1.
Proof.
  induction l as [|[k' a] l IH]; cbn; [set_solver|]. destruct (decide (k' = k)); set_solver.
Qed.

Lemma assoc_elem {A} k a (l : list (string * A)) : assoc k l = Some a → (k, a) ∈ l.
Proof.
  induction l as [|[k' a'] l IH]; cbn; [done|]. case_decide; [|set_solver].
  intros [= ->]. set_solver.
Qed.

Lemma elem_assoc {A} k a (l : list (string * A)) : NoDup l.*1 → (k, a) ∈ l → assoc k l = Some a.
Proof.
  induction l as [|[k' a'] l IH]; cbn; [set_solver|].
  intros [Hk Hl]%NoDup_cons [[= <- <-]|Hin]%elem_of_cons; [by rewrite decide_True|].
  rewrite decide_False; [by apply IH|]. intros ->. apply Hk, list_elem_of_fmap. by exists (k, a).
Qed.

Section serde_theory.
Context {F : Format}.

(** The fields of a struct are its places: each can be read and set on its own, and
    together they are the struct. *)
Record Lawful {T} (fs : list (Field T)) : Prop := {
  names_nodup : NoDup (field_name <$> fs);
  get_set : Forall (λ f, ∀ x t, field_get f (field_set f x t) = x) fs;
  get_set_ne : Forall (λ f, Forall (λ g, field_name f ≠ field_name g →
    ∀ x t, field_get f (field_set g x t) = field_get f t) fs) fs;
  fields_ext : ∀ a b, Forall (λ f, field_get f a = field_get f b) fs → a = b;
}.

Lemma find_field_Some {T} (fs : list (Field T)) k f :
  find_field fs k = Some f → f ∈ fs ∧ field_name f = k.
Proof.
  intros [H1 H2]%List.find_some. by apply list_elem_of_In in H1; apply bool_decide_eq_true in H2.
Qed.

Lemma find_field_None {T} (fs : list (Field T)) k :
  find_field fs k = None → k ∉ field_name <$> fs.
Proof.
  intros H (f & -> & Hf)%list_elem_of_fmap. apply list_elem_of_In in Hf.
  eapply List.find_none in H; [|exact Hf]. by apply bool_decide_eq_false in H.
Qed.

Lemma same_name {T} (fs : list (Field T)) f g :
  NoDup (field_name <$> fs) → f ∈ fs → g ∈ fs → field_name f = field_name g → f = g.
Proof.
  induction fs as [|h fs IH]; [set_solver|]. rewrite fmap_cons.
  intros [Hh Hn]%NoDup_cons [->|Hf]%elem_of_cons [->|Hg]%elem_of_cons E; try done.
  - destruct Hh. rewrite E. by apply list_elem_of_fmap_2.
  - destruct Hh. rewrite <-E. by apply list_elem_of_fmap_2.
  - by apply IH.
Qed.

Definition known {T} (fs : list (Field T)) (l : list (string * Val)) : list string :=
  filter (λ k, k ∈ field_name <$> fs) l.*1.

(** What the entries say of a field: the value that decodes to it, or else [t]'s. *)
Definition field_from {T} (l : list (string * Val)) (t t' : T) (f : Field T) : Prop :=
  match assoc (field_name f) l with
  | Some v => deserialize (field_serde f) v = Ok (field_get f t')
  | None => field_get f t' = field_get f t
  end.

Lemma known_None {T} (fs : list (Field T)) f l :
  f ∈ fs → field_name f ∉ known fs l → assoc (field_name f) l = None.
Proof.
  intros Hf Hk. apply assoc_None. intros Hin. apply Hk. apply list_elem_of_filter.
  split; [by apply list_elem_of_fmap_2|done].
Qed.

Lemma visit_map_known {T} (fs : list (Field T)) f v l t t' x : Lawful fs → f ∈ fs →
  field_name f ∉ known fs l → deserialize (field_serde f) v = Ok x →
  Forall (field_from l (field_set f x t) t') fs ↔
  Forall (field_from ((field_name f, v) :: l) t t') fs.
Proof.
  intros HL Hf Hk Hx. rewrite !Forall_forall. apply forall_proper. intros g.
  apply forall_proper. intros Hg. unfold field_from. cbn. case_decide as E.
  - apply (same_name fs) in E as <-; [|apply HL|done..]. rewrite (known_None fs) by done.
    rewrite (proj1 (Forall_forall _ _) (get_set _ HL) f Hf), Hx. split; [by intros ->|by intros [= ->]].
  - pose proof (get_set_ne _ HL) as Hne. rewrite Forall_forall in Hne.
    specialize (Hne g Hg). rewrite Forall_forall in Hne. by rewrite (Hne f Hf) by congruence.
Qed.

Lemma known_cons_in {T} (fs : list (Field T)) f v l : f ∈ fs →
  known fs ((field_name f, v) :: l) = field_name f :: known fs l.
Proof.
  intros H. unfold known. rewrite fmap_cons. apply filter_cons_True. cbn.
  by apply list_elem_of_fmap_2.
Qed.

Lemma known_cons_out {T} (fs : list (Field T)) k v l t t' : k ∉ field_name <$> fs →
  known fs ((k, v) :: l) = known fs l ∧
  (Forall (field_from ((k, v) :: l) t t') fs ↔ Forall (field_from l t t') fs).
Proof.
  intros H. split; [unfold known; rewrite fmap_cons; by apply filter_cons_False|].
  rewrite !Forall_forall. apply forall_proper. intros f. apply forall_proper. intros Hf.
  unfold field_from. cbn. rewrite decide_False; [done|]. intros ->.
  by apply H, list_elem_of_fmap_2.
Qed.

(** A table decodes exactly when no field comes twice and each field that comes
    decodes; the fields that do not come keep their value, other keys do not count. *)
Lemma visit_map_spec {T} (fs : list (Field T)) l seen t t' : Lawful fs →
  visit_map fs seen t l = Ok t' ↔
  NoDup (known fs l) ∧ (∀ k, k ∈ known fs l → k ∉ seen) ∧ Forall (field_from l t t') fs.
Proof.
  intros HL. revert seen t. induction l as [|[k v] l IH]; intros seen t; cbn [visit_map].
  { split.
    - intros [= ->]. split_and!; [constructor|intros k Hk; by apply elem_of_nil in Hk|].
      by apply Forall_true.
    - intros (_ & _ & H). f_equal. symmetry. apply (fields_ext _ HL), (Forall_impl _ _ _ H).
      by intros f. }
  destruct (find_field fs k) as [f|] eqn:Ef.
  - apply find_field_Some in Ef as [Hf <-]. rewrite known_cons_in, NoDup_cons by done.
    case_bool_decide as Es.
    { split; [done|]. intros (_ & H & _). by destruct (H (field_name f)); [left|]. }
    rewrite bind_Ok. split.
    + intros (x & Hx & (Hn & Hs & Hall)%IH).
      assert (field_name f ∉ known fs l) by (intros Hin; by apply Hs in Hin; set_solver).
      split_and!; [done..|set_solver|]. by apply (visit_map_known fs f v l t t' x).
    + intros ([Hk Hn] & Hs & Hall). pose proof (proj1 (Forall_forall _ _) Hall f Hf) as Hx.
      unfold field_from in Hx. cbn in Hx. rewrite decide_True in Hx by done.
      exists (field_get f t'). split; [done|]. apply IH. split_and!; [done|set_solver|].
      by apply (visit_map_known fs f v l t t').
  - apply find_field_None in Ef. destruct (known_cons_out fs k v l t t' Ef) as [-> ->]. apply IH.
Qed.

(** ** Round trips and ranges *)
Definition round_trips {A} (s : Serde A) (P : A → Prop) : Prop :=
  ∀ a, P a → ∃ v, serialize s a = Ok v ∧ deserialize s v = Ok a.

Definition decodes_into {A} (s : Serde A) (P : A → Prop) : Prop :=
  ∀ v a, deserialize s v = Ok a → P a.

Lemma mapM_Ok {A B} (f : A → res B) (Q : A → B → Prop) l :
  Forall (λ a, ∃ b, f a = Ok b ∧ Q a b) l → ∃ bs, mapM f l = Ok bs ∧ Forall2 Q l bs.
Proof.
  induction 1 as [|a l (b & E & HQ) _ (bs & E' & H')]; [by exists []|].
  exists (b :: bs). cbn. rewrite E. cbn. rewrite E'. cbn. split; [done|by constructor].
Qed.

Lemma Forall2_mapM {A B} (f : A → res B) l bs : Forall2 (λ a b, f a = Ok b) l bs → mapM f l = Ok bs.
Proof. induction 1 as [|a b l bs E _ IH]; [done|]. cbn. rewrite E. cbn. by rewrite IH. Qed.

Lemma struct_round_trips `{!FormatLaws F} {T} (fs : list (Field T)) missing (P : T → Prop) :
  Lawful fs → Forall (λ f, round_trips (field_serde f) (λ x, ∃ t, P t ∧ field_get f t = x)) fs →
  round_trips (struct_serde fs missing) P.
Proof.
  intros HL Hfs t Ht. cbn.
  destruct (mapM_Ok (λ f, v ← serialize (field_serde f) (field_get f t); Ok (field_name f, v))
    (λ f e, e.1 = field_name f ∧ deserialize (field_serde f) e.2 = Ok (field_get f t)) fs)
    as (es & Ees & Hes).
  { apply (Forall_impl _ _ _ Hfs). intros f Hf. destruct (Hf (field_get f t)) as (v & E & D).
    { by exists t. }
    exists (field_name f, v). rewrite E. done. }
  assert (es.*1 = field_name <$> fs) as Hn.
  { clear -Hes. induction Hes as [|f e fs es [E _] _ IH]; [done|]. by rewrite !fmap_cons, E, IH. }
  destruct (struct_back es) as (v & l & Ev & El & Hp); [rewrite Hn; apply HL|].
  exists v. rewrite Ees. cbn. split; [done|]. rewrite El. cbn. apply visit_map_spec; [done|].
  assert (NoDup l.*1) as Hl by (rewrite Hp, Hn; apply HL).
  split_and!; [by apply NoDup_filter|set_solver|]. apply Forall_forall. intros f Hf.
  apply list_elem_of_lookup in Hf as [i Hi].
  destruct (Forall2_lookup_l _ _ _ _ _ Hes Hi) as ([k w] & Hw & Ek & D). cbn in Ek, D. subst k.
  unfold field_from. rewrite (elem_assoc (field_name f) w); [done..|].
  rewrite Hp. by eapply list_elem_of_lookup_2.
Qed.

(** A property of the struct that its default has and each decoded field keeps. *)
Lemma struct_decodes_into {T} (fs : list (Field T)) missing (P : T → Prop) : P missing →
  Forall (λ f, ∀ v x t, deserialize (field_serde f) v = Ok x → P t → P (field_set f x t)) fs →
  decodes_into (struct_serde fs missing) P.
Proof.
  intros Hm Hfs v t. cbn. intros (i & _ & H)%bind_Ok. destruct i as [l|l].
  - revert H. generalize (@nil string). revert missing Hm.
    induction l as [|[k w] l IH]; intros t0 Ht0 seen; cbn; [by intros [= <-]|].
    destruct (find_field fs k) as [f|] eqn:Ef; [|by apply IH].
    apply find_field_Some in Ef as [Hf _]. case_bool_decide; [done|].
    intros (x & Hx & H')%bind_Ok. eapply IH; [|exact H']. rewrite Forall_forall in Hfs.
    by eapply Hfs.
  - apply bind_Ok in H as ([t1 rest] & Hs & H). apply bind_Ok in H as (_ & _ & [= <-]).
    revert l missing Hm Hs. induction Hfs as [|f fs Hf _ IH]; intros [|w l] t0 Ht0; cbn;
      try by intros [= <- <-].
    intros (x & Hx & H')%bind_Ok. eapply IH; [|exact H']. by eapply Hf.
Qed.

Lemma bool_round_trips `{!FormatLaws F} P : round_trips serde_bool P.
Proof. intros b _. apply bool_back. Qed.

Lemma string_round_trips `{!FormatLaws F} P : round_trips serde_string P.
Proof. intros b _. apply string_back. Qed.

Lemma u64_round_trips `{!FormatLaws F} (P : Z → Prop) :
  (∀ x, P x → 0 ≤ x ≤ i64_MAX) → round_trips serde_u64 P.
Proof. intros HP x Hx. specialize (HP x Hx). apply unsigned_back; lia. Qed.

Lemma u16_round_trips `{!FormatLaws F} (P : Z → Prop) :
  (∀ x, P x → 0 ≤ x ≤ u16_MAX) → round_trips serde_u16 P.
Proof. intros HP x Hx. specialize (HP x Hx). apply unsigned_back; lia. Qed.

Lemma vec_round_trips `{!FormatLaws F} {A} (s : Serde A) P :
  round_trips s (λ _, True) → round_trips (serde_vec s) P.
Proof.
  intros Hs l _. cbn.
  destruct (mapM_Ok (serialize s) (λ a v, deserialize s v = Ok a) l) as (vs & E & H).
  { apply Forall_true. intros a. by apply Hs. }
  rewrite E. cbn. destruct (seq_back vs) as (v & Ev & Dv). exists v. split; [done|].
  rewrite Dv. cbn. apply Forall2_mapM. by apply Forall2_flip in H.
Qed.

Lemma mode_round_trips `{!FormatLaws F} P : round_trips serde_BackfillMode P.
Proof.
  intros m _. cbn. destruct (variant_back (variant_name m)) as (v & E & D). exists v.
  split; [done|]. rewrite D. by destruct m.
Qed.

(** A mode is accepted under exactly the names of the source. *)
Lemma mode_decodes v m :
  deserialize serde_BackfillMode v = Ok m ↔
  ∃ n, de_variant v = Ok (n, Ok tt) ∧
    n ∈ match m with
        | GapFill => ["gap-fill"; "GapFill"; "gapFill"; "GAPFILL"]
        | Continuous => ["Continuous"; "continuous"; "CONTINUOUS"]
        end.
Proof.
  cbn. unfold variant_of. split.
  - intros ([n u] & -> & H)%bind_Ok. exists n.
    case_bool_decide; [|case_bool_decide; [|done]]; cbn in H; destruct u as [[]|]; cbn in H;
      by simplify_eq.
  - intros (n & -> & Hn). cbn. destruct m.
    + by rewrite bool_decide_true.
    + rewrite bool_decide_false; [by rewrite bool_decide_true|]. set_solver.
Qed.

(** ** Every struct of the configuration *)
Ltac all_fields := repeat (apply Forall_cons; split); try apply Forall_nil; try done.

Ltac lawful :=
  match goal with |- Lawful ?fs => let l := eval hnf in fs in change (Lawful l) end;
  constructor;
  [by apply (bool_decide_unpack _)
  |all_fields
  |all_fields; all_fields; intros Hne x t; first [reflexivity|by destruct Hne]
  |intros [] []; rewrite !Forall_cons; cbn; intuition congruence].

Lemma CoreConfig_lawful : Lawful CoreConfig_fields.
Proof. lawful. Qed.
Lemma ObservabilityConfig_lawful : Lawful ObservabilityConfig_fields.
Proof. lawful. Qed.
Lemma PersistenceServiceConfig_lawful : Lawful PersistenceServiceConfig_fields.
Proof. lawful. Qed.
Lemma StateManagementServiceConfig_lawful : Lawful StateManagementServiceConfig_fields.
Proof. lawful. Qed.
Lemma PublishServiceConfig_lawful : Lawful PublishServiceConfig_fields.
Proof. lawful. Qed.
Lemma SubscriberServiceConfig_lawful : Lawful SubscriberServiceConfig_fields.
Proof. lawful. Qed.
Lemma VerificationServiceConfig_lawful : Lawful VerificationServiceConfig_fields.
Proof. lawful. Qed.
Lemma BlockAccessServiceConfig_lawful : Lawful BlockAccessServiceConfig_fields.
Proof. lawful. Qed.
Lemma ServerStatusServiceConfig_lawful : Lawful ServerStatusServiceConfig_fields.
Proof. lawful. Qed.
Lemma QueryServiceConfig_lawful : Lawful QueryServiceConfig_fields.
Proof. lawful. Qed.
Lemma BackfillConfig_lawful : Lawful BackfillConfig_fields.
Proof. lawful. Qed.
Lemma PluginConfigs_lawful : Lawful PluginConfigs_fields.
Proof. lawful. Qed.
Lemma Config_lawful : Lawful Config_fields.
Proof. lawful. Qed.

(** The numbers of a configuration, and what it means that they lie below a bound. *)
Definition persistence_numbers (c : PersistenceServiceConfig) : list Z :=
  [hot_storage_block_count c; archive_batch_size c].
Definition publish_numbers (c : PublishServiceConfig) : list Z :=
  [publish_max_concurrent_streams c; persistence_ack_timeout_seconds c;
   stale_winner_timeout_seconds c; winner_cleanup_interval_seconds c;
   winner_cleanup_threshold_blocks c; max_message_size_bytes c; max_items_per_set c].
Definition subscriber_numbers (c : SubscriberServiceConfig) : list Z :=
  [subscriber_max_concurrent_streams c; session_timeout_seconds c; live_stream_queue_size c;
   max_future_block_lookahead c].
Definition backfill_numbers (c : BackfillConfig) : list Z :=
  [check_interval_seconds c; max_batch_size c].

Definition below (b : Z) (l : list Z) : Prop := Forall (λ x, 0 ≤ x ≤ b) l.

Definition core_in (b : Z) (c : CoreConfig) : Prop :=
  0 ≤ core_start_block_number c ≤ b ∧ 0 ≤ grpc_port c ≤ u16_MAX.
Definition plugins_below (b : Z) (c : PluginConfigs) : Prop :=
  below b (persistence_numbers (persistence_service c)) ∧
  below b (publish_numbers (publish_service c)) ∧
  below b (subscriber_numbers (subscriber_service c)) ∧
  below b (backfill_numbers (backfill c)).
Definition config_in (b : Z) (c : Config) : Prop :=
  core_in b (core c) ∧ plugins_below b (plugins c).

(** Splits what is known of the numbers of a struct. *)
Ltac below_inv :=
  unfold below, core_in, plugins_below, config_in, persistence_numbers, publish_numbers,
    subscriber_numbers, backfill_numbers in *;
  repeat match goal with
  | H : ∃ _, _ |- _ => destruct H as (? & ? & ?)
  | H : Forall _ (_ :: _) |- _ => apply Forall_cons in H as [? H]
  | H : _ ∧ _ |- _ => destruct H
  end.

Create HintDb serde.
#[local] Hint Resolve bool_round_trips string_round_trips mode_round_trips : serde.
#[local] Hint Extern 2 (round_trips serde_u64 _) =>
  apply u64_round_trips; intros; below_inv; subst; lia : serde.
#[local] Hint Extern 2 (round_trips serde_usize _) =>
  apply u64_round_trips; intros; below_inv; subst; lia : serde.
#[local] Hint Extern 2 (round_trips serde_u16 _) =>
  apply u16_round_trips; intros; below_inv; subst; lia : serde.
#[local] Hint Extern 2 (round_trips (serde_vec _) _) => apply vec_round_trips : serde.

Ltac round_trips_by lawful := apply (struct_round_trips _ _ _ lawful); all_fields; cbn; auto with serde.

Section back.
Context `{!FormatLaws F}.

Lemma round_trips_weaken {A} (s : Serde A) (P Q : A → Prop) :
  round_trips s P → (∀ a, Q a → P a) → round_trips s Q.
Proof. intros H HQ a Ha. by apply H, HQ. Qed.

Lemma core_back : round_trips serde_CoreConfig (core_in i64_MAX).
Proof. round_trips_by CoreConfig_lawful. Qed.
Lemma observability_back P : round_trips serde_ObservabilityConfig P.
Proof. round_trips_by ObservabilityConfig_lawful. Qed.
Lemma persistence_back :
  round_trips serde_PersistenceServiceConfig (λ c, below i64_MAX (persistence_numbers c)).
Proof. round_trips_by PersistenceServiceConfig_lawful. Qed.
Lemma state_management_back P : round_trips serde_StateManagementServiceConfig P.
Proof. round_trips_by StateManagementServiceConfig_lawful. Qed.
Lemma publish_back :
  round_trips serde_PublishServiceConfig (λ c, below i64_MAX (publish_numbers c)).
Proof. round_trips_by PublishServiceConfig_lawful. Qed.
Lemma subscriber_back :
  round_trips serde_SubscriberServiceConfig (λ c, below i64_MAX (subscriber_numbers c)).
Proof. round_trips_by SubscriberServiceConfig_lawful. Qed.
Lemma verification_back P : round_trips serde_VerificationServiceConfig P.
Proof. round_trips_by VerificationServiceConfig_lawful. Qed.
Lemma block_access_back P : round_trips serde_BlockAccessServiceConfig P.
Proof. round_trips_by BlockAccessServiceConfig_lawful. Qed.
Lemma server_status_back P : round_trips serde_ServerStatusServiceConfig P.
Proof. round_trips_by ServerStatusServiceConfig_lawful. Qed.
Lemma query_back P : round_trips serde_QueryServiceConfig P.
Proof. round_trips_by QueryServiceConfig_lawful. Qed.
Lemma backfill_back :
  round_trips serde_BackfillConfig (λ c, below i64_MAX (backfill_numbers c)).
Proof. round_trips_by BackfillConfig_lawful. Qed.

Lemma plugins_back : round_trips serde_PluginConfigs (plugins_below i64_MAX).
Proof.
  apply (struct_round_trips _ _ _ PluginConfigs_lawful). all_fields; cbn;
    first [by auto using observability_back, state_management_back, verification_back,
      block_access_back, server_status_back, query_back|idtac].
  - apply (round_trips_weaken _ _ _ persistence_back). by intros a (t & (? & ? & ? & ?) & <-).
  - apply (round_trips_weaken _ _ _ publish_back). by intros a (t & (? & ? & ? & ?) & <-).
  - apply (round_trips_weaken _ _ _ subscriber_back). by intros a (t & (? & ? & ? & ?) & <-).
  - apply (round_trips_weaken _ _ _ backfill_back). by intros a (t & (? & ? & ? & ?) & <-).
Qed.

Lemma config_back : round_trips serde_Config (config_in i64_MAX).
Proof.
  apply (struct_round_trips _ _ _ Config_lawful). all_fields; cbn.
  - apply (round_trips_weaken _ _ _ core_back). by intros a (t & [? ?] & <-).
  - apply (round_trips_weaken _ _ _ plugins_back). by intros a (t & [? ?] & <-).
Qed.
End back.

(** What is decoded has the types of the fields, whatever the input. *)
Ltac numbers := below_inv; cbn in *; repeat first [lia|cbn; lia|apply Forall_nil|apply Forall_cons|split].

Ltac in_range :=
  apply struct_decodes_into; [numbers|];
  all_fields; intros v x t Hx Ht; cbn in Hx |- *;
  try apply de_unsigned_range in Hx; numbers.

Section ranges.
Context `{!FormatLaws F}.

Lemma core_range : decodes_into serde_CoreConfig (core_in u64_MAX).
Proof. in_range. Qed.
Lemma persistence_range :
  decodes_into serde_PersistenceServiceConfig (λ c, below u64_MAX (persistence_numbers c)).
Proof. in_range. Qed.
Lemma publish_range :
  decodes_into serde_PublishServiceConfig (λ c, below u64_MAX (publish_numbers c)).
Proof. in_range. Qed.
Lemma subscriber_range :
  decodes_into serde_SubscriberServiceConfig (λ c, below u64_MAX (subscriber_numbers c)).
Proof. in_range. Qed.
Lemma backfill_range :
  decodes_into serde_BackfillConfig (λ c, below u64_MAX (backfill_numbers c)).
Proof. in_range. Qed.

Lemma plugins_range : decodes_into serde_PluginConfigs (plugins_below u64_MAX).
Proof.
  apply struct_decodes_into.
  { numbers. }
  all_fields; intros v x t Hx (H1 & H2 & H3 & H4); split_and!; cbn; try done.
  - by eapply persistence_range.
  - by eapply publish_range.
  - by eapply subscriber_range.
  - by eapply backfill_range.
Qed.

Lemma config_range : decodes_into serde_Config (config_in u64_MAX).
Proof.
  apply struct_decodes_into.
  { numbers. }
  all_fields; intros v x t Hx [H1 H2]; split; cbn; try done.
  - by eapply core_range.
  - by eapply plugins_range.
Qed.
End ranges.
End serde_theory.

(** ** TOML values: the variants of [toml::Value], with numbers that are not integers
    and dates as their text.  As a format they are read strictly, without conversions
    between their kinds, and a table keeps the order of its entries. *)
Inductive Value :=
| VString (s : string)
| VInteger (x : Z)
| VFloat (text : string)
| VBoolean (b : bool)
| VDatetime (text : string)
| VArray (l : list Value)
| VTable (l : list (string * Value)).

Definition wrong {A} (expected : string) : res A := Err (FormatError ("expected " +:+ expected)).

Definition toml_format : Format := {|
  Val := Value;
  de_bool v := match v with VBoolean b => Ok b | _ => wrong "a boolean" end;
  de_unsigned max v :=
    match v with
    | VInteger x =>
        if bool_decide (0 ≤ x ≤ max) then Ok x else Err (FormatError "integer out of range")
    | _ => wrong "an integer"
    end;
  de_string v := match v with VString s => Ok s | _ => wrong "a string" end;
  de_seq v := match v with VArray l => Ok l | _ => wrong "a sequence" end;
  de_struct v :=
    match v with
    | VTable l => Ok (Entries l)
    | VArray l => Ok (Elements l)
    | _ => wrong "a table"
    end;
  de_seq_end n := if bool_decide (n = 0%nat) then Ok tt else wrong "fewer elements in array";
  de_variant v :=
    match v with
    | VString s => Ok (s, Ok tt)
    | VTable [(s, VTable [])] => Ok (s, Ok tt)
    | VTable [(s, _)] => Ok (s, wrong "an empty table")
    | _ => wrong "a variant"
    end;
  ser_bool b := Ok (VBoolean b);
  ser_unsigned x :=
    if bool_decide (x ≤ i64_MAX) then Ok (VInteger x) else Err (FormatError "u64 value was too large");
  ser_string s := Ok (VString s);
  ser_seq l := Ok (VArray l);
  ser_struct l := Ok (VTable l);
  ser_variant n := Ok (VString n);
|}.

#[export] Instance toml_format_laws : FormatLaws toml_format.
Proof.
  constructor; [|by eauto| |by eauto..|].
  - intros max [] y; cbn; try done. case_bool_decide; [|done]. by intros [= <-].
  - intros max x H1 H2. cbn. rewrite bool_decide_true by lia. eexists. split; [done|].
    cbn. by rewrite bool_decide_true.
  - intros l _. by exists (VTable l), l.
Qed.

(** The structs of config.rs with their fields and the values of missing fields. *)
Inductive config_struct `{Format} : ∀ T, list (Field T) → T → Prop :=
| is_Config : config_struct Config Config_fields Config_missing
| is_CoreConfig : config_struct CoreConfig CoreConfig_fields CoreConfig_missing
| is_PluginConfigs : config_struct PluginConfigs PluginConfigs_fields PluginConfigs_default
| is_ObservabilityConfig :
    config_struct ObservabilityConfig ObservabilityConfig_fields ObservabilityConfig_default
| is_PersistenceServiceConfig :
    config_struct PersistenceServiceConfig PersistenceServiceConfig_fields
      PersistenceServiceConfig_default
| is_StateManagementServiceConfig :
    config_struct StateManagementServiceConfig StateManagementServiceConfig_fields
      StateManagementServiceConfig_default
| is_PublishServiceConfig :
    config_struct PublishServiceConfig PublishServiceConfig_fields PublishServiceConfig_default
| is_SubscriberServiceConfig :
    config_struct SubscriberServiceConfig SubscriberServiceConfig_fields
      SubscriberServiceConfig_default
| is_VerificationServiceConfig :
    config_struct VerificationServiceConfig VerificationServiceConfig_fields
      VerificationServiceConfig_default
| is_BlockAccessServiceConfig :
    config_struct BlockAccessServiceConfig BlockAccessServiceConfig_fields
      BlockAccessServiceConfig_default
| is_ServerStatusServiceConfig :
    config_struct ServerStatusServiceConfig ServerStatusServiceConfig_fields
      ServerStatusServiceConfig_default
| is_QueryServiceConfig :
    config_struct QueryServiceConfig QueryServiceConfig_fields QueryServiceConfig_default
| is_BackfillConfig : config_struct BackfillConfig BackfillConfig_fields BackfillConfig_missing.

Lemma config_struct_lawful `{Format} T fs missing : config_struct T fs missing → Lawful fs.
Proof.
  destruct 1; auto using Config_lawful, CoreConfig_lawful, PluginConfigs_lawful,
    ObservabilityConfig_lawful, PersistenceServiceConfig_lawful,
    StateManagementServiceConfig_lawful, PublishServiceConfig_lawful,
    SubscriberServiceConfig_lawful, VerificationServiceConfig_lawful,
    BlockAccessServiceConfig_lawful, ServerStatusServiceConfig_lawful,
    QueryServiceConfig_lawful, BackfillConfig_lawful.
Qed.

(** The defaults of the fields agree with the defaults of the structs. *)
Lemma missing_is_default :
  CoreConfig_missing = CoreConfig_default ∧ BackfillConfig_missing = BackfillConfig_default.
Proof. done. Qed.

(** A table under a name that no field of the struct has changes nothing: the table
    [backfill] inside a [BackfillConfig], for example, whatever it holds. *)
Lemma unknown_key_ignored `{Format} T fs missing v l k w t : config_struct T fs missing →
  k ∉ field_name <$> fs → de_struct v = Ok (Entries l) →
  ∀ v', de_struct v' = Ok (Entries ((k, w) :: l)) →
  deserialize (struct_serde fs missing) v' = Ok t ↔ deserialize (struct_serde fs missing) v = Ok t.
Proof.
  intros Hc Hk Ev v' Ev'. apply config_struct_lawful in Hc.
  cbn [deserialize struct_serde]. rewrite Ev, Ev'. cbn [mbind Result_bind].
  rewrite !visit_map_spec by done. by destruct (known_cons_out fs k w l missing t Hk) as [-> ->].
Qed.

(** ** Values that are not accepted *)
Section rejection.
Context {F : Format}.

(** Somewhere in the value there is one that its field does not accept, or a field
    that is given twice. *)
Inductive rejects : ∀ A, Serde A → Val → Prop :=
| rejects_here A (s : Serde A) v e : deserialize s v = Err e → rejects A s v
| rejects_field T fs missing v l f w :
    config_struct T fs missing → de_struct v = Ok (Entries l) → f ∈ fs →
    (field_name f, w) ∈ l → rejects _ (field_serde f) w → rejects T (struct_serde fs missing) v
| rejects_twice T fs missing v l :
    config_struct T fs missing → de_struct v = Ok (Entries l) → ¬ NoDup (known fs l) →
    rejects T (struct_serde fs missing) v.

Lemma find_field_in {T} (fs : list (Field T)) f :
  NoDup (field_name <$> fs) → f ∈ fs → find_field fs (field_name f) = Some f.
Proof.
  intros Hn Hf. destruct (find_field fs (field_name f)) as [g|] eqn:E.
  - apply find_field_Some in E as [Hg En]. f_equal. by apply (same_name fs).
  - apply find_field_None in E. by destruct E; apply list_elem_of_fmap_2.
Qed.

Lemma visit_map_bad {T} (fs : list (Field T)) f w e l seen t :
  NoDup (field_name <$> fs) → f ∈ fs → (field_name f, w) ∈ l →
  deserialize (field_serde f) w = Err e → ∃ e', visit_map fs seen t l = Err e'.
Proof.
  intros Hn Hf Hin Hw. revert seen t. induction l as [|[k v] l IH]; intros seen t.
  { by apply elem_of_nil in Hin. }
  cbn [visit_map]. apply elem_of_cons in Hin as [[= <- <-]|Hin].
  - rewrite find_field_in by done. case_bool_decide; [by eauto|]. rewrite Hw. cbn. by eauto.
  - specialize (IH Hin). destruct (find_field fs k) as [g|]; [|by apply IH].
    case_bool_decide; [by eauto|]. destruct (deserialize _ v); cbn; [apply IH|by eauto].
Qed.

Lemma rejects_fails A (s : Serde A) v : rejects A s v → ∃ e, deserialize s v = Err e.
Proof.
  induction 1 as [A s v e E|T fs missing v l f w Hc Ev Hf Hin _ [e He]|T fs missing v l Hc Ev Hn].
  - by eauto.
  - cbn [deserialize struct_serde]. rewrite Ev. cbn [mbind Result_bind].
    eapply visit_map_bad; [by eapply names_nodup, config_struct_lawful|done..].
  - destruct (deserialize (struct_serde fs missing) v) as [t|e] eqn:E; [|by eauto].
    cbn [deserialize struct_serde] in E. rewrite Ev in E. cbn [mbind Result_bind] in E.
    apply visit_map_spec in E as [H _]; [done|by eapply config_struct_lawful].
Qed.
End rejection.
