(* ===== verification/PersistenceService.v ===== *)
(** The persistence service: crates/rock-node-persistence-plugin/src/service.rs.

    [write_block] reads the metadata, stages one write batch and commits it; the
    two halves are separate definitions so that concurrent callers can be
    interleaved.  The metric updates are in [Accounting]; logs are left out. *)
From S2P Require Import Prelude Config Database Block StateManager HotTier.

Section write_path.
Context {RDB : RocksDB} {CODEC : Codec}.
Implicit Types (db : DB) (batch : WriteBatch).

(** The [while next_to_check <= new_latest_persisted] loop.  The fuel is the
    number of blocks up to the latest one. *)
Fixpoint walk db (new_latest : Z) (fuel : nat) (current_highest next_to_check : Z)
    : Result Error Z :=
  if next_to_check <=? new_latest then
    match fuel with
    | O => Err EDiverge
    | S fuel =>
        gap ← find_containing_gap db next_to_check;
        match gap with
        | Some _ => Ok current_highest
        | None => walk db new_latest fuel next_to_check (u64_add next_to_check 1)
        end
    end
  else Ok current_highest.

Definition walk_fuel (new_latest next_to_check : Z) : nat :=
  Z.to_nat (new_latest + 1 - next_to_check).

(** The three-way branch on [highest_contiguous]. *)
Definition update_contiguous db (block_number new_latest current_highest : Z) batch
    : Result Error WriteBatch :=
  let next := u64_add current_highest 1 in
  if next <? block_number then
    add_gap_range db next (u64_sub block_number 1) batch
  else if block_number =? next then
    let next_to_check := u64_add block_number 1 in
    h ← walk db new_latest (walk_fuel new_latest next_to_check) block_number next_to_check;
    set_highest_contiguous db h batch
  else
    batch ← fill_gap_block db block_number batch;
    h ← walk db new_latest (walk_fuel new_latest next) current_highest next;
    set_highest_contiguous db h batch.

(** [write_block] up to [commit_batch]: the batch and [was_gap_fill]. *)
Definition stage_block db (start_block_number : Z) (block : Block)
    : Result Error (WriteBatch * bool) :=
  block_number ← get_block_number block;
  gap ← find_containing_gap db block_number;
  let was_gap_fill := match gap with Some _ => true | None => false end in
  batch ← add_block_to_batch db block block_number [];
  latest_opt ← get_latest_persisted db;
  let latest_persisted := default (saturating_sub start_block_number 1) latest_opt in
  let new_latest_persisted := Z.max latest_persisted block_number in
  batch ← (if latest_persisted <? new_latest_persisted
           then set_latest_persisted db new_latest_persisted batch else Ok batch);
  te ← get_true_earliest_persisted db;
  batch ← match te with
          | None => set_true_earliest_persisted db block_number batch
          | Some _ => Ok batch
          end;
  current_highest ← get_highest_contiguous db;
  batch ← update_contiguous db block_number new_latest_persisted current_highest batch;
  batch ← initialize_earliest_hot db block_number batch;
  Ok (batch, was_gap_fill).

(** After the commit: should the archiver be notified?  A zero batch size makes
    the division panic. *)
Definition notify_archiver db (cfg : PersistenceServiceConfig) (was_gap_fill : bool)
    (block_number : Z) : Result Error bool :=
  if was_gap_fill then
    let batch_size := archive_batch_size cfg in
    if batch_size =? 0 then Err EPanic
    else is_batch_skipped db ((block_number / batch_size) * batch_size)
  else Ok false.

(** The store after the call, and whether it triggered the archiver. *)
Definition write_block db (cfg : PersistenceServiceConfig) (start_block_number : Z)
    (block : Block) : DB * Result Error bool :=
  match stage_block db start_block_number block with
  | Err e => (db, Err e)
  | Ok (batch, was_gap_fill) =>
      match commit_batch db batch with
      | Err e => (db, Err e)
      | Ok db' =>
          (db', n ← get_block_number block; notify_archiver db' cfg was_gap_fill n)
      end
  end.
End write_path.
#[global] Arguments update_contiguous : simpl never.

(** ** Abstract state

    What the store says, decoded: the four metadata numbers and the gap table. *)
Record PState := {
  p_latest : option Z;
  p_true_earliest : option Z;
  p_earliest_hot : option Z;
  p_contiguous : Z;
  p_gaps : gmap Z Z;
}.

(** [latest_persisted] as [write_block] reads it. *)
Definition eff_latest (start : Z) (p : PState) : Z :=
  default (saturating_sub start 1) (p_latest p).

(** [h] is where the walk from [base] stops: no gap on the way, and the number
    after [h] is in a gap unless [latest] is reached. *)
Definition walked (g : gmap Z Z) (latest base h : Z) : Prop :=
  base ≤ h ≤ Z.max base latest ∧ (∀ m, base < m ≤ h → ¬ in_gap g m) ∧
  (h < latest → in_gap g (h + 1)).

(** What writing block [n] does to the contiguous mark and the gap set. *)
Definition contiguous_step (n latest : Z) (h : Z) (g : gmap Z Z) (h' : Z) (g' : gmap Z Z)
    : Prop :=
  (h + 1 < n ∧ h' = h ∧ ∀ m, in_gap g' m ↔ h + 1 ≤ m ≤ n - 1 ∨ in_gap g m) ∨
  (n = h + 1 ∧ walked g latest n h' ∧ ∀ m, in_gap g' m ↔ in_gap g m) ∨
  (n ≤ h ∧ walked g latest h h' ∧ ∀ m, in_gap g' m ↔ in_gap g m ∧ m ≠ n).

(** The specification of [write_block] for block number [n]. *)
Definition spec_write (start n : Z) (p p' : PState) : Prop :=
  let latest' := Z.max (eff_latest start p) n in
  p_latest p' = (if eff_latest start p <? latest' then Some latest' else p_latest p) ∧
  p_true_earliest p' = Some (default n (p_true_earliest p)) ∧
  p_earliest_hot p' = Some (default n (p_earliest_hot p)) ∧
  contiguous_step n latest' (p_contiguous p) (p_gaps p) (p_contiguous p') (p_gaps p').

Section write_theory.
Context {RDB : RocksDB} {LAWS : RocksDBLaws} {CODEC : Codec} {CLAWS : CodecLaws}.
Implicit Types (db : DB) (batch : WriteBatch) (p : PState).

Definition p_repr db p : Prop :=
  gaps_ok db (p_gaps p) ∧
  meta_is db LATEST_PERSISTED_KEY (p_latest p) ∧
  meta_is db TRUE_EARLIEST_PERSISTED_KEY (p_true_earliest p) ∧
  meta_is db EARLIEST_HOT_KEY (p_earliest_hot p) ∧
  meta_is db HIGHEST_CONTIGUOUS_KEY (Some (p_contiguous p)).

(** The walk terminates and finds the first gap after [h], if there is one. *)
Lemma walk_ok db g latest h :
  gaps_ok db g → 0 ≤ h → 0 ≤ latest < u64_MAX →
  ∃ h', walk db latest (walk_fuel latest (h + 1)) h (h + 1) = Ok h' ∧
    walked g latest h h'.
Proof.
  intros Hg Hh Hl. remember (walk_fuel latest (h + 1)) as fuel eqn:Ef.
  unfold walk_fuel in Ef. revert h Hh Ef. induction fuel as [|fuel IH]; intros h Hh Ef; cbn.
  - destruct (Z.leb_spec (h + 1) latest); [lia|].
    exists h. split; [done|]. unfold walked. split_and!; lia.
  - destruct (Z.leb_spec (h + 1) latest) as [Hle|]; [|lia].
    destruct (find_containing_gap_ok db g (h + 1) Hg ltac:(u64_lia)) as (o & -> & Ho). cbn.
    destruct o as [[s e]|].
    + exists h. split; [done|]. destruct Ho. unfold walked. split_and!; try lia.
      intros _. by exists s, e.
    + rewrite u64_add_small by u64_lia.
      destruct (IH (h + 1)) as (h' & -> & Hb & Hno & Hstop); [lia|lia|].
      exists h'. split; [done|]. unfold walked. split_and!; try lia; [|done].
      intros m Hm. destruct (decide (m = h + 1)) as [->|]; [done|]. apply Hno. lia.
Qed.

(** A batch that touches only the gap and metadata families. *)
Definition only_state_cfs (ops : WriteBatch) : Prop :=
  Forall (λ op, op_cf op = CF_GAPS ∨ op_cf op = CF_METADATA) ops.

Lemma apply_other_cf cf cf' m ops :
  cf ≠ cf' → Forall (λ op, op_cf op = cf') ops → apply_batch cf m ops = m.
Proof.
  intros Hne H. apply apply_batch_other. eapply Forall_impl; [exact H|].
  cbn. intros op ->. by apply not_eq_sym.
Qed.

Lemma update_contiguous_ok db g n latest h batch :
  gaps_ok db g → is_u64 n → 0 ≤ h → n ≤ latest → h < u64_MAX → 0 ≤ latest < u64_MAX →
  entries db CF_METADATA !! HIGHEST_CONTIGUOUS_KEY = Some (u64_to_be h) →
  ∃ ops g' h', update_contiguous db n latest h batch = Ok (batch ++ ops) ∧
    only_state_cfs ops ∧ contiguous_step n latest h g h' g' ∧
    gaps_repr (apply_batch CF_GAPS (entries db CF_GAPS) ops) g' ∧
    ∀ m, m !! HIGHEST_CONTIGUOUS_KEY = Some (u64_to_be h) →
      apply_batch CF_METADATA m ops = <[HIGHEST_CONTIGUOUS_KEY := u64_to_be h']> m.
Proof.
  intros Hg Hn Hh Hnl Hhm Hl Hm. unfold update_contiguous.
  rewrite (u64_add_small h 1) by u64_lia.
  destruct (Z.ltb_spec (h + 1) n) as [Hlt|Hge].
  { rewrite u64_sub_small by u64_lia.
    destruct (add_gap_range_ok db g (h + 1) (n - 1) batch) as (ops & g' & E & Hc & Hr & Hs);
      [done|u64_lia|u64_lia|lia|].
    exists ops, g', h. split_and!; [done| |by left|done|].
    - eapply Forall_impl; [exact Hc|]. cbn. auto.
    - intros m Hmk. rewrite (apply_other_cf _ CF_GAPS) by done.
      by rewrite insert_id. }
  destruct (Z.eqb_spec n (h + 1)) as [->|Hne].
  { rewrite u64_add_small by u64_lia.
    destruct (walk_ok db g latest (h + 1)) as (h' & -> & Hw); [done|lia|done|]. cbn.
    unfold set_highest_contiguous. rewrite set_u64_ok by apply Hg.
    eexists _, g, h'. split; [done|]. split_and!.
    - apply Forall_singleton. by right.
    - right; left. split_and!; [done|done|]. done.
    - batch_simpl. apply Hg.
    - intros m _. by batch_simpl. }
  destruct (fill_gap_block_ok db g n batch Hg Hn) as (ops & g' & -> & Hc & Hr & Hs). cbn.
  destruct (walk_ok db g latest h) as (h' & -> & Hw); [done..|]. cbn.
  unfold set_highest_contiguous. rewrite set_u64_ok by apply Hg.
  eexists (ops ++ _), g', h'. split; [by rewrite app_assoc|]. split_and!.
  - apply Forall_app. split; [|apply Forall_singleton; by right].
    eapply Forall_impl; [exact Hc|]. cbn. auto.
  - right; right. split_and!; [lia|done|done].
  - batch_simpl. done.
  - intros m _. batch_simpl. by rewrite (apply_other_cf _ CF_GAPS).
Qed.

Lemma get_highest_contiguous_ok db p :
  p_repr db p → get_highest_contiguous db = Ok (p_contiguous p).
Proof.
  intros (Hg & _ & _ & _ & Hc). unfold get_highest_contiguous.
  rewrite (get_u64_opt_ok _ _ _ (proj1 Hg) Hc). done.
Qed.

(** The metadata operations of one [write_block]. *)
Definition latest_ops (start n : Z) p : WriteBatch :=
  let latest := Z.max (eff_latest start p) n in
  if eff_latest start p <? latest
  then [BPut CF_METADATA LATEST_PERSISTED_KEY (u64_to_be latest)] else [].
Definition init_ops (key : bytes) (n : Z) (o : option Z) : WriteBatch :=
  match o with
  | None => [BPut CF_METADATA key (u64_to_be n)]
  | Some _ => []
  end.

(** The whole batch; [ops] is what [update_contiguous] adds. *)
Definition staged_ops (start n : Z) p (v : bytes) (ops : WriteBatch) : WriteBatch :=
  [BPut CF_HOT_BLOCKS (u64_to_be n) v] ++ latest_ops start n p
  ++ init_ops TRUE_EARLIEST_PERSISTED_KEY n (p_true_earliest p)
  ++ ops ++ init_ops EARLIEST_HOT_KEY n (p_earliest_hot p).

Lemma eff_latest_nonneg db start p :
  meta_is db LATEST_PERSISTED_KEY (p_latest p) → 0 ≤ eff_latest start p.
Proof.
  intros [_ Hu]. unfold eff_latest. destruct (p_latest p) as [l|]; [|cbn; u64_lia].
  destruct (Hu l eq_refl). cbn. lia.
Qed.

Lemma stage_block_ok db p start b n :
  p_repr db p → wf_block b → fits b → get_block_number b = Ok n →
  n < u64_MAX → is_u64 start → eff_latest start p < u64_MAX → p_contiguous p < u64_MAX →
  ∃ v ops g' h' w,
    stage_block db start b = Ok (staged_ops start n p v ops, w) ∧
    bincode_deserialize v = Ok (MkStored (encode_to_vec b)) ∧
    only_state_cfs ops ∧
    contiguous_step n (Z.max (eff_latest start p) n) (p_contiguous p) (p_gaps p) h' g' ∧
    gaps_repr (apply_batch CF_GAPS (entries db CF_GAPS) ops) g' ∧
    ∀ m, m !! HIGHEST_CONTIGUOUS_KEY = Some (u64_to_be (p_contiguous p)) →
      apply_batch CF_METADATA m ops = <[HIGHEST_CONTIGUOUS_KEY := u64_to_be h']> m.
Proof.
  intros Hp Hwf Hfit Hbn Hn Hst Hlat Hcm.
  pose proof Hp as (Hg & Hla & Hte & Hho & Hc). pose proof (proj1 Hg) as Hdb.
  pose proof (get_block_number_u64 _ _ Hwf Hbn) as Hn64.
  pose proof (eff_latest_nonneg db start p Hla) as Hl0.
  assert (0 ≤ p_contiguous p) as Hh0 by (destruct Hc as [_ Hu]; destruct (Hu _ eq_refl); lia).
  unfold stage_block. rewrite Hbn. cbn.
  destruct (find_containing_gap_ok db _ n Hg Hn64) as (o & -> & _). cbn.
  destruct (add_block_to_batch_ok db b n [] (proj1 Hdb) Hfit) as (v & -> & Hv). cbn.
  unfold get_latest_persisted. rewrite (get_u64_opt_ok _ _ _ Hdb Hla). cbn.
  fold (eff_latest start p). set (L := Z.max (eff_latest start p) n).
  set (b0 := [BPut CF_HOT_BLOCKS (u64_to_be n) v]).
  assert ((if eff_latest start p <? L then set_latest_persisted db L b0 else Ok b0)
          = Ok (b0 ++ latest_ops start n p)) as ->.
  { unfold latest_ops. fold L. destruct (eff_latest start p <? L); [|by rewrite app_nil_r].
    unfold set_latest_persisted. by rewrite set_u64_ok by apply Hdb. }
  cbn -[app]. unfold get_true_earliest_persisted. rewrite (get_u64_opt_ok _ _ _ Hdb Hte).
  cbn -[app]. set (b1 := b0 ++ latest_ops start n p).
  assert (match p_true_earliest p with
          | Some _ => Ok b1
          | None => set_true_earliest_persisted db n b1
          end = Ok (b1 ++ init_ops TRUE_EARLIEST_PERSISTED_KEY n (p_true_earliest p))) as ->.
  { unfold set_true_earliest_persisted.
    destruct (p_true_earliest p); cbn -[app]; [by rewrite app_nil_r|].
    by rewrite set_u64_ok by apply Hdb. }
  cbn -[app]. rewrite (get_highest_contiguous_ok _ _ Hp). cbn -[app].
  destruct (update_contiguous_ok db (p_gaps p) n L (p_contiguous p)
    (b1 ++ init_ops TRUE_EARLIEST_PERSISTED_KEY n (p_true_earliest p)))
    as (ops & g' & h' & -> & Ho & Hstep & Hr & Hm);
    [done|done|done|lia|done|lia|by destruct Hc|].
  cbn -[app]. unfold initialize_earliest_hot, get_earliest_hot.
  rewrite (get_u64_opt_ok _ _ _ Hdb Hho). cbn -[app].
  exists v, ops, g', h', (match o with Some _ => true | None => false end).
  split_and!; try done. unfold staged_ops, b1, set_earliest_hot.
  destruct (p_earliest_hot p); cbn -[app].
  - by rewrite app_nil_r, <-!app_assoc.
  - rewrite set_u64_ok by apply Hdb. cbn -[app]. by rewrite <-!app_assoc.
Qed.

Lemma keys_distinct :
  LATEST_PERSISTED_KEY ≠ EARLIEST_HOT_KEY ∧
  LATEST_PERSISTED_KEY ≠ HIGHEST_CONTIGUOUS_KEY ∧
  LATEST_PERSISTED_KEY ≠ TRUE_EARLIEST_PERSISTED_KEY ∧
  EARLIEST_HOT_KEY ≠ HIGHEST_CONTIGUOUS_KEY ∧
  EARLIEST_HOT_KEY ≠ TRUE_EARLIEST_PERSISTED_KEY ∧
  HIGHEST_CONTIGUOUS_KEY ≠ TRUE_EARLIEST_PERSISTED_KEY.
Proof. split_and!; vm_compute; discriminate. Qed.

Lemma apply_latest_other cf m start n p :
  cf ≠ CF_METADATA → apply_batch cf m (latest_ops start n p) = m.
Proof.
  intros Hne. apply (apply_other_cf cf CF_METADATA); [done|].
  unfold latest_ops. destruct (_ <? _); by repeat constructor.
Qed.

Lemma apply_init_other cf m key n o :
  cf ≠ CF_METADATA → apply_batch cf m (init_ops key n o) = m.
Proof.
  intros Hne. apply (apply_other_cf cf CF_METADATA); [done|].
  unfold init_ops. destruct o; by repeat constructor.
Qed.

(** The metadata after the batch, key by key. *)
Lemma staged_metadata start n p m ops h' :
  m !! HIGHEST_CONTIGUOUS_KEY = Some (u64_to_be (p_contiguous p)) →
  m !! LATEST_PERSISTED_KEY = u64_to_be <$> p_latest p →
  m !! TRUE_EARLIEST_PERSISTED_KEY = u64_to_be <$> p_true_earliest p →
  m !! EARLIEST_HOT_KEY = u64_to_be <$> p_earliest_hot p →
  (∀ m, m !! HIGHEST_CONTIGUOUS_KEY = Some (u64_to_be (p_contiguous p)) →
     apply_batch CF_METADATA m ops = <[HIGHEST_CONTIGUOUS_KEY := u64_to_be h']> m) →
  let L := Z.max (eff_latest start p) n in
  let m' := apply_batch CF_METADATA m
    (latest_ops start n p ++ init_ops TRUE_EARLIEST_PERSISTED_KEY n (p_true_earliest p)
     ++ ops ++ init_ops EARLIEST_HOT_KEY n (p_earliest_hot p)) in
  m' !! HIGHEST_CONTIGUOUS_KEY = Some (u64_to_be h') ∧
  m' !! LATEST_PERSISTED_KEY
    = u64_to_be <$> (if eff_latest start p <? L then Some L else p_latest p) ∧
  m' !! TRUE_EARLIEST_PERSISTED_KEY = Some (u64_to_be (default n (p_true_earliest p))) ∧
  m' !! EARLIEST_HOT_KEY = Some (u64_to_be (default n (p_earliest_hot p))).
Proof.
  intros Hc Hl Ht Hh Hops L m'. destruct keys_distinct as (?&?&?&?&?&?). subst m'.
  rewrite !apply_batch_app. unfold latest_ops, init_ops. fold L.
  rewrite Hops.
  - destruct (eff_latest start p <? L), (p_true_earliest p) as [te|],
      (p_earliest_hot p) as [eh|]; batch_simpl; split_and!; by simplify_map_eq.
  - destruct (eff_latest start p <? L), (p_true_earliest p) as [te|];
      batch_simpl; by simplify_map_eq.
Qed.

(** The other column families after the batch. *)
Lemma staged_other cf m start n p v ops :
  only_state_cfs ops → cf ≠ CF_METADATA → cf ≠ CF_GAPS → cf ≠ CF_HOT_BLOCKS →
  apply_batch cf m (staged_ops start n p v ops) = m.
Proof.
  intros Hos H1 H2 H3. apply apply_batch_other. repeat apply Forall_app_2.
  1: by apply Forall_singleton.
  2,4: unfold init_ops; by case_match; repeat constructor.
  - unfold latest_ops. destruct (_ <? _); by repeat constructor.
  - eapply Forall_impl; [exact Hos|]. by intros op [->| ->].
Qed.

Lemma staged_hot m start n p v ops : only_state_cfs ops →
  apply_batch CF_HOT_BLOCKS m (staged_ops start n p v ops) = <[u64_to_be n := v]> m.
Proof.
  intros Hos. unfold staged_ops. batch_simpl. rewrite apply_init_other by done.
  rewrite (apply_batch_other CF_HOT_BLOCKS _ ops), apply_init_other, apply_latest_other;
    [done|done|done|]. eapply Forall_impl; [exact Hos|]. by intros op [->| ->].
Qed.

Lemma staged_gaps m start n p v ops :
  apply_batch CF_GAPS m (staged_ops start n p v ops) = apply_batch CF_GAPS m ops.
Proof.
  unfold staged_ops. batch_simpl.
  by rewrite apply_init_other, apply_init_other, apply_latest_other.
Qed.

Lemma notify_archiver_ok db cfg w n :
  db_ok db → archive_batch_size cfg ≠ 0 → ∃ notified, notify_archiver db cfg w n = Ok notified.
Proof.
  intros Hdb Hz. unfold notify_archiver. destruct w; [|by eexists].
  destruct (Z.eqb_spec (archive_batch_size cfg) 0); [done|].
  unfold is_batch_skipped. rewrite need_cf_open by (apply Hdb || set_solver). cbn.
  rewrite get_cf_healthy by apply Hdb. by eexists.
Qed.

(** [write_block] implements [spec_write], puts the block in the hot tier, and
    changes no other entry there and no skipped-batch mark. *)
Lemma write_block_ok db p cfg start b n :
  p_repr db p → wf_block b → fits b → get_block_number b = Ok n →
  n < u64_MAX → is_u64 start → eff_latest start p < u64_MAX → p_contiguous p < u64_MAX →
  ∃ db' p' r, write_block db cfg start b = (db', r) ∧
    p_repr db' p' ∧ spec_write start n p p' ∧
    (∃ v, entries db' CF_HOT_BLOCKS = <[u64_to_be n := v]> (entries db CF_HOT_BLOCKS) ∧
          bincode_deserialize v = Ok (MkStored (encode_to_vec b))) ∧
    entries db' CF_SKIPPED_BATCHES = entries db CF_SKIPPED_BATCHES ∧
    (archive_batch_size cfg ≠ 0 → ∃ notified, r = Ok notified).
Proof.
  intros Hp Hwf Hfit Hbn Hn Hst Hlat Hcm.
  pose proof (get_block_number_u64 _ _ Hwf Hbn) as Hn64.
  destruct (stage_block_ok db p start b n) as
    (v & ops & g' & h' & w & Hstage & Hv & Hos & Hstep & Hr & Hm); [done..|].
  pose proof Hp as (Hg & [Hla Hlu] & [Hte Htu] & [Hho Hhu] & [Hc Hcu]).
  unfold write_block. rewrite Hstage. unfold commit_batch.
  destruct (write_db_ok db (staged_ops start n p v ops) (proj1 Hg))
    as (db' & -> & Hdb' & He).
  destruct (staged_metadata start n p (entries db CF_METADATA) ops h' Hc Hla Hte Hho Hm)
    as (Ec & El & Et & Eh).
  pose proof (eff_latest_nonneg db start p (conj Hla Hlu)) as Hl0.
  assert (is_u64 h') as Hh64.
  { destruct (Hcu _ eq_refl). unfold contiguous_step, walked in Hstep. u64_lia. }
  assert (entries db' CF_METADATA = apply_batch CF_METADATA (entries db CF_METADATA)
    (latest_ops start n p ++ init_ops TRUE_EARLIEST_PERSISTED_KEY n (p_true_earliest p)
     ++ ops ++ init_ops EARLIEST_HOT_KEY n (p_earliest_hot p))) as Hmd.
  { rewrite He. unfold staged_ops. by batch_simpl. }
  exists db', {| p_latest := if eff_latest start p <? Z.max (eff_latest start p) n
                            then Some (Z.max (eff_latest start p) n) else p_latest p;
                p_true_earliest := Some (default n (p_true_earliest p));
                p_earliest_hot := Some (default n (p_earliest_hot p));
                p_contiguous := h'; p_gaps := g' |}.
  eexists. split; [done|]. split_and!; [|done|exists v; by rewrite He, staged_hot|..].
  - split_and!; cbn -[u64_to_be]; try (split; [rewrite Hmd; done|]).
    + split; [done|]. by rewrite He, staged_gaps.
    + intros m. case_match; [intros [= <-]; u64_lia|by apply Hlu].
    + intros m [= <-]. destruct (p_true_earliest p); [by apply Htu|done].
    + intros m [= <-]. destruct (p_earliest_hot p); [by apply Hhu|done].
    + by intros m [= <-].
  - by rewrite He, staged_other.
  - intros Hz. rewrite Hbn. cbn. by apply notify_archiver_ok.
Qed.

(** The metadata keys of the four marks. *)
Definition mark_keys : list bytes :=
  [LATEST_PERSISTED_KEY; TRUE_EARLIEST_PERSISTED_KEY; EARLIEST_HOT_KEY; HIGHEST_CONTIGUOUS_KEY].

(** What the batch does not write: other metadata keys. *)
Lemma staged_metadata_other start n p v m ops h' k :
  m !! HIGHEST_CONTIGUOUS_KEY = Some (u64_to_be (p_contiguous p)) →
  (∀ m, m !! HIGHEST_CONTIGUOUS_KEY = Some (u64_to_be (p_contiguous p)) →
     apply_batch CF_METADATA m ops = <[HIGHEST_CONTIGUOUS_KEY := u64_to_be h']> m) →
  k ∉ mark_keys →
  apply_batch CF_METADATA m (staged_ops start n p v ops) !! k = m !! k.
Proof.
  intros Hc Hops Hk. destruct keys_distinct as (?&?&?&?&?&?).
  assert (k ≠ LATEST_PERSISTED_KEY ∧ k ≠ TRUE_EARLIEST_PERSISTED_KEY ∧ k ≠ EARLIEST_HOT_KEY ∧
    k ≠ HIGHEST_CONTIGUOUS_KEY) as (?&?&?&?) by (unfold mark_keys in Hk; set_solver).
  unfold staged_ops. rewrite !apply_batch_app. unfold latest_ops, init_ops. batch_simpl.
  rewrite Hops.
  - by destruct (_ <? _), (p_true_earliest p), (p_earliest_hot p); batch_simpl; simplify_map_eq.
  - destruct (_ <? _), (p_true_earliest p); batch_simpl; by simplify_map_eq.
Qed.

(** [write_block] commits what [stage_block] staged as one batch, and leaves the
    other column families and the other metadata alone. *)
Lemma write_block_frame db p cfg start b n db' r :
  p_repr db p → wf_block b → fits b → get_block_number b = Ok n →
  n < u64_MAX → is_u64 start → eff_latest start p < u64_MAX → p_contiguous p < u64_MAX →
  write_block db cfg start b = (db', r) →
  (∃ batch w, stage_block db start b = Ok (batch, w) ∧ write db batch = Ok db') ∧
  (∀ cf, cf ≠ CF_METADATA → cf ≠ CF_GAPS → cf ≠ CF_HOT_BLOCKS → entries db' cf = entries db cf) ∧
  (∀ k, k ∉ mark_keys → entries db' CF_METADATA !! k = entries db CF_METADATA !! k).
Proof.
  intros Hp Hwf Hfit Hbn Hn Hst Hlat Hcm E.
  destruct (stage_block_ok db p start b n) as
    (v & ops & g' & h' & w & Hstage & Hv & Hos & Hstep & Hr & Hm); [done..|].
  pose proof Hp as (Hg & _ & _ & _ & [Hc _]).
  destruct (write_db_ok db (staged_ops start n p v ops) (proj1 Hg)) as (db1 & Ew & _ & He).
  unfold write_block in E. rewrite Hstage in E. unfold commit_batch in E. rewrite Ew in E.
  injection E as <- _. split_and!.
  - by eexists _, w.
  - intros cf H1 H2 H3. by rewrite He, staged_other.
  - intros k Hk. rewrite He. by eapply staged_metadata_other.
Qed.

(** ** The bookkeeping invariant *)

(** The first block the marks count: [start_block_number.saturating_sub(1)] is
    taken to be there, and that is block 0 for the start blocks 0 and 1. *)
Definition first_counted (start : Z) : Z := Z.max 1 start.

(** [W] is the set of block numbers written so far: everything up to the
    contiguous mark is there, and everything above it up to the latest block is
    there or recorded as missing. *)
Definition contig_inv (start : Z) (W : gset Z) p : Prop :=
  (∀ n, first_counted start ≤ n ≤ p_contiguous p → n ∈ W) ∧
  (∀ n, p_contiguous p < n ≤ eff_latest start p → n ∈ W ∨ in_gap (p_gaps p) n) ∧
  (∀ n, n ∈ W → n ≤ eff_latest start p) ∧
  (∀ l, p_latest p = Some l → l ∈ W) ∧
  p_contiguous p ≤ eff_latest start p.

Lemma spec_write_latest start n p p' :
  spec_write start n p p' → eff_latest start p' = Z.max (eff_latest start p) n.
Proof.
  intros (Hl & _). unfold eff_latest at 1. rewrite Hl.
  destruct (Z.ltb_spec (eff_latest start p) (Z.max (eff_latest start p) n)); [done|].
  fold (eff_latest start p). lia.
Qed.

Lemma spec_write_mono start n p p' :
  spec_write start n p p' → p_contiguous p ≤ p_contiguous p'.
Proof. intros (_ & _ & _ & [H|[H|H]]); unfold walked in *; lia. Qed.

Lemma spec_write_inv start W n p p' :
  contig_inv start W p → spec_write start n p p' → contig_inv start ({[n]} ∪ W) p'.
Proof.
  intros (HA & HB & HC & HD & HE) Hs. pose proof (spec_write_latest _ _ _ _ Hs) as HL.
  destruct Hs as (Hl & _ & _ & Hstep). unfold contig_inv. rewrite HL.
  set (L := Z.max (eff_latest start p) n) in *.
  assert (∀ m, m ≤ L → p_contiguous p < m → m ∉ {[n]} ∪ W → in_gap (p_gaps p) m ∨ m < n)
    as Hmiss.
  { intros m Hm Hc Hnot. assert (m ≠ n ∧ m ∉ W) as [Hne HnW] by set_solver.
    destruct (decide (m ≤ eff_latest start p)); [left|right; lia].
    by destruct (HB m ltac:(lia)). }
  assert (∀ m, p_contiguous p < m ≤ L → n ≤ m → ¬ in_gap (p_gaps p) m → m ∈ {[n]} ∪ W)
    as Hpresent.
  { intros m Hm Hge Hng. destruct (decide (m ∈ {[n]} ∪ W)) as [|Hnot]; [done|].
    destruct (Hmiss m ltac:(lia) ltac:(lia) Hnot); [done|lia]. }
  split_and!.
  - intros m Hm. destruct Hstep as [(? & Eh & _)|[(-> & (Hb & Hno & _) & _)|(Hle & (Hb & Hno & _) & _)]].
    + apply elem_of_union_r, HA. lia.
    + destruct (decide (m ≤ p_contiguous p)); [apply elem_of_union_r, HA; lia|].
      destruct (decide (m = p_contiguous p + 1)) as [->|]; [set_solver|].
      apply Hpresent; [lia|lia|]. apply Hno. lia.
    + destruct (decide (m ≤ p_contiguous p)); [apply elem_of_union_r, HA; lia|].
      apply Hpresent; [lia|lia|]. apply Hno. lia.
  - intros m Hm. destruct (decide (m ∈ {[n]} ∪ W)) as [|Hnot]; [by left|right].
    assert (p_contiguous p ≤ p_contiguous p') as Hmono
      by (destruct Hstep as [?|[?|?]]; unfold walked in *; lia).
    destruct (Hmiss m ltac:(lia) ltac:(lia) Hnot) as [Hin|Hlt];
      destruct Hstep as [(? & Eh & Hg)|[(-> & Hw & Hg)|(Hle & Hw & Hg)]]; apply Hg.
    + by right.
    + done.
    + split; [done|]. set_solver.
    + left. lia.
    + lia.
    + lia.
  - intros m [->%elem_of_singleton|Hm%HC]%elem_of_union; lia.
  - rewrite Hl. intros l. destruct (Z.ltb_spec (eff_latest start p) L) as [Hlt|].
    + intros [= <-]. replace L with n by lia. set_solver.
    + intros Hl'. apply elem_of_union_r. by apply HD.
  - destruct Hstep as [(? & -> & _)|[(? & Hw & _)|(? & Hw & _)]]; unfold walked in *; lia.
Qed.

(** ** The store the plugin starts from *)
Definition fresh_db db : Prop := db_ok db ∧ ∀ cf, entries db cf = ∅.

Definition p_init (start : Z) : PState := {|
  p_latest := None; p_true_earliest := None; p_earliest_hot := None;
  p_contiguous := saturating_sub start 1; p_gaps := ∅ |}.

Lemma init_repr db db' start :
  fresh_db db → is_u64 start →
  initialize_highest_contiguous db (saturating_sub start 1) = Ok db' →
  p_repr db' (p_init start) ∧ ∀ cf, cf ≠ CF_METADATA → entries db' cf = ∅.
Proof.
  intros [Hdb He] Hs. assert (∀ key, meta_is db key None) as Hnone.
  { intros key. split; [by rewrite He|done]. }
  unfold initialize_highest_contiguous.
  rewrite (get_u64_opt_ok _ _ _ Hdb (Hnone _)). cbn.
  destruct (put_u64_direct_ok db HIGHEST_CONTIGUOUS_KEY (saturating_sub start 1))
    as (db1 & -> & Hdb1 & Hc & Hk & Hcf); [done|u64_lia|].
  intros [= <-]. destruct keys_distinct as (?&?&?&?&?&?).
  assert (∀ cf, cf ≠ CF_METADATA → entries db1 cf = ∅) as Hempty
    by (intros; rewrite Hcf, He; done).
  split; [|done]. split_and!; [|by apply Hk..|done]. split; [done|].
  rewrite Hempty by done. split.
  - intros s e H'. cbn in H'. by rewrite lookup_empty in H'.
  - intros k. cbn. rewrite lookup_empty. destruct (u64_from_be k); [|done].
    cbn. by rewrite lookup_empty.
Qed.

Lemma init_inv start : 0 ≤ start < u64_MAX →
  contig_inv start ∅ (p_init start) ∧ eff_latest start (p_init start) < u64_MAX.
Proof.
  intros Hs. unfold contig_inv, first_counted, eff_latest; cbn. split_and!; try u64_lia; [|done].
  by intros n Hn%elem_of_empty.
Qed.
End write_theory.
