(* ===== verification/ColdStorage.v ===== *)
(** The cold tier: crates/rock-node-persistence-plugin/src/cold_storage/writer.rs
    and reader.rs.

    Archives are pairs of files in one directory: [.rba] holds the compressed
    blocks back to back, [.rbi] one 20-byte record per block.  The part of
    [std::fs] the code uses is modelled on that directory; a run can be cut at
    any file-system operation, by an I/O error or a crash. *)
From S2P Require Import Prelude Database Block.
From Stdlib Require Import Ascii Strings.Byte.

(** ** File names *)
Abbreviation fname := (list ascii).
Definition lit (s : string) : fname := String.list_ascii_of_string s.
#[global] Arguments lit : simpl never.

Definition digit (d : Z) : ascii := ascii_of_nat (48 + Z.to_nat (d mod 10)).
Definition is_digit (c : ascii) : bool :=
  (48 <=? nat_of_ascii c)%nat && (nat_of_ascii c <=? 57)%nat.
Definition digit_value (c : ascii) : Z := Z.of_nat (nat_of_ascii c) - 48.

(** [k] decimal digits of [n], most significant first. *)
Fixpoint digits (k : nat) (n : Z) : fname :=
  match k with
  | O => []
  | S k => digit (n / 10 ^ Z.of_nat k) :: digits k n
  end.

(** Number of decimal digits of a [u64] (at most twenty). *)
Fixpoint ndigits (fuel : nat) (n : Z) : nat :=
  match fuel with
  | O => 1%nat
  | S fuel => if n <? 10 then 1%nat else S (ndigits fuel (n / 10))
  end.

(** [format!("{:010}", n)]: zero-padded to ten digits, never truncated. *)
Definition pad10 (n : Z) : fname := digits (Nat.max 10 (ndigits 20 n)) n.

(** The names [write_archive] builds. *)
Definition filename_base (first_num last_num : Z) : fname :=
  lit "blocks-" ++ pad10 first_num ++ lit "-" ++ pad10 last_num.
Definition data_filename (first_num last_num : Z) : fname :=
  filename_base first_num last_num ++ lit ".rba".
Definition index_filename (first_num last_num : Z) : fname :=
  filename_base first_num last_num ++ lit ".rbi".
Definition tmp_filename (f : fname) : fname := f ++ lit ".tmp".

(** [Path::extension] and [Path::with_extension] of a file name. *)
Fixpoint split_ext (f : fname) : option (fname * fname) :=
  match f with
  | [] => None
  | c :: f' =>
      match split_ext f' with
      | Some (stem, ext) => Some (c :: stem, ext)
      | None => if decide (c = "."%char) then Some ([], f') else None
      end
  end.
Definition extension (f : fname) : option fname :=
  match split_ext f with Some (_ :: _, ext) => Some ext | _ => None end.
Definition with_extension (f ext : fname) : fname :=
  match split_ext f with
  | Some (c :: stem, _) => (c :: stem) ++ lit "." ++ ext
  | _ => f ++ lit "." ++ ext
  end.

(** FILENAME_RE: "blocks-(\d{10})-(\d{10})\.rbi", searched for anywhere in the
    name (the pattern is not anchored). *)
Fixpoint strip_prefix (p s : fname) : option fname :=
  match p, s with
  | [], s => Some s
  | c :: p, c' :: s => if decide (c = c') then strip_prefix p s else None
  | _ :: _, [] => None
  end.
Fixpoint take_digits (k : nat) (s : fname) : option (fname * fname) :=
  match k, s with
  | O, s => Some ([], s)
  | S k, c :: s =>
      if is_digit c then
        '(ds, rest) ← take_digits k s; Some (c :: ds, rest)
      else None
  | S _, [] => None
  end.
Definition match_here (s : fname) : option (fname * fname) :=
  s ← strip_prefix (lit "blocks-") s;
  '(d1, s) ← take_digits 10 s;
  s ← strip_prefix (lit "-") s;
  '(d2, s) ← take_digits 10 s;
  _ ← strip_prefix (lit ".rbi") s;
  Some (d1, d2).
Fixpoint FILENAME_RE_captures (s : fname) : option (fname * fname) :=
  match match_here s with
  | Some r => Some r
  | None => match s with [] => None | _ :: s => FILENAME_RE_captures s end
  end.

(** [str::parse::<u64>] on ten digits: the value fits. *)
Definition parse_digits (ds : fname) : Z :=
  foldl (λ acc c, acc * 10 + digit_value c) 0 ds.

Definition parse_block_range (file : fname) : option (Z * Z) :=
  '(d1, d2) ← FILENAME_RE_captures file;
  Some (parse_digits d1, parse_digits d2).

(** ** The directory *)
Record FS := MkFS { dir_exists : bool; files : gmap fname bytes }.

Inductive FsOp :=
| CreateDirAll
| OpenTruncate (f : fname)
| WriteAll (f : fname) (data : bytes)
| SyncAll (f : fname)
| RenameFile (from to : fname).

Definition fs_apply (fs : FS) (op : FsOp) : FS :=
  match op with
  | CreateDirAll => {| dir_exists := true; files := files fs |}
  | OpenTruncate f =>
      {| dir_exists := dir_exists fs; files := <[f := []]> (files fs) |}
  | WriteAll f data =>
      {| dir_exists := dir_exists fs;
         files := alter (λ c, c ++ data) f (files fs) |}
  | SyncAll _ => fs
  | RenameFile from to =>
      {| dir_exists := dir_exists fs;
         files := match files fs !! from with
                  | Some c => <[to := c]> (delete from (files fs))
                  | None => files fs
                  end |}
  end.
Definition fs_exec (fs : FS) (ops : list FsOp) : FS := foldl fs_apply fs ops.

(** A computation is the operations it performs, in order, and its result. *)
Definition IO (A : Type) : Type := list FsOp * Result Error A.
Definition io_bind {A B} (m : IO A) (f : A → IO B) : IO B :=
  match m.2 with
  | Ok a => let r := f a in (m.1 ++ r.1, r.2)
  | Err e => (m.1, Err e)
  end.
Definition io_op (op : FsOp) : IO unit := ([op], Ok tt).
Definition io_lift {A} (r : Result Error A) : IO A := ([], r).

(** Running it; [Some k] cuts it before its [k]-th file-system operation. *)
Definition io_run {A} (fs : FS) (fault : option nat) (m : IO A) : FS * Result Error A :=
  match fault with
  | Some k =>
      if decide (k < length m.1)%nat then (fs_exec fs (take k m.1), Err EIo)
      else (fs_exec fs m.1, m.2)
  | None => (fs_exec fs m.1, m.2)
  end.

#[export] Instance IO_bind : MBind IO := λ A B f m, io_bind m f.

(** ** ColdWriter *)
Record IndexRecord := {
  rec_block_number : Z;
  rec_offset : Z;
  rec_length : Z;
}.

(** The packed struct with its fields converted with [to_be]. *)
Definition record_bytes (r : IndexRecord) : bytes :=
  be_bytes 8 (rec_block_number r) ++ be_bytes 8 (rec_offset r)
  ++ be_bytes 4 (rec_length r).
Definition record_size : Z := 20.

(** A memory-mapped index file and the table of them, keyed by start block. *)
Record MappedIndex := MkMapped {
  mmap : bytes;
  start_block : Z;
  end_block : Z;
  data_path : fname;
}.

Abbreviation Indices := (gmap Z MappedIndex).

Section cold.
Context {CODEC : Codec}.

(** The [for block in blocks] loop of [write_temp_files]. *)
Fixpoint write_blocks (blocks : list Block) (data index : fname) (current_offset : Z)
    : IO unit :=
  match blocks with
  | [] => io_lift (Ok tt)
  | block :: blocks =>
      block_number ← io_lift (get_block_number block);
      compressed_bytes ← io_lift (zstd_encode_all (encode_to_vec block));
      let length := Z.of_nat (length compressed_bytes) mod 4294967296 in
      io_op (WriteAll data compressed_bytes);;
      io_op (WriteAll index (record_bytes {| rec_block_number := block_number;
                                             rec_offset := current_offset;
                                             rec_length := length |}));;
      write_blocks blocks data index (u64_add current_offset length)
  end.

Definition write_temp_files (blocks : list Block) (temp_data temp_index : fname)
    : IO unit :=
  io_op (OpenTruncate temp_data);;
  io_op (OpenTruncate temp_index);;
  write_blocks blocks temp_data temp_index 0;;
  io_op (SyncAll temp_data);;
  io_op (SyncAll temp_index).

Definition write_archive (blocks : list Block) : IO fname :=
  match blocks with
  | [] => io_lift (Err EEmptyArchive)
  | first_block :: _ =>
      first_num ← io_lift (get_block_number first_block);
      last_num ← io_lift (get_block_number (List.last blocks first_block));
      io_op CreateDirAll;;
      let data := data_filename first_num last_num in
      let index := index_filename first_num last_num in
      write_temp_files blocks (tmp_filename data) (tmp_filename index);;
      io_op (RenameFile (tmp_filename data) data);;
      io_op (RenameFile (tmp_filename index) index);;
      io_lift (Ok index)
  end.

(** ** ColdReader *)
Definition slice (l : bytes) (off len : Z) : bytes :=
  take (Z.to_nat len) (drop (Z.to_nat off) l).

Definition get_record (mi : MappedIndex) (block_number : Z) : option IndexRecord :=
  if (start_block mi <=? block_number) && (block_number <=? end_block mi) then
    let index := u64_sub block_number (start_block mi) in
    let offset := wrap64 (index * record_size) in
    if Z.of_nat (length (mmap mi)) <? u64_add offset record_size then None
    else
      let bs := slice (mmap mi) offset record_size in
      Some {| rec_block_number := be_value (take 8 bs);
              rec_offset := be_value (take 8 (drop 8 bs));
              rec_length := be_value (take 4 (drop 16 bs)) |}
  else None.

Definition load_index_file (fs : FS) (indices : Indices) (index_path : fname)
    : Result Error Indices :=
  '(start_block, end_block) ← ok_or (parse_block_range index_path)
                                    (EBadIndexName (String.string_of_list_ascii index_path));
  let data_path := with_extension index_path (lit "rba") in
  match files fs !! data_path with
  | None => Err (ENoDataFile (String.string_of_list_ascii index_path))
  | Some _ =>
      match files fs !! index_path with
      | None => Err EIo
      | Some content =>
          Ok (<[start_block := MkMapped content start_block end_block data_path]> indices)
      end
  end.

(** [scan_and_build_index]: [listing] is what [read_dir] returns, in the order it
    returns it; files that do not load are skipped. *)
Fixpoint scan_files (fs : FS) (listing : list fname) (indices : Indices) : Indices :=
  match listing with
  | [] => indices
  | path :: listing =>
      let indices :=
        if decide (extension path = Some (lit "rbi")) then
          match load_index_file fs indices path with Ok i => i | Err _ => indices end
        else indices in
      scan_files fs listing indices
  end.
Definition scan_and_build_index (fs : FS) (listing : list fname) (indices : Indices)
    : Indices :=
  if dir_exists fs then scan_files fs listing indices else indices.

Definition get_earliest_indexed_block (indices : Indices) : option Z :=
  map_fold (λ k _ o, Some (match o with None => k | Some m => Z.min m k end))
           None indices.

(** The entry [.filter(key <= n).max_by_key(key)] selects. *)
Definition find_chunk (indices : Indices) (block_number : Z) : option MappedIndex :=
  snd <$> map_fold (λ k mi (o : option (Z * MappedIndex)),
      if k <=? block_number then
        match o with
        | Some (k', _) => if k' <? k then Some (k, mi) else o
        | None => Some (k, mi)
        end
      else o) None indices.

(** [read_exact_at]: fails at the end of the file. *)
Definition read_exact_at (content : bytes) (offset len : Z) : Result Error bytes :=
  if Z.of_nat (length content) <? offset + len then Err EIo
  else Ok (slice content offset len).

Definition cold_read_block (fs : FS) (indices : Indices) (block_number : Z)
    : Result Error (option bytes) :=
  match find_chunk indices block_number with
  | None => Ok None
  | Some mi =>
      match get_record mi block_number with
      | None => Ok None
      | Some record =>
          data_file ← ok_or (files fs !! data_path mi) EIo;
          compressed_bytes ← read_exact_at data_file (rec_offset record) (rec_length record);
          decompressed ← zstd_decode_all compressed_bytes;
          Ok (Some decompressed)
      end
  end.
End cold.

(** ** File-name theory *)
Lemma digit_spec d : is_digit (digit d) = true ∧ digit_value (digit d) = d mod 10.
Proof.
  pose proof (Z.mod_pos_bound d 10 ltac:(lia)) as Hb. unfold digit, is_digit, digit_value.
  rewrite nat_ascii_embedding by lia. split; [|lia].
  apply andb_true_iff. rewrite !Nat.leb_le. lia.
Qed.

Lemma length_digits k n : length (digits k n) = k.
Proof. induction k; cbn; congruence. Qed.

Lemma digits_are_digits k n : Forall (λ c, is_digit c = true) (digits k n).
Proof. induction k; cbn; constructor; [apply digit_spec|done]. Qed.

Lemma parse_digits_acc ds acc :
  foldl (λ acc c, acc * 10 + digit_value c) acc ds
  = acc * 10 ^ Z.of_nat (length ds) + parse_digits ds.
Proof.
  revert acc. induction ds as [|c ds IH]; intros acc; unfold parse_digits; cbn [foldl length].
  - rewrite Z.pow_0_r. lia.
  - rewrite (IH (acc * 10 + _)), (IH (0 * 10 + _)).
    rewrite Nat2Z.inj_succ, Z.pow_succ_r by lia. lia.
Qed.

Lemma parse_digits_digits k n : parse_digits (digits k n) = n mod 10 ^ Z.of_nat k.
Proof.
  induction k as [|k IH]; [by rewrite Z.pow_0_r, Z.mod_1_r|].
  cbn [digits]. unfold parse_digits. cbn [foldl]. rewrite parse_digits_acc, IH, length_digits.
  rewrite (proj2 (digit_spec _)), Nat2Z.inj_succ, Z.pow_succ_r, (Z.mul_comm 10) by lia.
  rewrite Z.rem_mul_r by (try apply Z.pow_nonzero; lia). lia.
Qed.

Lemma ndigits_le fuel k n : 0 ≤ n < 10 ^ Z.of_nat (S k) → (ndigits fuel n ≤ S k)%nat.
Proof.
  revert k n. induction fuel as [|fuel IH]; intros k n Hn; cbn; [lia|].
  destruct (Z.ltb_spec n 10); [lia|]. destruct k as [|k].
  - cbn in Hn. lia.
  - specialize (IH k (n / 10)). rewrite (Nat2Z.inj_succ (S k)), Z.pow_succ_r in Hn by lia.
    enough (ndigits fuel (n / 10) ≤ S k)%nat by lia. apply IH.
    split; [apply Z.div_pos; lia|]. apply Z.div_lt_upper_bound; lia.
Qed.

Lemma ndigits_ge fuel k n : (k < fuel)%nat → 10 ^ Z.of_nat k ≤ n → (k < ndigits fuel n)%nat.
Proof.
  revert k n. induction fuel as [|fuel IH]; intros k n Hk Hn; cbn; [lia|].
  destruct k as [|k]; [case_match; lia|].
  rewrite Nat2Z.inj_succ, Z.pow_succ_r in Hn by lia.
  pose proof (Z.pow_pos_nonneg 10 (Z.of_nat k)).
  destruct (Z.ltb_spec n 10); [lia|]. specialize (IH k (n / 10)).
  enough (k < ndigits fuel (n / 10))%nat by lia. apply IH; [lia|].
  apply Z.div_le_lower_bound; lia.
Qed.

Lemma pad10_digits n :
  ∃ k, pad10 n = digits k n ∧ (10 ≤ k)%nat ∧
    (0 ≤ n < 10 ^ 10 → k = 10%nat) ∧ (10 ^ 10 ≤ n → (10 < k)%nat).
Proof.
  exists (Nat.max 10 (ndigits 20 n)). split_and!; [done|lia| |].
  - intros Hn. pose proof (ndigits_le 20 9 n Hn). lia.
  - intros Hn. pose proof (ndigits_ge 20 10 n ltac:(lia) Hn). lia.
Qed.

Lemma strip_prefix_app p s : strip_prefix p (p ++ s) = Some s.
Proof. induction p as [|c p IH]; cbn; [done|]. by rewrite decide_True. Qed.

Lemma take_digits_app k ds rest : Forall (λ c, is_digit c = true) ds →
  length ds = k → take_digits k (ds ++ rest) = Some (ds, rest).
Proof.
  intros H <-. induction H as [|c ds Hc _ IH]; cbn; [done|]. by rewrite Hc, IH.
Qed.

Lemma take_digits_long k ds rest : Forall (λ c, is_digit c = true) ds →
  (k < length ds)%nat →
  ∃ c more, take_digits k (ds ++ rest) = Some (take k ds, c :: more) ∧ is_digit c = true.
Proof.
  intros Hds. revert k. induction Hds as [|c ds Hc Hds IH]; intros k Hk; cbn in Hk; [lia|].
  destruct k as [|k]; cbn; [by eauto|]. rewrite Hc.
  destruct (IH k ltac:(lia)) as (c' & more & -> & Hc'). cbn. eauto.
Qed.

Lemma strip_prefix_ne c p c' s : c ≠ c' → strip_prefix (c :: p) (c' :: s) = None.
Proof. intros H. cbn. by rewrite decide_False. Qed.

#[local] Arguments take_digits : simpl never.
#[local] Arguments strip_prefix : simpl never.

Lemma match_here_name d1 d2 :
  Forall (λ c, is_digit c = true) d1 → Forall (λ c, is_digit c = true) d2 →
  (10 ≤ length d1)%nat → (10 ≤ length d2)%nat →
  match_here (lit "blocks-" ++ d1 ++ lit "-" ++ d2 ++ lit ".rbi") =
  if decide (length d1 = 10%nat ∧ length d2 = 10%nat) then Some (d1, d2) else None.
Proof.
  intros H1 H2 L1 L2. unfold match_here. rewrite strip_prefix_app. cbn.
  destruct (decide (length d1 = 10%nat)) as [E1|E1].
  - rewrite (take_digits_app 10 d1) by done. cbn. rewrite strip_prefix_app. cbn.
    destruct (decide (length d2 = 10%nat)) as [E2|E2].
    + rewrite (take_digits_app 10 d2) by done. cbn.
      rewrite <-(app_nil_r (lit ".rbi")), strip_prefix_app. cbn.
      by rewrite decide_True.
    + destruct (take_digits_long 10 d2 (lit ".rbi") H2 ltac:(lia)) as (c & more & -> & Hc).
      cbn. rewrite decide_False by naive_solver.
      change (lit ".rbi") with ("."%char :: lit "rbi").
      rewrite strip_prefix_ne; [done|]. intros <-. by vm_compute in Hc.
  - destruct (take_digits_long 10 d1 (lit "-" ++ d2 ++ lit ".rbi") H1 ltac:(lia))
      as (c & more & -> & Hc). cbn. rewrite decide_False by naive_solver.
    change (lit "-") with ("-"%char :: lit "").
    rewrite strip_prefix_ne; [done|]. intros <-. by vm_compute in Hc.
Qed.

Lemma captures_unfold s :
  FILENAME_RE_captures s =
  match match_here s with
  | Some r => Some r
  | None => match s with [] => None | _ :: s => FILENAME_RE_captures s end
  end.
Proof. by destruct s. Qed.

Lemma captures_skip p s : Forall (λ c, c ≠ "b"%char) p →
  FILENAME_RE_captures (p ++ s) = FILENAME_RE_captures s.
Proof.
  induction 1 as [|c p Hc _ IH]; [done|]. cbn [app FILENAME_RE_captures].
  replace (match_here (c :: p ++ s)) with (@None (fname * fname)); [exact IH|].
  unfold match_here. change (lit "blocks-") with ("b"%char :: lit "locks-").
  by rewrite strip_prefix_ne.
Qed.

(** [parse_block_range] inverts the file name exactly when both numbers have at
    most ten digits, and rejects it otherwise. *)
Lemma parse_index_filename a b : 0 ≤ a → 0 ≤ b →
  parse_block_range (index_filename a b) =
  if decide (a < 10 ^ 10 ∧ b < 10 ^ 10) then Some (a, b) else None.
Proof.
  intros Ha Hb. unfold parse_block_range, index_filename, filename_base.
  destruct (pad10_digits a) as (ka & -> & La & Ea & Ga).
  destruct (pad10_digits b) as (kb & -> & Lb & Eb & Gb).
  pose proof (digits_are_digits ka a) as Hda. pose proof (digits_are_digits kb b) as Hdb.
  rewrite <-!app_assoc, captures_unfold.
  rewrite match_here_name by (rewrite ?length_digits; done). rewrite !length_digits.
  case_decide as Hk; case_decide as Hr; try (exfalso; lia).
  - cbn. rewrite !parse_digits_digits. destruct Hk as [-> ->].
    rewrite !Z.mod_small by (cbn; lia). done.
  - change (FILENAME_RE_captures (lit "locks-" ++ digits ka a ++ lit "-"
              ++ digits kb b ++ lit ".rbi") ≫= (λ '(d1, d2),
              Some (parse_digits d1, parse_digits d2)) = None).
    assert (∀ k n, Forall (λ c, c ≠ "b"%char) (digits k n)) as Hnb.
    { intros k n. eapply Forall_impl; [apply digits_are_digits|].
      cbn. intros c Hc ->. by vm_compute in Hc. }
    change (lit ".rbi") with (lit ".r" ++ lit "bi").
    rewrite !captures_skip; [done|..]; try apply Hnb; by repeat constructor.
Qed.

Lemma split_ext_nodot s : Forall (λ c, c ≠ "."%char) s → split_ext s = None.
Proof. induction 1 as [|c s Hc _ IH]; cbn; [done|]. by rewrite IH, decide_False. Qed.

Lemma split_ext_app p s : Forall (λ c, c ≠ "."%char) s →
  split_ext (p ++ "."%char :: s) = Some (p, s).
Proof.
  intros Hs. induction p as [|c p IH]; cbn; [|by rewrite IH].
  by rewrite split_ext_nodot.
Qed.

Lemma index_filename_split a b :
  split_ext (index_filename a b) = Some (filename_base a b, lit "rbi").
Proof. apply split_ext_app. by repeat constructor. Qed.

Lemma index_extension a b : extension (index_filename a b) = Some (lit "rbi").
Proof. unfold extension. by rewrite index_filename_split. Qed.

Lemma index_with_rba a b : with_extension (index_filename a b) (lit "rba") = data_filename a b.
Proof. unfold with_extension. rewrite index_filename_split. done. Qed.

Lemma data_extension a b : extension (data_filename a b) = Some (lit "rba").
Proof.
  unfold extension, data_filename. change (lit ".rba") with ("."%char :: lit "rba").
  by rewrite split_ext_app by (by repeat constructor).
Qed.

Lemma index_filename_inj a b a' b' :
  0 ≤ a < 10 ^ 10 → 0 ≤ b < 10 ^ 10 → 0 ≤ a' < 10 ^ 10 → 0 ≤ b' < 10 ^ 10 →
  index_filename a b = index_filename a' b' → a = a' ∧ b = b'.
Proof.
  intros Ha Hb Ha' Hb' Ei. apply (f_equal parse_block_range) in Ei.
  rewrite !parse_index_filename, !decide_True in Ei by lia. by simplify_eq.
Qed.

Lemma tmp_extension f : extension (tmp_filename f) ≠ Some (lit "rbi").
Proof.
  unfold extension, tmp_filename.
  change (lit ".tmp") with ("."%char :: lit "tmp").
  rewrite split_ext_app by (by repeat constructor). by destruct f.
Qed.

Lemma filenames_distinct a b :
  data_filename a b ≠ index_filename a b ∧
  tmp_filename (data_filename a b) ≠ tmp_filename (index_filename a b) ∧
  tmp_filename (data_filename a b) ≠ index_filename a b ∧
  tmp_filename (data_filename a b) ≠ data_filename a b ∧
  tmp_filename (index_filename a b) ≠ index_filename a b ∧
  tmp_filename (index_filename a b) ≠ data_filename a b.
Proof.
  unfold tmp_filename, data_filename, index_filename. rewrite <-!app_assoc.
  split_and!; intros E%(inj (app _)); by vm_compute in E.
Qed.

(** ** The files a run of the writer produces *)
Section cold_theory.
Context {CODEC : Codec} {CLAWS : CodecLaws}.

(** The index records for blocks [ns] whose compressed forms are [zs]. *)
Fixpoint records (ns : list Z) (zs : list bytes) (off : Z) : list bytes :=
  match ns, zs with
  | n :: ns, z :: zs =>
      record_bytes {| rec_block_number := n; rec_offset := off;
                      rec_length := Z.of_nat (length z) |}
      :: records ns zs (off + Z.of_nat (length z))
  | _, _ => []
  end.

(** [zs] are the compressed forms of [blocks], of at most 4 GiB each. *)
Definition compressed (blocks : list Block) (zs : list bytes) : Prop :=
  Forall2 (λ b z, zstd_encode_all (encode_to_vec b) = Ok z ∧
                  Z.of_nat (length z) < 4294967296) blocks zs.

Definition numbered (blocks : list Block) (ns : list Z) : Prop :=
  Forall2 (λ b n, get_block_number b = Ok n) blocks ns.

(** [fs'] extends file [d] by [cd] and file [i] by [ci], and changes nothing else. *)
Definition extends2 (fs fs' : FS) (d i : fname) (cd ci : bytes) : Prop :=
  dir_exists fs' = dir_exists fs ∧
  files fs' !! d = (λ c, c ++ cd) <$> files fs !! d ∧
  files fs' !! i = (λ c, c ++ ci) <$> files fs !! i ∧
  ∀ f, f ≠ d → f ≠ i → files fs' !! f = files fs !! f.

Lemma fs_exec_app fs o1 o2 : fs_exec fs (o1 ++ o2) = fs_exec (fs_exec fs o1) o2.
Proof. apply foldl_app. Qed.

Lemma fs_exec_cons fs op ops : fs_exec fs (op :: ops) = fs_exec (fs_apply fs op) ops.
Proof. done. Qed.

Lemma fs_exec_dir fs ops : dir_exists fs = true → dir_exists (fs_exec fs ops) = true.
Proof.
  revert fs. induction ops as [|op ops IH]; intros fs H; [done|]. rewrite fs_exec_cons.
  apply IH. by destruct op.
Qed.

Lemma write_blocks_ok blocks ns zs d i off fs :
  d ≠ i → numbered blocks ns → compressed blocks zs →
  0 ≤ off → off + Z.of_nat (length (concat zs)) < u64_modulus →
  ∃ ops, write_blocks blocks d i off = (ops, Ok tt) ∧
    extends2 fs (fs_exec fs ops) d i (concat zs) (concat (records ns zs off)).
Proof.
  intros Hdi Hn. revert zs off fs.
  induction Hn as [|b n blocks ns Hb Hn IH]; intros zs off fs Hz Ho Hs;
    apply Forall2_cons_inv_l in Hz || apply Forall2_nil_inv_l in Hz.
  - subst zs. exists []. split; [done|]. unfold extends2. cbn. split_and!; try done.
    + destruct (files fs !! d); cbn; by rewrite ?app_nil_r.
    + destruct (files fs !! i); cbn; by rewrite ?app_nil_r.
  - destruct Hz as (z & zs' & [Ez Hlen] & Hz & ->). cbn in Hs. rewrite length_app in Hs.
    set (fs1 := fs_apply (fs_apply fs (WriteAll d z)) (WriteAll i (record_bytes
      {| rec_block_number := n; rec_offset := off; rec_length := Z.of_nat (length z) |}))).
    destruct (IH zs' (off + Z.of_nat (length z)) fs1) as (ops & E & H1 & H2 & H3 & H4);
      [done|lia|lia|].
    eexists (_ :: _ :: ops). split.
    { cbn. unfold mbind, IO_bind, io_bind, io_lift, io_op. rewrite Hb, Ez. cbn.
      rewrite (Z.mod_small (Z.of_nat (length z))) by lia.
      rewrite u64_add_small by u64_lia. rewrite E. cbn. done. }
    change (fs_exec fs _) with (fs_exec fs1 ops). unfold extends2. split_and!.
    + by rewrite H1.
    + rewrite H2. unfold fs1. cbn. rewrite lookup_alter_ne, lookup_alter_eq by done.
      destruct (files fs !! d); [|done]. symmetry. apply (f_equal Some), app_assoc.
    + rewrite H3. unfold fs1. cbn [fs_apply files records concat]. rewrite lookup_alter_eq, lookup_alter_ne by done.
      destruct (files fs !! i); [|done]. symmetry. apply (f_equal Some), app_assoc.
    + intros f Hfd Hfi. rewrite H4 by done. unfold fs1. cbn.
      by rewrite !lookup_alter_ne by done.
Qed.

(** Operations that touch only the two temporary files. *)
Definition tmp_op (d i : fname) (op : FsOp) : Prop :=
  match op with
  | CreateDirAll => True
  | OpenTruncate f | WriteAll f _ | SyncAll f => f = d ∨ f = i
  | RenameFile _ _ => False
  end.

Lemma tmp_ops_other d i ops fs f :
  Forall (tmp_op d i) ops → f ≠ d → f ≠ i → files (fs_exec fs ops) !! f = files fs !! f.
Proof.
  intros H Hd Hi. revert fs. induction H as [|op ops Hop _ IH]; intros fs; [done|].
  rewrite fs_exec_cons, IH. destruct op; cbn in *; try done.
  - rewrite lookup_insert_ne; naive_solver.
  - rewrite lookup_alter_ne; naive_solver.
Qed.

Lemma write_blocks_tmp blocks d i off : Forall (tmp_op d i) (write_blocks blocks d i off).1.
Proof.
  revert off. induction blocks as [|b blocks IH]; intros off; [by constructor|].
  cbn. unfold mbind, IO_bind, io_bind, io_lift, io_op. cbn.
  destruct (get_block_number b); [|by constructor]. cbn.
  destruct (zstd_encode_all (encode_to_vec b)); [|by constructor]. cbn.
  constructor; [by left|]. constructor; [by right|]. apply IH.
Qed.

Lemma last_default_irrel {A} (x : A) l d d' : List.last (x :: l) d = List.last (x :: l) d'.
Proof. revert x. induction l as [|y l IH]; intros x; [done|]. apply (IH y). Qed.

(** A run of the writer that no fault cuts: temporary work, then two renames. *)
Lemma write_archive_trace blocks ns zs first last_ :
  numbered blocks ns → compressed blocks zs → head ns = Some first →
  list.last ns = Some last_ → Z.of_nat (length (concat zs)) < u64_modulus →
  let d := data_filename first last_ in let i := index_filename first last_ in
  ∃ pre, write_archive blocks =
      (pre ++ [RenameFile (tmp_filename d) d; RenameFile (tmp_filename i) i], Ok i) ∧
    Forall (tmp_op (tmp_filename d) (tmp_filename i)) pre ∧
    ∀ fs, files (fs_exec fs pre) !! tmp_filename d = Some (concat zs) ∧
          files (fs_exec fs pre) !! tmp_filename i = Some (concat (records ns zs 0)) ∧
          dir_exists (fs_exec fs pre) = true.
Proof.
  intros Hn Hz Hhd Hls Hsz d i. destruct (filenames_distinct first last_) as (_&Hdi&_).
  fold d i in Hdi.
  assert (∃ wops, write_blocks blocks (tmp_filename d) (tmp_filename i) 0 = (wops, Ok tt) ∧
    ∀ fs, extends2 fs (fs_exec fs wops) (tmp_filename d) (tmp_filename i)
            (concat zs) (concat (records ns zs 0))) as (wops & Ew & Hw).
  { destruct (write_blocks_ok blocks ns zs _ _ 0 (MkFS true ∅) Hdi Hn Hz)
      as (ops & E & _); [lia|lia|]. exists ops. split; [done|]. intros fs.
    destruct (write_blocks_ok blocks ns zs _ _ 0 fs Hdi Hn Hz) as (ops' & E' & H');
      [lia|lia|]. rewrite E in E'. by injection E' as <-. }
  exists ([CreateDirAll; OpenTruncate (tmp_filename d); OpenTruncate (tmp_filename i)]
     ++ wops ++ [SyncAll (tmp_filename d); SyncAll (tmp_filename i)]).
  split_and!.
  - destruct Hn as [|b0 n0 bs ns' Hb0 Hn]; [done|]. injection Hhd as ->.
    assert (get_block_number (List.last (b0 :: bs) b0) = Ok last_) as El.
    { clear -Hls Hn Hb0. revert b0 first Hb0 Hls.
      induction Hn as [|b n bs ns Hb Hn IH]; intros b0 first Hb0 Hls.
      - by injection Hls as ->.
      - change (get_block_number (List.last (b :: bs) b0) = Ok last_).
        rewrite (last_default_irrel b bs b0 b). by apply (IH b n). }
    unfold write_archive, write_temp_files, mbind, IO_bind, io_bind, io_op, io_lift.
    rewrite El, Hb0. cbn -[write_blocks List.last]. fold d i. rewrite Ew. cbn.
    by rewrite <-!app_assoc.
  - repeat apply Forall_app_2.
    + rewrite !Forall_cons. cbn. auto 10.
    + pose proof (write_blocks_tmp blocks (tmp_filename d) (tmp_filename i) 0) as Ht.
      by rewrite Ew in Ht.
    + rewrite !Forall_cons. cbn. auto 10.
  - intros fs. rewrite !fs_exec_app. cbn.
    set (fs1 := {| dir_exists := true; files := _ |}).
    destruct (Hw fs1) as (H1 & H2 & H3 & _). rewrite H1, H2, H3. unfold fs1. cbn.
    rewrite lookup_insert_ne, !lookup_insert_eq by done. done.
Qed.

(** The directory after a run that is cut before some operation (or not at all):
    the index of a new range appears last, when the data file is complete. *)
Definition cut_files (fs fs' : FS) (d i : fname) (cd ci : bytes) : Prop :=
  (files fs' !! i = files fs !! i ∨
   files fs' !! i = Some ci ∧ files fs' !! d = Some cd ∧ dir_exists fs' = true) ∧
  (files fs' !! d = files fs !! d ∨ files fs' !! d = Some cd) ∧
  ∀ f, f ≠ d → f ≠ i → f ≠ tmp_filename d → f ≠ tmp_filename i →
    files fs' !! f = files fs !! f.

Lemma write_archive_cut blocks ns zs first last_ fs k :
  numbered blocks ns → compressed blocks zs → head ns = Some first →
  list.last ns = Some last_ → Z.of_nat (length (concat zs)) < u64_modulus →
  let fs' := fs_exec fs (take k (write_archive blocks).1) in
  let i := index_filename first last_ in
  cut_files fs fs' (data_filename first last_) i (concat zs) (concat (records ns zs 0)) ∧
  ((k < length (write_archive blocks).1)%nat → files fs' !! i = files fs !! i).
Proof.
  intros Hn Hz Hhd Hls Hsz fs' i. subst fs'. set (d := data_filename first last_).
  destruct (write_archive_trace blocks ns zs first last_ Hn Hz Hhd Hls Hsz)
    as (pre & E & Ht & Hpre). fold d i in E, Ht, Hpre.
  destruct (Hpre fs) as (H1 & H2 & H3).
  destruct (filenames_distinct first last_) as (D1&D2&D3&D4&D5&D6).
  fold d i in D1, D2, D3, D4, D5, D6. rewrite E. cbn [fst]. unfold cut_files.
  destruct (decide (k ≤ length pre)%nat) as [Hk|Hk].
  { rewrite take_app_le by done.
    assert (Forall (tmp_op (tmp_filename d) (tmp_filename i)) (take k pre)) by by apply Forall_take.
    split_and!; [left|left|..]; intros; by rewrite (tmp_ops_other (tmp_filename d) (tmp_filename i)). }
  rewrite take_app_ge, fs_exec_app by lia. set (fs1 := fs_exec fs pre) in *.
  assert (∀ f, f ≠ tmp_filename d → f ≠ tmp_filename i → files fs1 !! f = files fs !! f)
    as Hother by (intros; by eapply tmp_ops_other).
  destruct (k - length pre)%nat as [|[|m]] eqn:Ek; [lia| |].
  - cbn. rewrite H1.
    assert (<[d:=concat zs]> (delete (tmp_filename d) (files fs1)) !! i = files fs !! i) as Hi
      by (rewrite lookup_insert_ne, lookup_delete_ne by done; by apply Hother).
    split_and!; [by left| |..|done].
    + right. by rewrite lookup_insert_eq.
    + intros f ????. rewrite lookup_insert_ne, lookup_delete_ne by done. by apply Hother.
  - rewrite take_ge by (cbn; lia). cbn. rewrite H1.
    rewrite (lookup_insert_ne _ d), lookup_delete_ne, H2 by done.
    assert (<[i:=concat (records ns zs 0)]> (delete (tmp_filename i)
      (<[d:=concat zs]> (delete (tmp_filename d) (files fs1)))) !! d = Some (concat zs)) as Hd
      by (by rewrite lookup_insert_ne, lookup_delete_ne, lookup_insert_eq).
    split_and!; [right|by right|..].
    + by rewrite lookup_insert_eq.
    + intros f ????. rewrite lookup_insert_ne, lookup_delete_ne, lookup_insert_ne,
        lookup_delete_ne by done. by apply Hother.
    + rewrite length_app. cbn. lia.
Qed.

Lemma write_archive_ok blocks ns zs first last_ fs :
  numbered blocks ns → compressed blocks zs → head ns = Some first →
  list.last ns = Some last_ → Z.of_nat (length (concat zs)) < u64_modulus →
  let d := data_filename first last_ in let i := index_filename first last_ in
  ∃ fs', io_run fs None (write_archive blocks) = (fs', Ok i) ∧
    files fs' !! i = Some (concat (records ns zs 0)) ∧
    files fs' !! d = Some (concat zs) ∧ dir_exists fs' = true ∧
    ∀ f, f ≠ d → f ≠ i → f ≠ tmp_filename d → f ≠ tmp_filename i →
      files fs' !! f = files fs !! f.
Proof.
  intros Hn Hz Hhd Hls Hsz d i.
  destruct (write_archive_trace blocks ns zs first last_ Hn Hz Hhd Hls Hsz)
    as (pre & E & Ht & Hpre). fold d i in E, Ht, Hpre.
  destruct (Hpre fs) as (H1 & H2 & H3).
  destruct (filenames_distinct first last_) as (D1&D2&D3&D4&D5&D6).
  fold d i in D1, D2, D3, D4, D5, D6.
  unfold io_run. rewrite E. eexists. split; [done|]. cbn [fst].
  rewrite fs_exec_app. set (fs1 := fs_exec fs pre) in *. cbn. rewrite H1.
  rewrite (lookup_insert_ne _ d), lookup_delete_ne, H2 by done. split_and!.
  - by rewrite lookup_insert_eq.
  - by rewrite lookup_insert_ne, lookup_delete_ne, lookup_insert_eq by done.
  - done.
  - intros f ????. rewrite !lookup_insert_ne, lookup_delete_ne, lookup_insert_ne,
      lookup_delete_ne by done. by eapply tmp_ops_other.
Qed.

(** ** Reading a chunk back *)
Lemma length_record_bytes r : length (record_bytes r) = 20%nat.
Proof. unfold record_bytes. by rewrite !length_app, !length_be_bytes. Qed.

Lemma concat_chunk {A} (k : nat) (l : list (list A)) j c :
  Forall (λ c, length c = k) l → l !! j = Some c →
  take k (drop (j * k) (concat l)) = c ∧ ((S j) * k ≤ length (concat l))%nat.
Proof.
  intros H. revert j. induction H as [|c0 l Hc _ IH]; intros [|j] Hj; try done; cbn in Hj.
  - injection Hj as ->. cbn. rewrite drop_0, <-Hc, take_app_length, length_app. split; [done|lia].
  - destruct (IH j Hj) as [E ?]. cbn [concat]. rewrite length_app.
    replace (S j * k)%nat with (length c0 + j * k)%nat by lia.
    rewrite drop_app_add. split; [done|lia].
Qed.

Lemma drop_concat {A} (zs : list (list A)) j z : zs !! j = Some z →
  take (length z) (drop (length (concat (take j zs))) (concat zs)) = z ∧
  (length (concat (take j zs)) + length z ≤ length (concat zs))%nat.
Proof.
  revert j. induction zs as [|z0 zs IH]; intros [|j] Hj; try done; cbn in Hj.
  - injection Hj as ->. cbn. rewrite drop_0, take_app_length, length_app. split; [done|lia].
  - destruct (IH j Hj) as [E ?]. cbn. rewrite !length_app, drop_app_add. split; [done|lia].
Qed.

Lemma lookup_records ns zs off j n z :
  ns !! j = Some n → zs !! j = Some z →
  records ns zs off !! j = Some (record_bytes {|
    rec_block_number := n; rec_offset := off + Z.of_nat (length (concat (take j zs)));
    rec_length := Z.of_nat (length z) |}).
Proof.
  revert ns zs off. induction j as [|j IH]; intros [|n0 ns] [|z0 zs] off Hn Hz; try done;
    cbn in *.
  - injection Hn as ->. injection Hz as ->. cbn. by rewrite Z.add_0_r.
  - rewrite (IH ns zs _ Hn Hz), length_app, Nat2Z.inj_add, Z.add_assoc. done.
Qed.

Lemma records_sizes ns zs off : Forall (λ c, length c = 20%nat) (records ns zs off).
Proof.
  revert zs off. induction ns as [|n ns IH]; intros [|z zs] off; try constructor.
  - apply length_record_bytes.
  - apply IH.
Qed.

(** [find_chunk] picks the greatest start at or below the block number. *)
Lemma find_chunk_spec (indices : Indices) n :
  match find_chunk indices n with
  | Some mi => ∃ k, indices !! k = Some mi ∧ k ≤ n ∧
      ∀ k' mi', indices !! k' = Some mi' → k' ≤ n → k' ≤ k
  | None => ∀ k mi, indices !! k = Some mi → n < k
  end.
Proof.
  unfold find_chunk. set (F := λ k mi (o : option (Z * MappedIndex)), _).
  assert (match map_fold F None indices with
    | Some (k, mi) => indices !! k = Some mi ∧ k ≤ n ∧
        ∀ k' mi', indices !! k' = Some mi' → k' ≤ n → k' ≤ k
    | None => ∀ k mi, indices !! k = Some mi → n < k
    end) as H.
  { apply (map_fold_weak_ind (λ (o : option (Z * MappedIndex)) (m : Indices), match o with
      | Some (k, mi) => m !! k = Some mi ∧ k ≤ n ∧
          ∀ k' mi', m !! k' = Some mi' → k' ≤ n → k' ≤ k
      | None => ∀ k mi, m !! k = Some mi → n < k
      end)).
    - intros k mi Hl. by rewrite lookup_empty in Hl.
    - intros k mi m o Hnone IH. unfold F. destruct (Z.leb_spec k n) as [Hle|Hgt].
      + destruct o as [[k0 mi0]|].
        * destruct IH as (Hl0 & Hle0 & Hmax). destruct (Z.ltb_spec k0 k).
          -- rewrite lookup_insert_eq. split_and!; [done|done|].
             intros k' mi' [[<- _]|[_ Hl']]%lookup_insert_Some Hk'; [lia|].
             specialize (Hmax _ _ Hl' Hk'). lia.
          -- rewrite lookup_insert_ne by congruence. split_and!; [done|done|].
             intros k' mi' [[<- _]|[_ Hl']]%lookup_insert_Some Hk'; [lia|].
             by apply (Hmax _ _ Hl').
        * rewrite lookup_insert_eq. split_and!; [done|done|].
          intros k' mi' [[<- _]|[_ Hl']]%lookup_insert_Some Hk'; [lia|].
          specialize (IH _ _ Hl'). lia.
      + destruct o as [[k0 mi0]|].
        * destruct IH as (Hl0 & Hle0 & Hmax). rewrite lookup_insert_ne by lia.
          split_and!; [done|done|].
          intros k' mi' [[<- _]|[_ Hl']]%lookup_insert_Some Hk'; [lia|].
          by apply (Hmax _ _ Hl').
        * intros k' mi' [[<- _]|[_ Hl']]%lookup_insert_Some; [lia|by eapply IH]. }
  destruct (map_fold F None indices) as [[k mi]|]; cbn; [by exists k|done].
Qed.

Lemma find_chunk_max (indices : Indices) n k mi :
  indices !! k = Some mi → k ≤ n →
  (∀ k' mi', indices !! k' = Some mi' → k' ≤ n → k' ≤ k) →
  find_chunk indices n = Some mi.
Proof.
  intros Hl Hk Hmax. pose proof (find_chunk_spec indices n) as H.
  destruct (find_chunk indices n) as [mi'|].
  - destruct H as (k' & Hl' & Hk' & Hmax'). assert (k' = k) as ->; [|congruence].
    specialize (Hmax _ _ Hl' Hk'). specialize (Hmax' _ _ Hl Hk). lia.
  - specialize (H _ _ Hl). lia.
Qed.

(** Two directories that agree on the data file of [n]'s chunk serve [n] alike. *)
Definition chunk_of (indices : Indices) (n k : Z) (mi : MappedIndex) : Prop :=
  indices !! k = Some mi ∧ k ≤ n ∧
  ∀ k' mi', indices !! k' = Some mi' → k' ≤ n → k' ≤ k.

Lemma cold_read_chunk fs indices n k mi : chunk_of indices n k mi →
  cold_read_block fs indices n =
  match get_record mi n with
  | None => Ok None
  | Some record =>
      data_file ← ok_or (files fs !! data_path mi) EIo;
      compressed_bytes ← read_exact_at data_file (rec_offset record) (rec_length record);
      decompressed ← zstd_decode_all compressed_bytes;
      Ok (Some decompressed)
  end.
Proof.
  intros (H1 & H2 & H3). unfold cold_read_block. by rewrite (find_chunk_max indices n k mi).
Qed.

Lemma record_fields (a b c : bytes) :
  length a = 8%nat → length b = 8%nat → length c = 4%nat →
  take 8 (a ++ b ++ c) = a ∧ take 8 (drop 8 (a ++ b ++ c)) = b ∧
  take 4 (drop 16 (a ++ b ++ c)) = c.
Proof.
  intros Ha Hb Hc. split_and!.
  - by rewrite take_app_length'.
  - by rewrite drop_app_length', take_app_length'.
  - rewrite app_assoc, drop_app_length' by (rewrite length_app; lia).
    by rewrite take_ge by lia.
Qed.

(** The chunk of an archive of consecutive blocks serves each of its blocks. *)
Lemma chunk_record ns zs first j n z path :
  ns = seqZ first (Z.of_nat (length ns)) → is_u64 first →
  first + Z.of_nat (length ns) ≤ 10 ^ 10 →
  ns !! j = Some n → zs !! j = Some z → length ns = length zs →
  Forall (λ z : bytes, Z.of_nat (length z) < 4294967296) zs →
  Z.of_nat (length (concat zs)) < u64_modulus →
  get_record (MkMapped (concat (records ns zs 0)) first
                (first + Z.of_nat (length ns) - 1) path) n =
  Some {| rec_block_number := n;
          rec_offset := Z.of_nat (length (concat (take j zs)));
          rec_length := Z.of_nat (length z) |}.
Proof.
  intros Hseq Hf Hmax Hn Hz Hlen Hsz Htot.
  pose proof (lookup_lt_Some _ _ _ Hn) as Hj.
  assert (n = first + Z.of_nat j) as ->.
  { rewrite Hseq, lookup_seqZ in Hn. lia. }
  unfold get_record. cbn [start_block end_block mmap].
  destruct (Z.leb_spec first (first + Z.of_nat j)); [|lia].
  destruct (Z.leb_spec (first + Z.of_nat j) (first + Z.of_nat (length ns) - 1)); [|lia].
  cbn [andb]. unfold record_size.
  rewrite u64_sub_small, wrap64_small, u64_add_small by u64_lia.
  destruct (concat_chunk 20 (records ns zs 0) j _ (records_sizes ns zs 0)
    (lookup_records ns zs 0 j _ z Hn Hz)) as [Hrec Hbound].
  destruct (Z.ltb_spec (Z.of_nat (length (concat (records ns zs 0))))
    ((first + Z.of_nat j - first) * 20 + 20)); [lia|].
  unfold slice. replace (Z.to_nat ((first + Z.of_nat j - first) * 20)) with (j * 20)%nat by lia.
  change (Z.to_nat 20) with 20%nat. rewrite Hrec.
  assert (Z.of_nat (length (concat (take j zs))) < u64_modulus).
  { destruct (drop_concat zs j z Hz). lia. }
  rewrite Forall_forall in Hsz. specialize (Hsz z (list_elem_of_lookup_2 _ _ _ Hz)).
  unfold record_bytes. cbn [rec_block_number rec_offset rec_length].
  destruct (record_fields (be_bytes 8 (first + Z.of_nat j))
    (be_bytes 8 (0 + Z.of_nat (length (concat (take j zs)))))
    (be_bytes 4 (Z.of_nat (length z)))) as (-> & -> & ->); [by apply length_be_bytes..|].
  rewrite !be_value_be_bytes, Z.add_0_l.
  rewrite !Z.mod_small by (cbn; u64_lia). done.
Qed.

(** Blocks [first, first+1, ...] that fit an archive: consecutive numbers of at
    most ten digits, compressible to at most 4 GiB each and 2^64 bytes in all. *)
Definition archivable (blocks : list Block) (first : Z) (zs : list bytes) : Prop :=
  blocks ≠ [] ∧ is_u64 first ∧ first + Z.of_nat (length blocks) ≤ 10 ^ 10 ∧
  numbered blocks (seqZ first (Z.of_nat (length blocks))) ∧
  compressed blocks zs ∧ Z.of_nat (length (concat zs)) < u64_modulus.

Definition last_of (blocks : list Block) (first : Z) : Z :=
  first + Z.of_nat (length blocks) - 1.

(** The index entry [load_index_file] creates for such an archive. *)
Definition archive_entry (blocks : list Block) (first : Z) (zs : list bytes) : MappedIndex :=
  MkMapped (concat (records (seqZ first (Z.of_nat (length blocks))) zs 0)) first
    (last_of blocks first) (data_filename first (last_of blocks first)).

Lemma seqZ_ends first k : 0 < k →
  head (seqZ first k) = Some first ∧ list.last (seqZ first k) = Some (first + k - 1).
Proof.
  intros Hk. split; [by rewrite seqZ_cons by lia|].
  replace k with (Z.of_nat (S (Z.to_nat (k - 1)))) by lia. rewrite seqZ_S.
  rewrite last_snoc. f_equal. lia.
Qed.

Lemma archive_write_load blocks first zs fs indices :
  archivable blocks first zs →
  let i := index_filename first (last_of blocks first) in
  let d := data_filename first (last_of blocks first) in
  ∃ fs', io_run fs None (write_archive blocks) = (fs', Ok i) ∧
    load_index_file fs' indices i
      = Ok (<[first := archive_entry blocks first zs]> indices) ∧
    files fs' !! d = Some (concat zs) ∧
    ∀ f, f ≠ d → f ≠ i → f ≠ tmp_filename d → f ≠ tmp_filename i →
      files fs' !! f = files fs !! f.
Proof.
  intros (Hne & Hf & Hmax & Hn & Hz & Htot) i d.
  assert (0 < Z.of_nat (length blocks)) as Hpos by (destruct blocks; [done|cbn; lia]).
  destruct (seqZ_ends first _ Hpos) as [Hhd Hls].
  destruct (write_archive_ok blocks _ zs first (last_of blocks first) fs Hn Hz Hhd Hls Htot)
    as (fs' & E & Hi & Hd & _ & Ho).
  exists fs'. split_and!; [done| |done|done].
  unfold load_index_file, i. rewrite parse_index_filename by (unfold last_of; u64_lia).
  rewrite decide_True by (unfold last_of; lia). cbn. rewrite index_with_rba, Hd, Hi. done.
Qed.

Lemma archive_read blocks first zs fs indices j b :
  archivable blocks first zs → blocks !! j = Some b →
  files fs !! data_filename first (last_of blocks first) = Some (concat zs) →
  chunk_of indices (first + Z.of_nat j) first (archive_entry blocks first zs) →
  cold_read_block fs indices (first + Z.of_nat j) = Ok (Some (encode_to_vec b)).
Proof.
  intros (Hne & Hf & Hmax & Hn & Hz & Htot) Hb Hd Hchunk.
  pose proof (lookup_lt_Some _ _ _ Hb) as Hj.
  destruct (Forall2_lookup_l _ _ _ _ _ Hz Hb) as (z & Hzj & Ez & _).
  rewrite (cold_read_chunk _ _ _ _ _ Hchunk). unfold archive_entry.
  replace (last_of blocks first)
    with (first + Z.of_nat (length (seqZ first (Z.of_nat (length blocks)))) - 1) at 1
    by (rewrite length_seqZ; unfold last_of; lia).
  rewrite (chunk_record _ zs first j (first + Z.of_nat j) z).
  - cbn. rewrite Hd. cbn. unfold read_exact_at. destruct (drop_concat zs j z Hzj) as [Es Hle].
    destruct (Z.ltb_spec (Z.of_nat (length (concat zs)))
      (Z.of_nat (length (concat (take j zs))) + Z.of_nat (length z))); [lia|].
    cbn. unfold slice. rewrite !Nat2Z.id, Es. by rewrite (zstd_roundtrip _ _ Ez).
  - rewrite length_seqZ. f_equal. lia.
  - done.
  - rewrite length_seqZ. lia.
  - apply lookup_seqZ. lia.
  - done.
  - rewrite length_seqZ, <-(Forall2_length _ _ _ Hz). lia.
  - apply Forall_forall. intros z' Hz'.
    apply list_elem_of_lookup in Hz' as [j' Hj'].
    by destruct (Forall2_lookup_r _ _ _ _ _ Hz Hj') as (? & _ & _ & ?).
  - done.
Qed.
End cold_theory.
