(* ===== verification/Core.v ===== *)
(** crates/rock-node-core/src: the events that travel between plugins
    (events.rs), the block-data cache they refer to (cache.rs), the capability
    registry (capability.rs) and the reader and writer traits (block_reader.rs,
    block_writer.rs) as type classes.

    A [Uuid] is a number; [Uuid::new_v4] is an argument of [insert], and the
    theorems say where a fresh key is needed.  [Instant]s are milliseconds. *)
From S2P Require Import Prelude Block.

Abbreviation Uuid := N.

(** ** events.rs *)
Record BlockData := MkBlockData { bd_block_number : Z; bd_contents : bytes }.
Record BlockItemsReceived := MkItemsReceived { bir_block_number : Z; bir_cache_key : Uuid }.
Record BlockVerified := MkVerified { bv_block_number : Z; bv_cache_key : Uuid }.
Record BlockVerificationFailed := MkVerificationFailed {
  bvf_block_number : Z; bvf_cache_key : Uuid; bvf_reason : string }.
Record BlockPersisted := MkPersisted { bp_block_number : Z; bp_cache_key : Uuid }.

(** ** cache.rs *)
Definition CACHE_TTL_SECONDS : Z := 60.
Definition CLEANUP_INTERVAL_SECONDS : Z := 10.

Record BlockDataCache := MkCache {
  cache : gmap Uuid (BlockData * Z);
  cleanup_queue : gset Uuid;
}.

Module Cache.
Definition new : BlockDataCache := MkCache ∅ ∅.

(** [key] is what [Uuid::new_v4] returned, [now] is [Instant::now]. *)
Definition insert (c : BlockDataCache) (key : Uuid) (now : Z) (data : BlockData)
    : BlockDataCache :=
  MkCache (<[key := (data, now)]> (cache c)) (cleanup_queue c).

Definition get (c : BlockDataCache) (key : Uuid) : option BlockData :=
  fst <$> cache c !! key.

Definition mark_for_removal (c : BlockDataCache) (key : Uuid) : BlockDataCache :=
  match cache c !! key with
  | Some _ => MkCache (delete key (cache c)) (cleanup_queue c)
  | None => MkCache (cache c) ({[key]} ∪ cleanup_queue c)
  end.

(** One turn of the loop of [run_cleanup_task] at time [now]. *)
Definition run_cleanup (c : BlockDataCache) (now : Z) : BlockDataCache :=
  let keys_to_delete := elements (cleanup_queue c) in
  let cache1 := foldr (λ k m, delete k m) (cache c) keys_to_delete in
  let stale_keys :=
    (filter (λ e, CACHE_TTL_SECONDS * 1000 < now - e.2.2) (map_to_list cache1)).*1 in
  MkCache (foldr (λ k m, delete k m) cache1 stale_keys) ∅.

Lemma foldr_delete_lookup {A} (m : gmap Uuid A) (ks : list Uuid) k :
  foldr (λ k m, delete k m) m ks !! k = if decide (k ∈ ks) then None else m !! k.
Proof.
  induction ks as [|k0 ks IH]; [done|]. cbn.
  destruct (decide (k = k0)) as [->|Hne].
  - rewrite lookup_delete_eq, decide_True; [done|by left].
  - rewrite lookup_delete_ne, IH by done.
    destruct (decide (k ∈ ks)) as [H|H]; [by rewrite decide_True by (by right)|].
    by rewrite decide_False by (by intros [|]%elem_of_cons).
Qed.

(** What survives a cleanup: exactly the entries that are not queued for removal
    and whose age is within the time to live. *)
Lemma run_cleanup_lookup c now k :
  cache (run_cleanup c now) !! k =
  match cache c !! k with
  | Some (d, t) =>
      if decide (k ∈ cleanup_queue c ∨ CACHE_TTL_SECONDS * 1000 < now - t)
      then None else Some (d, t)
  | None => None
  end.
Proof.
  unfold run_cleanup. cbn [cache]. set (m1 := foldr _ (cache c) _).
  assert (m1 !! k = if decide (k ∈ cleanup_queue c) then None else cache c !! k) as E1.
  { unfold m1. rewrite foldr_delete_lookup.
    destruct (decide (k ∈ cleanup_queue c)) as [H|H].
    - by rewrite decide_True by (by apply elem_of_elements).
    - by rewrite decide_False by (by intros ?%elem_of_elements). }
  assert (∀ d t, m1 !! k = Some (d, t) →
    k ∈ (filter (λ e, CACHE_TTL_SECONDS * 1000 < now - e.2.2) (map_to_list m1)).*1
    ↔ CACHE_TTL_SECONDS * 1000 < now - t) as Hst.
  { intros d t Hl. rewrite list_elem_of_fmap. split.
    - intros ([k' [d' t']] & -> & Hin). cbn in *.
      apply list_elem_of_filter in Hin as [Ht Hin%elem_of_map_to_list]. cbn in Ht. congruence.
    - intros Ht. exists (k, (d, t)). split; [done|]. apply list_elem_of_filter.
      split; [done|]. by apply elem_of_map_to_list. }
  rewrite foldr_delete_lookup, E1. destruct (cache c !! k) as [[d t]|] eqn:E.
  - destruct (decide (k ∈ cleanup_queue c)) as [Hq|Hq].
    + rewrite (decide_True (P := _ ∨ _)) by auto. by destruct (decide _).
    + specialize (Hst d t). rewrite E1 in Hst. specialize (Hst eq_refl).
      do 2 case_decide; tauto || done.
  - by repeat destruct (decide _).
Qed.
End Cache.

(** ** capability.rs *)
Inductive Capability := ProvidesVerifiedBlocks | ProvidesBlockReader.

#[export] Instance Capability_eq_dec : EqDecision Capability.
Proof. solve_decision. Defined.
#[export] Instance Capability_countable : Countable Capability.
Proof.
  refine (inj_countable' (λ c, bool_decide (c = ProvidesBlockReader))
    (λ b : bool, if b then ProvidesBlockReader else ProvidesVerifiedBlocks) _).
  by intros [].
Defined.

Record CapabilityRegistry := MkRegistry { registered : gset Capability }.
Definition register (r : CapabilityRegistry) (c : Capability) : CapabilityRegistry :=
  MkRegistry ({[c]} ∪ registered r).
Definition is_registered (r : CapabilityRegistry) (c : Capability) : bool :=
  bool_decide (c ∈ registered r).

(** ** block_reader.rs and block_writer.rs

    The traits the other plugins use the persistence service through; [S] is the
    state behind the shared handle. *)
Class BlockReader (S : Type) := {
  get_latest_persisted_block_number : S → Result Error (option Z);
  get_earliest_persisted_block_number : S → Result Error (option Z);
  read_block : S → Z → Result Error (option bytes);
  get_highest_contiguous_block_number : S → Result Error Z;
}.

Class BlockWriter (S : Type) := {
  writer_write_block : S → Block → S * Result Error unit;
  writer_write_block_batch : S → list Block → S * Result Error unit;
}.

(** What a client may rely on.  [holds s m]: the store is in working order and [m]
    is what it holds, the bytes of each block under the block's own number.  Reads
    return exactly this; writing a block the store can take adds it, and changes
    nothing else. *)
Class BlockStore (S : Type) `{BlockReader S, BlockWriter S, Codec} := {
  holds : S → gmap Z bytes → Prop;
  accepts : Block → Prop;
  read_block_holds : ∀ s m n,
    holds s m → is_u64 n → read_block s n = Ok (m !! n);
  holds_block : ∀ s m n c, holds s m → m !! n = Some c →
    ∃ b, wf_block b ∧ get_block_number b = Ok n ∧ c = encode_to_vec b;
  write_block_holds : ∀ s m b n,
    holds s m → accepts b → get_block_number b = Ok n →
    ∃ s', writer_write_block s b = (s', Ok ()) ∧ holds s' (<[n := encode_to_vec b]> m);
}.
