(* ===== verification/Archiver.v ===== *)
(** The archiver: crates/rock-node-persistence-plugin/src/cold_storage/archiver.rs.
    It moves full batches of the oldest hot blocks to the cold tier. *)
From S2P Require Import Prelude Config Database Block StateManager HotTier ColdStorage.

(** What the persistence plugin owns: the store, the archive directory and the
    reader's table of loaded indices. *)
Record Tiers `{RocksDB} := MkTiers {
  t_db : DB;
  t_fs : FS;
  t_indices : Indices;
}.
Arguments MkTiers {_}.
Arguments t_db {_}.
Arguments t_fs {_}.
Arguments t_indices {_}.

Section archiver.
Context {RDB : RocksDB} {CODEC : Codec}.
Implicit Types (st : Tiers).

(** [for i in 0..count { add_delete_to_batch(start_block + i) }] *)
Fixpoint delete_range (db : DB) (start_block i : Z) (k : nat) (batch : WriteBatch)
    : Result Error WriteBatch :=
  match k with
  | O => Ok batch
  | S k =>
      batch ← add_delete_to_batch db (u64_add start_block i) batch;
      delete_range db start_block (i + 1) k batch
  end.

(** The batch that retires [count] blocks from [start_block]. *)
Definition retire_batch (db : DB) (start_block count : Z) : Result Error WriteBatch :=
  batch ← delete_range db start_block 0 (Z.to_nat count) [];
  batch ← set_earliest_hot db (u64_add start_block count) batch;
  remove_skipped_batch db start_block batch.

(** [fault] cuts the file-system work (see [io_run]).  A failure to load the new
    index is only logged. *)
Definition archive_batch st (fault : option nat) (start_block count : Z)
    : Tiers * Result Error unit :=
  match read_block_batch (t_db st) start_block count with
  | Err e => (st, Err e)
  | Ok [] => (st, Ok tt)
  | Ok blocks_to_archive =>
      let '(fs, r) := io_run (t_fs st) fault (write_archive blocks_to_archive) in
      match r with
      | Err e => (MkTiers (t_db st) fs (t_indices st), Err e)
      | Ok new_index_path =>
          let indices :=
            match load_index_file fs (t_indices st) new_index_path with
            | Ok indices => indices
            | Err _ => t_indices st
            end in
          match (batch ← retire_batch (t_db st) start_block count;
                 commit_batch (t_db st) batch) with
          | Err e => (MkTiers (t_db st) fs indices, Err e)
          | Ok db => (MkTiers db fs indices, Ok tt)
          end
      end
  end.

(** One turn of the loop of [run_archival_cycle]: [None] means go round again. *)
Definition cycle_step (cfg : PersistenceServiceConfig) st (fault : option nat)
    : Tiers * option (Result Error unit) :=
  let db := t_db st in
  match get_earliest_hot db with
  | Err e => (st, Some (Err e))
  | Ok None => (st, Some (Ok tt))
  | Ok (Some earliest_hot) =>
      match get_latest_persisted db with
      | Err e => (st, Some (Err e))
      | Ok latest =>
          let latest_persisted := default 0 latest in
          let hot_tier_total_blocks :=
            u64_add (saturating_sub latest_persisted earliest_hot) 1 in
          if hot_tier_total_blocks <=? hot_storage_block_count cfg
          then (st, Some (Ok tt))
          else
            let batch_size := archive_batch_size cfg in
            match is_batch_complete db earliest_hot batch_size with
            | Err e => (st, Some (Err e))
            | Ok true =>
                let '(st, r) := archive_batch st fault earliest_hot batch_size in
                match r with Err e => (st, Some (Err e)) | Ok _ => (st, None) end
            | Ok false =>
                match (batch ← add_skipped_batch db earliest_hot [];
                       commit_batch db batch) with
                | Err e => (st, Some (Err e))
                | Ok db => (MkTiers db (t_fs st) (t_indices st), Some (Ok tt))
                end
            end
      end
  end.

(** The loop, with the faults of its turns; [None] when the fuel, which bounds the
    number of turns, runs out. *)
Fixpoint run_archival_cycle (cfg : PersistenceServiceConfig) (fuel : nat) st
    (faults : nat → option nat) : option (Tiers * Result Error unit) :=
  match fuel with
  | O => None
  | S fuel =>
      let '(st, o) := cycle_step cfg st (faults 0%nat) in
      match o with
      | Some r => Some (st, r)
      | None => run_archival_cycle cfg fuel st (λ i, faults (S i))
      end
  end.
End archiver.

Section archiver_theory.
Context {RDB : RocksDB} {LAWS : RocksDBLaws} {CODEC : Codec} {CLAWS : CodecLaws}.
Implicit Types (st : Tiers) (db : DB).

Lemma delete_range_ok db start i k batch : db_open db →
  delete_range db start i k batch =
  Ok (batch ++ ((λ j, BDelete CF_HOT_BLOCKS (u64_to_be (u64_add start j)))
                <$> seqZ i (Z.of_nat k))).
Proof.
  intros Ho. revert i batch. induction k as [|k IH]; intros i batch.
  - cbn. by rewrite app_nil_r.
  - cbn [delete_range]. unfold add_delete_to_batch.
    rewrite need_cf_open by (done || set_solver). cbn -[Z.of_nat]. rewrite IH, seqZ_step.
    cbn -[Z.of_nat]. by rewrite <-app_assoc.
Qed.

Definition retire_ops (start count : Z) : WriteBatch :=
  ((λ j, BDelete CF_HOT_BLOCKS (u64_to_be (u64_add start j))) <$> seqZ 0 count)
  ++ [BPut CF_METADATA EARLIEST_HOT_KEY (u64_to_be (u64_add start count));
      BDelete CF_SKIPPED_BATCHES (u64_to_be start)].

Lemma retire_batch_ok db start count : db_open db → 0 ≤ count →
  retire_batch db start count = Ok (retire_ops start count).
Proof.
  intros Ho Hc. unfold retire_batch. rewrite delete_range_ok by done. cbn.
  unfold set_earliest_hot. rewrite set_u64_ok by done. cbn.
  unfold remove_skipped_batch. rewrite need_cf_open by (done || set_solver).
  rewrite Z2Nat.id by done. cbn. unfold retire_ops. by rewrite <-app_assoc.
Qed.

Lemma apply_deletes (m : gmap bytes bytes) start (l : list Z) k :
  apply_batch CF_HOT_BLOCKS m
    ((λ j, BDelete CF_HOT_BLOCKS (u64_to_be (u64_add start j))) <$> l) !! k =
  if decide (k ∈ (λ j, u64_to_be (u64_add start j)) <$> l) then None else m !! k.
Proof.
  revert m. induction l as [|j l IH]; intros m; [done|].
  cbn. batch_simpl. rewrite IH.
  destruct (decide (k ∈ (λ j, u64_to_be (u64_add start j)) <$> l)) as [Hin|Hin].
  - by rewrite decide_True by (by right).
  - destruct (decide (u64_to_be (u64_add start j) = k)) as [<-|Hne].
    + rewrite lookup_delete_eq, decide_True; [done|by left].
    + rewrite lookup_delete_ne, decide_False; [done| |done].
      by intros [|]%elem_of_cons.
Qed.

(** The hot tier after the batch is retired. *)
Lemma retire_hot (m : gmap bytes bytes) start count k :
  apply_batch CF_HOT_BLOCKS m (retire_ops start count) !! k =
  if decide (k ∈ (λ j, u64_to_be (u64_add start j)) <$> seqZ 0 count)
  then None else m !! k.
Proof. unfold retire_ops. batch_simpl. apply apply_deletes. Qed.

Lemma retire_meta (m : gmap bytes bytes) start count :
  apply_batch CF_METADATA m (retire_ops start count)
  = <[EARLIEST_HOT_KEY := u64_to_be (u64_add start count)]> m.
Proof.
  unfold retire_ops. batch_simpl. f_equal. apply apply_batch_other.
  apply Forall_fmap, Forall_forall. done.
Qed.

Lemma retire_gaps (m : gmap bytes bytes) start count :
  apply_batch CF_GAPS m (retire_ops start count) = m.
Proof.
  unfold retire_ops. batch_simpl. apply apply_batch_other.
  apply Forall_fmap, Forall_forall. done.
Qed.

(** What a successful [archive_batch] does to the store. *)
Lemma archive_batch_db st fault start count st' :
  db_ok (t_db st) → 0 ≤ count →
  archive_batch st fault start count = (st', Ok tt) →
  (st' = st ∧ read_block_batch (t_db st) start count = Ok []) ∨
  (db_ok (t_db st') ∧
   ∀ cf, entries (t_db st') cf = apply_batch cf (entries (t_db st) cf) (retire_ops start count)).
Proof.
  intros Hdb Hc. unfold archive_batch.
  destruct (read_block_batch (t_db st) start count) as [[|b bs]|e]; [|..|done].
  - intros [= <-]. by left.
  - destruct (io_run (t_fs st) fault (write_archive (b :: bs))) as [fs [i|e]]; [|done].
    rewrite retire_batch_ok by (done || apply Hdb). cbn -[retire_ops]. unfold commit_batch.
    destruct (write_db_ok (t_db st) (retire_ops start count) Hdb) as (db' & -> & Hdb' & He).
    intros [= <-]. by right.
Qed.

Lemma read_batch_from_length db start i k acc bs :
  read_batch_from db start i k acc = Ok bs → length bs = (length acc + k)%nat.
Proof.
  revert i acc. induction k as [|k IH]; intros i acc; cbn.
  - intros [= <-]. lia.
  - intros H. apply bind_Ok in H as ([c|] & _ & H); [|done].
    apply bind_Ok in H as (b & _ & H). rewrite (IH _ _ H), length_app. cbn. lia.
Qed.

(** Each further turn of the loop has shrunk the hot tier. *)
Lemma cycle_progress cfg st fault st' :
  db_ok (t_db st) → 1 ≤ archive_batch_size cfg →
  cycle_step cfg st fault = (st', None) →
  db_ok (t_db st') ∧
  (size (entries (t_db st') CF_HOT_BLOCKS) < size (entries (t_db st) CF_HOT_BLOCKS))%nat.
Proof.
  intros Hdb Hbs. unfold cycle_step.
  destruct (get_earliest_hot (t_db st)) as [[eh|]|]; [|done..].
  destruct (get_latest_persisted (t_db st)) as [l|]; [|done].
  destruct (_ <=? _); [done|].
  destruct (is_batch_complete_ok (t_db st) eh (archive_batch_size cfg) Hdb ltac:(lia))
    as (b & -> & Hb).
  destruct b; [|by repeat case_match].
  destruct (archive_batch st fault eh (archive_batch_size cfg)) as [st1 [[]|e]] eqn:E; [|done].
  intros [= <-]. apply archive_batch_db in E as [[_ E]|[Hdb1 He]]; [|..|done|lia].
  - unfold read_block_batch in E. apply read_batch_from_length in E. cbn in E. lia.
  - split; [done|].
    destruct (proj1 Hb eq_refl 0 ltac:(lia)) as [v Hv].
    set (k := u64_to_be (u64_add eh 0)) in *.
    assert (entries (t_db st1) CF_HOT_BLOCKS ⊆ delete k (entries (t_db st) CF_HOT_BLOCKS)) as Hsub.
    { apply map_subseteq_spec. intros k' v'. rewrite He, retire_hot.
      case_decide as Hk; [done|]. intros Hl. apply lookup_delete_Some. split; [|done].
      intros <-. destruct Hk. apply list_elem_of_fmap. exists 0.
      split; [done|]. apply elem_of_seqZ. lia. }
    apply map_subseteq_size in Hsub. rewrite map_size_delete_Some in Hsub by eauto.
    assert (size (entries (t_db st) CF_HOT_BLOCKS) ≠ 0%nat); [|lia].
    intros Hz%map_size_empty_inv. by rewrite Hz in Hv.
Qed.

Lemma cycle_terminates cfg st faults fuel :
  db_ok (t_db st) → 1 ≤ archive_batch_size cfg →
  (size (entries (t_db st) CF_HOT_BLOCKS) < fuel)%nat →
  ∃ st' r, run_archival_cycle cfg fuel st faults = Some (st', r).
Proof.
  revert st faults. induction fuel as [|fuel IH]; intros st faults Hdb Hbs Hfuel; [lia|].
  cbn. destruct (cycle_step cfg st (faults 0%nat)) as [st1 [r|]] eqn:E; [eauto|].
  apply cycle_progress in E as [Hdb1 Hlt]; [|done..]. apply IH; [done|done|lia].
Qed.

(** With a zero batch size a turn on an oversized hot tier changes nothing. *)
Lemma cycle_stuck cfg st fault eh l :
  db_ok (t_db st) → archive_batch_size cfg = 0 →
  meta_is (t_db st) EARLIEST_HOT_KEY (Some eh) →
  meta_is (t_db st) LATEST_PERSISTED_KEY (Some l) →
  hot_storage_block_count cfg < u64_add (saturating_sub l eh) 1 →
  cycle_step cfg st fault = (st, None).
Proof.
  intros Hdb Hz He Hl Hc. unfold cycle_step, get_earliest_hot, get_latest_persisted.
  rewrite (get_u64_opt_ok _ _ _ Hdb He), (get_u64_opt_ok _ _ _ Hdb Hl). cbn.
  destruct (Z.leb_spec (u64_add (saturating_sub l eh) 1) (hot_storage_block_count cfg)); [lia|].
  rewrite Hz. unfold is_batch_complete.
  rewrite need_cf_open by (apply Hdb || set_solver). done.
Qed.
End archiver_theory.
