(* ===== verification/Persistence.v ===== *)
(** The persistence service as a whole: the reader side of service.rs, its batch
    write, and the start-up of lib.rs, over the two storage tiers.

    The theory shows that the tiers together are one store: archiving is
    invisible to readers, and nothing written is lost. *)
From S2P Require Import Prelude Config Database Block StateManager HotTier ColdStorage.
From S2P Require Import Core PersistenceService Archiver.
From Stdlib Require Import Strings.Ascii.

(** [PersistenceService] of service.rs: its configuration and the tiers behind its
    shared handles. *)
Record Service `{RocksDB} := MkService {
  svc_cfg : PersistenceServiceConfig;
  svc_start : Z;
  svc_tiers : Tiers;
}.
Arguments MkService {_}.
Arguments svc_cfg {_}.
Arguments svc_start {_}.
Arguments svc_tiers {_}.

Section service.
Context {RDB : RocksDB} {CODEC : Codec}.
Implicit Types (svc : Service) (st : Tiers).

Definition tiers_read_block st (block_number : Z) : Result Error (option bytes) :=
  o ← hot_read_block (t_db st) block_number;
  match o with
  | Some block_bytes => Ok (Some block_bytes)
  | None =>
      o ← cold_read_block (t_fs st) (t_indices st) block_number;
      match o with
      | Some block_bytes => Ok (Some block_bytes)
      | None => Ok None
      end
  end.

#[export] Instance service_reader : BlockReader Service := {|
  get_latest_persisted_block_number svc := get_latest_persisted (t_db (svc_tiers svc));
  get_earliest_persisted_block_number svc :=
    get_true_earliest_persisted (t_db (svc_tiers svc));
  read_block svc n := tiers_read_block (svc_tiers svc) n;
  get_highest_contiguous_block_number svc := get_highest_contiguous (t_db (svc_tiers svc));
|}.

Definition with_tiers svc st : Service := MkService (svc_cfg svc) (svc_start svc) st.
Definition with_db st (db : DB) : Tiers := MkTiers db (t_fs st) (t_indices st).

(** [write_block] on the tiers; the archiver's notification is the [bool]. *)
Definition tiers_write_block (cfg : PersistenceServiceConfig) (start : Z) st (block : Block)
    : Tiers * Result Error bool :=
  let '(db, r) := write_block (t_db st) cfg start block in (with_db st db, r).

(** [write_block_batch]; [fault] cuts its file-system work. *)
Definition tiers_write_block_batch st (fault : option nat) (blocks : list Block)
    : Tiers * Result Error unit :=
  match blocks with
  | [] => (st, Ok tt)
  | first :: _ =>
      let '(fs, r) := io_run (t_fs st) fault (write_archive blocks) in
      match r with
      | Err e => (MkTiers (t_db st) fs (t_indices st), Err e)
      | Ok new_index_path =>
          let indices :=
            match load_index_file fs (t_indices st) new_index_path with
            | Ok indices => indices
            | Err _ => t_indices st
            end in
          match (batch_earliest ← get_block_number first;
                 update_true_earliest_if_less (t_db st) batch_earliest) with
          | Err e => (MkTiers (t_db st) fs indices, Err e)
          | Ok db => (MkTiers db fs indices, Ok tt)
          end
      end
  end.

#[export] Instance service_writer : BlockWriter Service := {|
  writer_write_block svc block :=
    let '(st, r) := tiers_write_block (svc_cfg svc) (svc_start svc) (svc_tiers svc) block in
    (with_tiers svc st, match r with Ok _ => Ok tt | Err e => Err e end);
  writer_write_block_batch svc blocks :=
    let '(st, r) := tiers_write_block_batch (svc_tiers svc) None blocks in
    (with_tiers svc st, r);
|}.

(** [initialize] of lib.rs: the index scan, the first determination of the earliest
    block, the seed of the contiguous mark. *)
Definition true_earliest_of (earliest_cold earliest_hot : option Z) : option Z :=
  match earliest_cold, earliest_hot with
  | Some c, Some h => Some (Z.min c h)
  | Some c, None => Some c
  | None, Some h => Some h
  | None, None => None
  end.

Definition determine_true_earliest (db : DB) (indices : Indices) : Result Error DB :=
  te ← get_true_earliest_persisted db;
  match te with
  | Some _ => Ok db
  | None =>
      let earliest_cold := get_earliest_indexed_block indices in
      earliest_hot ← get_earliest_block_number db;
      match true_earliest_of earliest_cold earliest_hot with
      | Some earliest => initialize_true_earliest_persisted db earliest
      | None => Ok db
      end
  end.

Definition initialize (cfg : PersistenceServiceConfig) (start_block_number : Z)
    (db : DB) (fs : FS) (listing : list fname) : Result Error Service :=
  let indices := scan_and_build_index fs listing ∅ in
  db ← determine_true_earliest db indices;
  db ← initialize_highest_contiguous db (saturating_sub start_block_number 1);
  Ok (MkService cfg start_block_number (MkTiers db fs indices)).
End service.

Section tiers_theory.
Context {RDB : RocksDB} {LAWS : RocksDBLaws} {CODEC : Codec} {CLAWS : CodecLaws}.
Implicit Types (st : Tiers) (db : DB).

(** A block the node can keep: it fits in memory, its number has at most ten
    digits and it compresses to less than 4 GiB. *)
Definition storable (b : Block) (n : Z) : Prop :=
  wf_block b ∧ fits b ∧ get_block_number b = Ok n ∧ n < 10 ^ 10 ∧
  ∃ z, zstd_encode_all (encode_to_vec b) = Ok z ∧ Z.of_nat (length z) < 4294967296.

(** Every hot entry is a storable block under its own number. *)
Definition hot_wf db : Prop :=
  ∀ k v, entries db CF_HOT_BLOCKS !! k = Some v →
    ∃ n b, k = u64_to_be n ∧ storable b n ∧
      bincode_deserialize v = Ok (MkStored (encode_to_vec b)).

(** The hot tier has every number from [a] to [b]. *)
Definition hot_range db (a b : Z) : Prop :=
  ∀ n, a ≤ n ≤ b → is_Some (entries db CF_HOT_BLOCKS !! u64_to_be n).

(** The archives lie below the first hot block, but for one that starts there and
    whose blocks are all still hot: its files were complete when the node stopped
    before it could retire them. *)
Definition cold_below st (eh : Z) : Prop :=
  ∀ k mi, t_indices st !! k = Some mi →
    start_block mi = k ∧ 0 ≤ k ≤ end_block mi ∧
    data_path mi = data_filename k (end_block mi) ∧
    (end_block mi < eh ∨ k = eh ∧ hot_range (t_db st) eh (end_block mi)).

Definition tiers_inv st : Prop :=
  db_ok (t_db st) ∧ hot_wf (t_db st) ∧
  ∃ o, meta_is (t_db st) EARLIEST_HOT_KEY o ∧
    match o with Some eh => cold_below st eh | None => t_indices st = ∅ end.

Lemma storable_u64 b n : storable b n → 0 ≤ n < 10 ^ 10.
Proof. intros (Hwf & _ & Hn & ? & _). apply get_block_number_u64 in Hn; [|done]. u64_lia. Qed.

Lemma hot_wf_at db n v : hot_wf db → is_u64 n →
  entries db CF_HOT_BLOCKS !! u64_to_be n = Some v →
  ∃ b, storable b n ∧ bincode_deserialize v = Ok (MkStored (encode_to_vec b)).
Proof.
  intros Hw Hn (n' & b & E & Hs & Hd)%Hw. pose proof (storable_u64 _ _ Hs).
  apply u64_to_be_inj in E as ->; [by exists b|done|u64_lia].
Qed.

(** A complete batch of the hot tier is a run of storable blocks. *)
Lemma complete_batch db eh (k : nat) :
  hot_wf db → is_u64 eh →
  (∀ i, 0 ≤ i < Z.of_nat k → is_Some (entries db CF_HOT_BLOCKS !! u64_to_be (u64_add eh i))) →
  ∃ bs zs, length bs = k ∧ (k ≠ 0%nat → eh + Z.of_nat k ≤ 10 ^ 10) ∧
    Forall wf_block bs ∧ numbered bs (seqZ eh (Z.of_nat k)) ∧ compressed bs zs ∧
    ∀ j b, bs !! j = Some b → hot_has db (u64_add eh (Z.of_nat j)) (encode_to_vec b).
Proof.
  intros Hw. revert eh. induction k as [|k IH]; intros eh Heh Hall.
  { exists [], []. split_and!; try constructor; done. }
  destruct (Hall 0 ltac:(lia)) as [v Hv].
  rewrite u64_add_small, Z.add_0_r in Hv by u64_lia.
  destruct (hot_wf_at db eh v Hw Heh Hv) as (b & Hs & Hd).
  pose proof (storable_u64 _ _ Hs) as Hr. destruct Hs as (Hwf & Hfit & Hbn & _ & z & Hz & Hlz).
  assert (∀ i, u64_add (eh + 1) i = u64_add eh (i + 1)) as Hshift
    by (intros i; unfold u64_add; f_equal; lia).
  destruct (IH (eh + 1)) as (bs & zs & Hlen & Hmax & Hwfs & Hn & Hc & Hh); [u64_lia| |].
  { intros i Hi. rewrite Hshift. apply Hall. lia. }
  exists (b :: bs), (z :: zs). split_and!.
  - cbn. by rewrite Hlen.
  - intros _. destruct (decide (k = 0%nat)) as [->|Hk]; [cbn in *; lia|].
    specialize (Hmax Hk). lia.
  - by constructor.
  - rewrite seqZ_step. by constructor.
  - by constructor.
  - intros [|j] b' Hj; cbn in Hj.
    + injection Hj as <-. exists v. rewrite u64_add_small by (cbn; u64_lia).
      cbn. by rewrite Z.add_0_r.
    + specialize (Hh j b' Hj). rewrite Hshift in Hh.
      by replace (Z.of_nat (S j)) with (Z.of_nat j + 1) by lia.
Qed.

Lemma compressed_total bs zs : compressed bs zs →
  Z.of_nat (length (concat zs)) ≤ Z.of_nat (length bs) * 4294967295.
Proof.
  induction 1 as [|b z bs zs [_ Hz] _ IH]; cbn; [lia|]. rewrite length_app. lia.
Qed.

Lemma complete_archivable db eh size :
  db_ok db → hot_wf db → is_u64 eh → 1 ≤ size ≤ 4294967296 →
  is_batch_complete db eh size = Ok true →
  ∃ bs zs, Z.of_nat (length bs) = size ∧ archivable bs eh zs ∧
    read_block_batch db eh size = Ok bs ∧
    ∀ j b, bs !! j = Some b → hot_has db (eh + Z.of_nat j) (encode_to_vec b).
Proof.
  intros Hdb Hw Heh Hsz Hc.
  destruct (is_batch_complete_ok db eh size Hdb ltac:(lia)) as (b & E & Hb).
  rewrite Hc in E. injection E as <-.
  destruct (complete_batch db eh (Z.to_nat size) Hw Heh) as
    (bs & zs & Hlen & Hmax & Hwf & Hn & Hz & Hh).
  { rewrite Z2Nat.id by lia. by apply Hb. }
  assert (eh + size ≤ 10 ^ 10) as Hm by (specialize (Hmax ltac:(lia)); lia).
  rewrite Z2Nat.id in Hn by lia. exists bs, zs. split_and!; [lia| | |].
  - pose proof (compressed_total _ _ Hz). unfold archivable.
    replace (Z.of_nat (length bs)) with size by lia.
    split_and!; [by destruct bs; cbn in *; [lia|]|done|done|done|done|lia].
  - apply read_block_batch_ok; [done|lia|done|done].
  - intros j b Hj. specialize (Hh j b Hj). apply lookup_lt_Some in Hj.
    by rewrite u64_add_small in Hh by u64_lia.
Qed.

(** ** The archive directory *)
Lemma lit_last (p : fname) (s : string) c :
  list.last (lit s) = Some c → list.last (p ++ lit s) = Some c.
Proof. intros H. rewrite last_app, H. done. Qed.

Lemma data_filename_tmp a b f : data_filename a b ≠ tmp_filename f.
Proof.
  intros E%(f_equal list.last). unfold data_filename, tmp_filename in E.
  by rewrite (lit_last _ _ "a"%char), (lit_last _ _ "p"%char) in E.
Qed.

Lemma data_filename_index a b a' b' : data_filename a b ≠ index_filename a' b'.
Proof.
  intros E%(f_equal list.last). unfold data_filename, index_filename in E.
  by rewrite (lit_last _ _ "a"%char), (lit_last _ _ "i"%char) in E.
Qed.

Lemma data_filename_inj a b a' b' :
  0 ≤ a < 10 ^ 10 → 0 ≤ b < 10 ^ 10 → 0 ≤ a' < 10 ^ 10 → 0 ≤ b' < 10 ^ 10 →
  data_filename a b = data_filename a' b' → a = a' ∧ b = b'.
Proof.
  intros Ha Hb Ha' Hb' E. unfold data_filename in E. apply app_inv_tail in E.
  apply index_filename_inj; [done..|]. unfold index_filename. by rewrite E.
Qed.

(** ** Cold reads under changes of the directory and of the index table *)
Lemma cold_frame fs fs' (idx idx' : Indices) n :
  (∀ k, k ≤ n → idx' !! k = idx !! k) →
  (∀ k mi, k ≤ n → idx !! k = Some mi → files fs' !! data_path mi = files fs !! data_path mi) →
  cold_read_block fs' idx' n = cold_read_block fs idx n.
Proof.
  intros Hi H. unfold cold_read_block.
  assert (find_chunk idx' n = find_chunk idx n) as ->.
  { pose proof (find_chunk_spec idx n) as Hf. destruct (find_chunk idx n) as [mi|].
    - destruct Hf as (k & Hk & Hle & Hmax). apply (find_chunk_max _ _ k); [by rewrite Hi|done|].
      intros k' mi' Hk' Hle'. rewrite Hi in Hk' by done. by eapply Hmax.
    - pose proof (find_chunk_spec idx' n) as Hf'.
      destruct (find_chunk idx' n) as [mi|]; [|done]. destruct Hf' as (k & Hk & Hle & _).
      rewrite Hi in Hk by done. specialize (Hf _ _ Hk). lia. }
  pose proof (find_chunk_spec idx n) as Hf.
  destruct (find_chunk idx n) as [mi|]; [|done]. destruct Hf as (k & Hk & Hle & _).
  by rewrite (H _ _ Hle Hk).
Qed.

Lemma cold_read_above st eh fs n :
  cold_below st eh → eh ≤ n → entries (t_db st) CF_HOT_BLOCKS !! u64_to_be n = None →
  cold_read_block fs (t_indices st) n = Ok None.
Proof.
  intros Hb Hn Hhot. unfold cold_read_block. pose proof (find_chunk_spec (t_indices st) n) as Hf.
  destruct (find_chunk (t_indices st) n) as [mi|]; [|done].
  destruct Hf as (k & Hk & _). destruct (Hb _ _ Hk) as (_ & _ & _ & He).
  assert (end_block mi < n) as Hlt.
  { destruct He as [|[_ Hr]]; [lia|]. destruct (decide (n ≤ end_block mi)); [|lia].
    destruct (Hr n) as [v Hv]; [lia|]. congruence. }
  unfold get_record. destruct (Z.leb_spec n (end_block mi)); [lia|].
  by rewrite andb_false_r.
Qed.

Lemma cold_read_past fs (idx : Indices) first mi n :
  start_block mi = first → end_block mi < n → first ≤ n →
  (∀ k mi', idx !! k = Some mi' → k ≤ first) →
  cold_read_block fs (<[first := mi]> idx) n = Ok None.
Proof.
  intros Hs He Hf Hmax. rewrite (cold_read_chunk _ _ n first mi).
  - unfold get_record. destruct (Z.leb_spec n (end_block mi)); [lia|].
    by rewrite andb_false_r.
  - split_and!; [by rewrite lookup_insert_eq|done|].
    intros k' mi' [[<- _]|[_ Hl]]%lookup_insert_Some _; [lia|by eapply Hmax].
Qed.

(** Whatever a run of the writer for a batch at [eh] did before it stopped, the
    data files of the archives below are untouched. *)
Lemma archive_frame st eh bs zs fs' :
  cold_below st eh → archivable bs eh zs →
  (∀ f, f ≠ data_filename eh (last_of bs eh) → f ≠ index_filename eh (last_of bs eh) →
        f ≠ tmp_filename (data_filename eh (last_of bs eh)) →
        f ≠ tmp_filename (index_filename eh (last_of bs eh)) →
        files fs' !! f = files (t_fs st) !! f) →
  ∀ k mi, k < eh → t_indices st !! k = Some mi →
    files fs' !! data_path mi = files (t_fs st) !! data_path mi.
Proof.
  intros Hb (Hne & He & Hmax & _) Hf k mi Hlt Hk.
  destruct (Hb _ _ Hk) as (_ & Hr & -> & Hend).
  assert (end_block mi < eh) by lia.
  assert (0 < Z.of_nat (length bs)) by (destruct bs; cbn; [done|lia]).
  apply Hf; [|apply data_filename_index|apply data_filename_tmp..].
  intros E. apply data_filename_inj in E; unfold last_of in *; u64_lia.
Qed.

(** ** Archiving is invisible to readers *)
Lemma hot_read_same db db' n : db_ok db → db_ok db' →
  entries db' CF_HOT_BLOCKS !! u64_to_be n = entries db CF_HOT_BLOCKS !! u64_to_be n →
  hot_read_block db' n = hot_read_block db n.
Proof.
  intros [Ho Hh] [Ho' Hh'] E. unfold hot_read_block.
  rewrite !need_cf_open by (done || set_solver). cbn. by rewrite !get_cf_healthy, E.
Qed.

Lemma retired_key eh size n : is_u64 n → is_u64 eh → eh + size ≤ u64_MAX →
  u64_to_be n ∈ (λ j, u64_to_be (u64_add eh j)) <$> seqZ 0 size ↔ eh ≤ n < eh + size.
Proof.
  intros Hn He Hm. rewrite list_elem_of_fmap. split.
  - intros (j & E & Hj%elem_of_seqZ). rewrite u64_add_small in E by u64_lia.
    apply u64_to_be_inj in E; u64_lia.
  - intros Hr. exists (n - eh). split; [|apply elem_of_seqZ; lia].
    rewrite u64_add_small by u64_lia. f_equal. lia.
Qed.

(** The tiers after a batch at [eh] was archived and retired. *)
Definition moved st st' (eh : Z) (bs : list Block) (zs : list bytes) : Prop :=
  db_ok (t_db st') ∧
  (∀ cf, entries (t_db st') cf = apply_batch cf (entries (t_db st) cf)
           (retire_ops eh (Z.of_nat (length bs)))) ∧
  t_indices st' = <[eh := archive_entry bs eh zs]> (t_indices st) ∧
  files (t_fs st') !! data_filename eh (last_of bs eh) = Some (concat zs) ∧
  ∀ k mi, k < eh → t_indices st !! k = Some mi →
    files (t_fs st') !! data_path mi = files (t_fs st) !! data_path mi.

(** The cold tier only matters for numbers the hot tier does not have. *)
Lemma cold_if_absent db n (r r' : Result Error (option bytes)) : db_ok db →
  (entries db CF_HOT_BLOCKS !! u64_to_be n = None → r = r') →
  (o ← hot_read_block db n; match o with Some c => Ok (Some c) | None =>
     o ← r; match o with Some c => Ok (Some c) | None => Ok None end end) =
  (o ← hot_read_block db n; match o with Some c => Ok (Some c) | None =>
     o ← r'; match o with Some c => Ok (Some c) | None => Ok None end end).
Proof.
  intros Hdb H. destruct (entries db CF_HOT_BLOCKS !! u64_to_be n) eqn:E; [|by rewrite H].
  unfold hot_read_block. rewrite need_cf_open by (apply Hdb || set_solver). cbn.
  rewrite get_cf_healthy, E by apply Hdb. cbn. by destruct (bincode_deserialize _).
Qed.

(** Two states that agree on the hot tier and on the archives that start below the
    first hot block read alike. *)
Lemma reads_agree st st' eh n :
  db_ok (t_db st) → db_ok (t_db st') → cold_below st eh → cold_below st' eh →
  entries (t_db st') CF_HOT_BLOCKS = entries (t_db st) CF_HOT_BLOCKS →
  (∀ k, k < eh → t_indices st' !! k = t_indices st !! k) →
  (∀ k mi, k < eh → t_indices st !! k = Some mi →
     files (t_fs st') !! data_path mi = files (t_fs st) !! data_path mi) →
  tiers_read_block st' n = tiers_read_block st n.
Proof.
  intros Hdb Hdb' Hb Hb' Eh Hi Hf. unfold tiers_read_block.
  rewrite (hot_read_same (t_db st)) by (done || by rewrite Eh).
  apply cold_if_absent; [done|]. intros Hnone. destruct (decide (n < eh)).
  - apply cold_frame; intros; [apply Hi|eapply Hf; [|done]]; lia.
  - rewrite !(cold_read_above _ eh) by (done || lia || by rewrite Eh). done.
Qed.

Lemma moved_reads st st' eh bs zs n :
  db_ok (t_db st) → cold_below st eh → archivable bs eh zs →
  (∀ j b, bs !! j = Some b → hot_has (t_db st) (eh + Z.of_nat j) (encode_to_vec b)) →
  moved st st' eh bs zs → is_u64 n →
  tiers_read_block st' n = tiers_read_block st n.
Proof.
  intros Hdb Hb Ha Hhot (Hdb' & He & Hi & Hd & Hfr) Hn.
  pose proof Ha as (Hne & Heh & Hmax & _).
  assert (∀ k mi, t_indices st !! k = Some mi → k ≤ eh) as Hbound
    by (intros k mi Hk; destruct (Hb _ _ Hk) as (_ & ? & _ & ?); lia).
  unfold tiers_read_block. rewrite Hi.
  assert (entries (t_db st') CF_HOT_BLOCKS !! u64_to_be n =
    if decide (eh ≤ n < eh + Z.of_nat (length bs)) then None
    else entries (t_db st) CF_HOT_BLOCKS !! u64_to_be n) as El.
  { rewrite He, retire_hot. pose proof (retired_key eh (Z.of_nat (length bs)) n Hn Heh
      ltac:(lia)). do 2 case_decide; tauto || done. }
  destruct (decide (eh ≤ n < eh + Z.of_nat (length bs))) as [Hin|Hout].
  - destruct (lookup_lt_is_Some_2 bs (Z.to_nat (n - eh))) as [b Hj]; [lia|].
    pose proof (Hhot _ _ Hj) as Hh. rewrite Z2Nat.id in Hh by lia.
    replace (eh + (n - eh)) with n in Hh by lia.
    rewrite (hot_read_block_found _ _ _ Hdb Hh), (hot_read_block_absent _ _ Hdb' El). cbn.
    replace n with (eh + Z.of_nat (Z.to_nat (n - eh))) by lia.
    rewrite (archive_read bs eh zs _ _ _ b Ha Hj Hd); [done|].
    split_and!; [by rewrite lookup_insert_eq|lia|].
    intros k' mi' [[<- _]|[_ Hl]]%lookup_insert_Some _; [lia|by eapply Hbound].
  - rewrite (hot_read_same _ _ _ Hdb Hdb' El). destruct (decide (n < eh)).
    + rewrite (cold_frame (t_fs st) _ (t_indices st)); [done| |].
      * intros k Hk. by rewrite lookup_insert_ne by lia.
      * intros k mi Hk Hl. apply (Hfr k); [lia|done].
    + apply cold_if_absent; [done|]. intros Hnone.
      rewrite (cold_read_above _ eh) by (done || lia).
      rewrite cold_read_past; try done; cbn; [unfold last_of|]; lia.
Qed.

Lemma moved_inv st st' eh bs zs :
  tiers_inv st → cold_below st eh → archivable bs eh zs → moved st st' eh bs zs →
  tiers_inv st'.
Proof.
  intros (Hdb & Hw & _) Hb Ha (Hdb' & He & Hi & _).
  pose proof Ha as (Hne & Heh & Hmax & _).
  assert (0 < Z.of_nat (length bs)) by (destruct bs; cbn; [done|lia]).
  split_and!; [done| |].
  - intros k v. rewrite He, retire_hot. case_decide; [done|]. apply Hw.
  - exists (Some (eh + Z.of_nat (length bs))). split.
    + split; [|intros ? [= <-]; u64_lia].
      rewrite He, retire_meta, lookup_insert_eq, u64_add_small by u64_lia. done.
    + intros k mi. rewrite Hi.
      intros [[<- <-]|[Hne' Hl]]%lookup_insert_Some; cbn; unfold last_of.
      * split_and!; try done; [u64_lia..|left; lia].
      * destruct (Hb _ _ Hl) as (? & ? & ? & [|[? _]]); [|done].
        split_and!; try done; [lia..|left; lia].
Qed.

Lemma archivable_ends bs eh zs : archivable bs eh zs →
  numbered bs (seqZ eh (Z.of_nat (length bs))) ∧ compressed bs zs ∧
  head (seqZ eh (Z.of_nat (length bs))) = Some eh ∧
  list.last (seqZ eh (Z.of_nat (length bs))) = Some (last_of bs eh) ∧
  Z.of_nat (length (concat zs)) < u64_modulus.
Proof.
  intros (Hne & _ & _ & Hn & Hz & Ht).
  destruct (seqZ_ends eh (Z.of_nat (length bs))) as [H1 H2];
    [destruct bs; cbn; [done|lia]|]. by split_and!.
Qed.

(** [archive_batch] either moves the batch or, cut short, changes only files no
    reader looks at. *)
Lemma archive_batch_cases st fault eh size st' r :
  tiers_inv st → is_u64 eh → cold_below st eh → 1 ≤ size ≤ 4294967296 →
  is_batch_complete (t_db st) eh size = Ok true →
  archive_batch st fault eh size = (st', r) →
  (∃ bs zs, r = Ok tt ∧ Z.of_nat (length bs) = size ∧ archivable bs eh zs ∧
     (∀ j b, bs !! j = Some b → hot_has (t_db st) (eh + Z.of_nat j) (encode_to_vec b)) ∧
     moved st st' eh bs zs ∧ t_fs st' = fs_exec (t_fs st) (write_archive bs).1) ∨
  (fault ≠ None ∧ r = Err EIo ∧ t_db st' = t_db st ∧ t_indices st' = t_indices st ∧
   (∀ k mi, k < eh → t_indices st !! k = Some mi →
     files (t_fs st') !! data_path mi = files (t_fs st) !! data_path mi) ∧
   ∃ bs zs j, archivable bs eh zs ∧ Z.of_nat (length bs) = size ∧
     (j < length (write_archive bs).1)%nat ∧
     t_fs st' = fs_exec (t_fs st) (take j (write_archive bs).1)).
Proof.
  intros (Hdb & Hw & _) Heh Hb Hsz Hc E.
  destruct (complete_archivable _ eh size Hdb Hw Heh Hsz Hc) as
    (bs & zs & Hlen & Ha & Hread & Hhot).
  unfold archive_batch in E. rewrite Hread in E.
  destruct bs as [|b0 bs]; [cbn in Hlen; lia|]. set (all := b0 :: bs) in *.
  destruct (archive_write_load all eh zs (t_fs st) (t_indices st) Ha)
    as (fs1 & Erun & Eload & Hd & Hframe).
  assert (∀ fs2 r2, io_run (t_fs st) fault (write_archive all) = (fs2, r2) →
    (fs2 = fs1 ∧ r2 = Ok (index_filename eh (last_of all eh))) ∨
    (fault ≠ None ∧ r2 = Err EIo ∧ ∃ k, (k < length (write_archive all).1)%nat ∧
       fs2 = fs_exec (t_fs st) (take k (write_archive all).1))) as Hio.
  { intros fs2 r2. unfold io_run in *. destruct fault as [k|].
    - case_decide; [|by left; simplify_eq; split; congruence].
      intros [= <- <-]. right. split_and!; [done|done|by exists k].
    - left. by rewrite Erun in *; simplify_eq. }
  destruct (io_run (t_fs st) fault (write_archive all)) as [fs2 r2].
  destruct (Hio _ _ eq_refl) as [[-> ->]|(Hfault & -> & k & Hk & ->)].
  - left. exists all, zs. rewrite Eload, retire_batch_ok in E by (apply Hdb || lia).
    cbn -[retire_ops] in E. unfold commit_batch in E.
    destruct (write_db_ok (t_db st) (retire_ops eh size) Hdb) as (db' & Ew & Hdb' & He).
    rewrite Ew in E. injection E as <- <-. split_and!; [done|done|done|done| |].
    + unfold moved. cbn -[archive_entry length]. rewrite Hlen.
      split_and!; [done|done|done|done|]. by eapply archive_frame.
    + unfold io_run in Erun. by injection Erun as <- _.
  - right. injection E as <- <-.
    destruct (archivable_ends all eh zs Ha) as (Hn & Hz & Hhd & Hls & Ht).
    destruct (write_archive_cut all _ zs eh (last_of all eh) (t_fs st) k Hn Hz Hhd Hls Ht)
      as [(_ & _ & Hcut) _].
    split_and!; [done|done|done|done|by eapply archive_frame|by exists all, zs, k].
Qed.

(** What one turn of the archiver, and so a whole cycle, leaves alone. *)
Definition same_service st st' : Prop :=
  (∀ n, is_u64 n → tiers_read_block st' n = tiers_read_block st n) ∧
  entries (t_db st') CF_GAPS = entries (t_db st) CF_GAPS ∧
  ∀ key, key ≠ EARLIEST_HOT_KEY →
    entries (t_db st') CF_METADATA !! key = entries (t_db st) CF_METADATA !! key.

#[export] Instance same_service_preorder : PreOrder same_service.
Proof.
  split.
  - done.
  - intros st1 st2 st3 (R1 & G1 & M1) (R2 & G2 & M2). split_and!; [|congruence|].
    + intros n Hn. by rewrite R2, R1.
    + intros key Hk. by rewrite M2, M1.
Qed.

Lemma archive_batch_same st fault eh size st' r :
  tiers_inv st → is_u64 eh → cold_below st eh → 1 ≤ size ≤ 4294967296 →
  meta_is (t_db st) EARLIEST_HOT_KEY (Some eh) →
  is_batch_complete (t_db st) eh size = Ok true →
  archive_batch st fault eh size = (st', r) →
  tiers_inv st' ∧ same_service st st' ∧ (fault = None → r = Ok tt).
Proof.
  intros Hinv Heh Hb Hsz Hm Hc E. pose proof Hinv as (Hdb & Hw & _).
  destruct (archive_batch_cases st fault eh size st' r) as
    [(bs & zs & -> & Hlen & Ha & Hhot & Hmv & _)|(Hf & -> & Ed & Ei & Hfr & _)]; [done..| |].
  - split_and!; [by eapply moved_inv| |done].
    pose proof Hmv as (_ & He & _). split_and!.
    + intros n Hn. by eapply moved_reads.
    + by rewrite He, retire_gaps.
    + intros key Hk. by rewrite He, retire_meta, lookup_insert_ne.
  - assert (cold_below st' eh) as Hb' by (unfold cold_below; by rewrite Ed, Ei).
    split_and!; [| |done].
    + split_and!; [by rewrite Ed|by rewrite Ed|]. exists (Some eh). by rewrite Ed.
    + split_and!; [|by rewrite Ed..]. intros n Hn.
      apply (reads_agree st st' eh); rewrite ?Ed, ?Ei; done.
Qed.

Lemma skip_same st db' size eh :
  tiers_inv st → write (t_db st) [BPut CF_SKIPPED_BATCHES (u64_to_be eh) size] = Ok db' →
  tiers_inv (with_db st db') ∧ same_service st (with_db st db').
Proof.
  intros (Hdb & Hw & o & Hm & Ho) E.
  destruct (write_db_ok (t_db st) [BPut CF_SKIPPED_BATCHES (u64_to_be eh) size] Hdb)
    as (db1 & E1 & Hdb1 & He). rewrite E in E1. injection E1 as <-.
  assert (∀ cf, cf ≠ CF_SKIPPED_BATCHES → entries db' cf = entries (t_db st) cf) as Hcf
    by (intros cf Hcf; rewrite He; by batch_simpl).
  split.
  - split_and!; cbn; [done|unfold hot_wf; by rewrite Hcf|]. exists o.
    split; [unfold meta_is; by rewrite Hcf|]. destruct o as [eh'|]; [|done].
    unfold cold_below, hot_range. cbn. by rewrite Hcf.
  - split_and!; cbn; try (intros; by rewrite Hcf). intros n _. unfold tiers_read_block; cbn.
    by rewrite (hot_read_same (t_db st) db') by (done || by rewrite Hcf).
Qed.

Lemma cycle_step_same cfg st fault st' o :
  tiers_inv st → 1 ≤ archive_batch_size cfg ≤ 4294967296 →
  cycle_step cfg st fault = (st', o) → tiers_inv st' ∧ same_service st st'.
Proof.
  intros Hinv Hsz. pose proof Hinv as (Hdb & _ & oh & Hm & Hb). unfold cycle_step.
  unfold get_earliest_hot. rewrite (get_u64_opt_ok _ _ _ Hdb Hm).
  destruct oh as [eh|]; [|by intros [= <- _]].
  destruct (get_latest_persisted (t_db st)) as [l|]; [|by intros [= <- _]].
  destruct (_ <=? _); [by intros [= <- _]|].
  destruct (is_batch_complete (t_db st) eh (archive_batch_size cfg)) as [[]|] eqn:Ec.
  - destruct (archive_batch st fault eh (archive_batch_size cfg)) as [st1 r1] eqn:Ea.
    destruct (archive_batch_same st fault eh (archive_batch_size cfg) st1 r1)
      as (? & ? & _); [done|by apply Hm|done..|].
    by destruct r1; intros [= <- _].
  - unfold add_skipped_batch. rewrite need_cf_open by (apply Hdb || set_solver). cbn.
    unfold commit_batch. destruct (write (t_db st) _) as [db'|] eqn:Ew; intros [= <- _]; [|done].
    by eapply skip_same.
  - by intros [= <- _].
Qed.

Lemma cycle_same cfg fuel st faults st' r :
  tiers_inv st → 1 ≤ archive_batch_size cfg ≤ 4294967296 →
  run_archival_cycle cfg fuel st faults = Some (st', r) →
  tiers_inv st' ∧ same_service st st'.
Proof.
  intros Hinv Hsz. revert st faults Hinv. induction fuel as [|fuel IH];
    intros st faults Hinv; cbn; [done|].
  destruct (cycle_step cfg st (faults 0%nat)) as [st1 o] eqn:E.
  destruct (cycle_step_same _ _ _ _ _ Hinv Hsz E) as [Hinv1 Hs1].
  destruct o as [r1|].
  - by intros [= <- <-].
  - intros E2. destruct (IH _ _ Hinv1 E2) as [Hinv2 Hs2].
    split; [done|]. by etrans.
Qed.

(** ** The running service

    [svc_inv]: the bookkeeping of service.rs agrees with the set of block numbers
    in [m], and reads return exactly [m]. *)
Definition reads_as st (m : gmap Z bytes) : Prop :=
  ∀ n, is_u64 n → tiers_read_block st n = Ok (m !! n).

Definition svc_inv (start : Z) (m : gmap Z bytes) st p : Prop :=
  tiers_inv st ∧ p_repr (t_db st) p ∧ contig_inv start (dom m) p ∧
  eff_latest start p < u64_MAX ∧ reads_as st m.

Lemma same_repr st st' p : tiers_inv st → tiers_inv st' → same_service st st' →
  p_repr (t_db st) p →
  ∃ p', p_repr (t_db st') p' ∧ p_latest p' = p_latest p ∧
    p_true_earliest p' = p_true_earliest p ∧ p_contiguous p' = p_contiguous p ∧
    p_gaps p' = p_gaps p.
Proof.
  intros _ (Hdb' & _ & o & Ho & _) (_ & Hg & Hmeta) ((Hdb & Hgr) & Hl & Ht & Hh & Hc).
  destruct keys_distinct as (?&?&?&?&?&?).
  exists {| p_latest := p_latest p; p_true_earliest := p_true_earliest p;
            p_earliest_hot := o; p_contiguous := p_contiguous p; p_gaps := p_gaps p |}.
  split; [|done]. unfold p_repr, gaps_ok, meta_is in *. cbn.
  destruct Hl, Ht, Ho, Hc. split_and!; try done; [by rewrite Hg|..];
    by rewrite Hmeta by congruence.
Qed.

(** The archiver, whenever it runs and whatever cuts it short. *)
Lemma step_inv cfg start m st fault st' o p :
  svc_inv start m st p → 1 ≤ archive_batch_size cfg ≤ 4294967296 →
  cycle_step cfg st fault = (st', o) → ∃ p', svc_inv start m st' p'.
Proof.
  intros (Hinv & Hp & Hc & Hl & Hr) Hsz E.
  destruct (cycle_step_same _ _ _ _ _ Hinv Hsz E) as [Hinv' Hs].
  destruct (same_repr st st' p) as (p' & Hp' & E1 & E2 & E3 & E4); [done..|].
  exists p'. unfold svc_inv, contig_inv, eff_latest in *. rewrite E1, E3, E4.
  destruct Hc as (?&?&?&?&?). split_and!; try done.
  intros n Hn. by rewrite (proj1 Hs), Hr.
Qed.

Lemma meta_is_inj db key o o' : meta_is db key o → meta_is db key o' → o = o'.
Proof.
  intros [E Hu] [E' Hu']. rewrite E in E'. destruct o as [n|], o' as [n'|]; try done.
  apply (inj Some) in E'. f_equal. apply u64_to_be_inj; auto.
Qed.

Lemma write_inv cfg start m st b n p :
  svc_inv start m st p → storable b n → is_u64 start →
  ∃ st' r p', tiers_write_block cfg start st b = (st', r) ∧
    svc_inv start (<[n := encode_to_vec b]> m) st' p' ∧ spec_write start n p p' ∧
    (archive_batch_size cfg ≠ 0 → ∃ notified, r = Ok notified).
Proof.
  intros ((Hdb & Hw & o & Ho & Hcold) & Hp & Hc & Hl & Hr) Hs Hst.
  pose proof (storable_u64 _ _ Hs) as Hn64. pose proof Hs as (Hwf & Hfit & Hbn & _).
  assert (p_contiguous p ≤ eff_latest start p) by apply Hc.
  destruct (write_block_ok (t_db st) p cfg start b n) as
    (db' & p' & r & E & Hp' & Hsp & (v & Hhot & Hv) & _ & Hok); [done..|lia|done|done|lia|].
  assert (db_ok db') as Hdb' by apply Hp'.
  exists (with_db st db'), r, p'. unfold tiers_write_block. rewrite E.
  split; [done|]. split; [|done]. split_and!.
  - split_and!; [done| |].
    + intros k w. cbn. rewrite Hhot.
      intros [[<- <-]|[_ Hl']]%lookup_insert_Some; [by exists n, b|by apply Hw].
    + exists (p_earliest_hot p'). split; [apply Hp'|].
      assert (o = p_earliest_hot p) as -> by (eapply meta_is_inj; [done|apply Hp]).
      destruct Hsp as (_ & _ & -> & _). destruct (p_earliest_hot p) as [eh|]; cbn.
      { intros k mi Hk. destruct (Hcold k mi Hk) as (? & ? & ? & Hend).
        split_and!; [done|lia|lia|done|]. destruct Hend as [|[? Hrange]]; [by left|].
        right. split; [done|]. intros j Hj. cbn. rewrite Hhot.
        apply lookup_insert_is_Some'. right. by apply Hrange. }
      intros k mi. unfold with_db. cbn. by rewrite Hcold, lookup_empty.
  - done.
  - rewrite dom_insert_L. by eapply spec_write_inv.
  - rewrite (spec_write_latest _ _ _ _ Hsp). lia.
  - intros n' Hn'. unfold tiers_read_block. cbn.
    destruct (decide (n' = n)) as [->|Hne].
    + rewrite lookup_insert_eq, (hot_read_block_found _ _ (encode_to_vec b)); [done|done|].
      exists v. by rewrite Hhot, lookup_insert_eq.
    + rewrite lookup_insert_ne by done. rewrite (hot_read_same (t_db st)); [by apply Hr|done..|].
      rewrite Hhot, lookup_insert_ne; [done|]. intros ?%u64_to_be_inj; u64_lia.
Qed.

(** ** Start-up on an empty directory *)
Lemma determine_fresh db : fresh_db db → determine_true_earliest db ∅ = Ok db.
Proof.
  intros [Hdb He]. unfold determine_true_earliest, get_true_earliest_persisted.
  rewrite (get_u64_opt_ok db _ None Hdb); [|split; [by rewrite He|done]]. cbn.
  unfold get_earliest_block_number. rewrite need_cf_open by (apply Hdb || set_solver). cbn.
  pose proof (iterator_head db CF_HOT_BLOCKS IterStart (proj2 Hdb)) as Hi.
  destruct (iterator_cf db CF_HOT_BLOCKS IterStart) as [|[[k v]|] l]; cbn; try done.
  destruct Hi as [Hi _]. by rewrite He, lookup_empty in Hi.
Qed.

Lemma initialize_fresh cfg start db fs :
  fresh_db db → is_u64 start →
  ∃ svc, initialize cfg start db fs [] = Ok svc ∧
    p_repr (t_db (svc_tiers svc)) (p_init start) ∧
    entries (t_db (svc_tiers svc)) CF_HOT_BLOCKS = ∅ ∧ t_indices (svc_tiers svc) = ∅ ∧
    t_fs (svc_tiers svc) = fs.
Proof.
  intros Hf Hs. pose proof Hf as [Hdb He]. unfold initialize.
  replace (scan_and_build_index fs [] ∅) with (∅ : Indices)
    by (unfold scan_and_build_index; by destruct (dir_exists fs)).
  rewrite determine_fresh by done. cbn.
  assert (∃ db', initialize_highest_contiguous db (saturating_sub start 1) = Ok db') as [db' E].
  { unfold initialize_highest_contiguous.
    rewrite (get_u64_opt_ok db _ None Hdb); [|split; [by rewrite He|done]]. cbn.
    destruct (put_u64_direct_ok db HIGHEST_CONTIGUOUS_KEY (saturating_sub start 1) Hdb)
      as (db' & -> & _); [u64_lia|]. by exists db'. }
  destruct (init_repr _ _ _ Hf Hs E) as [Hp Hcf]. rewrite E. eexists. split; [done|].
  by split_and!; [|apply Hcf|..].
Qed.

Lemma initialize_inv cfg start db fs svc :
  fresh_db db → 0 ≤ start < u64_MAX → initialize cfg start db fs [] = Ok svc →
  svc_inv start ∅ (svc_tiers svc) (p_init start).
Proof.
  intros Hf Hs Hi. assert (is_u64 start) as Hs64 by u64_lia.
  destruct (initialize_fresh cfg start db fs Hf Hs64) as (svc' & E & Hp & Hhot & Hidx & _).
  rewrite Hi in E. injection E as <-.
  destruct (init_inv start Hs) as [Hc Hl]. pose proof (proj1 (proj1 Hp)) as Hdb.
  split_and!; [|done|by rewrite dom_empty_L|done|].
  - split_and!; [done| |].
    + intros k v. by rewrite Hhot, lookup_empty.
    + exists None. split; [apply Hp|done].
  - intros n Hn. unfold tiers_read_block.
    rewrite hot_read_block_absent by (done || by rewrite Hhot, lookup_empty).
    cbn. rewrite lookup_empty, Hidx. done.
Qed.

(** A map of storable blocks, each under its number. *)
Definition stored_blocks (m : gmap Z bytes) : Prop :=
  ∀ n c, m !! n = Some c → ∃ b, storable b n ∧ c = encode_to_vec b.

Lemma stored_blocks_insert m b n :
  stored_blocks m → storable b n → stored_blocks (<[n := encode_to_vec b]> m).
Proof.
  intros Hm Hb k c [[<- <-]|[_ Hl]]%lookup_insert_Some; [by exists b|by apply Hm].
Qed.

(** The latest mark, once a block that counts is stored. *)
Lemma svc_latest start m st p k :
  svc_inv start m st p → 0 ≤ start → is_Some (m !! k) → first_counted start ≤ k →
  ∃ l, get_latest_persisted (t_db st) = Ok (Some l) ∧ is_u64 l ∧ is_Some (m !! l) ∧
    ∀ n, is_Some (m !! n) → n ≤ l.
Proof.
  intros (_ & Hp & (_ & _ & HC & HD & _) & _) Hs Hk Hge.
  pose proof Hp as (Hg & Hla & _). setoid_rewrite elem_of_dom in HC.
  specialize (HC k Hk) as HCk. unfold get_latest_persisted.
  rewrite (get_u64_opt_ok _ _ _ (proj1 Hg) Hla). unfold eff_latest in *.
  destruct Hla as [_ Hu]. destruct (p_latest p) as [l|]; cbn in *; [|unfold first_counted in *; u64_lia].
  exists l. split_and!; [done|by apply Hu| |done]. by apply elem_of_dom, HD.
Qed.

(** Blocks written in order, from the one after the latest. *)
Lemma in_order_writes cfg start bs m st p :
  svc_inv start m st p → is_u64 start → p_contiguous p = eff_latest start p →
  (∀ k, ¬ in_gap (p_gaps p) k) →
  Forall2 storable bs (seqZ (eff_latest start p + 1) (Z.of_nat (length bs))) →
  ∃ m' p', svc_inv start m' (foldl (λ st b, (tiers_write_block cfg start st b).1) st bs) p' ∧
    eff_latest start p' = eff_latest start p + Z.of_nat (length bs) ∧
    p_contiguous p' = eff_latest start p + Z.of_nat (length bs) ∧
    (∀ k, ¬ in_gap (p_gaps p') k) ∧
    (bs ≠ [] → p_latest p' = Some (eff_latest start p + Z.of_nat (length bs))).
Proof.
  revert m st p. induction bs as [|b bs IH]; intros m st p Hinv Hs Hc Hg Hbs; cbn [foldl length].
  { exists m, p. cbn. rewrite Z.add_0_r. by split_and!. }
  cbn [length] in Hbs. rewrite seqZ_step in Hbs. apply Forall2_cons in Hbs as [Hb Hbs].
  destruct (write_inv cfg start m st b _ p Hinv Hb Hs) as (st' & r & p' & E & Hinv' & Hsp & _).
  rewrite E. cbn [fst].
  pose proof (spec_write_latest _ _ _ _ Hsp) as Hl. rewrite Z.max_r in Hl by lia.
  assert (p_latest p' = Some (eff_latest start p + 1)) as Hpl.
  { destruct Hsp as (-> & _). rewrite Z.max_r by lia.
    by destruct (Z.ltb_spec (eff_latest start p) (eff_latest start p + 1)); [|lia]. }
  assert (p_contiguous p' = eff_latest start p + 1 ∧ ∀ k, ¬ in_gap (p_gaps p') k) as [Hc' Hg'].
  { destruct Hsp as (_ & _ & _ & Hstep). rewrite Z.max_r in Hstep by lia.
    destruct Hstep as [(? & _)|[(Hn & (Hw & _) & Hgk)|(? & _)]]; [lia| |lia].
    split; [lia|]. intros k. rewrite Hgk. apply Hg. }
  destruct (IH _ st' p' Hinv' Hs) as (m2 & p2 & H1 & H2 & H3 & H4 & H5); [lia|done| |].
  { by rewrite Hl. }
  exists m2, p2. split_and!; [done|lia|lia|done|]. intros _.
  destruct bs as [|b' bs]; [|rewrite H5 by done; f_equal; lia].
  unfold eff_latest in H2. cbn in H1, H2. destruct Hinv' as (_ & Hp' & _), H1 as (_ & Hp2 & _).
  assert (p_latest p2 = p_latest p') as ->.
  { eapply meta_is_inj; [apply Hp2|apply Hp']. }
  by rewrite Hpl.
Qed.

(** The service implements the interface the other plugins are written against. *)
#[export] Program Instance service_store : BlockStore Service := {|
  holds svc m := 0 ≤ svc_start svc < u64_MAX ∧ archive_batch_size (svc_cfg svc) ≠ 0 ∧
    stored_blocks m ∧ ∃ p, svc_inv (svc_start svc) m (svc_tiers svc) p;
  accepts b := ∃ n, storable b n;
|}.
Next Obligation.
  intros svc m n (_ & _ & _ & p & _ & _ & _ & _ & Hr) Hn. by apply Hr.
Qed.
Next Obligation.
  intros svc m n c (_ & _ & Hu & _) Hm. destruct (Hu _ _ Hm) as (b & (Hwf & _ & Hbn & _) & ->).
  by exists b.
Qed.
Next Obligation.
  intros svc m b n (Hs & Hz & Hu & p & Hinv) (n' & Hst) Hn. cbn.
  assert (n' = n) as -> by (destruct Hst as (_ & _ & E & _); congruence).
  destruct (write_inv (svc_cfg svc) (svc_start svc) m (svc_tiers svc) b n p Hinv Hst
    ltac:(u64_lia)) as (st' & r & p' & E & Hinv' & _ & Hok). rewrite E.
  destruct (Hok Hz) as [w ->]. eexists. split; [done|]. cbn.
  split_and!; [lia|lia|done|by apply stored_blocks_insert|by exists p'].
Qed.
End tiers_theory.
