(* ===== verification/ConcurrentWrites.v ===== *)
(** Concurrent calls of [write_block] (persistence-plugin/src/service.rs): the event
    loop of the persistence plugin and the backfill worker call it on the same
    database without a lock.  A call looks at the metadata several times, stages its
    batch from what it saw and commits it; other calls may commit between any two of
    these.

    The marks and the gap table can lose updates this way
    (StorageTheorems, [overlapping_writes_lose_update]); this file shows that the
    blocks themselves do not get lost. *)
From S2P Require Import Prelude Config Database Block StateManager HotTier.
From S2P Require Import PersistenceService.

(** A call of [write_block]: the databases it has looked at so far, its batch, and
    how it returned. *)
Inductive Writer `{RocksDB} :=
| Looking (block : Block) (seen : list DB)
| Staged (block : Block) (batch : WriteBatch)
| Committed (block : Block)
| Failed (block : Block).

Definition Pending `{RocksDB} (block : Block) : Writer := Looking block [].

Definition writer_block `{RocksDB} (w : Writer) : Block :=
  match w with Looking b _ | Staged b _ | Committed b | Failed b => b end.

Section concurrent.
Context {RDB : RocksDB} {CODEC : Codec}.
Implicit Types (db : DB) (batch : WriteBatch) (ws : list Writer) (seen : list DB).

(** [stage_block] on the databases its calls see, each possibly a different one:
    the gap look-up, the latest mark, the earliest mark, the contiguous mark, the
    gap table as the contiguous mark is advanced, and the first hot block. *)
Definition LOOKS : nat := 6.

Definition stage_block_seen (seen : nat → DB) (start_block_number : Z) (block : Block)
    : Result Error (WriteBatch * bool) :=
  block_number ← get_block_number block;
  gap ← find_containing_gap (seen 0%nat) block_number;
  let was_gap_fill := match gap with Some _ => true | None => false end in
  batch ← add_block_to_batch (seen 0%nat) block block_number [];
  latest_opt ← get_latest_persisted (seen 1%nat);
  let latest_persisted := default (saturating_sub start_block_number 1) latest_opt in
  let new_latest_persisted := Z.max latest_persisted block_number in
  batch ← (if latest_persisted <? new_latest_persisted
           then set_latest_persisted (seen 1%nat) new_latest_persisted batch else Ok batch);
  te ← get_true_earliest_persisted (seen 2%nat);
  batch ← match te with
          | None => set_true_earliest_persisted (seen 2%nat) block_number batch
          | Some _ => Ok batch
          end;
  current_highest ← get_highest_contiguous (seen 3%nat);
  batch ← update_contiguous (seen 4%nat) block_number new_latest_persisted current_highest batch;
  batch ← initialize_earliest_hot (seen 5%nat) block_number batch;
  Ok (batch, was_gap_fill).

Lemma stage_block_undisturbed db start b :
  stage_block_seen (λ _, db) start b = stage_block db start b.
Proof. reflexivity. Qed.

(** What the [i]-th look saw. *)
Definition seen_at seen db (i : nat) : DB := List.nth i seen db.

Inductive write_step (start : Z) : DB * list Writer → DB * list Writer → Prop :=
| step_look db ws i b seen :
    ws !! i = Some (Looking b seen) → (length seen < LOOKS)%nat →
    write_step start (db, ws) (db, <[i := Looking b (seen ++ [db])]> ws)
| step_stage db ws i b seen batch w :
    ws !! i = Some (Looking b seen) → length seen = LOOKS →
    stage_block_seen (seen_at seen db) start b = Ok (batch, w) →
    write_step start (db, ws) (db, <[i := Staged b batch]> ws)
| step_stage_fails db ws i b seen e :
    ws !! i = Some (Looking b seen) → length seen = LOOKS →
    stage_block_seen (seen_at seen db) start b = Err e →
    write_step start (db, ws) (db, <[i := Failed b]> ws)
| step_commit db ws i b batch db' :
    ws !! i = Some (Staged b batch) → commit_batch db batch = Ok db' →
    write_step start (db, ws) (db', <[i := Committed b]> ws)
| step_commit_fails db ws i b batch e :
    ws !! i = Some (Staged b batch) → commit_batch db batch = Err e →
    write_step start (db, ws) (db, <[i := Failed b]> ws).

(** ** What a staged batch does to the hot tier

    Apart from the block itself and the first value of the first-hot mark, every
    operation of the batch is quiet: it leaves the hot tier and that mark alone,
    whatever the call saw. *)
Definition quiet (op : BatchOp) : Prop :=
  match op with
  | BPut cf k _ | BDelete cf k =>
      cf ≠ CF_HOT_BLOCKS ∧ (cf = CF_METADATA → k ≠ EARLIEST_HOT_KEY)
  end.

Definition extends batch batch' : Prop := ∃ ops, batch' = batch ++ ops ∧ Forall quiet ops.

#[export] Instance extends_preorder : PreOrder extends.
Proof.
  split.
  - intros b. exists []. by rewrite app_nil_r.
  - intros b1 b2 b3 (o1 & -> & H1) (o2 & -> & H2). exists (o1 ++ o2).
    rewrite app_assoc. split; [done|]. by apply Forall_app.
Qed.

Lemma extends_op batch op : quiet op → extends batch (batch ++ [op]).
Proof. intros H. exists [op]. by repeat constructor. Qed.

Lemma set_u64_extends db key value batch batch' : key ≠ EARLIEST_HOT_KEY →
  set_u64 db key value batch = Ok batch' → extends batch batch'.
Proof. unfold set_u64. intros Hk H. ok_inv. subst. by apply extends_op. Qed.

Lemma sweep_extends it fe batch fe' batch' :
  sweep it fe batch = Ok (fe', batch') → extends batch batch'.
Proof.
  revert fe batch. induction it as [|[[k v]|e] it IH]; intros fe batch H; cbn in H.
  - ok_inv. by simplify_eq.
  - ok_inv. destruct (_ <? _); ok_inv; [by simplify_eq|].
    etrans; [by apply (extends_op batch (BDelete CF_GAPS k))|]. by eapply IH.
  - ok_inv. by simplify_eq.
Qed.

Lemma add_gap_range_extends db s e batch batch' :
  add_gap_range db s e batch = Ok batch' → extends batch batch'.
Proof.
  unfold add_gap_range. intros H. ok_inv. destruct (_ <? _); ok_inv; [by subst|].
  repeat (case_match; ok_inv). subst.
  etrans; [by eapply sweep_extends|by apply extends_op].
Qed.

Lemma fill_gap_block_extends db n batch batch' :
  fill_gap_block db n batch = Ok batch' → extends batch batch'.
Proof.
  unfold fill_gap_block. intros H. ok_inv. repeat case_match; ok_inv; subst; try done;
    repeat (etrans; [|by apply extends_op]); done.
Qed.

Lemma update_contiguous_extends db n l h batch batch' :
  update_contiguous db n l h batch = Ok batch' → extends batch batch'.
Proof.
  unfold update_contiguous, set_highest_contiguous. intros H.
  assert (HIGHEST_CONTIGUOUS_KEY ≠ EARLIEST_HOT_KEY) as Hk by (destruct keys_distinct; naive_solver).
  destruct (_ <? _); [by eapply add_gap_range_extends|].
  destruct (_ =? _); ok_inv; [by eapply set_u64_extends|].
  etrans; [by eapply fill_gap_block_extends|by eapply set_u64_extends].
Qed.

(** Quiet operations change neither the hot tier nor the first-hot mark. *)
Lemma quiet_hot m ops : Forall quiet ops → apply_batch CF_HOT_BLOCKS m ops = m.
Proof.
  intros H. apply apply_batch_other. eapply Forall_impl; [exact H|].
  by intros [cf k v|cf k] [? _].
Qed.

Lemma quiet_mark m ops : Forall quiet ops →
  apply_batch CF_METADATA m ops !! EARLIEST_HOT_KEY = m !! EARLIEST_HOT_KEY.
Proof.
  intros H. revert m. induction H as [|op ops Hop _ IH]; intros m; [done|].
  rewrite apply_batch_cons, IH. destruct op as [cf k v|cf k]; destruct Hop as [_ Hk];
    unfold apply_op; (case_decide as E; [|done]).
  - by rewrite lookup_insert_ne by (by apply Hk).
  - by rewrite lookup_delete_ne by (by apply Hk).
Qed.

Context {LAWS : RocksDBLaws} {CLAWS : CodecLaws}.

(** [v] is the hot entry of the block [b]. *)
Definition hot_value (b : Block) (n : Z) (v : bytes) : Prop :=
  get_block_number b = Ok n ∧ bincode_deserialize v = Ok (MkStored (encode_to_vec b)).

(** The operations of a batch [write_block] stages: the block, quiet ones, and the
    first-hot mark if the last look found none. *)
Definition stages (b : Block) (mark : Prop) batch : Prop :=
  ∃ n v ops fin, hot_value b n v ∧ Forall quiet ops ∧
    batch = BPut CF_HOT_BLOCKS (u64_to_be n) v :: ops ++ fin ∧
    (fin = [] ∨ mark ∧ ∃ e, fin = [BPut CF_METADATA EARLIEST_HOT_KEY e]).

Lemma set_opt_extends {A} (o : option A) db key n batch batch' : key ≠ EARLIEST_HOT_KEY →
  match o with None => set_u64 db key n batch | Some _ => Ok batch end = Ok batch' →
  extends batch batch'.
Proof. intros Hk H. destruct o; [by ok_inv; subst|by eapply set_u64_extends]. Qed.

Lemma set_if_extends (c : bool) db key n batch batch' : key ≠ EARLIEST_HOT_KEY →
  (if c then set_u64 db key n batch else Ok batch) = Ok batch' → extends batch batch'.
Proof. intros Hk H. destruct c; [by eapply set_u64_extends|by ok_inv; subst]. Qed.

Lemma stage_block_seen_stages (seen : nat → DB) start b batch w :
  stage_block_seen seen start b = Ok (batch, w) →
  stages b (get_earliest_hot (seen 5%nat) = Ok None) batch.
Proof.
  unfold stage_block_seen. intros H.
  apply bind_Ok in H as (n & Hn & H). apply bind_Ok in H as (g & _ & H).
  apply bind_Ok in H as (b1 & Hadd & H). apply bind_Ok in H as (l & _ & H).
  apply bind_Ok in H as (b2 & H2 & H). apply bind_Ok in H as (te & _ & H).
  apply bind_Ok in H as (b3 & H3 & H). apply bind_Ok in H as (h & _ & H).
  apply bind_Ok in H as (b4 & H4 & H). apply bind_Ok in H as (b5 & H5 & H).
  apply (inj Ok) in H as [= <- <-].
  destruct keys_distinct as (K1 & _ & _ & _ & K2 & _).
  apply set_if_extends in H2; [|done]. apply set_opt_extends in H3; [|done].
  apply update_contiguous_extends in H4.
  unfold add_block_to_batch in Hadd. ok_inv. subst b1.
  assert (extends [BPut CF_HOT_BLOCKS (u64_to_be n) x1] b4) as (ops & -> & Hops)
    by (etrans; [exact H2|etrans; eassumption]).
  assert (hot_value b n x1) as Hv.
  { split; [done|]. erewrite <-encode_block_sound by eassumption. by apply bincode_roundtrip. }
  unfold initialize_earliest_hot in H5. ok_inv. destruct x2 as [e|]; ok_inv.
  - subst b5. exists n, x1, ops, []. rewrite app_nil_r. split_and!; [done|done|done|by left].
  - unfold set_earliest_hot, set_u64 in H5. ok_inv. subst b5. cbn [app].
    eexists n, x1, ops, _. split_and!; [done|done|by rewrite app_comm_cons|right; eauto].
Qed.

Lemma stages_hot b P batch : stages b P batch →
  ∃ n v, hot_value b n v ∧ ∀ m, apply_batch CF_HOT_BLOCKS m batch = <[u64_to_be n := v]> m.
Proof.
  intros (n & v & ops & fin & Hv & Hq & -> & Hfin). exists n, v. split; [done|]. intros m.
  rewrite apply_batch_cons, apply_op_put, apply_batch_app, (quiet_hot _ ops Hq).
  by destruct Hfin as [->|[_ [e ->]]]; batch_simpl.
Qed.

Lemma stages_mark b batch m : stages b False batch →
  apply_batch CF_METADATA m batch !! EARLIEST_HOT_KEY = m !! EARLIEST_HOT_KEY.
Proof.
  intros (n & v & ops & fin & _ & Hq & -> & [->|[[] _]]). rewrite app_nil_r.
  by rewrite apply_batch_cons, (quiet_mark _ ops Hq), apply_op_put_ne.
Qed.

Lemma stages_mono b (P Q : Prop) batch : (P → Q) → stages b P batch → stages b Q batch.
Proof.
  intros H (n & v & ops & fin & ?). exists n, v, ops, fin. naive_solver.
Qed.

(** ** The invariant of every interleaving *)
Record writes_inv (db0 : DB) (blocks : list Block) db ws : Prop := {
  wi_ok : db_ok db;
  wi_blocks : ∀ w, w ∈ ws → writer_block w ∈ blocks;
  wi_staged : ∀ b batch, Staged b batch ∈ ws → stages b True batch;
  wi_stored : ∀ b n, Committed b ∈ ws → get_block_number b = Ok n →
    ∃ b' v, Committed b' ∈ ws ∧ hot_value b' n v ∧
      entries db CF_HOT_BLOCKS !! u64_to_be n = Some v;
  wi_old : ∀ n, is_u64 n → (∀ b, b ∈ blocks → get_block_number b ≠ Ok n) →
    entries db CF_HOT_BLOCKS !! u64_to_be n = entries db0 CF_HOT_BLOCKS !! u64_to_be n;
}.

Lemma elem_of_set_writer ws i w w' : w ∈ <[i := w']> ws → w = w' ∨ w ∈ ws.
Proof.
  intros [j Hj]%list_elem_of_lookup. destruct (decide (i = j)) as [->|Hne].
  - left. apply list_lookup_insert_Some in Hj. naive_solver.
  - right. rewrite list_lookup_insert_ne in Hj by done. by eapply list_elem_of_lookup_2.
Qed.

Lemma elem_of_keep_writer ws i w w0 w' : ws !! i = Some w0 → w ≠ w0 → w ∈ ws → w ∈ <[i := w']> ws.
Proof.
  intros Hi Hne [j Hj]%list_elem_of_lookup. apply list_elem_of_lookup_2 with j.
  rewrite list_lookup_insert_ne; [done|]. intros ->. congruence.
Qed.

Lemma elem_of_new_writer ws i w0 w' : ws !! i = Some w0 → w' ∈ <[i := w']> ws.
Proof.
  intros Hi. apply list_elem_of_lookup_2 with i. apply list_lookup_insert_eq.
  by eapply lookup_lt_Some.
Qed.

(** A call that changes its state without a commit. *)
Lemma writes_inv_quiet db0 blocks db ws i w0 w' : writes_inv db0 blocks db ws →
  ws !! i = Some w0 → writer_block w' = writer_block w0 →
  (∀ b, w0 ≠ Committed b) → (∀ b, w' ≠ Committed b) →
  (∀ b batch, w' = Staged b batch → stages b True batch) →
  writes_inv db0 blocks db (<[i := w']> ws).
Proof.
  intros [Hok Hbl Hst Hco Hold] Hi Hb H0 H' Hs. constructor; try done.
  - intros w [->|Hw]%elem_of_set_writer; [|by apply Hbl].
    rewrite Hb. apply Hbl. by eapply list_elem_of_lookup_2.
  - intros b batch [E|Hw]%elem_of_set_writer; [by apply Hs|by apply Hst].
  - intros b n [E|Hw]%elem_of_set_writer Hn; [by destruct (H' b)|].
    destruct (Hco b n Hw Hn) as (b' & v & Hin & Hv). exists b', v. split; [|done].
    by eapply elem_of_keep_writer.
Qed.

Lemma writes_inv_commit db0 blocks db ws i b batch db' : Forall wf_block blocks →
  writes_inv db0 blocks db ws → ws !! i = Some (Staged b batch) → commit_batch db batch = Ok db' →
  writes_inv db0 blocks db' (<[i := Committed b]> ws).
Proof.
  intros Hwf Hi Hw Hc.
  pose proof Hi as [Hok Hbl Hst Hco Hold].
  destruct (stages_hot b True batch) as (n & v & [Hn Hv] & Hhot);
    [apply Hst; by eapply list_elem_of_lookup_2|].
  assert (b ∈ blocks) as Hb by (apply (Hbl (Staged b batch)); by eapply list_elem_of_lookup_2).
  rewrite Forall_forall in Hwf.
  pose proof (get_block_number_u64 b n (Hwf b Hb) Hn) as Hn64.
  destruct (write_db_ok db batch Hok) as (db1 & E & Hok1 & He).
  unfold commit_batch in Hc. rewrite E in Hc. injection Hc as ->.
  specialize (He CF_HOT_BLOCKS). rewrite Hhot in He.
  constructor; [done|..].
  - intros w [->|H]%elem_of_set_writer; [done|by apply Hbl].
  - intros b1 batch1 [?|H]%elem_of_set_writer; [done|by apply Hst].
  - intros b1 n1 Hin Hn1. destruct (decide (n1 = n)) as [->|Hne].
    { exists b, v. rewrite He, lookup_insert_eq. split_and!; [by eapply elem_of_new_writer|done|done]. }
    assert (Committed b1 ∈ ws) as H1
      by (apply elem_of_set_writer in Hin as [[= ->]|]; [congruence|done]).
    destruct (Hco b1 n1 H1 Hn1) as (b2 & v2 & H2 & H3 & H4). exists b2, v2.
    split_and!; [by eapply elem_of_keep_writer|done|].
    rewrite He, lookup_insert_ne; [done|]. intros Eq. apply Hne.
    symmetry in Eq. apply u64_to_be_inj in Eq; [done| |exact Hn64].
    apply (get_block_number_u64 b1); [|done]. apply Hwf, (Hbl (Committed b1)), H1.
  - intros n1 Hu Hno. rewrite He, lookup_insert_ne; [by apply Hold|]. intros Eq.
    apply u64_to_be_inj in Eq; [subst; by apply (Hno b)|done|done].
Qed.

Lemma writes_inv_step start db0 blocks db ws db' ws' : Forall wf_block blocks →
  writes_inv db0 blocks db ws → write_step start (db, ws) (db', ws') →
  writes_inv db0 blocks db' ws'.
Proof.
  intros Hwf Hi Hstep. inversion Hstep; subst; clear Hstep.
  - by eapply writes_inv_quiet.
  - eapply writes_inv_quiet; [done|done|done|done|done|].
    intros b' batch' [= <- <-]. eapply stages_mono; [|by eapply stage_block_seen_stages]. done.
  - by eapply writes_inv_quiet.
  - by eapply writes_inv_commit.
  - by eapply writes_inv_quiet.
Qed.

Lemma writes_run_inv start db0 blocks db ws : db_ok db0 → Forall wf_block blocks →
  rtc (write_step start) (db0, Pending <$> blocks) (db, ws) → writes_inv db0 blocks db ws.
Proof.
  intros Hok Hwf Hrun. remember (db0, Pending <$> blocks) as s0. remember (db, ws) as s1.
  assert (writes_inv db0 blocks s0.1 s0.2) as Hi.
  { subst s0. constructor; cbn; try done.
    - intros w (b & -> & Hb)%list_elem_of_fmap. done.
    - by intros b batch (b' & ? & _)%list_elem_of_fmap.
    - by intros b n (b' & ? & _)%list_elem_of_fmap. }
  assert (writes_inv db0 blocks s1.1 s1.2) as H; [|by subst s1].
  clear Heqs0 Heqs1. induction Hrun as [|[db1 ws1] [db2 ws2] s Hstep _ IH]; [done|].
  apply IH. by eapply writes_inv_step.
Qed.
End concurrent.
