(* ===== verification/ConcurrentStorage.v ===== *)
(** The storage under concurrent use: any number of [write_block] and [read_block]
    calls and the archiver task run on the same two tiers without a lock
    (persistence-plugin/src/service.rs and cold_storage/archiver.rs).

    The parties interleave at every access: a write at each of its looks and at its
    commit, a read between the hot and the cold tier, the archiver between its
    checks, at each file-system operation, at the loading of the new index and at
    the commit that retires the batch.  The theory shows that a read never misses a
    block that was there when it began. *)
From S2P Require Import Prelude Config Database Block StateManager HotTier ColdStorage.
From S2P Require Import PersistenceService Archiver Persistence ConcurrentWrites.

(** A call of [read_block]: not begun, past the hot tier, returned. *)
Inductive Reader :=
| RNew (block_number : Z)
| RMissed (block_number : Z)
| RDone (block_number : Z) (result : Result Error (option bytes)).

(** Where [run_archival_cycle] is: between turns; past [is_batch_complete]; with the
    blocks read; before the remaining operations of [write_archive], whose result is
    known; with the files written; with the index loaded. *)
Inductive Archiving :=
| AIdle
| AChecked (start_block : Z)
| ARead (start_block : Z) (blocks : list Block)
| AWriting (start_block : Z) (ops : list FsOp) (result : Result Error fname)
| AWrote (start_block : Z) (new_index_path : fname)
| ALoaded (start_block : Z).

Record Storage `{RocksDB} := MkStorage {
  s_tiers : Tiers;
  s_writers : list Writer;
  s_archiver : Archiving;
  s_readers : list Reader;
}.
Arguments MkStorage {_}.
Arguments s_tiers {_}.
Arguments s_writers {_}.
Arguments s_archiver {_}.
Arguments s_readers {_}.

Section storage.
Context {RDB : RocksDB} {CODEC : Codec}.
Context (cfg : PersistenceServiceConfig) (start : Z).
Implicit Types (st : Tiers) (db : DB) (s : Storage).

(** The tests at the head of a turn of [run_archival_cycle]: the first hot block when
    the hot tier is oversized. *)
Definition oversized db : Result Error (option Z) :=
  eh ← get_earliest_hot db;
  match eh with
  | None => Ok None
  | Some earliest_hot =>
      latest ← get_latest_persisted db;
      let hot_tier_total_blocks :=
        u64_add (saturating_sub (default 0 latest) earliest_hot) 1 in
      Ok (if hot_tier_total_blocks <=? hot_storage_block_count cfg then None
          else Some earliest_hot)
  end.

Inductive archive_step : Tiers * Archiving → Tiers * Archiving → Prop :=
| arch_check st eh :
    oversized (t_db st) = Ok (Some eh) →
    is_batch_complete (t_db st) eh (archive_batch_size cfg) = Ok true →
    archive_step (st, AIdle) (st, AChecked eh)
| arch_skip st eh batch db :
    oversized (t_db st) = Ok (Some eh) →
    is_batch_complete (t_db st) eh (archive_batch_size cfg) = Ok false →
    add_skipped_batch (t_db st) eh [] = Ok batch → commit_batch (t_db st) batch = Ok db →
    archive_step (st, AIdle) (with_db st db, AIdle)
| arch_read st eh blocks :
    read_block_batch (t_db st) eh (archive_batch_size cfg) = Ok blocks → blocks ≠ [] →
    archive_step (st, AChecked eh) (st, ARead eh blocks)
| arch_read_nothing st eh :
    read_block_batch (t_db st) eh (archive_batch_size cfg) = Ok [] →
    archive_step (st, AChecked eh) (st, AIdle)
| arch_read_fails st eh e :
    read_block_batch (t_db st) eh (archive_batch_size cfg) = Err e →
    archive_step (st, AChecked eh) (st, AIdle)
| arch_open st eh blocks :
    archive_step (st, ARead eh blocks)
      (st, AWriting eh (write_archive blocks).1 (write_archive blocks).2)
| arch_op st eh op ops r :
    archive_step (st, AWriting eh (op :: ops) r)
      (MkTiers (t_db st) (fs_apply (t_fs st) op) (t_indices st), AWriting eh ops r)
| arch_op_fails st eh op ops r :
    archive_step (st, AWriting eh (op :: ops) r) (st, AIdle)
| arch_wrote st eh path :
    archive_step (st, AWriting eh [] (Ok path)) (st, AWrote eh path)
| arch_write_fails st eh e :
    archive_step (st, AWriting eh [] (Err e)) (st, AIdle)
| arch_load st eh path :
    archive_step (st, AWrote eh path)
      (MkTiers (t_db st) (t_fs st)
         (match load_index_file (t_fs st) (t_indices st) path with
          | Ok indices => indices
          | Err _ => t_indices st
          end), ALoaded eh)
| arch_retire st eh batch db :
    retire_batch (t_db st) eh (archive_batch_size cfg) = Ok batch →
    commit_batch (t_db st) batch = Ok db →
    archive_step (st, ALoaded eh) (with_db st db, AIdle)
| arch_retire_fails st eh e :
    (batch ← retire_batch (t_db st) eh (archive_batch_size cfg);
     commit_batch (t_db st) batch) = Err e →
    archive_step (st, ALoaded eh) (st, AIdle).

Inductive read_step st : Reader → Reader → Prop :=
| read_hot n c :
    hot_read_block (t_db st) n = Ok (Some c) → read_step st (RNew n) (RDone n (Ok (Some c)))
| read_hot_fails n e :
    hot_read_block (t_db st) n = Err e → read_step st (RNew n) (RDone n (Err e))
| read_miss n :
    hot_read_block (t_db st) n = Ok None → read_step st (RNew n) (RMissed n)
| read_cold n :
    read_step st (RMissed n) (RDone n (cold_read_block (t_fs st) (t_indices st) n)).

Inductive storage_step : Storage → Storage → Prop :=
| by_writer s db ws :
    write_step start (t_db (s_tiers s), s_writers s) (db, ws) →
    storage_step s (MkStorage (with_db (s_tiers s) db) ws (s_archiver s) (s_readers s))
| by_archiver s st a :
    archive_step (s_tiers s, s_archiver s) (st, a) →
    storage_step s (MkStorage st (s_writers s) a (s_readers s))
| by_reader s i r r' :
    s_readers s !! i = Some r → read_step (s_tiers s) r r' →
    storage_step s (MkStorage (s_tiers s) (s_writers s) (s_archiver s) (<[i := r']> (s_readers s))).
End storage.

(** ** The archiver among writers and readers

    [src n c] says that [c] may be returned for block [n]; it is fixed to the blocks
    the calls have committed below. *)
Section archiver_theory.
Context {RDB : RocksDB} {LAWS : RocksDBLaws} {CODEC : Codec} {CLAWS : CodecLaws}.
Context (cfg : PersistenceServiceConfig).
Implicit Types (st : Tiers) (db : DB) (src : Z → bytes → Prop).

Definition cold st (n : Z) : Result Error (option bytes) :=
  cold_read_block (t_fs st) (t_indices st) n.
Definition hot st (n : Z) : option bytes := entries (t_db st) CF_HOT_BLOCKS !! u64_to_be n.

(** The block is in one of the tiers. *)
Definition found (st : Tiers) (n : Z) : Prop :=
  is_Some (hot st n) ∨ ∃ c, cold st n = Ok (Some c).

Lemma hot_read_some st n c : db_ok (t_db st) →
  hot_read_block (t_db st) n = Ok (Some c) → hot_has (t_db st) n c.
Proof.
  intros [Ho Hh]. unfold hot_read_block. rewrite need_cf_open by (done || set_solver). cbn.
  rewrite get_cf_healthy by done. intros H. ok_inv. subst.
  case_match eqn:E; ok_inv; [|done]. simplify_eq. eexists. split; [exact E|]. by destruct x.
Qed.

Lemma hot_read_total st n : db_ok (t_db st) → hot_wf (t_db st) → is_u64 n →
  hot_read_block (t_db st) n = Ok None ∧ hot st n = None ∨
  ∃ c, hot_read_block (t_db st) n = Ok (Some c) ∧ hot_has (t_db st) n c.
Proof.
  intros Hdb Hw Hn. unfold hot.
  destruct (entries (t_db st) CF_HOT_BLOCKS !! u64_to_be n) as [v|] eqn:E.
  - right. destruct (hot_wf_at _ n v Hw Hn E) as (b & _ & Hd).
    assert (hot_has (t_db st) n (encode_to_vec b)) as Hh by (by exists v).
    exists (encode_to_vec b). split; [|done]. by apply hot_read_block_found.
  - left. split; [|done]. by apply hot_read_block_absent.
Qed.

Lemma read_found st n c : db_ok (t_db st) → tiers_read_block st n = Ok (Some c) → found st n.
Proof.
  intros Hdb. unfold tiers_read_block. intros H. apply bind_Ok in H as ([c'|] & Hh & H).
  - left. destruct (hot_read_some st n c' Hdb Hh) as (v & Hv & _). by exists v.
  - right. apply bind_Ok in H as ([c'|] & Hc & H); [|done]. by exists c'.
Qed.
(** What a look at the cold tier may return. *)
Definition cold_ok src st (n : Z) : Prop :=
  cold st n = Ok None ∨ ∃ c, cold st n = Ok (Some c) ∧ src n c.

(** The blocks of the batch the archiver works on. *)
Definition batch_at src (eh : Z) (bs : list Block) (zs : list bytes) : Prop :=
  archivable bs eh zs ∧ Z.of_nat (length bs) = archive_batch_size cfg ∧
  ∀ j b, bs !! j = Some b → src (eh + Z.of_nat j) (encode_to_vec b).

Definition archiver_at src st (eh : Z) (a : Archiving) : Prop :=
  match a with
  | AIdle => t_indices st !! eh = None
  | AChecked e =>
      e = eh ∧ t_indices st !! eh = None ∧
      ∀ i, 0 ≤ i < archive_batch_size cfg →
        is_Some (entries (t_db st) CF_HOT_BLOCKS !! u64_to_be (u64_add eh i))
  | ARead e bs => e = eh ∧ t_indices st !! eh = None ∧ ∃ zs, batch_at src eh bs zs
  | AWriting e ops r =>
      e = eh ∧ t_indices st !! eh = None ∧
      ∃ bs zs fs0 done, batch_at src eh bs zs ∧
        write_archive bs = (done ++ ops, r) ∧ t_fs st = fs_exec fs0 done
  | AWrote e path =>
      e = eh ∧ t_indices st !! eh = None ∧
      ∃ bs zs fs0, batch_at src eh bs zs ∧
        write_archive bs = ((write_archive bs).1, Ok path) ∧
        t_fs st = fs_exec fs0 (write_archive bs).1
  | ALoaded e =>
      e = eh ∧ ∃ bs zs, batch_at src eh bs zs ∧
        t_indices st !! eh = Some (archive_entry bs eh zs) ∧
        files (t_fs st) !! data_filename eh (last_of bs eh) = Some (concat zs)
  end.

(** An archive below the first hot block. *)
Definition settled_at (eh k : Z) (mi : MappedIndex) : Prop :=
  start_block mi = k ∧ 0 ≤ k ≤ end_block mi ∧
  data_path mi = data_filename k (end_block mi) ∧ end_block mi < eh.

Record archiver_inv src st (eh : Z) (a : Archiving) : Prop := {
  ai_ok : db_ok (t_db st);
  ai_hot : hot_wf (t_db st);
  ai_mark : meta_is (t_db st) EARLIEST_HOT_KEY (Some eh);
  ai_idx : ∀ k mi, t_indices st !! k = Some mi → k ≠ eh → settled_at eh k mi;
  ai_at : archiver_at src st eh a;
}.

Lemma batch_at_mono src src' eh bs zs : (∀ n c, src n c → src' n c) →
  batch_at src eh bs zs → batch_at src' eh bs zs.
Proof. intros H (? & ? & ?). split_and!; [done..|]. eauto. Qed.

Lemma archiver_inv_mono src src' st eh a : (∀ n c, src n c → src' n c) →
  archiver_inv src st eh a → archiver_inv src' st eh a.
Proof.
  intros H [? ? ? ? Ha]. constructor; try done.
  destruct a; cbn in *; try done; naive_solver eauto using batch_at_mono.
Qed.

Context (size_ok : 1 ≤ archive_batch_size cfg ≤ 4294967296).

(** Above the first hot block the settled archives have nothing. *)
Lemma cold_above src st eh a n :
  archiver_inv src st eh a → t_indices st !! eh = None → eh ≤ n → cold st n = Ok None.
Proof.
  intros [_ _ _ Hi _] Hno Hn. unfold cold, cold_read_block.
  pose proof (find_chunk_spec (t_indices st) n) as Hf.
  destruct (find_chunk (t_indices st) n) as [mi|]; [|done]. destruct Hf as (k & Hk & _).
  destruct (Hi k mi Hk) as (_ & _ & _ & He); [congruence|].
  unfold get_record. destruct (Z.leb_spec n (end_block mi)); [lia|]. by rewrite andb_false_r.
Qed.

(** The archive a load makes visible. *)
Lemma cold_loaded src st eh bs zs n :
  batch_at src eh bs zs → t_indices st !! eh = Some (archive_entry bs eh zs) →
  (∀ k mi, t_indices st !! k = Some mi → k ≠ eh → settled_at eh k mi) →
  files (t_fs st) !! data_filename eh (last_of bs eh) = Some (concat zs) → eh ≤ n →
  if decide (n < eh + archive_batch_size cfg)
  then ∃ c, cold st n = Ok (Some c) ∧ src n c else cold st n = Ok None.
Proof.
  intros (Ha & Hlen & Hsrc) Hat Hi Hd Hn.
  assert (∀ k mi, t_indices st !! k = Some mi → k ≤ eh) as Hmax.
  { intros k mi Hk. destruct (decide (k = eh)) as [->|Hne]; [lia|].
    destruct (Hi k mi Hk Hne) as (_ & ? & _ & ?). lia. }
  case_decide as Hlt.
  - destruct (lookup_lt_is_Some_2 bs (Z.to_nat (n - eh))) as [b Hj]; [lia|].
    exists (encode_to_vec b). pose proof (Hsrc _ _ Hj) as Hb.
    rewrite Z2Nat.id in Hb by lia. replace (eh + (n - eh)) with n in Hb by lia.
    split; [|done]. unfold cold. replace n with (eh + Z.of_nat (Z.to_nat (n - eh))) by lia.
    apply (archive_read bs eh zs); [done..|]. split_and!; [done|lia|].
    intros k mi Hk _. by eapply Hmax.
  - unfold cold. rewrite (cold_read_chunk _ _ n eh (archive_entry bs eh zs)).
    + unfold get_record. cbn [start_block end_block archive_entry]. unfold last_of.
      destruct (Z.leb_spec n (eh + Z.of_nat (length bs) - 1)); [lia|]. by rewrite andb_false_r.
    + split_and!; [done|done|]. intros k mi Hk _. by eapply Hmax.
Qed.

(** The files of a batch that is being written are not those of a settled archive. *)
Lemma writing_frame src eh bs zs fs0 k mi j :
  batch_at src eh bs zs → settled_at eh k mi →
  files (fs_exec fs0 (take j (write_archive bs).1)) !! data_path mi = files fs0 !! data_path mi.
Proof.
  intros (Ha & Hlen & _) (_ & Hk & -> & He). pose proof Ha as (Hne & Heh & Hmax & _).
  destruct (archivable_ends bs eh zs Ha) as (Hn & Hz & Hhd & Hls & Ht).
  destruct (write_archive_cut bs _ zs eh (last_of bs eh) fs0 j Hn Hz Hhd Hls Ht)
    as [(_ & _ & Hcut) _].
  apply Hcut; [|apply data_filename_index|apply data_filename_tmp..].
  intros E. apply data_filename_inj in E; unfold last_of in *; u64_lia.
Qed.
(** What a step of the archiver does to the readers' view: cold look-ups change
    only from nothing to something that may be returned, and a block leaves the hot
    tier only when the cold one has it. *)
Definition evolves src st st' : Prop :=
  (∀ n, is_u64 n → cold st' n = cold st n ∨ cold st n = Ok None ∧ cold_ok src st' n) ∧
  (∀ n, is_u64 n → hot st' n = hot st n ∨
     hot st' n = None ∧ ∃ c, cold st' n = Ok (Some c) ∧ src n c).

Lemma evolves_refl src st : evolves src st st.
Proof. split; intros; by left. Qed.

(** Steps that touch neither tier. *)
Lemma archiver_inv_move src st eh a a' :
  archiver_inv src st eh a → archiver_at src st eh a' → archiver_inv src st eh a'.
Proof. intros [? ? ? ? _] ?. by constructor. Qed.

Lemma oversized_mark db eh o : db_ok db → meta_is db EARLIEST_HOT_KEY (Some eh) →
  oversized cfg db = Ok (Some o) → o = eh.
Proof.
  intros Hdb Hm. unfold oversized, get_earliest_hot. rewrite (get_u64_opt_ok _ _ _ Hdb Hm).
  cbn. intros H. ok_inv. by case_match; simplify_eq.
Qed.

Lemma arch_read_inv src st eh blocks :
  (∀ n c, is_u64 n → hot_has (t_db st) n c → src n c) →
  archiver_inv src st eh (AChecked eh) →
  read_block_batch (t_db st) eh (archive_batch_size cfg) = Ok blocks →
  ∃ zs, batch_at src eh blocks zs.
Proof.
  intros Hsrc [Hdb Hw Hm _ (_ & _ & Hall)] Hr.
  destruct (is_batch_complete_ok (t_db st) eh (archive_batch_size cfg) Hdb ltac:(lia))
    as (b & Hb & Hiff).
  destruct b; [|by pose proof (proj2 Hiff Hall)].
  assert (is_u64 eh) as Heh by (by apply Hm).
  destruct (complete_archivable _ eh _ Hdb Hw Heh size_ok Hb) as (bs & zs & Hlen & Ha & Hr' & Hh).
  rewrite Hr in Hr'. injection Hr' as ->. exists zs. split_and!; [done|done|].
  intros j c Hj. apply Hsrc; [|by apply Hh].
  pose proof Ha as (_ & _ & Hmax & _). apply lookup_lt_Some in Hj. u64_lia.
Qed.

(** A file-system operation of the archiver, wherever it stands in the list. *)
Lemma arch_op_evolves src st eh op ops r :
  let st' := MkTiers (t_db st) (fs_apply (t_fs st) op) (t_indices st) in
  archiver_inv src st eh (AWriting eh (op :: ops) r) →
  archiver_inv src st' eh (AWriting eh ops r) ∧ evolves src st st'.
Proof.
  intros st' [Hdb Hw Hm Hi (_ & Hno & bs & zs & fs0 & dn & Hb & Ew & Efs)].
  assert (write_archive bs = ((dn ++ [op]) ++ ops, r)) as Ew' by (by rewrite Ew, <-app_assoc).
  assert (fs_apply (t_fs st) op = fs_exec fs0 (dn ++ [op])) as Efs'
    by (by rewrite fs_exec_app, <-Efs).
  split.
  - constructor; try done. split_and!; [done|done|].
    exists bs, zs, fs0, (dn ++ [op]). done.
  - split; [|by left]. intros n Hn. left. unfold cold. cbn.
    apply cold_frame; [done|]. intros k mi _ Hk.
    assert (settled_at eh k mi) as Hs by (apply Hi; [done|congruence]).
    rewrite Efs', Efs.
    pose proof (writing_frame src eh bs zs fs0 k mi (length dn) Hb Hs) as H1.
    pose proof (writing_frame src eh bs zs fs0 k mi (length (dn ++ [op])) Hb Hs) as H2.
    rewrite Ew in H1. rewrite Ew' in H2. cbn [fst] in H1, H2.
    rewrite take_app_length in H1, H2. by rewrite H1, H2.
Qed.

Lemma arch_load_evolves src st eh path :
  let st' := MkTiers (t_db st) (t_fs st)
    (match load_index_file (t_fs st) (t_indices st) path with
     | Ok indices => indices | Err _ => t_indices st end) in
  archiver_inv src st eh (AWrote eh path) →
  archiver_inv src st' eh (ALoaded eh) ∧ evolves src st st'.
Proof.
  intros st' Hinv. pose proof Hinv as [Hdb Hw Hm Hi (_ & Hno & bs & zs & fs0 & Hb & Ew & Efs)].
  pose proof Hb as (Ha & _).
  destruct (archive_write_load bs eh zs fs0 (t_indices st) Ha) as (fs1 & Er & El & Hd & _).
  unfold io_run in Er. rewrite Ew in Er. injection Er as Efs1 ->. subst fs1.
  rewrite Ew in Efs. cbn [fst] in Efs. rewrite <-Efs in El, Hd.
  assert (t_indices st' = <[eh := archive_entry bs eh zs]> (t_indices st)) as Ei
    by (unfold st'; by rewrite El).
  assert (∀ k mi, t_indices st' !! k = Some mi → k ≠ eh → settled_at eh k mi) as Hi'.
  { intros k mi. rewrite Ei. intros Hk Hne. rewrite lookup_insert_ne in Hk by done. by apply Hi. }
  assert (t_indices st' !! eh = Some (archive_entry bs eh zs)) as Hat
    by (by rewrite Ei, lookup_insert_eq).
  split; [|split; [|by left]].
  - constructor; try done. split; [done|]. by exists bs, zs.
  - intros n Hn. destruct (decide (n < eh)) as [Hlt|Hge].
    + left. unfold cold. rewrite Ei. apply cold_frame; [|done].
      intros k Hk. by rewrite lookup_insert_ne by lia.
    + right. split; [eapply cold_above; [done|done|lia]|].
      pose proof (cold_loaded src st' eh bs zs n Hb Hat Hi' Hd ltac:(lia)) as Hc.
      unfold cold_ok. case_decide; auto.
Qed.

Lemma arch_retire_evolves src st eh batch db :
  archiver_inv src st eh (ALoaded eh) →
  retire_batch (t_db st) eh (archive_batch_size cfg) = Ok batch →
  commit_batch (t_db st) batch = Ok db →
  archiver_inv src (with_db st db) (eh + archive_batch_size cfg) AIdle ∧
  evolves src st (with_db st db).
Proof.
  intros [Hdb Hw Hm Hi (_ & bs & zs & Hb & Hat & Hd)] Hbatch Hc.
  rewrite retire_batch_ok in Hbatch by (apply Hdb || lia). injection Hbatch as <-.
  destruct (write_db_ok (t_db st) (retire_ops eh (archive_batch_size cfg)) Hdb)
    as (db' & E & Hdb' & He).
  unfold commit_batch in Hc. rewrite E in Hc. injection Hc as ->.
  pose proof Hb as ((Hne & Heh & Hmax & _) & Hlen & _).
  assert (∀ n, is_u64 n → hot (with_db st db) n =
    if decide (eh ≤ n < eh + archive_batch_size cfg) then None else hot st n) as Hh.
  { intros n Hn. unfold hot. cbn. rewrite He, retire_hot.
    pose proof (retired_key eh (archive_batch_size cfg) n Hn Heh ltac:(u64_lia)).
    do 2 case_decide; tauto || done. }
  split.
  - constructor; cbn; [done| | | |].
    + intros k v. rewrite He, retire_hot. case_decide; [done|]. apply Hw.
    + split; [|intros ? [= <-]; u64_lia].
      rewrite He, retire_meta, lookup_insert_eq, u64_add_small by u64_lia. done.
    + intros k mi Hk _. destruct (decide (k = eh)) as [->|Hke].
      * rewrite Hat in Hk. injection Hk as <-. unfold settled_at, last_of. cbn. unfold last_of.
        split_and!; [done|u64_lia..|done|lia].
      * destruct (Hi k mi Hk Hke) as (? & ? & ? & ?). split_and!; try done; lia.
    + destruct (t_indices st !! (eh + archive_batch_size cfg)) as [mi|] eqn:Ek; [|done].
      destruct (Hi _ mi Ek ltac:(lia)) as (_ & ? & _ & ?). lia.
  - split; [by left|]. intros n Hn. rewrite (Hh n Hn). case_decide as Hr; [|by left].
    right. split; [done|].
    pose proof (cold_loaded src st eh bs zs n Hb Hat Hi Hd ltac:(lia)) as Hcl.
    rewrite decide_True in Hcl by lia. exact Hcl.
Qed.
Lemma arch_skip_evolves src st eh batch db :
  archiver_inv src st eh AIdle → add_skipped_batch (t_db st) eh [] = Ok batch →
  commit_batch (t_db st) batch = Ok db →
  archiver_inv src (with_db st db) eh AIdle ∧ evolves src st (with_db st db).
Proof.
  intros [Hdb Hw Hm Hi Ha] Hs Hc. unfold add_skipped_batch in Hs. ok_inv. subst batch.
  destruct (write_db_ok (t_db st) [BPut CF_SKIPPED_BATCHES (u64_to_be eh) []] Hdb)
    as (db' & E & Hdb' & He).
  unfold commit_batch in Hc. cbn in Hc. rewrite E in Hc. injection Hc as ->.
  assert (entries db CF_HOT_BLOCKS = entries (t_db st) CF_HOT_BLOCKS) as Eh
    by (rewrite He; by batch_simpl).
  assert (entries db CF_METADATA = entries (t_db st) CF_METADATA) as Em
    by (rewrite He; by batch_simpl).
  split; [|split; intros n Hn; left; [done|unfold hot; cbn; by rewrite Eh]].
  constructor; cbn; try done.
  - unfold hot_wf. by rewrite Eh.
  - unfold meta_is. by rewrite Em.
Qed.

Lemma archive_step_inv src st a st' a' eh :
  (∀ n c, is_u64 n → hot_has (t_db st) n c → src n c) →
  archiver_inv src st eh a → archive_step cfg (st, a) (st', a') →
  (∃ eh', archiver_inv src st' eh' a') ∧ evolves src st st'.
Proof.
  intros Hsrc Hinv Hstep. pose proof (ai_ok _ _ _ _ Hinv) as Hdb.
  pose proof (ai_mark _ _ _ _ Hinv) as Hm. pose proof (ai_at _ _ _ _ Hinv) as Ha.
  inversion Hstep; subst; clear Hstep; cbn in Ha;
    try match type of Ha with _ ∧ _ => destruct Ha as [-> Ha] end; try (split; [exists eh|apply evolves_refl]).
  - assert (eh0 = eh) as -> by (by eapply oversized_mark).
    eapply archiver_inv_move; [done|]. split_and!; [done|done|].
    destruct (is_batch_complete_ok (t_db st') eh (archive_batch_size cfg) Hdb ltac:(lia))
      as (b & Hb & Hiff). apply Hiff. congruence.
  - assert (eh0 = eh) as -> by (by eapply oversized_mark).
    destruct (arch_skip_evolves src st eh batch db) as [? ?]; [done..|]. eauto.
  - destruct (arch_read_inv src st' eh blocks) as [zs Hz]; [done..|].
    eapply archiver_inv_move; [done|]. destruct Ha as [Hno _]. split_and!; [done|done|by exists zs].
  - eapply archiver_inv_move; [done|]. by destruct Ha.
  - eapply archiver_inv_move; [done|]. by destruct Ha.
  - destruct Ha as (Hno & zs & Hz). eapply archiver_inv_move; [done|].
    split_and!; [done|done|]. exists blocks, zs, (t_fs st'), [].
    split_and!; [done| |done]. by destruct (write_archive blocks).
  - destruct (arch_op_evolves src st eh op ops r) as [? ?]; [done|]. eauto.
  - eapply archiver_inv_move; [done|]. by destruct Ha.
  - destruct Ha as (Hno & bs & zs & fs0 & dn & Hz & Ew & Efs).
    eapply archiver_inv_move; [done|]. rewrite app_nil_r in Ew.
    split_and!; [done|done|]. exists bs, zs, fs0. by rewrite Ew.
  - eapply archiver_inv_move; [done|]. by destruct Ha.
  - destruct (arch_load_evolves src st eh path) as [? ?]; [done|]. eauto.
  - destruct (arch_retire_evolves src st eh batch db) as [? ?]; [done..|]. eauto.
  - exfalso. rewrite retire_batch_ok in H0 by (apply Hdb || lia). cbn -[retire_ops] in H0.
    destruct (write_db_ok (t_db st') (retire_ops eh (archive_batch_size cfg)) Hdb)
      as (db' & E & _). unfold commit_batch in H0. by rewrite E in H0.
Qed.
(** A commit of a call beside the archiver: the hot tier gains the block, the first-hot
    mark stays. *)
Lemma archiver_inv_commit src st eh a b n batch db :
  archiver_inv src st eh a → stages b False batch → storable b n →
  commit_batch (t_db st) batch = Ok db →
  archiver_inv src (with_db st db) eh a ∧
  ∃ v, hot_value b n v ∧
    entries db CF_HOT_BLOCKS = <[u64_to_be n := v]> (entries (t_db st) CF_HOT_BLOCKS).
Proof.
  intros [Hdb Hw Hm Hidx Hat] Hs Hsb Hcm.
  destruct (stages_hot _ _ _ Hs) as (n' & v & [Hbn Hv] & Hhot).
  assert (n' = n) as -> by (pose proof Hsb as (_ & _ & E' & _); congruence).
  destruct (write_db_ok (t_db st) batch Hdb) as (db' & E & Hdb' & He).
  unfold commit_batch in Hcm. rewrite E in Hcm. injection Hcm as ->.
  pose proof (He CF_HOT_BLOCKS) as Eh. rewrite Hhot in Eh.
  split; [|by exists v]. constructor; cbn; [done| | |done|].
  - intros k w. rewrite Eh. intros [[<- <-]|[_ Hk]]%lookup_insert_Some; [|by apply Hw].
    by exists n, b.
  - destruct Hm as [Hm ?]. split; [|done]. rewrite He, (stages_mark b batch _ Hs). done.
  - destruct a; cbn in *; try done. destruct Hat as (? & ? & Hall).
    split_and!; [done..|]. intros j Hj. rewrite Eh. apply lookup_insert_is_Some'. auto.
Qed.
End archiver_theory.

(** ** All parties *)
Section storage_theory.
Context {RDB : RocksDB} {LAWS : RocksDBLaws} {CODEC : Codec} {CLAWS : CodecLaws}.
Context (cfg : PersistenceServiceConfig) (size_ok : 1 ≤ archive_batch_size cfg ≤ 4294967296).
Context (start : Z) (st0 : Tiers) (blocks : list Block).
Context (blocks_ok : Forall (λ b, ∃ n, storable b n) blocks).
Implicit Types (s : Storage) (db : DB) (ws : list Writer).

(** The bytes a read of [n] may return: those of a block that a call has committed
    under this number, or what the store returned at the beginning. *)
Definition source ws (n : Z) (c : bytes) : Prop :=
  (∃ b, Committed b ∈ ws ∧ get_block_number b = Ok n ∧ c = encode_to_vec b) ∨
  tiers_read_block st0 n = Ok (Some c).

Definition reader_number (r : Reader) : Z :=
  match r with RNew n | RMissed n | RDone n _ => n end.

Record storage_inv s : Prop := {
  si_archiver : ∃ eh, archiver_inv cfg (source (s_writers s)) (s_tiers s) eh (s_archiver s);
  si_blocks : ∀ w, w ∈ s_writers s → writer_block w ∈ blocks;
  si_looks : ∀ b seen, Looking b seen ∈ s_writers s →
    Forall (λ db, db_ok db ∧ ∃ eh, meta_is db EARLIEST_HOT_KEY (Some eh)) seen;
  si_staged : ∀ b batch, Staged b batch ∈ s_writers s → stages b False batch;
  si_hot : ∀ n c, is_u64 n → hot_has (t_db (s_tiers s)) n c → source (s_writers s) n c;
  si_cold : ∀ n, is_u64 n → hot (s_tiers s) n = None ∨ RMissed n ∈ s_readers s →
    cold_ok (source (s_writers s)) (s_tiers s) n;
  si_numbers : ∀ r, r ∈ s_readers s → is_u64 (reader_number r);
  si_done : ∀ n r, RDone n r ∈ s_readers s →
    r = Ok None ∨ ∃ c, r = Ok (Some c) ∧ source (s_writers s) n c;
}.

(** Committed calls stay committed. *)
Lemma write_step_sources db ws db' ws' n c :
  write_step start (db, ws) (db', ws') → source ws n c → source ws' n c.
Proof.
  intros Hstep [(b & Hb & ?)|?]; [left; exists b; split; [|done]|by right].
  inversion Hstep; subst; eapply elem_of_keep_writer; done.
Qed.

Lemma source_insert ws i w0 w n c : ws !! i = Some w0 → (∀ b, w0 ≠ Committed b) →
  source ws n c → source (<[i := w]> ws) n c.
Proof.
  intros Hi H0 [(b & Hb & ?)|?]; [left; exists b; split; [|done]|by right].
  by eapply elem_of_keep_writer.
Qed.

(** A call changes its state and not the database. *)
Lemma storage_inv_quiet s i w0 w : storage_inv s → s_writers s !! i = Some w0 →
  writer_block w = writer_block w0 → (∀ b, w0 ≠ Committed b) → (∀ b, w ≠ Committed b) →
  (∀ b seen, w = Looking b seen →
     Forall (λ db, db_ok db ∧ ∃ eh, meta_is db EARLIEST_HOT_KEY (Some eh)) seen) →
  (∀ b batch, w = Staged b batch → stages b False batch) →
  storage_inv (MkStorage (s_tiers s) (<[i := w]> (s_writers s)) (s_archiver s) (s_readers s)).
Proof.
  intros [[eh Ha] Hbl Hlk Hst Hh Hc Hn Hd] Hi Hb H0 H1 Hl Hs.
  assert (∀ n c, source (s_writers s) n c → source (<[i := w]> (s_writers s)) n c) as Hmono
    by (intros; by eapply source_insert).
  constructor; cbn.
  - exists eh. by eapply archiver_inv_mono.
  - intros w' [->|Hw]%elem_of_set_writer; [|by apply Hbl].
    rewrite Hb. apply Hbl. by eapply list_elem_of_lookup_2.
  - intros b seen [E|Hw]%elem_of_set_writer; [by eapply Hl|by eapply Hlk].
  - intros b batch [E|Hw]%elem_of_set_writer; [by eapply Hs|by eapply Hst].
  - eauto.
  - intros n Hu Hor. destruct (Hc n Hu Hor) as [|(c & ? & ?)]; [by left|right; eauto].
  - done.
  - intros n r Hr. destruct (Hd n r Hr) as [|(c & ? & ?)]; [by left|right; eauto].
Qed.

(** A commit: the hot tier gains the block, the first-hot mark stays. *)
Lemma storage_inv_commit s i b batch db : storage_inv s →
  s_writers s !! i = Some (Staged b batch) → commit_batch (t_db (s_tiers s)) batch = Ok db →
  let s' := MkStorage (with_db (s_tiers s) db) (<[i := Committed b]> (s_writers s))
              (s_archiver s) (s_readers s) in
  storage_inv s' ∧ ∀ n, is_Some (hot (s_tiers s) n) → is_Some (hot (s_tiers s') n).
Proof.
  intros [[eh Ha] Hbl Hlk Hst Hh Hc Hn Hd] Hi Hcm s'.
  assert (Staged b batch ∈ s_writers s) as Hin by (by eapply list_elem_of_lookup_2).
  pose proof (Hst b batch Hin) as Hs.
  rewrite Forall_forall in blocks_ok. destruct (blocks_ok b (Hbl _ Hin)) as (n & Hsb).
  destruct (archiver_inv_commit cfg _ _ _ _ _ n _ _ Ha Hs Hsb Hcm) as (Ha' & v & [Hbn Hv] & Eh).
  assert (∀ m c, source (s_writers s) m c → source (s_writers s') m c) as Hmono
    by (intros; by eapply source_insert).
  assert (∀ m, is_Some (hot (s_tiers s) m) → is_Some (hot (s_tiers s') m)) as Hgrow.
  { intros m Hs'. unfold hot. cbn. rewrite Eh. destruct (decide (u64_to_be n = u64_to_be m)) as [->|].
    - rewrite lookup_insert_eq. eauto.
    - by rewrite lookup_insert_ne. }
  split; [|done]. constructor; subst s'; cbn in *.
  - exists eh. by apply (archiver_inv_mono cfg (source (s_writers s))).
  - intros w [->|Hw']%elem_of_set_writer; [by apply (Hbl (Staged b batch))|by apply Hbl].
  - intros b' seen [?|Hw']%elem_of_set_writer; [done|by eapply Hlk].
  - intros b' batch' [?|Hw']%elem_of_set_writer; [done|by eapply Hst].
  - intros m c Hu (v' & Hv' & Hd'). rewrite Eh in Hv'.
    apply lookup_insert_Some in Hv' as [[Ek <-]|[_ Hk]]; [|apply Hmono, Hh; [done|by exists v']].
    pose proof (storable_u64 _ _ Hsb). apply u64_to_be_inj in Ek as <-; [|u64_lia|done].
    left. exists b. split_and!; [by eapply elem_of_new_writer|done|].
    rewrite Hv in Hd'. by injection Hd' as <-.
  - intros m Hu Hor. destruct (Hc m Hu) as [|(c & ? & ?)]; [|by left|right; eauto].
    destruct Hor as [Hno|]; [left|by right].
    destruct (hot (s_tiers s) m) eqn:Em; [|done].
    destruct (Hgrow m ltac:(eauto)) as [? Hx]. by rewrite Hno in Hx.
  - done.
  - intros m r Hr. destruct (Hd m r Hr) as [|(c & ? & ?)]; [by left|right; eauto].
Qed.
Lemma with_db_same st : with_db st (t_db st) = st.
Proof. by destruct st. Qed.

Lemma storage_inv_stage s b seen batch w :
  storage_inv s → Looking b seen ∈ s_writers s → length seen = LOOKS →
  stage_block_seen (seen_at seen (t_db (s_tiers s))) start b = Ok (batch, w) →
  stages b False batch.
Proof.
  intros Hinv Hin Hlen Hst. eapply stages_mono; [|by eapply stage_block_seen_stages].
  pose proof (si_looks _ Hinv _ _ Hin) as Hall. unfold seen_at.
  destruct (nth_in_or_default 5 seen (t_db (s_tiers s))) as [H5|H5].
  - rewrite Forall_forall in Hall. apply list_elem_of_In in H5.
    destruct (Hall _ H5) as (Hdb & eh & Hm). unfold get_earliest_hot.
    by rewrite (get_u64_opt_ok _ _ _ Hdb Hm).
  - destruct (si_archiver _ Hinv) as [eh Ha]. rewrite H5. unfold get_earliest_hot.
    by rewrite (get_u64_opt_ok _ _ _ (ai_ok _ _ _ _ _ Ha) (ai_mark _ _ _ _ _ Ha)).
Qed.

(** What no step takes away from a reader. *)
Definition keeps (st st' : Tiers) : Prop :=
  ∀ n, is_u64 n → (found st n → found st' n) ∧
    ((∃ c, cold st n = Ok (Some c)) → ∃ c, cold st' n = Ok (Some c)).

Lemma write_step_inv s db ws : storage_inv s →
  write_step start (t_db (s_tiers s), s_writers s) (db, ws) →
  storage_inv (MkStorage (with_db (s_tiers s) db) ws (s_archiver s) (s_readers s)) ∧
  keeps (s_tiers s) (with_db (s_tiers s) db).
Proof.
  intros Hinv Hstep. pose proof (si_archiver _ Hinv) as [eh Ha].
  assert (∀ b seen, Looking b seen ∈ s_writers s → Forall (λ db, db_ok db ∧
    ∃ eh, meta_is db EARLIEST_HOT_KEY (Some eh)) seen) as Hlk by apply Hinv.
  inversion Hstep; subst; clear Hstep; rewrite ?with_db_same.
  - split; [|by split]. eapply storage_inv_quiet; [done..| |done].
    intros b' seen' [= -> <-]. apply Forall_app. split.
    + eapply Hlk. by eapply list_elem_of_lookup_2.
    + apply Forall_singleton. destruct Ha. eauto.
  - split; [|by split]. eapply storage_inv_quiet; [done..|].
    intros b' batch' [= -> <-]. eapply storage_inv_stage; [done| |done|done].
    by eapply list_elem_of_lookup_2.
  - split; [|by split]. by eapply storage_inv_quiet.
  - destruct (storage_inv_commit s i b batch db) as [Hi Hg]; [done..|]. split; [done|].
    intros n Hn. split; [|done]. intros [Hh|Hc]; [left; by apply Hg|by right].
  - split; [|by split]. by eapply storage_inv_quiet.
Qed.

Lemma archiver_step_inv s st a : storage_inv s →
  archive_step cfg (s_tiers s, s_archiver s) (st, a) →
  storage_inv (MkStorage st (s_writers s) a (s_readers s)) ∧ keeps (s_tiers s) st.
Proof.
  intros [[eh Ha] Hbl Hlk Hst Hh Hc Hn Hd] Hstep.
  destruct (archive_step_inv cfg size_ok (source (s_writers s)) (s_tiers s) (s_archiver s) st a eh)
    as ((eh' & Ha') & Hcold & Hhot); [done..|].
  assert (∀ n, is_u64 n → cold_ok (source (s_writers s)) (s_tiers s) n →
    cold_ok (source (s_writers s)) st n) as Hkeep.
  { intros n Hu Hok. destruct (Hcold n Hu) as [E|[_ ?]]; [|done]. unfold cold_ok. by rewrite E. }
  split.
  - constructor; cbn; try done.
    + by exists eh'.
    + intros n c Hu (v & Hv & Hv'). apply Hh; [done|]. exists v. split; [|done].
      destruct (Hhot n Hu) as [E|[E _]]; unfold hot in E; congruence.
    + intros n Hu [Hno|Hm]; [|apply Hkeep; [done|]; apply Hc; [done|by right]].
      destruct (Hhot n Hu) as [E|[_ (c & ? & ?)]]; [|right; eauto].
      apply Hkeep; [done|]. apply Hc; [done|]. left. congruence.
  - intros n Hu.
    assert ((∃ c, cold (s_tiers s) n = Ok (Some c)) → ∃ c, cold st n = Ok (Some c)) as Hk.
    { intros [c E]. destruct (Hcold n Hu) as [E'|[E' _]]; [|congruence]. exists c. congruence. }
    split; [|done]. intros [Hs|Hs]; [|right; by apply Hk].
    destruct (Hhot n Hu) as [E|[_ (c & ? & _)]]; [left; congruence|right; eauto].
Qed.

(** A reader that began while the block was there is on its way to it. *)
Definition tracks s (r : Reader) : Prop :=
  match r with
  | RNew n => found (s_tiers s) n
  | RMissed n => ∃ c, cold (s_tiers s) n = Ok (Some c)
  | RDone _ res => ∃ c, res = Ok (Some c)
  end.

Lemma read_step_inv s i r r' : storage_inv s → s_readers s !! i = Some r →
  read_step (s_tiers s) r r' →
  storage_inv (MkStorage (s_tiers s) (s_writers s) (s_archiver s) (<[i := r']> (s_readers s))) ∧
  (tracks s r → tracks s r').
Proof.
  intros Hinv Hi Hstep. pose proof Hinv as [[eh Ha] Hbl Hlk Hst Hh Hc Hn Hd].
  assert (r ∈ s_readers s) as Hin by (by eapply list_elem_of_lookup_2).
  pose proof (Hn r Hin) as Hu. destruct Ha as [Hdb Hw Hm Hidx Hat].
  assert (reader_number r' = reader_number r ∧ (∀ n, r' = RMissed n → hot (s_tiers s) n = None) ∧
    (∀ n res, r' = RDone n res → res = Ok None ∨ ∃ c, res = Ok (Some c) ∧ source (s_writers s) n c) ∧
    (tracks s r → tracks s r')) as (Hnum & Hmiss & Hres & Htr).
  { destruct Hstep as [n c E|n e E|n E|n]; cbn in *.
    - split_and!; [done|done| |eauto]. intros ? ? [= <- <-]. right. exists c.
      split; [done|]. apply Hh; [done|]. by apply hot_read_some.
    - exfalso. destruct (hot_read_total (s_tiers s) n Hdb Hw Hu) as [[? _]|(c & ? & _)]; congruence.
    - destruct (hot_read_total (s_tiers s) n Hdb Hw Hu) as [[_ Hno]|(c & ? & _)]; [|congruence].
      split_and!; [done|by intros ? [= <-]|done|]. intros [[? Hs]|Hs]; [congruence|done].
    - split_and!; [done|done| |done]. intros ? ? [= <- <-].
      destruct (Hc n Hu) as [E|(c & E & ?)]; [by right|by left|right; by exists c]. }
  split; [|done]. constructor; cbn; try done.
  - by exists eh.
  - intros n Hu' Hor. apply Hc; [done|]. destruct Hor as [|Hor]; [by left|].
    apply list_elem_of_lookup in Hor as [j Hj].
    apply list_lookup_insert_Some in Hj as [(-> & E & _)|[_ Hj]]; [left; by apply Hmiss|].
    right. by eapply list_elem_of_lookup_2.
  - intros q [j Hj]%list_elem_of_lookup.
    apply list_lookup_insert_Some in Hj as [(-> & E & _)|[_ Hj]]; [by subst q; rewrite Hnum|].
    apply Hn. by eapply list_elem_of_lookup_2.
  - intros n res [j Hj]%list_elem_of_lookup.
    apply list_lookup_insert_Some in Hj as [(-> & E & _)|[_ Hj]]; [by apply Hres|].
    eapply Hd. by eapply list_elem_of_lookup_2.
Qed.

Lemma tracks_keeps s s' r : is_u64 (reader_number r) → keeps (s_tiers s) (s_tiers s') →
  tracks s r → tracks s' r.
Proof. intros Hu Hk. destruct r as [n|n|n res]; cbn in *; [apply Hk; done..|done]. Qed.

Lemma storage_step_inv s s' i r : storage_inv s → storage_step cfg start s s' →
  s_readers s !! i = Some r →
  storage_inv s' ∧ ∃ r', s_readers s' !! i = Some r' ∧ reader_number r' = reader_number r ∧
    (tracks s r → tracks s' r').
Proof.
  intros Hinv Hstep Hi.
  assert (is_u64 (reader_number r)) as Hu
    by (apply (si_numbers _ Hinv); by eapply list_elem_of_lookup_2).
  destruct Hstep as [s db ws Hw|s st a Ha|s j q q' Hq Hr].
  - destruct (write_step_inv s db ws Hinv Hw) as [? ?]. split; [done|]. exists r.
    split_and!; [done|done|]. by apply tracks_keeps.
  - destruct (archiver_step_inv s st a Hinv Ha) as [? ?]. split; [done|]. exists r.
    split_and!; [done|done|]. by apply tracks_keeps.
  - destruct (read_step_inv s j q q' Hinv Hq Hr) as [? Ht]. split; [done|]. cbn.
    destruct (decide (j = i)) as [->|Hne].
    + assert (q = r) as -> by congruence. exists q'.
      split_and!; [by eapply list_lookup_insert_eq, lookup_lt_Some| |].
      * by destruct Hr.
      * intros Htr. specialize (Ht Htr). by destruct q'.
    + exists r. rewrite list_lookup_insert_ne by done. split_and!; [done|done|].
      by apply tracks_keeps.
Qed.

Lemma storage_run_tracks s s' i r : storage_inv s → rtc (storage_step cfg start) s s' →
  s_readers s !! i = Some r →
  storage_inv s' ∧ ∃ r', s_readers s' !! i = Some r' ∧ reader_number r' = reader_number r ∧
    (tracks s r → tracks s' r').
Proof.
  intros Hinv Hrun. revert r Hinv. induction Hrun as [s|s s1 s2 Hstep _ IH]; intros r Hinv Hi.
  { split; [done|]. exists r. done. }
  destruct (storage_step_inv s s1 i r Hinv Hstep Hi) as (Hinv1 & r1 & Hi1 & Hn1 & Ht1).
  destruct (IH r1 Hinv1 Hi1) as (Hinv2 & r2 & Hi2 & Hn2 & Ht2).
  split; [done|]. exists r2. split_and!; [done|congruence|auto].
Qed.
Lemma storage_readers s s' : rtc (storage_step cfg start) s s' →
  length (s_readers s') = length (s_readers s).
Proof.
  induction 1 as [|s s1 s2 Hstep _ IH]; [done|]. rewrite IH.
  destruct Hstep; cbn; [done..|]. apply length_insert.
Qed.

(** A store that holds a block and has no archive of blocks that are still hot. *)
Definition settled : Prop :=
  ∃ eh, meta_is (t_db st0) EARLIEST_HOT_KEY (Some eh) ∧
    ∀ k mi, t_indices st0 !! k = Some mi → end_block mi < eh.

Lemma storage_inv_init m ns : tiers_inv st0 → reads_as st0 m → settled → Forall is_u64 ns →
  storage_inv (MkStorage st0 (Pending <$> blocks) AIdle (RNew <$> ns)).
Proof.
  intros (Hdb & Hw & o & Ho & Hcold) Hreads (eh & Hm & Hset) Hns.
  assert (o = Some eh) as -> by (by eapply meta_is_inj).
  constructor; cbn.
  - exists eh. constructor; cbn; [done|done|done| |].
    + intros k mi Hk _. destruct (Hcold k mi Hk) as (? & ? & ? & _). split_and!; try done; [lia..|].
      by eapply Hset.
    + destruct (t_indices st0 !! eh) as [mi|] eqn:E; [|done].
      specialize (Hset _ _ E). destruct (Hcold _ _ E) as (_ & ? & _). lia.
  - intros w (b & -> & Hb)%list_elem_of_fmap. done.
  - intros b seen (b' & [= -> ->] & _)%list_elem_of_fmap. constructor.
  - by intros b batch (b' & ? & _)%list_elem_of_fmap.
  - intros n c Hn Hh. right. unfold tiers_read_block.
    by rewrite (hot_read_block_found _ _ _ Hdb Hh).
  - intros n Hn [Hno|(n' & ? & _)%list_elem_of_fmap]; [|done].
    specialize (Hreads n Hn). unfold tiers_read_block in Hreads.
    rewrite hot_read_block_absent in Hreads by done. cbn in Hreads. fold (cold st0 n) in Hreads.
    unfold cold_ok. destruct (cold st0 n) as [[c|]|e] eqn:E; [right|by left|done].
    exists c. split; [done|]. right. unfold tiers_read_block.
    rewrite hot_read_block_absent by done. cbn. fold (cold st0 n). by rewrite E.
  - intros r (n & -> & Hn)%list_elem_of_fmap. rewrite Forall_forall in Hns. by apply Hns.
  - by intros n r (n' & ? & _)%list_elem_of_fmap.
Qed.

End storage_theory.

(** ** Calls that run undisturbed

    Every sequential operation of the service is a run of its party alone. *)
Section undisturbed.
Context {RDB : RocksDB} {CODEC : Codec}.
Context (cfg : PersistenceServiceConfig) (start : Z).

Lemma undisturbed_looks (k : nat) db b seen : (length seen + k ≤ LOOKS)%nat →
  rtc (write_step start) (db, [Looking b seen]) (db, [Looking b (seen ++ replicate k db)]).
Proof.
  revert seen. induction k as [|k IH]; intros seen Hk; [cbn; rewrite app_nil_r; apply rtc_refl|].
  eapply rtc_l; [by apply (step_look start db _ 0 b seen); [done|lia]|]. cbn.
  eapply (transitivity (y := (db, [Looking b ((seen ++ [db]) ++ replicate k db)])));
    [|by rewrite <-app_assoc].
  apply IH. rewrite length_app. cbn. lia.
Qed.

Lemma undisturbed_write db b db' w : write_block db cfg start b = (db', Ok w) →
  rtc (write_step start) (db, [Pending b]) (db', [Committed b]).
Proof.
  unfold write_block. intros H.
  destruct (stage_block db start b) as [[batch g]|e] eqn:Es; [|done].
  destruct (commit_batch db batch) as [db1|e] eqn:Ec; [|done]. injection H as <- _.
  etrans; [apply (undisturbed_looks LOOKS db b []); cbn; lia|].
  eapply rtc_l; [apply (step_stage start db _ 0 b (replicate LOOKS db) batch g); [done|done|exact Es]|].
  eapply rtc_l; [by apply (step_commit start db _ 0 b batch db1)|]. apply rtc_refl.
Qed.

Lemma undisturbed_ops st eh ops r :
  rtc (archive_step cfg) (st, AWriting eh ops r)
    (MkTiers (t_db st) (fs_exec (t_fs st) ops) (t_indices st), AWriting eh [] r).
Proof.
  revert st. induction ops as [|op ops IH]; intros st; [destruct st; apply rtc_refl|].
  eapply rtc_l; [apply arch_op|]. apply (IH (MkTiers _ _ _)).
Qed.

(** A turn of the archiver that archives a batch and goes round again. *)
Lemma undisturbed_cycle st st' : cycle_step cfg st None = (st', None) →
  rtc (archive_step cfg) (st, AIdle) (st', AIdle).
Proof.
  unfold cycle_step. intros H.
  destruct (get_earliest_hot (t_db st)) as [[eh|]|] eqn:Ee; [|done..].
  destruct (get_latest_persisted (t_db st)) as [l|] eqn:El; [|done].
  destruct (u64_add (saturating_sub (default 0 l) eh) 1 <=? hot_storage_block_count cfg) eqn:Es; [done|].
  destruct (is_batch_complete (t_db st) eh (archive_batch_size cfg)) as [[]|] eqn:Ec;
    [|by repeat case_match|done].
  destruct (archive_batch st None eh (archive_batch_size cfg)) as [st1 [[]|]] eqn:Ea; [|done].
  injection H as <-. eapply rtc_l; [apply (arch_check _ _ eh); [|done];
    unfold oversized; rewrite Ee; cbn; rewrite El; cbn; by rewrite Es|].
  unfold archive_batch in Ea.
  destruct (read_block_batch (t_db st) eh (archive_batch_size cfg)) as [[|b bs]|] eqn:Er; [|..|done].
  { injection Ea as <-. eapply rtc_l; [by apply arch_read_nothing|apply rtc_refl]. }
  eapply rtc_l; [by apply (arch_read _ _ _ (b :: bs))|]. eapply rtc_l; [apply arch_open|].
  etrans; [apply undisturbed_ops|]. cbn [io_run] in Ea.
  destruct ((write_archive (b :: bs)).2) as [path|] eqn:Ew; [|done].
  eapply rtc_l; [apply arch_wrote|]. eapply rtc_l; [apply arch_load|]. cbn [t_db t_fs t_indices].
  destruct (retire_batch (t_db st) eh (archive_batch_size cfg)) as [batch|] eqn:Eb; [|done].
  cbn in Ea. destruct (commit_batch (t_db st) batch) as [db|] eqn:Ed; [|done]. injection Ea as <-.
  eapply rtc_l; [by apply (arch_retire _ (MkTiers _ _ _) _ batch db)|]. apply rtc_refl.
Qed.

Lemma undisturbed_read st n r : tiers_read_block st n = Ok r →
  rtc (read_step st) (RNew n) (RDone n (Ok r)).
Proof.
  unfold tiers_read_block. intros H. apply bind_Ok in H as ([c|] & Hh & H).
  - injection H as <-. by apply rtc_once, read_hot.
  - eapply rtc_l; [by apply read_miss|]. apply bind_Ok in H as (o & Hc & H).
    eapply rtc_l; [apply read_cold|]. rewrite Hc. destruct o; injection H as <-; apply rtc_refl.
Qed.
(** A run of one party is a run of the storage. *)
Lemma archiver_runs st a st' a' ws rs : rtc (archive_step cfg) (st, a) (st', a') →
  rtc (storage_step cfg start) (MkStorage st ws a rs) (MkStorage st' ws a' rs).
Proof.
  intros H. remember (st, a) as x. remember (st', a') as y. revert st a Heqx.
  induction H as [x|x [st1 a1] z Hstep _ IH]; intros st a ->; simplify_eq; [apply rtc_refl|].
  eapply rtc_l; [by apply (by_archiver _ _ (MkStorage st ws a rs))|]. by apply IH.
Qed.

Lemma writer_runs st a db ws db' ws' rs : rtc (write_step start) (db, ws) (db', ws') →
  rtc (storage_step cfg start) (MkStorage (with_db st db) ws a rs)
    (MkStorage (with_db st db') ws' a rs).
Proof.
  intros H. remember (db, ws) as x. remember (db', ws') as y. revert db ws Heqx.
  induction H as [x|x [db1 ws1] z Hstep _ IH]; intros db ws ->; simplify_eq; [apply rtc_refl|].
  eapply rtc_l; [by apply (by_writer _ _ (MkStorage (with_db st db) ws a rs))|]. by apply IH.
Qed.

Lemma reader_runs st a ws rs i r r' : rs !! i = Some r → rtc (read_step st) r r' →
  rtc (storage_step cfg start) (MkStorage st ws a rs) (MkStorage st ws a (<[i := r']> rs)).
Proof.
  intros Hi H. revert rs Hi. induction H as [r|r r1 r2 Hstep _ IH]; intros rs Hi.
  { rewrite list_insert_id by done. apply rtc_refl. }
  eapply rtc_l; [by apply (by_reader _ _ (MkStorage st ws a rs) i r r1)|]. cbn.
  rewrite <-(list_insert_insert_eq rs i r2 r1). apply IH.
  by eapply list_lookup_insert_eq, lookup_lt_Some.
Qed.
End undisturbed.
