(* ===== verification/Linearizability.v ===== *)
(** Atomicity of the storage under concurrent use, on top of [ConcurrentStorage].

    A read looks at the two tiers at two times (persistence-plugin/src/service.rs,
    [read_block]) while calls commit and the archiver moves blocks
    (cold_storage/archiver.rs).  Here: a read returns what the store held at one moment
    between its beginning and its end, and when every number is written once, the store
    is at every moment the finite map of the blocks whose calls have committed. *)
From S2P Require Import Prelude Config Database Block StateManager HotTier ColdStorage.
From S2P Require Import PersistenceService Archiver Persistence ConcurrentWrites.
From S2P Require Import ConcurrentStorage.

(** The map that the committed calls make of [m], in the order of the calls. *)
Definition committed `{RocksDB, Codec} (m : gmap Z bytes) (ws : list Writer) : gmap Z bytes :=
  foldl (λ m w, match w with
                | Committed b =>
                    match get_block_number b with
                    | Ok n => <[n := encode_to_vec b]> m
                    | Err _ => m
                    end
                | _ => m
                end) m ws.

Section linearization.
Context {RDB : RocksDB} {LAWS : RocksDBLaws} {CODEC : Codec} {CLAWS : CodecLaws}.
Context (cfg : PersistenceServiceConfig) (size_ok : 1 ≤ archive_batch_size cfg ≤ 4294967296).
Context (start : Z) (st0 : Tiers) (blocks : list Block).
Context (blocks_ok : Forall (λ b, ∃ n, storable b n) blocks).
Implicit Types (s : Storage) (db : DB) (ws : list Writer).

Abbreviation step := (storage_step cfg start).
Abbreviation inv := (storage_inv cfg st0 blocks).

(** ** The batch that is being archived stays hot *)
Definition batch_hot (st : Tiers) (a : Archiving) : Prop :=
  match a with
  | AIdle => True
  | AChecked e | ARead e _ | AWriting e _ _ | AWrote e _ | ALoaded e =>
      ∀ i, 0 ≤ i < archive_batch_size cfg → is_Some (hot st (u64_add e i))
  end.

Lemma batch_hot_grows st st' a : (∀ n, is_Some (hot st n) → is_Some (hot st' n)) →
  batch_hot st a → batch_hot st' a.
Proof. intros H. destruct a; cbn; eauto. Qed.

Lemma archive_step_batch_hot st a st' a' : db_ok (t_db st) →
  archive_step cfg (st, a) (st', a') → batch_hot st a → batch_hot st' a'.
Proof.
  intros Hdb Hstep. inversion Hstep; subst; cbn; try done. intros _.
  destruct (is_batch_complete_ok (t_db st') eh (archive_batch_size cfg) Hdb ltac:(lia))
    as (b & Hb & Hiff). apply Hiff. congruence.
Qed.

(** A number that is not hot is not in the batch. *)
Lemma not_hot_not_batched src src' st eh a n : archiver_inv cfg src st eh a → batch_hot st a →
  hot st n = None → (∀ m c, m ≠ n → src m c → src' m c) → archiver_inv cfg src' st eh a.
Proof.
  intros [Hdb Hw Hm Hi Ha] Hb Hno Hsrc.
  assert (∀ bs zs, (∀ i, 0 ≤ i < archive_batch_size cfg → is_Some (hot st (u64_add eh i))) →
    batch_at cfg src eh bs zs → batch_at cfg src' eh bs zs) as Hbatch.
  { intros bs zs Hall (Har & Hlen & Hs). split_and!; [done|done|]. intros j b Hj.
    apply Hsrc; [|by apply Hs]. intros <-. apply lookup_lt_Some in Hj.
    pose proof Har as (_ & ? & ? & _).
    destruct (Hall (Z.of_nat j) ltac:(lia)) as [v Hv].
    rewrite u64_add_small in Hv by u64_lia. congruence. }
  constructor; try done. destruct a; cbn in *; try done; naive_solver.
Qed.

(** ** What the store held during a call *)

(** At some moment between [s1] and [s] a read at one go would have returned [o]. *)
Definition held s1 s (n : Z) (o : option bytes) : Prop :=
  ∃ t, rtc step s1 t ∧ rtc step t s ∧ tiers_read_block (s_tiers t) n = Ok o.

Lemma held_now s1 s n o : rtc step s1 s → tiers_read_block (s_tiers s) n = Ok o → held s1 s n o.
Proof. intros ? ?. by exists s. Qed.
Lemma held_later s1 s s' n o : step s s' → held s1 s n o → held s1 s' n o.
Proof. intros Hs (t & ? & ? & ?). exists t. split_and!; [done| |done]. by eapply rtc_r. Qed.

(** The contents the archiver may bring to the cold tier under [n]. *)
Definition held_source s1 s (n m : Z) (c : bytes) : Prop := m = n → held s1 s n (Some c).

Lemma view_hot st n c : hot_read_block (t_db st) n = Ok (Some c) →
  tiers_read_block st n = Ok (Some c).
Proof. unfold tiers_read_block. by intros ->. Qed.
Lemma view_cold st n o : hot_read_block (t_db st) n = Ok None → cold st n = Ok o →
  tiers_read_block st n = Ok o.
Proof. unfold tiers_read_block, cold. intros -> E. cbn. rewrite E. by destruct o. Qed.

(** A call of [read_block] on its way: once past the hot tier, what the cold tier holds
    was the answer at some moment since the beginning, and the archiver will bring
    nothing else. *)
Definition on_the_way s1 s (n : Z) (r : Reader) : Prop :=
  match r with
  | RNew k => k = n
  | RMissed k =>
      k = n ∧ (∃ eh, archiver_inv cfg (held_source s1 s n) (s_tiers s) eh (s_archiver s)) ∧
      ∃ o, cold (s_tiers s) n = Ok o ∧ held s1 s n o
  | RDone k res => k = n ∧ ∃ o, res = Ok o ∧ held s1 s n o
  end.

(** A step of another party that changes the cold tier only as the archiver may. *)
Lemma on_the_way_frame s1 s s' n r : step s s' → is_u64 n →
  (∀ eh, archiver_inv cfg (held_source s1 s' n) (s_tiers s) eh (s_archiver s) →
     (∃ eh', archiver_inv cfg (held_source s1 s' n) (s_tiers s') eh' (s_archiver s')) ∧
     (cold (s_tiers s') n = cold (s_tiers s) n ∨
      cold (s_tiers s) n = Ok None ∧ cold_ok (held_source s1 s' n) (s_tiers s') n)) →
  on_the_way s1 s n r → on_the_way s1 s' n r.
Proof.
  intros Hstep Hn Hfr. destruct r as [k|k|k res]; cbn; [done| |].
  - intros (-> & (eh & Ha) & o & Ho & Hh).
    assert (∀ m c, held_source s1 s n m c → held_source s1 s' n m c) as Hmono.
    { intros m c H E. by eapply held_later, H. }
    destruct (Hfr eh) as [Ha' Hc]; [by eapply archiver_inv_mono|].
    split_and!; [done|done|].
    destruct Hc as [E|[E [E'|(c & E' & Hc)]]].
    + exists o. split; [congruence|by eapply held_later].
    + exists o. split; [congruence|by eapply held_later].
    + exists (Some c). split; [done|]. by apply Hc.
  - intros (-> & o & -> & Hh). split; [done|]. exists o. split; [done|]. by eapply held_later.
Qed.

Lemma writer_step_on_the_way s1 s db ws n r : inv s → is_u64 n →
  write_step start (t_db (s_tiers s), s_writers s) (db, ws) →
  on_the_way s1 s n r →
  on_the_way s1 (MkStorage (with_db (s_tiers s) db) ws (s_archiver s) (s_readers s)) n r.
Proof.
  intros Hinv Hn Hw. apply on_the_way_frame; [by apply by_writer|done|]. cbn.
  generalize (held_source s1 (MkStorage (with_db (s_tiers s) db) ws (s_archiver s) (s_readers s)) n).
  intros src eh Ha. split; [|by left].
  inversion Hw; subst; rewrite ?with_db_same; try by exists eh.
  assert (Staged b batch ∈ s_writers s) as Hin by (by eapply list_elem_of_lookup_2).
  pose proof (si_staged _ _ _ _ Hinv _ _ Hin) as Hs.
  rewrite Forall_forall in blocks_ok.
  destruct (blocks_ok b (si_blocks _ _ _ _ Hinv _ Hin)) as (k & Hk).
  exists eh. by eapply archiver_inv_commit.
Qed.

Lemma archiver_step_on_the_way s1 s st a n r : rtc step s1 s → inv s → is_u64 n →
  archive_step cfg (s_tiers s, s_archiver s) (st, a) →
  on_the_way s1 s n r → on_the_way s1 (MkStorage st (s_writers s) a (s_readers s)) n r.
Proof.
  intros Hrun Hinv Hn Hstep. apply on_the_way_frame; [by apply by_archiver|done|]. cbn.
  intros eh Ha.
  edestruct (archive_step_inv cfg size_ok) as (Ha' & Hcold & _); [|exact Ha|exact Hstep|].
  - intros m c Hu Hh ->. eapply held_later; [by apply by_archiver|].
    apply held_now; [done|]. apply view_hot, hot_read_block_found; [|done].
    by destruct (si_archiver _ _ _ _ Hinv) as [? []].
  - split; [done|]. by apply Hcold.
Qed.

Lemma reader_step_on_the_way s1 s i r r' n : rtc step s1 s → inv s →
  batch_hot (s_tiers s) (s_archiver s) → s_readers s !! i = Some r →
  read_step (s_tiers s) r r' → on_the_way s1 s n r →
  on_the_way s1 (MkStorage (s_tiers s) (s_writers s) (s_archiver s) (<[i := r']> (s_readers s))) n r'.
Proof.
  intros Hrun Hinv Hbh Hi Hr Hway. pose proof (by_reader cfg start s i r r' Hi Hr) as Hstep.
  assert (r ∈ s_readers s) as Hin by (by eapply list_elem_of_lookup_2).
  pose proof (si_numbers _ _ _ _ Hinv _ Hin) as Hu.
  destruct (si_archiver _ _ _ _ Hinv) as [eh Ha]. pose proof Ha as [Hdb Hw _ _ _].
  destruct Hr as [k c E|k e E|k E|k]; cbn in *.
  - subst k. split; [done|]. exists (Some c). split; [done|].
    eapply held_later, held_now; [done..|by apply view_hot].
  - exfalso. destruct (hot_read_total (s_tiers s) k Hdb Hw Hu) as [[? _]|(c & ? & _)]; congruence.
  - subst k. destruct (hot_read_total (s_tiers s) n Hdb Hw Hu) as [[_ Hno]|(c & ? & _)]; [|congruence].
    split_and!; [done| |].
    + exists eh. eapply (not_hot_not_batched _ _ _ _ _ n); [done..|]. by intros m c Hm _ ->.
    + destruct (si_cold _ _ _ _ Hinv n Hu) as [Ec|(c & Ec & _)]; [by left|..].
      all: eexists; split; [exact Ec|]; eapply held_later, held_now; [done..|by apply view_cold].
  - destruct Hway as (-> & _ & o & Ho & Hh). split; [done|]. exists o. split; [exact Ho|].
    by eapply held_later.
Qed.

(** The three kinds of step together, for the call at position [i]. *)
Lemma step_on_the_way s1 s s' i r n : rtc step s1 s → inv s →
  batch_hot (s_tiers s) (s_archiver s) → step s s' → s_readers s !! i = Some r → is_u64 n →
  on_the_way s1 s n r →
  inv s' ∧ batch_hot (s_tiers s') (s_archiver s') ∧
  ∃ r', s_readers s' !! i = Some r' ∧ on_the_way s1 s' n r'.
Proof.
  intros Hrun Hinv Hbh Hstep Hi Hn Hway.
  destruct (storage_step_inv cfg size_ok start st0 blocks blocks_ok s s' i r Hinv Hstep Hi)
    as [Hinv' _]. split; [done|].
  destruct (si_archiver _ _ _ _ Hinv) as [eh Ha].
  destruct Hstep as [s db ws Hw|s st a Hs|s j q q' Hq Hr]; cbn.
  - split; [|exists r; split; [done|by apply writer_step_on_the_way]].
    eapply batch_hot_grows; [|done]. intros m Hm. unfold hot in *. cbn.
    inversion Hw; subst; try done.
    assert (Staged b batch ∈ s_writers s) as Hin by (by eapply list_elem_of_lookup_2).
    rewrite Forall_forall in blocks_ok.
    destruct (blocks_ok b (si_blocks _ _ _ _ Hinv _ Hin)) as (k & Hk).
    edestruct (archiver_inv_commit cfg) as (_ & v & _ & ->); [exact Ha| |exact Hk|done|].
    + by eapply (si_staged _ _ _ _ Hinv).
    + apply lookup_insert_is_Some'. auto.
  - split; [by eapply archive_step_batch_hot; [apply Ha|..]|].
    exists r. split; [done|]. by apply archiver_step_on_the_way.
  - split; [done|]. destruct (decide (j = i)) as [->|Hne].
    + assert (q = r) as -> by congruence. exists q'.
      split; [by eapply list_lookup_insert_eq, lookup_lt_Some|].
      by eapply reader_step_on_the_way.
    + exists r. rewrite list_lookup_insert_ne by done. split; [done|].
      eapply on_the_way_frame; [by eapply by_reader|done| |done]. cbn. intros eh' ?.
      split; [by exists eh'|by left].
Qed.

Lemma run_on_the_way s1 s2 i n : inv s1 → batch_hot (s_tiers s1) (s_archiver s1) →
  s_readers s1 !! i = Some (RNew n) → rtc step s1 s2 →
  inv s2 ∧ batch_hot (s_tiers s2) (s_archiver s2) ∧
  ∃ r, s_readers s2 !! i = Some r ∧ on_the_way s1 s2 n r.
Proof.
  intros Hinv Hbh Hi Hrun.
  assert (is_u64 n) as Hn
    by (apply (si_numbers _ _ _ _ Hinv (RNew n)); by eapply list_elem_of_lookup_2).
  revert s2 Hrun. apply rtc_ind_r; [split_and!; [done|done|by exists (RNew n)]|].
  intros s s' Hrun Hstep (? & ? & r & ? & ?). by eapply step_on_the_way.
Qed.

(** ** The store as a map

    Under the assumption that no two calls write the same number, and none a number
    that is already stored. *)
Definition block_numbers : list (Result Error Z) := get_block_number <$> blocks.

Lemma step_blocks s s' : step s s' →
  writer_block <$> s_writers s' = writer_block <$> s_writers s.
Proof.
  intros Hstep. destruct Hstep as [s db ws Hw|s st a _|s i r r' _ _]; cbn; [|done..].
  inversion Hw; subst; rewrite list_fmap_insert; cbn; apply list_insert_id;
    rewrite list_lookup_fmap; by match goal with H : _ !! _ = Some _ |- _ => rewrite H end.
Qed.

Lemma run_blocks s s' : rtc step s s' →
  writer_block <$> s_writers s' = writer_block <$> s_writers s.
Proof. induction 1 as [|s s1 s2 Hs _ IH]; [done|]. rewrite IH. by apply step_blocks. Qed.

(** What the committed calls have written can be found. *)
Definition all_found s : Prop :=
  ∀ n c, is_u64 n → source st0 (s_writers s) n c → found (s_tiers s) n.

Lemma writer_step_found s db ws : inv s → all_found s →
  write_step start (t_db (s_tiers s), s_writers s) (db, ws) →
  all_found (MkStorage (with_db (s_tiers s) db) ws (s_archiver s) (s_readers s)).
Proof.
  intros Hinv Hall Hw n c Hn Hsrc. cbn in *.
  destruct (write_step_inv cfg start st0 blocks blocks_ok s db ws Hinv Hw) as [_ Hk].
  assert (source st0 (s_writers s) n c → found (with_db (s_tiers s) db) n) as Hold
    by (intros; apply Hk; [done|]; by eapply Hall).
  destruct Hsrc as [(b & Hb & Hbn & ->)|?]; [|apply Hold; by right].
  assert (Committed b ∈ s_writers s → found (with_db (s_tiers s) db) n) as Hold'
    by (intros; apply Hold; left; by exists b).
  inversion Hw; subst; apply elem_of_set_writer in Hb as [E|?]; try done; try by apply Hold'.
  injection E as <-. left.
  assert (Staged b batch ∈ s_writers s) as Hin by (by eapply list_elem_of_lookup_2).
  rewrite Forall_forall in blocks_ok.
  destruct (blocks_ok b (si_blocks _ _ _ _ Hinv _ Hin)) as (k & Hsb).
  assert (k = n) as -> by (pose proof Hsb as (_ & _ & ? & _); congruence).
  destruct (si_archiver _ _ _ _ Hinv) as [eh Ha].
  edestruct (archiver_inv_commit cfg) as (_ & v & _ & E); [exact Ha| |exact Hsb|done|].
  { by eapply (si_staged _ _ _ _ Hinv). }
  unfold hot. cbn. rewrite E, lookup_insert_eq. eauto.
Qed.

Lemma run_all_found s s' : inv s → all_found s → rtc step s s' → inv s' ∧ all_found s'.
Proof.
  intros Hinv Hall Hrun. induction Hrun as [s|s s1 s2 Hstep _ IH]; [done|].
  destruct Hstep as [s db ws Hw|s st a Ha|s i r r' Hi Hr]; apply IH.
  - by apply (write_step_inv cfg start st0 blocks blocks_ok).
  - by apply writer_step_found.
  - by eapply (archiver_step_inv cfg size_ok st0 blocks).
  - intros n c Hn Hsrc. eapply (archiver_step_inv cfg size_ok st0 blocks) in Ha as [_ Hk]; [|done].
    apply Hk; [done|]. by eapply Hall.
  - by eapply (read_step_inv cfg st0 blocks).
  - exact Hall.
Qed.

(** The store at a moment, by what may be returned. *)
Lemma view_source s n : inv s → is_u64 n →
  ∃ o, tiers_read_block (s_tiers s) n = Ok o ∧
    (∀ c, o = Some c → source st0 (s_writers s) n c) ∧ (found (s_tiers s) n → is_Some o).
Proof.
  intros Hinv Hn. destruct (si_archiver _ _ _ _ Hinv) as [eh [Hdb Hw _ _ _]].
  destruct (hot_read_total (s_tiers s) n Hdb Hw Hn) as [[Hr Hno]|(c & Hr & Hh)].
  - destruct (si_cold _ _ _ _ Hinv n Hn) as [Ec|(c & Ec & Hc)]; [by left|..].
    + exists None. split_and!; [by apply view_cold|done|].
      intros [[v Hv]|[c Hc]]; congruence.
    + exists (Some c). split_and!; [by apply view_cold|by intros ? [= <-]|by eauto].
  - exists (Some c). split_and!; [by apply view_hot| |by eauto].
    intros ? [= <-]. by apply (si_hot _ _ _ _ Hinv).
Qed.

Lemma committed_cons (m : gmap Z bytes) w ws :
  committed m (w :: ws) = committed (committed m [w]) ws.
Proof. reflexivity. Qed.

Lemma committed_lookup (m : gmap Z bytes) ws n c :
  NoDup (get_block_number <$> (writer_block <$> ws)) →
  (∀ w k, w ∈ ws → get_block_number (writer_block w) = Ok k → m !! k = None) →
  committed m ws !! n = Some c ↔
  m !! n = Some c ∨ ∃ b, Committed b ∈ ws ∧ get_block_number b = Ok n ∧ c = encode_to_vec b.
Proof.
  revert m. induction ws as [|w ws IH]; intros m Hnd Hfr.
  { cbn. split; [by left|]. intros [?|(b & ?%elem_of_nil & _)]; done. }
  rewrite committed_cons. cbn [fmap list_fmap] in Hnd. apply NoDup_cons in Hnd as [Hw Hnd].
  assert (∀ b k, w = Committed b → get_block_number b = Ok k →
    m !! k = None ∧ ∀ w' , w' ∈ ws → get_block_number (writer_block w') ≠ Ok k) as Hhead.
  { intros b k -> Hk. split; [by apply (Hfr (Committed b)); [left|]|].
    intros w' Hw' E. apply Hw. cbn. rewrite Hk, <-E. by do 2 apply list_elem_of_fmap_2. }
  rewrite IH; [|done|].
  - assert (committed m [w] !! n = Some c ↔ m !! n = Some c ∨
      ∃ b, w = Committed b ∧ get_block_number b = Ok n ∧ c = encode_to_vec b) as ->.
    { destruct w as [| |b|]; cbn; try (split; [by left|by intros [?|(? & ? & _)]]).
      destruct (get_block_number b) as [k|e] eqn:Ek.
      - destruct (Hhead b k eq_refl Ek) as [Hm _]. rewrite lookup_insert_Some. split.
        + intros [[-> <-]|[_ ?]]; [right; by exists b|by left].
        + intros [Hc|(b' & [= <-] & E & ->)]; [right; split; congruence|left; split; congruence].
      - split; [by left|]. intros [?|(b' & [= <-] & ? & _)]; congruence. }
    split.
    + intros [[?|(b & -> & ?)]|(b & ? & ?)]; [by left|right; exists b; split; [left|done]|].
      right. exists b. split; [by right|done].
    + intros [?|(b & [<-|?]%elem_of_cons & ?)]; [by do 2 left|left; right; by exists b|].
      right. by exists b.
  - intros w' k Hw' Hk. pose proof (Hfr w' k ltac:(by right) Hk) as Hm.
    destruct w as [| |b|]; cbn; try done.
    destruct (get_block_number b) as [k'|e] eqn:Ek; [|done].
    destruct (Hhead b k' eq_refl Ek) as [_ Hne].
    rewrite lookup_insert_ne; [done|]. intros ->. by eapply Hne.
Qed.

Lemma store_is_map (m : gmap Z bytes) s n : inv s → all_found s → is_u64 n → reads_as st0 m →
  writer_block <$> s_writers s = blocks → NoDup block_numbers →
  (∀ b k, b ∈ blocks → get_block_number b = Ok k → m !! k = None) →
  tiers_read_block (s_tiers s) n = Ok (committed m (s_writers s) !! n).
Proof.
  intros Hinv Hall Hn Hreads Hbl Hnd Hfr.
  assert (∀ c, committed m (s_writers s) !! n = Some c ↔ source st0 (s_writers s) n c) as Hsrc.
  { intros c. rewrite committed_lookup.
    - unfold source. rewrite (Hreads n Hn).
      split; (intros [?|?]; [right|left]); congruence || done.
    - by rewrite Hbl.
    - intros w k Hw. apply Hfr. rewrite <-Hbl. by apply list_elem_of_fmap_2. }
  destruct (view_source s n Hinv Hn) as (o & -> & Ho & Hf). f_equal. apply option_eq. intros c.
  rewrite Hsrc. split; [apply Ho|]. intros Hc.
  destruct (Hf (Hall n c Hn Hc)) as [c' ->]. f_equal.
  apply Hsrc in Hc. specialize (Ho c' eq_refl). apply Hsrc in Ho. congruence.
Qed.

(** ** From the start of the calls *)
Section runs.
Context (m : gmap Z bytes) (ns : list Z).
Context (inv0 : tiers_inv st0) (reads0 : reads_as st0 m) (settled0 : settled st0).
Context (ns_ok : Forall is_u64 ns).
Let s0 := MkStorage st0 (Pending <$> blocks) AIdle (RNew <$> ns).

Lemma start_inv : inv s0.
Proof. by eapply storage_inv_init. Qed.

Lemma start_found : all_found s0.
Proof.
  intros n c Hn [(b & (b' & ? & _)%list_elem_of_fmap & _)|Hc]; [done|]. cbn.
  eapply read_found; [|exact Hc]. by destruct inv0.
Qed.

Lemma concurrent_start s i n : rtc step s0 s → s_readers s !! i = Some (RNew n) →
  inv s ∧ batch_hot (s_tiers s) (s_archiver s).
Proof.
  intros Hrun Hi. assert (is_Some (s_readers s0 !! i)) as [r0 Hr0].
  { apply lookup_lt_is_Some_2. rewrite <-(storage_readers cfg start _ _ Hrun).
    by eapply lookup_lt_Some. }
  cbn in Hr0. rewrite list_lookup_fmap in Hr0. apply fmap_Some in Hr0 as (k & Hk & ->).
  destruct (run_on_the_way s0 s i k) as (? & ? & _); [apply start_inv|done| |done|done].
  cbn. by rewrite list_lookup_fmap, Hk.
Qed.

Lemma concurrent_store_is_map s n : rtc step s0 s → NoDup block_numbers →
  (∀ b k, b ∈ blocks → get_block_number b = Ok k → m !! k = None) → is_u64 n →
  tiers_read_block (s_tiers s) n = Ok (committed m (s_writers s) !! n).
Proof.
  intros Hrun Hnd Hfr Hn.
  destruct (run_all_found s0 s start_inv start_found Hrun) as [Hinv Hall].
  apply store_is_map; try done. rewrite (run_blocks _ _ Hrun). cbn.
  rewrite <-list_fmap_compose. apply list_fmap_id.
Qed.
End runs.
End linearization.
