(* ===== verification/Recovery.v ===== *)
(** Restarts and crashes of the persistence plugin.

    A process that stops, at whatever file-system operation of the archiver, leaves
    the store and the directory; [initialize] scans the directory and rebuilds the
    index table.  The histories of the service, on which the storage theorems are
    stated, interleave writes, archival cycles and restarts. *)
From S2P Require Import Prelude Config Database Block StateManager HotTier ColdStorage.
From S2P Require Import PersistenceService Core Archiver Persistence.

(** [read_dir] yields exactly the files of the directory, in any order. *)
Definition lists (listing : list fname) (fs : FS) : Prop :=
  ∀ f, f ∈ listing ↔ is_Some (files fs !! f).

(** Entry [k] of the index table is the index file of a complete archive. *)
Definition indexed_at (fs : FS) (k : Z) (mi : MappedIndex) : Prop :=
  start_block mi = k ∧ 0 ≤ k < 10 ^ 10 ∧ 0 ≤ end_block mi < 10 ^ 10 ∧
  data_path mi = data_filename k (end_block mi) ∧
  files fs !! index_filename k (end_block mi) = Some (mmap mi) ∧
  is_Some (files fs !! data_path mi).

(** The table holds the index files of the directory and nothing else. *)
Definition indexed (fs : FS) (idx : Indices) : Prop :=
  (∀ k mi, idx !! k = Some mi → indexed_at fs k mi) ∧
  (∀ f, is_Some (files fs !! f) → extension f = Some (lit "rbi") →
     ∃ k mi, idx !! k = Some mi ∧ f = index_filename k (end_block mi)) ∧
  (dir_exists fs = false → idx = ∅).

(** ** The scan rebuilds the table *)
Lemma load_indexed fs acc k mi : indexed_at fs k mi →
  load_index_file fs acc (index_filename k (end_block mi)) = Ok (<[k := mi]> acc).
Proof.
  intros (Hs & Hk & He & Hd & Hi & [c Hc]). unfold load_index_file.
  rewrite parse_index_filename, decide_True by lia. cbn.
  rewrite index_with_rba, <-Hd, Hc, Hi, <-Hs. by destruct mi.
Qed.

Lemma scan_files_indexed fs idx listing acc :
  indexed fs idx → acc ⊆ idx → Forall (λ f, is_Some (files fs !! f)) listing →
  acc ⊆ scan_files fs listing acc ∧ scan_files fs listing acc ⊆ idx ∧
  ∀ k mi, idx !! k = Some mi → index_filename k (end_block mi) ∈ listing →
    scan_files fs listing acc !! k = Some mi.
Proof.
  intros Hidx Hacc Hl. revert acc Hacc. pose proof Hidx as (He & Hf & _).
  induction Hl as [|f listing Hfile _ IH]; intros acc Hacc; cbn [scan_files].
  { split_and!; [done|done|]. by intros k mi _ ?%elem_of_nil. }
  case_decide as Hext.
  - destruct (Hf f Hfile Hext) as (k0 & mi0 & Hk0 & ->). rewrite (load_indexed fs acc k0 mi0) by auto.
    assert (<[k0 := mi0]> acc ⊆ idx) as Hacc' by (by apply insert_subseteq_l).
    destruct (IH _ Hacc') as (H1 & H2 & H3). split_and!; [|done|].
    + etrans; [|exact H1]. apply map_subseteq_spec. intros k mi Hk.
      apply lookup_insert_Some. destruct (decide (k0 = k)) as [->|]; [left|by right].
      split; [done|]. pose proof (lookup_weaken _ _ _ _ Hk Hacc). congruence.
    + intros k mi Hk [E|Hin]%elem_of_cons; [|by apply H3].
      destruct (He k mi Hk) as (_ & ? & ? & _), (He k0 mi0 Hk0) as (_ & ? & ? & _).
      apply index_filename_inj in E as [-> _]; try lia.
      eapply lookup_weaken; [|exact H1]. rewrite lookup_insert_eq. congruence.
  - destruct (IH _ Hacc) as (H1 & H2 & H3). split_and!; [done|done|].
    intros k mi Hk [<-|Hin]%elem_of_cons; [|by apply H3]. by rewrite index_extension in Hext.
Qed.

Lemma scan_indexed fs idx listing :
  indexed fs idx → lists listing fs → scan_and_build_index fs listing ∅ = idx.
Proof.
  intros Hidx Hl. unfold scan_and_build_index.
  destruct (dir_exists fs) eqn:Ed; [|symmetry; by apply Hidx].
  destruct (scan_files_indexed fs idx listing ∅ Hidx) as (_ & H2 & H3).
  { apply map_empty_subseteq. }
  { apply Forall_forall. intros f Hf. by apply Hl. }
  apply (anti_symm (⊆)); [done|]. apply map_subseteq_spec. intros k mi Hk.
  apply H3; [done|]. apply Hl. destruct Hidx as (He & _).
  destruct (He k mi Hk) as (_ & _ & _ & _ & -> & _). by eexists.
Qed.

(** ** The directory after a run of the writer, complete or not *)
Section cut.
Context (fs fs' : FS) (eh e : Z) (cd ci : bytes).
Context (Heh : 0 ≤ eh < 10 ^ 10) (Hend : 0 ≤ e < 10 ^ 10).
Context (Hcut : cut_files fs fs' (data_filename eh e) (index_filename eh e) cd ci).

Lemma index_filename_tmp a b f : index_filename a b ≠ tmp_filename f.
Proof. intros E. apply (tmp_extension f). rewrite <-E. apply index_extension. Qed.

Lemma cut_indexed_at k mi : k ≠ eh → indexed_at fs k mi → indexed_at fs' k mi.
Proof.
  intros Hne (Hs & Hk & He & Hd & Hi & Hf). destruct Hcut as (_ & _ & Hframe).
  unfold indexed_at. rewrite Hd in *. rewrite !Hframe; [done|..].
  - intros [-> _]%data_filename_inj; lia.
  - apply data_filename_index.
  - apply data_filename_tmp.
  - apply data_filename_tmp.
  - intros E. symmetry in E. by apply data_filename_index in E.
  - intros [-> _]%index_filename_inj; lia.
  - apply index_filename_tmp.
  - apply index_filename_tmp.
Qed.

Lemma cut_index_files f :
  is_Some (files fs' !! f) → extension f = Some (lit "rbi") → f ≠ index_filename eh e →
  is_Some (files fs !! f).
Proof.
  intros Hf Hext Hne. destruct Hcut as (_ & _ & Hframe). rewrite Hframe in Hf; [done|..|done| |].
  - intros ->. by rewrite data_extension in Hext.
  - intros ->. by apply tmp_extension in Hext.
  - intros ->. by apply tmp_extension in Hext.
Qed.

Lemma cut_indexed_old idx :
  indexed fs idx → (∀ mi, idx !! eh = Some mi → end_block mi = e) →
  (dir_exists fs = true → dir_exists fs' = true) →
  files fs' !! index_filename eh e = files fs !! index_filename eh e → indexed fs' idx.
Proof.
  intros (He & Hf & Hdir) Hpend Hd Hsame. split_and!.
  - intros k mi Hk. destruct (decide (k = eh)) as [->|]; [|by apply cut_indexed_at; auto].
    destruct (He _ _ Hk) as (Hs & Hr & Hr' & Hp & Hi & Hdata).
    rewrite Hp in Hdata. rewrite (Hpend _ Hk) in Hi, Hdata. unfold indexed_at. rewrite Hp, (Hpend _ Hk).
    split_and!; try done; [lia..|by rewrite Hsame|].
    destruct Hcut as (_ & [->| ->] & _); [done|by eexists].
  - intros f Hfile Hext. apply Hf; [|done].
    destruct (decide (f = index_filename eh e)) as [->|]; [by rewrite <-Hsame|].
    by apply cut_index_files.
  - intros Hno. apply Hdir. by destruct (dir_exists fs); [rewrite Hd in Hno|].
Qed.

Lemma cut_indexed_new idx :
  indexed fs idx → (∀ mi, idx !! eh = Some mi → end_block mi = e) → dir_exists fs' = true →
  files fs' !! index_filename eh e = Some ci → files fs' !! data_filename eh e = Some cd →
  indexed fs' (<[eh := MkMapped ci eh e (data_filename eh e)]> idx).
Proof.
  intros (He & Hf & _) Hpend Hd Hi Hdata. split_and!.
  - intros k mi [[<- <-]|[Hne Hk]]%lookup_insert_Some; [|by apply cut_indexed_at; auto].
    unfold indexed_at. cbn. rewrite Hdata. by split_and!; eauto; lia.
  - intros f Hfile Hext. destruct (decide (f = index_filename eh e)) as [->|Hne].
    { exists eh. eexists. by rewrite lookup_insert_eq. }
    destruct (Hf f) as (k & mi & Hk & ->); [by apply cut_index_files|done|].
    exists k, mi. split; [|done]. rewrite lookup_insert_ne; [done|].
    intros <-. by rewrite (Hpend _ Hk) in Hne.
  - by rewrite Hd.
Qed.
End cut.

Section recovery.
Context {RDB : RocksDB} {LAWS : RocksDBLaws} {CODEC : Codec} {CLAWS : CodecLaws}.
Implicit Types (st : Tiers) (db : DB).

(** The table mirrors the directory, and an archive that starts at the first hot
    block covers exactly the next batch. *)
Definition dir_inv (size : Z) st : Prop :=
  indexed (t_fs st) (t_indices st) ∧
  ∀ eh mi, meta_is (t_db st) EARLIEST_HOT_KEY (Some eh) → t_indices st !! eh = Some mi →
    end_block mi = eh + size - 1.

(** ** What the writer of one batch leaves in the directory *)
Section batch.
Context (fs : FS) (idx : Indices) (eh : Z) (bs : list Block) (zs : list bytes).
Context (Ha : archivable bs eh zs) (Hidx : indexed fs idx).
Context (Hpend : ∀ mi, idx !! eh = Some mi → end_block mi = last_of bs eh).

Lemma batch_bounds : 0 ≤ eh < 10 ^ 10 ∧ 0 ≤ last_of bs eh < 10 ^ 10.
Proof using Ha.
  clear Hpend Hidx. destruct Ha as (Hne & Heh & Hmax & _). unfold last_of.
  assert (0 < Z.of_nat (length bs)) by (destruct bs; cbn; [done|lia]). u64_lia.
Qed.

Lemma batch_cut (j : nat) :
  let fs' := fs_exec fs (take j (write_archive bs).1) in
  (indexed fs' idx ∨ indexed fs' (<[eh := archive_entry bs eh zs]> idx)) ∧
  ((j < length (write_archive bs).1)%nat → indexed fs' idx).
Proof using Ha Hidx Hpend.
  intros fs'. destruct batch_bounds as [Hb1 Hb2].
  destruct (archivable_ends bs eh zs Ha) as (Hn & Hz & Hhd & Hls & Ht).
  destruct (write_archive_cut bs _ zs eh (last_of bs eh) fs j Hn Hz Hhd Hls Ht) as [Hcut Hsame].
  fold fs' in Hcut, Hsame.
  assert (dir_exists fs = true → dir_exists fs' = true) as Hd by apply fs_exec_dir.
  assert (files fs' !! index_filename eh (last_of bs eh)
          = files fs !! index_filename eh (last_of bs eh) → indexed fs' idx) as Hold
    by (intros; by apply (cut_indexed_old fs fs' eh (last_of bs eh) _ _ Hb1 Hb2 Hcut)).
  split; [|auto]. pose proof Hcut as ([E|(E & Hdata & Hdir)] & _); [left; auto|right].
  by apply (cut_indexed_new fs fs' eh (last_of bs eh) _ _ Hb1 Hb2 Hcut).
Qed.

Lemma batch_done :
  indexed (fs_exec fs (write_archive bs).1) (<[eh := archive_entry bs eh zs]> idx).
Proof using Ha Hidx Hpend.
  destruct batch_bounds as [Hb1 Hb2].
  destruct (archivable_ends bs eh zs Ha) as (Hn & Hz & Hhd & Hls & Ht).
  destruct (write_archive_ok bs _ zs eh (last_of bs eh) fs Hn Hz Hhd Hls Ht)
    as (fs' & E & Hi & Hd & Hdir & Hframe). unfold io_run in E. injection E as -> _.
  apply (cut_indexed_new fs _ eh (last_of bs eh) (concat zs) _ Hb1 Hb2); [|done..].
  unfold cut_files. split_and!; [by right|by right|done].
Qed.
End batch.

(** ** Writes and archival turns keep the table in step with the directory *)
Lemma write_dir cfg start m st b n p st' r :
  svc_inv start m st p → storable b n → is_u64 start →
  tiers_write_block cfg start st b = (st', r) →
  dir_inv (archive_batch_size cfg) st → dir_inv (archive_batch_size cfg) st'.
Proof.
  intros Hinv Hs Hst E [Hidx Hpend].
  destruct (write_inv cfg start m st b n p Hinv Hs Hst)
    as (st1 & r1 & p' & E1 & (_ & Hp' & _) & Hsp & _). rewrite E in E1. injection E1 as <- <-.
  unfold tiers_write_block in E. destruct (write_block _ _ _ _) as [db' r'].
  injection E as <- _. split; [done|]. cbn in *. intros eh mi Hm Hl.
  assert (p_earliest_hot p' = Some eh) as Eh by (eapply meta_is_inj; [apply Hp'|done]).
  destruct Hinv as ((_ & _ & o & Ho & Hcold) & Hp & _).
  assert (o = p_earliest_hot p) as -> by (eapply meta_is_inj; [done|apply Hp]).
  destruct Hsp as (_ & _ & Hh & _). rewrite Hh in Eh.
  destruct (p_earliest_hot p) as [eh0|] eqn:E0; cbn in Eh.
  - injection Eh as ->. by apply Hpend.
  - by rewrite Hcold, lookup_empty in Hl.
Qed.

Lemma archive_batch_dir st fault eh size st' r :
  tiers_inv st → is_u64 eh → cold_below st eh → 1 ≤ size ≤ 4294967296 →
  meta_is (t_db st) EARLIEST_HOT_KEY (Some eh) →
  is_batch_complete (t_db st) eh size = Ok true →
  archive_batch st fault eh size = (st', r) →
  dir_inv size st → dir_inv size st'.
Proof.
  intros Hinv Heh Hb Hsz Hm Hc E [Hidx Hpend]. specialize (Hpend eh) as Hp.
  destruct (archive_batch_cases st fault eh size st' r) as
    [(bs & zs & -> & Hlen & Ha & _ & (_ & He & Hi & _) & Hfs)
    |(_ & -> & Ed & Ei & _ & bs & zs & j & Ha & Hlen & Hj & Hfs)]; [done..| |];
    (assert (∀ mi, t_indices st !! eh = Some mi → end_block mi = last_of bs eh) as Hpe
      by (intros mi Hl; unfold last_of; rewrite Hlen; auto)).
  - split; [rewrite Hfs, Hi; by apply batch_done|].
    pose proof Ha as (_ & _ & Hmax & _). intros eh' mi Hm'.
    assert (Some eh' = Some (eh + size)) as [= ->].
    { eapply meta_is_inj; [exact Hm'|]. split; [|intros ? [= <-]; u64_lia].
      rewrite He, retire_meta, lookup_insert_eq, u64_add_small, Hlen by u64_lia. done. }
    rewrite Hi, lookup_insert_ne by lia. intros Hl. destruct (Hb _ _ Hl) as (_ & ? & _ & ?). lia.
  - split; [rewrite Hfs, Ei; by apply (batch_cut _ _ _ _ _ Ha Hidx Hpe)|].
    by rewrite Ed, Ei.
Qed.

Lemma step_dir cfg st fault st' o :
  tiers_inv st → 1 ≤ archive_batch_size cfg ≤ 4294967296 →
  cycle_step cfg st fault = (st', o) →
  dir_inv (archive_batch_size cfg) st → dir_inv (archive_batch_size cfg) st'.
Proof.
  intros Hinv Hsz. pose proof Hinv as (Hdb & _ & oh & Hm & Hb). unfold cycle_step.
  unfold get_earliest_hot. rewrite (get_u64_opt_ok _ _ _ Hdb Hm).
  destruct oh as [eh|]; [|by intros [= <- _]].
  destruct (get_latest_persisted (t_db st)) as [l|]; [|by intros [= <- _]].
  destruct (_ <=? _); [by intros [= <- _]|].
  destruct (is_batch_complete (t_db st) eh (archive_batch_size cfg)) as [[]|] eqn:Ec.
  - destruct (archive_batch st fault eh (archive_batch_size cfg)) as [st1 r1] eqn:Ea.
    pose proof (archive_batch_dir st fault eh (archive_batch_size cfg) st1 r1 Hinv
      (proj2 Hm eh eq_refl) Hb Hsz Hm Ec Ea). by destruct r1; intros [= <- _].
  - unfold add_skipped_batch. rewrite need_cf_open by (apply Hdb || set_solver). cbn.
    unfold commit_batch. destruct (write (t_db st) _) as [db'|] eqn:Ew; intros [= <- _]; [|done].
    intros [Hidx Hpend]. split; [done|]. cbn. intros eh' mi Hm'. apply Hpend.
    apply write_sound with (cf := CF_METADATA) in Ew. unfold meta_is in *.
    rewrite Ew in Hm'. revert Hm'. by batch_simpl.
  - by intros [= <- _].
Qed.

(** ** Crashes

    The directory a process that stops leaves behind: its own, or that of an
    archiver stopped before, between or after the file-system operations of the
    batch it was writing, whose blocks it had not yet retired. *)
Definition crash_fs (size : Z) st (fs' : FS) : Prop :=
  fs' = t_fs st ∨
  ∃ eh blocks j, get_earliest_hot (t_db st) = Ok (Some eh) ∧
    is_batch_complete (t_db st) eh size = Ok true ∧
    read_block_batch (t_db st) eh size = Ok blocks ∧
    fs' = fs_exec (t_fs st) (take j (write_archive blocks).1).

(** A complete archive of the batch that is still hot changes no read. *)
Lemma pending_archive st eh bs zs size fs' :
  tiers_inv st → meta_is (t_db st) EARLIEST_HOT_KEY (Some eh) → cold_below st eh →
  Z.of_nat (length bs) = size → archivable bs eh zs →
  (∀ j b, bs !! j = Some b → hot_has (t_db st) (eh + Z.of_nat j) (encode_to_vec b)) →
  indexed fs' (<[eh := archive_entry bs eh zs]> (t_indices st)) →
  let st' := MkTiers (t_db st) fs' (<[eh := archive_entry bs eh zs]> (t_indices st)) in
  tiers_inv st' ∧ dir_inv size st' ∧ cold_below st' eh.
Proof.
  intros (Hdb & Hw & _) Hm Hb Hlen (Hne & Heh & Hmax & _) Hhot Hidx st'.
  assert (0 < size) by (destruct bs; cbn in *; [done|lia]).
  assert (cold_below st' eh) as Hb'.
  { intros k mi. cbn. intros [[<- <-]|[Hk Hl]]%lookup_insert_Some; cbn.
    - unfold last_of. split_and!; [done|u64_lia|lia|done|]. right. split; [done|].
      intros n Hn. destruct (lookup_lt_is_Some_2 bs (Z.to_nat (n - eh))) as [b Hj]; [lia|].
      destruct (Hhot _ _ Hj) as (v & Hv & _). rewrite Z2Nat.id in Hv by lia.
      exists v. by replace n with (eh + (n - eh)) by lia.
    - by apply Hb. }
  split_and!; [|split|done].
  - split_and!; [done|done|]. by exists (Some eh).
  - done.
  - cbn. intros eh' mi Hm'. assert (Some eh' = Some eh) as [= ->] by by eapply meta_is_inj.
    rewrite lookup_insert_eq. intros [= <-]. cbn. unfold last_of. lia.
Qed.

Lemma crash_ok st size fs' :
  tiers_inv st → dir_inv size st → 1 ≤ size ≤ 4294967296 → crash_fs size st fs' →
  ∃ idx', let st' := MkTiers (t_db st) fs' idx' in
    tiers_inv st' ∧ dir_inv size st' ∧
    ∀ n, tiers_read_block st' n = tiers_read_block st n.
Proof.
  intros Hinv Hdir Hsz [->|(eh & bs & j & Eh & Hc & Hread & ->)].
  { exists (t_indices st). by destruct st. }
  pose proof Hinv as (Hdb & Hw & o & Ho & Hb). pose proof (get_u64_opt_sound _ _ _ Eh) as Hm.
  assert (o = Some eh) as -> by by eapply meta_is_inj.
  destruct (complete_archivable _ eh size Hdb Hw (proj2 Hm _ eq_refl) Hsz Hc) as
    (bs' & zs & Hlen & Ha & Hread' & Hhot). rewrite Hread in Hread'. injection Hread' as <-.
  pose proof Hdir as [Hidx Hpend].
  assert (∀ mi, t_indices st !! eh = Some mi → end_block mi = last_of bs eh) as Hpe
    by (intros mi Hl; unfold last_of; rewrite Hlen; auto).
  destruct (archivable_ends bs eh zs Ha) as (Hn & Hz & Hhd & Hls & Ht).
  destruct (write_archive_cut bs _ zs eh (last_of bs eh) (t_fs st) j Hn Hz Hhd Hls Ht)
    as [(_ & _ & Hframe) _].
  pose proof (archive_frame st eh bs zs _ Hb Ha Hframe) as Hfr.
  destruct (batch_cut _ _ _ _ _ Ha Hidx Hpe j) as [[H1|H1] _].
  - exists (t_indices st). cbn. assert (tiers_inv (MkTiers (t_db st)
      (fs_exec (t_fs st) (take j (write_archive bs).1)) (t_indices st))) as Hinv' by done.
    split_and!; [done|done|]. intros n. by apply (reads_agree _ _ eh).
  - eexists. destruct (pending_archive st eh bs zs size _ Hinv Hm Hb Hlen Ha Hhot H1)
      as (H2 & H3 & H4). split_and!; [exact H2|exact H3|].
    intros n. apply (reads_agree _ _ eh); try done.
    intros k Hk. cbn. by rewrite lookup_insert_ne by lia.
Qed.

(** ** Start-up on a directory that mirrors the table *)
Lemma earliest_indexed_key (idx : Indices) k :
  get_earliest_indexed_block idx = Some k → ∃ mi, idx !! k = Some mi.
Proof.
  unfold get_earliest_indexed_block. revert k.
  apply (map_fold_weak_ind (λ o (m : Indices), ∀ k, o = Some k → ∃ mi, m !! k = Some mi)); [done|].
  intros i mi m o Hnone IH k [= <-]. destruct o as [k0|]; cbn.
  - destruct (Z.min_spec k0 i) as [[? ->]|[? ->]]; [|by rewrite lookup_insert_eq; eauto].
    rewrite lookup_insert_ne by lia. auto.
  - rewrite lookup_insert_eq. eauto.
Qed.

Lemma earliest_hot_block db : db_ok db → hot_wf db →
  ∃ o, get_earliest_block_number db = Ok o ∧ ∀ n, o = Some n → is_u64 n.
Proof.
  intros Hdb Hw. unfold get_earliest_block_number.
  rewrite need_cf_open by (apply Hdb || set_solver). cbn.
  pose proof (iterator_head db CF_HOT_BLOCKS IterStart (proj2 Hdb)) as Hi.
  destruct (iterator_cf db CF_HOT_BLOCKS IterStart) as [|[[k v]|] l]; cbn in *; [by exists None| |done].
  destruct Hi as [Hi _]. destruct (Hw _ _ Hi) as (n & b & -> & Hs%storable_u64 & _).
  rewrite u64_from_to_be by u64_lia. cbn. exists (Some n). split; [done|].
  intros ? [= <-]. u64_lia.
Qed.

(** Start-up may record the earliest block and changes nothing else. *)
Lemma determine_ok db (idx : Indices) o :
  db_ok db → hot_wf db → (∀ k mi, idx !! k = Some mi → is_u64 k) →
  meta_is db TRUE_EARLIEST_PERSISTED_KEY o →
  ∃ db' o', determine_true_earliest db idx = Ok db' ∧ db_ok db' ∧
    meta_is db' TRUE_EARLIEST_PERSISTED_KEY o' ∧
    (∀ key oo, key ≠ TRUE_EARLIEST_PERSISTED_KEY → meta_is db key oo → meta_is db' key oo) ∧
    ∀ cf, cf ≠ CF_METADATA → entries db' cf = entries db cf.
Proof.
  intros Hdb Hw Hkeys Ho. unfold determine_true_earliest, get_true_earliest_persisted.
  rewrite (get_u64_opt_ok _ _ _ Hdb Ho). destruct o as [te|]; cbn; [by exists db, (Some te)|].
  destruct (earliest_hot_block db Hdb Hw) as (oh & -> & Hoh). cbn.
  assert (∀ n, true_earliest_of (get_earliest_indexed_block idx) oh = Some n → is_u64 n) as Hu.
  { destruct (get_earliest_indexed_block idx) as [c|] eqn:Ec, oh as [h|]; cbn; intros n [= <-];
      try (destruct (earliest_indexed_key _ _ Ec) as [mi Hmi]; pose proof (Hkeys _ _ Hmi));
      try pose proof (Hoh _ eq_refl); u64_lia. }
  destruct (true_earliest_of _ _) as [n|]; [|by exists db, None].
  unfold initialize_true_earliest_persisted, get_true_earliest_persisted.
  rewrite (get_u64_opt_ok _ _ _ Hdb Ho). cbn.
  destruct (put_u64_direct_ok db TRUE_EARLIEST_PERSISTED_KEY n Hdb) as (db' & -> & ?); [auto|].
  by exists db', (Some n).
Qed.

(** A new process finds every block of the one that stopped, and its marks. *)
Lemma restart_inv cfg start m st p fs' listing :
  svc_inv start m st p → dir_inv (archive_batch_size cfg) st →
  1 ≤ archive_batch_size cfg ≤ 4294967296 →
  crash_fs (archive_batch_size cfg) st fs' → lists listing fs' →
  ∃ svc p', initialize cfg start (t_db st) fs' listing = Ok svc ∧
    svc_inv start m (svc_tiers svc) p' ∧ dir_inv (archive_batch_size cfg) (svc_tiers svc) ∧
    p_latest p' = p_latest p ∧ p_contiguous p' = p_contiguous p ∧ p_gaps p' = p_gaps p.
Proof.
  intros (Hinv & Hp & Hc & Hl & Hr) Hdir Hsz Hcrash Hlist.
  destruct (crash_ok st _ fs' Hinv Hdir Hsz Hcrash) as (idx & Hinv1 & Hdir1 & Hr1).
  pose proof Hinv1 as (Hdb & Hw & o & Ho & Hb). pose proof Hdir1 as [Hidx Hpend]. cbn in *.
  pose proof Hp as ((_ & Hg) & Hla & Ht & Hh & Hco).
  destruct (determine_ok (t_db st) idx (p_true_earliest p) Hdb Hw) as
    (db' & te & E & Hdb' & Hte & Hkeep & Hcf); [|done|].
  { intros k mi Hk. destruct Hidx as (He & _). destruct (He _ _ Hk) as (_ & ? & _). u64_lia. }
  destruct keys_distinct as (?&?&?&?&?&?).
  assert (meta_is db' HIGHEST_CONTIGUOUS_KEY (Some (p_contiguous p))) as Hco' by (by apply Hkeep).
  eexists _, {| p_latest := p_latest p; p_true_earliest := te; p_earliest_hot := p_earliest_hot p;
              p_contiguous := p_contiguous p; p_gaps := p_gaps p |}.
  unfold initialize, initialize_highest_contiguous. rewrite (scan_indexed _ _ _ Hidx Hlist), E. cbn.
  rewrite (get_u64_opt_ok _ _ _ Hdb' Hco'). cbn. split; [done|].
  assert (o = p_earliest_hot p) as -> by by eapply meta_is_inj.
  assert (entries db' CF_HOT_BLOCKS = entries (t_db st) CF_HOT_BLOCKS) as Ehot by by apply Hcf.
  unfold svc_inv, dir_inv. split_and!; try done; cbn.
  - split_and!; [done|unfold hot_wf; cbn; by rewrite Ehot|]. exists (p_earliest_hot p).
    split; [by apply Hkeep|]. destruct (p_earliest_hot p); [|done].
    unfold cold_below, hot_range. cbn. by rewrite Ehot.
  - split_and!; try done; [|by apply Hkeep..]. split; [done|]. by rewrite Hcf.
  - intros n Hn. rewrite <-Hr, <-Hr1 by done. unfold tiers_read_block. cbn.
    by rewrite (hot_read_same (t_db st) db') by (done || by rewrite Ehot).
  - intros eh mi Hm. apply Hpend.
    assert (p_earliest_hot p = Some eh) as <-; [|done].
    eapply meta_is_inj; [|exact Hm]. by apply Hkeep.
Qed.

(** ** Histories

    The blocks written so far and the tiers, after a first start on an empty
    directory and any sequence of writes, turns of the archiver, each of which may
    fail at any file-system operation, and restarts after a stop at any of them. *)
Inductive svc_history (cfg : PersistenceServiceConfig) (start : Z)
    : gmap Z bytes → Tiers → Prop :=
| history_init db fs svc :
    fresh_db db → files fs = ∅ → initialize cfg start db fs [] = Ok svc →
    svc_history cfg start ∅ (svc_tiers svc)
| history_write m st b n st' r :
    svc_history cfg start m st → storable b n →
    tiers_write_block cfg start st b = (st', r) →
    svc_history cfg start (<[n := encode_to_vec b]> m) st'
| history_archive m st fault st' o :
    svc_history cfg start m st → cycle_step cfg st fault = (st', o) →
    svc_history cfg start m st'
| history_restart m st fs' listing svc :
    svc_history cfg start m st → crash_fs (archive_batch_size cfg) st fs' →
    lists listing fs' → initialize cfg start (t_db st) fs' listing = Ok svc →
    svc_history cfg start m (svc_tiers svc).

Lemma history_dir_inv cfg start m st :
  svc_history cfg start m st → 0 ≤ start < u64_MAX →
  1 ≤ archive_batch_size cfg ≤ 4294967296 →
  ∃ p, svc_inv start m st p ∧ dir_inv (archive_batch_size cfg) st.
Proof.
  intros H Hs Hsz. assert (is_u64 start) as Hs64 by u64_lia.
  induction H as [db fs svc Hf Hfs Hi|m st b n st' r H (p & IH & Hd) Hst E
    |m st fault st' o H (p & IH & Hd) E|m st fs' listing svc H (p & IH & Hd) Hc Hl E].
  - exists (p_init start). split; [by eapply initialize_inv|].
    destruct (initialize_fresh cfg start db fs Hf Hs64) as (svc' & E & _ & _ & Ei & Efs).
    rewrite Hi in E. injection E as <-. unfold dir_inv. rewrite Ei, Efs.
    split; [split_and!|]; intros *; rewrite ?Hfs, ?lookup_empty; done || by intros [].
  - destruct (write_inv cfg start m st b n p IH Hst Hs64)
      as (st1 & r1 & p' & E1 & Hinv & _). rewrite E in E1. injection E1 as <- <-.
    exists p'. split; [done|]. exact (write_dir cfg start m st b n p st' r IH Hst Hs64 E Hd).
  - destruct (step_inv _ _ _ _ _ _ _ _ IH Hsz E) as [p' Hp']. exists p'. split; [done|].
    eapply step_dir; [apply IH|done..].
  - destruct (restart_inv cfg start m st p fs' listing IH Hd Hsz Hc Hl)
      as (svc' & p' & E' & H1 & H2 & _). rewrite E in E'. injection E' as <-. by exists p'.
Qed.

Lemma history_svc_inv cfg start m st :
  svc_history cfg start m st → 0 ≤ start < u64_MAX →
  1 ≤ archive_batch_size cfg ≤ 4294967296 → ∃ p, svc_inv start m st p.
Proof. intros H Hs Hsz. destruct (history_dir_inv _ _ _ _ H Hs Hsz) as (p & ? & _). by exists p. Qed.

Lemma history_stored cfg start m st : svc_history cfg start m st → stored_blocks m.
Proof.
  induction 1 as [|m st b n st' r H IH Hst E| |]; [|by apply stored_blocks_insert|done..].
  intros n c Hl. by rewrite lookup_empty in Hl.
Qed.

(** A whole cycle of the archiver is a run of its turns. *)
Lemma history_cycle cfg start m st fuel faults st' r :
  svc_history cfg start m st → run_archival_cycle cfg fuel st faults = Some (st', r) →
  svc_history cfg start m st'.
Proof.
  revert st faults. induction fuel as [|fuel IH]; intros st faults H; cbn; [done|].
  destruct (cycle_step cfg st (faults 0%nat)) as [st1 o] eqn:E.
  pose proof (history_archive _ _ _ _ _ _ _ H E) as H1. destruct o as [r1|].
  - by intros [= <- <-].
  - by apply IH.
Qed.
End recovery.
