(* ===== verification/Pipeline.v ===== *)
(** The block pipeline: the verifier plugin (crates/rock-node-verifier-plugin/src/
    lib.rs), the event loop of the persistence plugin (crates/rock-node-persistence-
    plugin/src/lib.rs) and their wiring in app/rock-node/src/main.rs.

    The store behind the persistence plugin is any [BlockStore].  Channels are
    queues ([mpsc]) or logs of what was sent ([broadcast]); the plugins' tasks
    interleave freely, one handler at a time. *)
From S2P Require Import Prelude Block Core.

(** [InboundEvent] of the persistence plugin. *)
Inductive InboundEvent :=
| Verified (e : BlockVerified)
| Unverified (e : BlockItemsReceived).
Definition event_block_number (ev : InboundEvent) : Z :=
  match ev with Verified e => bv_block_number e | Unverified e => bir_block_number e end.
Definition event_cache_key (ev : InboundEvent) : Uuid :=
  match ev with Verified e => bv_cache_key e | Unverified e => bir_cache_key e end.

Section handlers.
Context {S : Type} {READER : BlockReader S} {WRITER : BlockWriter S} {CODEC : Codec}.

(** The body of the verifier's loop for one event; the decoder's own text is left out
    of the reason. *)
Definition verify_block (c : BlockDataCache) (event : BlockItemsReceived)
    : Result string unit :=
  match Cache.get c (bir_cache_key event) with
  | Some data =>
      match decode_block (bd_contents data) with
      | Ok _ => Ok tt
      | Err _ => Err "Block decode failed"
      end
  | None => Err "Block data not found in cache"
  end.

Definition verifier_handle (c : BlockDataCache) (event : BlockItemsReceived)
    : BlockDataCache * (BlockVerified + BlockVerificationFailed) :=
  match verify_block c event with
  | Ok _ => (c, inl (MkVerified (bir_block_number event) (bir_cache_key event)))
  | Err reason =>
      (Cache.mark_for_removal c (bir_cache_key event),
       inr (MkVerificationFailed (bir_block_number event) (bir_cache_key event) reason))
  end.

(** [process_event] of the persistence plugin: the cache and the store after it,
    and the [BlockPersisted] it broadcasts. *)
Definition process_event (c : BlockDataCache) (s : S) (event : InboundEvent)
    : BlockDataCache * S * option BlockPersisted :=
  let block_number := event_block_number event in
  let cache_key := event_cache_key event in
  let '(s, out) :=
    match Cache.get c cache_key with
    | Some data =>
        match decode_block (bd_contents data) with
        | Ok block_proto =>
            let '(s, r) := writer_write_block s block_proto in
            match r with
            | Ok _ => (s, Some (MkPersisted block_number cache_key))
            | Err _ => (s, None)
            end
        | Err _ => (s, None)
        end
    | None => (s, None)
    end in
  (Cache.mark_for_removal c cache_key, s, out).

(** Which channel the persistence loop reads: decided once, when it starts, by
    whether the verifier has registered; [None] ends the loop. *)
Definition next_event (use_verified_stream : bool) (rx_verified : list BlockVerified)
    (rx_items_received : option (list BlockItemsReceived)) : option InboundEvent :=
  if use_verified_stream then Verified <$> head rx_verified
  else match rx_items_received with
       | Some q => Unverified <$> head q
       | None => None
       end.

(** ** The wiring of main.rs *)
Record Pipeline := MkPipeline {
  pl_cache : BlockDataCache;
  pl_store : S;
  pl_items : list BlockItemsReceived;
  pl_verified : list BlockVerified;
  pl_failed : list BlockVerificationFailed;
  pl_persisted : list BlockPersisted;
}.

(** A publisher hands over a complete block (the end of [complete_block]). *)
Definition publish (pl : Pipeline) (key : Uuid) (now n : Z) (b : Block) : Pipeline :=
  MkPipeline (Cache.insert (pl_cache pl) key now (MkBlockData n (encode_to_vec b)))
    (pl_store pl) (pl_items pl ++ [MkItemsReceived n key])
    (pl_verified pl) (pl_failed pl) (pl_persisted pl).

(** The verifier takes the next event. *)
Definition verifier_step (pl : Pipeline) : Pipeline :=
  match pl_items pl with
  | [] => pl
  | event :: rest =>
      let '(c, out) := verifier_handle (pl_cache pl) event in
      match out with
      | inl v => MkPipeline c (pl_store pl) rest (pl_verified pl ++ [v])
                   (pl_failed pl) (pl_persisted pl)
      | inr f => MkPipeline c (pl_store pl) rest (pl_verified pl)
                   (pl_failed pl ++ [f]) (pl_persisted pl)
      end
  end.

(** The persistence plugin takes the next event; with the verifier disabled it
    reads the items channel itself. *)
Definition persist_step (verification_enabled : bool) (pl : Pipeline) : Pipeline :=
  let items := if verification_enabled then None else Some (pl_items pl) in
  match next_event verification_enabled (pl_verified pl) items with
  | None => pl
  | Some event =>
      let '(c, s, out) := process_event (pl_cache pl) (pl_store pl) event in
      MkPipeline c s
        (if verification_enabled then pl_items pl else tail (pl_items pl))
        (if verification_enabled then tail (pl_verified pl) else pl_verified pl)
        (pl_failed pl)
        (pl_persisted pl ++ match out with Some e => [e] | None => [] end)
  end.

Definition cleanup_step (now : Z) (pl : Pipeline) : Pipeline :=
  MkPipeline (Cache.run_cleanup (pl_cache pl) now) (pl_store pl) (pl_items pl)
    (pl_verified pl) (pl_failed pl) (pl_persisted pl).

(** The store after another task used it. *)
Definition with_store (pl : Pipeline) (s : S) : Pipeline :=
  MkPipeline (pl_cache pl) s (pl_items pl) (pl_verified pl) (pl_failed pl) (pl_persisted pl).
End handlers.
Arguments Pipeline S : clear implicits.

Section pipeline_theory.
Context {S : Type} {READER : BlockReader S} {WRITER : BlockWriter S}
  {CODEC : Codec} {CLAWS : CodecLaws} {STORE : BlockStore S}.
Implicit Types (pl : Pipeline S) (pub : gmap Uuid Block) (m : gmap Z bytes).

(** What the tasks that share the store with the pipeline do to it: the archiver keeps
    every block, and the backfill worker adds blocks that are missing. *)
Definition keeps (s s' : S) : Prop := ∃ m m', holds s m ∧ holds s' m' ∧ m ⊆ m'.

(** [pipeline_run ve pub pl]: the pipeline can be in state [pl] when the blocks
    of [pub] have been published, each under a key of its own, and other tasks have used
    the store at any time between its steps. *)
Inductive pipeline_run (verification_enabled : bool) : gmap Uuid Block → Pipeline S → Prop :=
| run_init s m :
    holds s m → pipeline_run verification_enabled ∅ (MkPipeline Cache.new s [] [] [] [])
| run_publish pub pl key now n b :
    pipeline_run verification_enabled pub pl → pub !! key = None →
    wf_block b → accepts b → get_block_number b = Ok n →
    pipeline_run verification_enabled (<[key := b]> pub) (publish pl key now n b)
| run_verify pub pl :
    pipeline_run verification_enabled pub pl → verification_enabled = true →
    pipeline_run verification_enabled pub (verifier_step pl)
| run_persist pub pl :
    pipeline_run verification_enabled pub pl →
    pipeline_run verification_enabled pub (persist_step verification_enabled pl)
| run_cleanup_task pub pl now :
    pipeline_run verification_enabled pub pl →
    pipeline_run verification_enabled pub (cleanup_step now pl)
| run_others pub pl s :
    pipeline_run verification_enabled pub pl → keeps (pl_store pl) s →
    pipeline_run verification_enabled pub (with_store pl s).

(** Block [b] was published under [key], with event number [n]. *)
Definition published pub (key : Uuid) (n : Z) (b : Block) : Prop :=
  pub !! key = Some b ∧ wf_block b ∧ accepts b ∧ get_block_number b = Ok n.

Definition event_keys pl : list Uuid :=
  (bir_cache_key <$> pl_items pl) ++ (bv_cache_key <$> pl_verified pl)
  ++ (bvf_cache_key <$> pl_failed pl) ++ (bp_cache_key <$> pl_persisted pl).

Definition cache_inv pub (c : BlockDataCache) : Prop :=
  ∀ k d t, cache c !! k = Some (d, t) →
    ∃ b, published pub k (bd_block_number d) b ∧ bd_contents d = encode_to_vec b.

Record pl_inv pub pl : Prop := {
  pli_cache : cache_inv pub (pl_cache pl);
  pli_items : ∀ e, e ∈ pl_items pl →
    ∃ b, published pub (bir_cache_key e) (bir_block_number e) b;
  pli_verified : ∀ e, e ∈ pl_verified pl →
    ∃ b, published pub (bv_cache_key e) (bv_block_number e) b;
  pli_keys : NoDup (event_keys pl);
  pli_pub : ∀ k, k ∈ event_keys pl → is_Some (pub !! k);
  pli_store : ∃ m, holds (pl_store pl) m ∧
    ∀ e, e ∈ pl_persisted pl →
      (∃ b, published pub (bp_cache_key e) (bp_block_number e) b) ∧
      ∃ k b, published pub k (bp_block_number e) b ∧
        m !! bp_block_number e = Some (encode_to_vec b);
}.

Lemma published_insert pub key b0 k n b :
  pub !! key = None → published pub k n b → published (<[key := b0]> pub) k n b.
Proof.
  intros Hf (Hk & H). split; [|done]. rewrite lookup_insert_ne; [done|].
  intros ->. by rewrite Hf in Hk.
Qed.

Lemma published_number pub k n n' b b' :
  published pub k n b → published pub k n' b' → n = n' ∧ b = b'.
Proof.
  intros (H1 & _ & _ & H2) (H1' & _ & _ & H2'). simplify_eq. split; [congruence|done].
Qed.

Lemma cache_inv_mark pub c k : cache_inv pub c → cache_inv pub (Cache.mark_for_removal c k).
Proof.
  intros H k' d t. unfold Cache.mark_for_removal. destruct (cache c !! k); cbn; [|apply H].
  intros [_ Hl]%lookup_delete_Some. by eapply H.
Qed.

Lemma cache_inv_cleanup pub c now : cache_inv pub c → cache_inv pub (Cache.run_cleanup c now).
Proof.
  intros H k d t. rewrite Cache.run_cleanup_lookup.
  destruct (cache c !! k) as [[d' t']|] eqn:E; [|done]. case_decide; [done|].
  intros [= -> ->]. by eapply H.
Qed.

(** What a cached block's data is: verification succeeds on it. *)
Lemma cache_get_published pub c k d : cache_inv pub c → Cache.get c k = Some d →
  ∃ b, published pub k (bd_block_number d) b ∧ decode_block (bd_contents d) = Ok b.
Proof.
  intros H. unfold Cache.get. destruct (cache c !! k) as [[d' t]|] eqn:E; [|done].
  intros [= ->]. destruct (H _ _ _ E) as (b & Hp & Hc). exists b. split; [done|].
  rewrite Hc. apply decode_encode_block. apply Hp.
Qed.

Lemma init_pl_inv s m : holds s m → pl_inv ∅ (MkPipeline Cache.new s [] [] [] []).
Proof.
  intros Hs. constructor; cbn; try (by intros e He%elem_of_nil).
  - intros k d t. cbn. by rewrite lookup_empty.
  - constructor.
  - exists m. split; [done|]. by intros e He%elem_of_nil.
Qed.

Lemma publish_inv pub pl key now n b :
  pl_inv pub pl → pub !! key = None → wf_block b → accepts b → get_block_number b = Ok n →
  pl_inv (<[key := b]> pub) (publish pl key now n b).
Proof.
  intros [Hc Hi Hv Hk Hp (m & Hm & Hd)] Hf Hwf Ha Hn.
  assert (published (<[key := b]> pub) key n b) as Hpub
    by (split; [by rewrite lookup_insert_eq|done]).
  assert (event_keys (publish pl key now n b) ≡ₚ key :: event_keys pl) as Hperm.
  { unfold event_keys. cbn. rewrite fmap_app. cbn. solve_Permutation. }
  constructor; cbn.
  - intros k d t. unfold Cache.insert. cbn.
    intros [[<- [= <- <-]]|[_ Hl]]%lookup_insert_Some; [by exists b|].
    destruct (Hc _ _ _ Hl) as (b' & ? & ?). exists b'. split; [|done].
    by apply published_insert.
  - intros e [He| ->%list_elem_of_singleton]%elem_of_app; [|by exists b].
    destruct (Hi _ He) as [b' ?]. exists b'. by apply published_insert.
  - intros e He. destruct (Hv _ He) as [b' ?]. exists b'. by apply published_insert.
  - rewrite Hperm. constructor; [|done]. intros [x Hx]%Hp. congruence.
  - intros k. rewrite Hperm. intros [->|H']%elem_of_cons; [by rewrite lookup_insert_eq|].
    destruct (Hp _ H') as [x Hx]. exists x. rewrite lookup_insert_ne; congruence.
  - exists m. split; [done|]. intros e He. destruct (Hd _ He) as [(b1 & H1) (k & b2 & H2 & H3)].
    split; [exists b1|exists k, b2]; [|split; [|done]]; by apply published_insert.
Qed.

Lemma verifier_inv pub pl : pl_inv pub pl → pl_inv pub (verifier_step pl).
Proof.
  intros [Hc Hi Hv Hk Hp Hs]. unfold verifier_step.
  destruct (pl_items pl) as [|e rest] eqn:Ei; [by constructor; rewrite ?Ei|].
  unfold event_keys in Hk, Hp. rewrite Ei in Hk, Hp. cbn in Hk, Hp.
  destruct (Hi e ltac:(by left)) as [b Hb].
  unfold verifier_handle. destruct (verify_block (pl_cache pl) e) as [[]|reason].
  - assert (event_keys (MkPipeline (pl_cache pl) (pl_store pl) rest
        (pl_verified pl ++ [MkVerified (bir_block_number e) (bir_cache_key e)])
        (pl_failed pl) (pl_persisted pl)) ≡ₚ
      bir_cache_key e :: (bir_cache_key <$> rest) ++ (bv_cache_key <$> pl_verified pl)
        ++ (bvf_cache_key <$> pl_failed pl) ++ (bp_cache_key <$> pl_persisted pl)) as Hperm.
    { unfold event_keys. cbn. rewrite fmap_app. cbn. solve_Permutation. }
    constructor; cbn; try done.
    + intros e' He. apply Hi. by right.
    + intros e' [He| ->%list_elem_of_singleton]%elem_of_app; [by apply Hv|by exists b].
    + by rewrite Hperm.
    + intros k. rewrite Hperm. apply Hp.
  - assert (event_keys (MkPipeline (Cache.mark_for_removal (pl_cache pl) (bir_cache_key e))
        (pl_store pl) rest (pl_verified pl)
        (pl_failed pl ++ [MkVerificationFailed (bir_block_number e) (bir_cache_key e) reason])
        (pl_persisted pl)) ≡ₚ
      bir_cache_key e :: (bir_cache_key <$> rest) ++ (bv_cache_key <$> pl_verified pl)
        ++ (bvf_cache_key <$> pl_failed pl) ++ (bp_cache_key <$> pl_persisted pl)) as Hperm.
    { unfold event_keys. cbn. rewrite fmap_app. cbn. solve_Permutation. }
    constructor; cbn; try done.
    + by apply cache_inv_mark.
    + intros e' He. apply Hi. by right.
    + by rewrite Hperm.
    + intros k. rewrite Hperm. apply Hp.
Qed.

(** [process_event] on a published event: the store still holds everything it
    held, and when the event is broadcast, the block of that number as well. *)
Lemma process_event_ok pub c s m ev b n c' s' out :
  cache_inv pub c → holds s m → published pub (event_cache_key ev) n b →
  event_block_number ev = n →
  process_event c s ev = (c', s', out) →
  c' = Cache.mark_for_removal c (event_cache_key ev) ∧
  match Cache.get c (event_cache_key ev) with
  | Some _ => out = Some (MkPersisted n (event_cache_key ev)) ∧
              holds s' (<[n := encode_to_vec b]> m)
  | None => out = None ∧ s' = s
  end.
Proof.
  intros Hc Hs Hb <-. unfold process_event.
  destruct (Cache.get c (event_cache_key ev)) as [d|] eqn:Ed; [|by intros [= <- <- <-]].
  destruct (cache_get_published pub c _ d Hc Ed) as (b' & Hb' & ->).
  destruct (published_number _ _ _ _ _ _ Hb Hb') as [En <-].
  destruct Hb as (_ & _ & Ha & Hn).
  destruct (write_block_holds s m b _ Hs Ha Hn) as (s1 & -> & Hh).
  by intros [= <- <- <-].
Qed.

Lemma move_key (ks xs : list Uuid) k l l' :
  xs ⊆+ [k] → l ≡ₚ xs ++ ks → k :: ks ≡ₚ l' → l ⊆+ l'.
Proof. intros Hx -> <-. by apply (submseteq_app xs [k]). Qed.

Lemma persist_inv ve pub pl : pl_inv pub pl → pl_inv pub (persist_step ve pl).
Proof.
  intros Hinv. pose proof Hinv as [Hc Hi Hv Hk Hp (m & Hm & Hd)]. unfold persist_step.
  destruct (next_event ve (pl_verified pl) (if ve then None else Some (pl_items pl)))
    as [ev|] eqn:Ene; [|done].
  assert (∃ b, published pub (event_cache_key ev) (event_block_number ev) b) as [b Hb].
  { unfold next_event in Ene. destruct ve.
    - destruct (pl_verified pl) as [|e l] eqn:E; [done|]. injection Ene as <-. apply Hv. by left.
    - destruct (pl_items pl) as [|e l] eqn:E; [done|]. injection Ene as <-. apply Hi. by left. }
  destruct (process_event (pl_cache pl) (pl_store pl) ev) as [[c' s'] out] eqn:Epe.
  destruct (process_event_ok pub _ _ m ev b _ _ _ _ Hc Hm Hb eq_refl Epe) as [-> Hout].
  assert (∀ st, event_keys (MkPipeline (Cache.mark_for_removal (pl_cache pl) (event_cache_key ev))
      st (if ve then pl_items pl else tail (pl_items pl))
      (if ve then tail (pl_verified pl) else pl_verified pl) (pl_failed pl)
      (pl_persisted pl ++ match out with Some e => [e] | None => [] end))
    ⊆+ event_keys pl) as Hsub.
  { intros st. assert ((bp_cache_key <$> (match out with Some e => [e] | None => [] end))
      ⊆+ [event_cache_key ev]) as Hone.
    { destruct (Cache.get _ _); destruct Hout as [-> _]; cbn; [done|]. apply submseteq_nil_l. }
    unfold event_keys, next_event in *. destruct ve; cbn.
    - destruct (pl_verified pl) as [|e l]; [done|]. injection Ene as <-. cbn in *.
      rewrite fmap_app. apply (move_key ((bir_cache_key <$> pl_items pl) ++
        (bv_cache_key <$> l) ++ (bvf_cache_key <$> pl_failed pl) ++
        (bp_cache_key <$> pl_persisted pl)) _ (bv_cache_key e) _ _ Hone); solve_Permutation.
    - destruct (pl_items pl) as [|e l]; [done|]. injection Ene as <-. cbn in *.
      rewrite fmap_app. apply (move_key ((bir_cache_key <$> l) ++
        (bv_cache_key <$> pl_verified pl) ++ (bvf_cache_key <$> pl_failed pl) ++
        (bp_cache_key <$> pl_persisted pl)) _ (bir_cache_key e) _ _ Hone); solve_Permutation. }
  constructor; cbn.
  - by apply cache_inv_mark.
  - intros e He. apply Hi. destruct ve; [done|]. destruct (pl_items pl); [done|by right].
  - intros e He. apply Hv. destruct ve; [|done]. destruct (pl_verified pl); [done|by right].
  - destruct (submseteq_Permutation _ _ (Hsub s')) as [r Hr]. rewrite Hr in Hk.
    by apply NoDup_app in Hk as [? _].
  - intros k Hin. apply Hp. eapply elem_of_submseteq; [done|apply (Hsub s')].
  - destruct (Cache.get _ _); destruct Hout as [-> Hs'].
    + exists (<[event_block_number ev := encode_to_vec b]> m). split; [done|].
      intros e [He| ->%list_elem_of_singleton]%elem_of_app; cbn.
      * destruct (Hd _ He) as [H1 (k2 & b2 & H2 & H3)]. split; [done|].
        destruct (decide (event_block_number ev = bp_block_number e)) as [<-|Hne].
        -- exists (event_cache_key ev), b. by rewrite lookup_insert_eq.
        -- exists k2, b2. by rewrite lookup_insert_ne.
      * split; [by exists b|]. exists (event_cache_key ev), b. by rewrite lookup_insert_eq.
    + subst s'. exists m. split; [done|]. intros e. rewrite app_nil_r. apply Hd.
Qed.

Lemma cleanup_inv pub pl now : pl_inv pub pl → pl_inv pub (cleanup_step now pl).
Proof. intros [Hc Hi Hv Hk Hp Hs]. constructor; cbn; try done. by apply cache_inv_cleanup. Qed.

(** What a store holds is determined by what it returns. *)
Lemma holds_agree s m m' n : holds s m → holds s m' → is_u64 n → m !! n = m' !! n.
Proof.
  intros H H' Hn. pose proof (read_block_holds _ _ _ H Hn) as E.
  rewrite (read_block_holds _ _ _ H' Hn) in E. by injection E.
Qed.

Lemma others_inv pub pl s : pl_inv pub pl → keeps (pl_store pl) s → pl_inv pub (with_store pl s).
Proof.
  intros [Hc Hi Hv Hk Hp (m0 & Hm0 & Hd)] (m & m' & Hm & Hm' & Hsub). constructor; cbn; try done.
  exists m'. split; [done|]. intros e He. destruct (Hd e He) as [H1 (k & b & H2 & H3)].
  split; [done|]. exists k, b. split; [done|]. pose proof H2 as (_ & Hwf & _ & Hn).
  rewrite (holds_agree _ _ _ _ Hm0 Hm (get_block_number_u64 _ _ Hwf Hn)) in H3.
  by eapply lookup_weaken.
Qed.

Lemma run_inv ve pub pl : pipeline_run ve pub pl → pl_inv pub pl.
Proof.
  induction 1;
    eauto using init_pl_inv, publish_inv, verifier_inv, persist_inv, cleanup_inv, others_inv.
Qed.

(** A write of a block that is not stored yet keeps the others. *)
Lemma new_block_keeps s m b n : holds s m → accepts b → get_block_number b = Ok n →
  m !! n = None → keeps s (writer_write_block s b).1.
Proof.
  intros Hm Ha Hn Hnone. destruct (write_block_holds s m b n Hm Ha Hn) as (s' & -> & Hs').
  exists m, (<[n := encode_to_vec b]> m). split_and!; [done|done|by apply insert_subseteq].
Qed.

(** ** Delivery: what the pipeline does to the events that are in it *)
Definition persisted_of (e : BlockItemsReceived) : BlockPersisted :=
  MkPersisted (bir_block_number e) (bir_cache_key e).
Definition verified_of (e : BlockItemsReceived) : BlockVerified :=
  MkVerified (bir_block_number e) (bir_cache_key e).

(** The event's block data is still in the cache. *)
Definition cached (c : BlockDataCache) (k : Uuid) : Prop := is_Some (cache c !! k).

Lemma verify_cached pub c e : cache_inv pub c → cached c (bir_cache_key e) →
  verifier_handle c e = (c, inl (verified_of e)).
Proof.
  intros Hc [[d t] Hk]. unfold verifier_handle, verify_block.
  assert (Cache.get c (bir_cache_key e) = Some d) as E by (unfold Cache.get; by rewrite Hk).
  rewrite E. by destruct (cache_get_published _ _ _ _ Hc E) as (b & _ & ->).
Qed.

(** Draining the verifier forwards every cached event, in order. *)
Lemma drain_verifier pub c s evs vs fs ps :
  cache_inv pub c → (∀ e, e ∈ evs → cached c (bir_cache_key e)) →
  Nat.iter (length evs) verifier_step (MkPipeline (S := S) c s evs vs fs ps)
  = MkPipeline c s [] (vs ++ (verified_of <$> evs)) fs ps.
Proof.
  intros Hc. revert vs. induction evs as [|e evs IH]; intros vs Hall; cbn [length].
  - cbn. by rewrite app_nil_r.
  - rewrite Nat.iter_succ_r. unfold verifier_step at 2. cbn.
    rewrite (verify_cached pub) by (done || (apply Hall; by left)).
    rewrite IH by (intros; apply Hall; by right). by rewrite <-app_assoc.
Qed.

Lemma cached_mark c k k' : k ≠ k' → cached c k → cached (Cache.mark_for_removal c k') k.
Proof.
  intros Hne [x Hx]. unfold cached, Cache.mark_for_removal.
  destruct (cache c !! k'); cbn; [|by exists x]. rewrite lookup_delete_ne by done. by exists x.
Qed.

(** Draining the persistence plugin stores every block and announces each, in order. *)
Lemma drain_persistence pub c s m evs its fs ps :
  cache_inv pub c → holds s m → NoDup (bv_cache_key <$> evs) →
  (∀ e, e ∈ evs → cached c (bv_cache_key e) ∧
     ∃ b, published pub (bv_cache_key e) (bv_block_number e) b) →
  ∃ c' s' m',
    Nat.iter (length evs) (persist_step true) (MkPipeline c s its evs fs ps)
    = MkPipeline c' s' its [] fs
        (ps ++ ((λ e, MkPersisted (bv_block_number e) (bv_cache_key e)) <$> evs)) ∧
    holds s' m' ∧ dom m' = dom m ∪ list_to_set (bv_block_number <$> evs).
Proof.
  revert c s m ps. induction evs as [|e evs IH]; intros c s m ps Hc Hs Hnd Hall; cbn [length].
  - exists c, s, m. cbn. rewrite app_nil_r, union_empty_r_L. done.
  - rewrite Nat.iter_succ_r. unfold persist_step at 2. cbn [pl_verified next_event head fmap
      option_fmap option_map pl_cache pl_store pl_items tail pl_failed pl_persisted].
    destruct (Hall e ltac:(by left)) as [[[d t] Hk] (b & Hb)].
    destruct (process_event c s (Verified e)) as [[c1 s1] out] eqn:E.
    destruct (process_event_ok pub c s m (Verified e) b _ _ _ _ Hc Hs Hb eq_refl E)
      as [-> Hout]. cbn in Hout. unfold Cache.get in Hout. rewrite Hk in Hout.
    destruct Hout as [-> Hs1]. cbn in Hnd. apply NoDup_cons in Hnd as [Hnot Hnd].
    destruct (IH (Cache.mark_for_removal c (bv_cache_key e)) s1 _
      (ps ++ [MkPersisted (bv_block_number e) (bv_cache_key e)])
      (cache_inv_mark _ _ _ Hc) Hs1 Hnd) as (c' & s' & m' & E' & Hs' & Hm').
    { intros e' He. destruct (Hall e' ltac:(by right)) as [? ?]. split; [|done].
      apply cached_mark; [|done]. intros Heq. apply Hnot. rewrite <-Heq.
      by apply list_elem_of_fmap_2. }
    exists c', s', m'. split_and!; [|done|].
    + cbn [event_cache_key]. rewrite E'. cbn. by rewrite <-app_assoc.
    + rewrite Hm', dom_insert_L. cbn. set_solver.
Qed.
End pipeline_theory.
