(* ===== verification/Publish.v ===== *)
(** The publish plugin: crates/rock-node-publish-plugin/src (validation.rs, state.rs,
    session_manager.rs, service.rs, lib.rs).

    A session handler is split where it waits for the pipeline: [handle_request]
    runs up to there and [finish_block] goes on with what it was told.  The metric
    updates are in [Accounting]; logs are left out, and so is the backpressure of the
    response channels (a failed send is ignored by the code). *)
From S2P Require Import Prelude Config Block Core.

(** ** state.rs *)
Inductive SessionState := SNew | SPrimary | SBehind.

Inductive BlockAction :=
| Accept | Skip | Resend | EndBehind | EndDuplicate | EndError | BadBlockProof.

#[export] Instance BlockAction_eq_dec : EqDecision BlockAction.
Proof. solve_decision. Defined.
#[export] Instance SessionState_eq_dec : EqDecision SessionState.
Proof. solve_decision. Defined.

(** [active_sessions] maps to the response senders; the key set is what matters. *)
Record SharedState := MkShared {
  block_winners : gmap Z Uuid;
  latest_persisted_block : Z;
  active_sessions : gset Uuid;
}.
Definition SharedState_new : SharedState := MkShared ∅ (-1) ∅.

Definition set_latest_persisted_block (sh : SharedState) (n : Z) : SharedState :=
  MkShared (block_winners sh) n (active_sessions sh).
Definition set_winners (sh : SharedState) (w : gmap Z Uuid) : SharedState :=
  MkShared w (latest_persisted_block sh) (active_sessions sh).

(** [publish_stream_response]. *)
Inductive EndCode := CodeError | CodeBehind | CodeDuplicateBlock | CodeBadBlockProof.
Inductive Response :=
| Acknowledgement (block_number : Z)
| SkipBlock (block_number : Z)
| ResendBlock (block_number : Z)
| EndStream (status : EndCode) (block_number : Z).

(** [publish_stream_request::Request]. *)
Inductive PublishRequest :=
| ReqBlockItems (block_items : list BlockItem)
| ReqEndOfBlock (block_number : Z)
| ReqEndStream (earliest_block_number latest_block_number : Z).

(** ** validation.rs *)
Inductive PublishError :=
| EmptyBlockItems
| MissingBlockHeader (block_number : Z)
| TooManyItems (count max : Z)
| BlockNumberMismatch (expected received : Z)
| InvalidBlockNumber (block_number : Z)
| NoActiveBlock (session_id : Uuid)
| Encoding (e : Error)
| ChannelSend
| VerificationTimeout (block_number : Z)
| VerificationFailed (block_number : Z) (reason : string).

Definition extract_block_number_from_any_item (item : Item) : option Z :=
  match item with
  | IBlockHeader header => Some (as_i64 (header_number header))
  | IBlockProof proof => Some (as_i64 (proof_block proof))
  | _ => None
  end.

Definition validate_block_items (max_items_per_set : Z) (block_items : list BlockItem)
    (is_new_block : bool) : Result PublishError unit :=
  match block_items with
  | [] => Err EmptyBlockItems
  | first_item :: _ =>
      let count := Z.of_nat (length block_items) in
      if max_items_per_set <? count then Err (TooManyItems count max_items_per_set)
      else if is_new_block then
        match first_item with
        | Some (IBlockHeader _) => Ok tt
        | Some item_type =>
            Err (MissingBlockHeader
                   (default (-1) (extract_block_number_from_any_item item_type)))
        | None => Err (MissingBlockHeader (-1))
        end
      else Ok tt
  end.

(** ** session_manager.rs *)
Record Session := MkSession {
  id : Uuid;
  state : SessionState;
  current_block_number : Z;
  current_block_action : option BlockAction;
  item_buffer : list BlockItem;
  blocks_received : Z;
  blocks_accepted : Z;
  blocks_skipped : Z;
}.

Definition SessionManager_new (sid : Uuid) : Session :=
  MkSession sid SNew 0 None [] 0 0 0.

Definition set_current (s : Session) (n : Z) : Session :=
  MkSession (id s) (state s) n (current_block_action s) (item_buffer s)
    (blocks_received s) (blocks_accepted s) (blocks_skipped s).
Definition set_state (s : Session) (x : SessionState) : Session :=
  MkSession (id s) x (current_block_number s) (current_block_action s) (item_buffer s)
    (blocks_received s) (blocks_accepted s) (blocks_skipped s).
Definition set_action (s : Session) (a : BlockAction) : Session :=
  MkSession (id s) (state s) (current_block_number s) (Some a) (item_buffer s)
    (blocks_received s) (blocks_accepted s) (blocks_skipped s).
Definition set_buffer (s : Session) (l : list BlockItem) : Session :=
  MkSession (id s) (state s) (current_block_number s) (current_block_action s) l
    (blocks_received s) (blocks_accepted s) (blocks_skipped s).
Definition add_counts (s : Session) (received accepted skipped : Z) : Session :=
  MkSession (id s) (state s) (current_block_number s) (current_block_action s)
    (item_buffer s) (u64_add (blocks_received s) received)
    (u64_add (blocks_accepted s) accepted) (u64_add (blocks_skipped s) skipped).

Definition reset_for_next_block (s : Session) : Session :=
  MkSession (id s) SNew 0 None [] (blocks_received s) (blocks_accepted s) (blocks_skipped s).

(** [latest] and [seen] are what the loads of [latest_persisted_block] and
    [block_winners.get] returned; [entry] acts on the table as it is by then. *)
Definition get_action_for_header (latest : Z) (seen : gmap Z Uuid) (sh : SharedState)
    (s : Session) (block_number : Z) : BlockAction * Session * SharedState :=
  let latest_persisted := latest in
  if block_number <? latest_persisted then
    (EndBehind, set_current s block_number, sh)
  else if block_number =? latest_persisted then
    (EndDuplicate, set_current s block_number, sh)
  else
    match seen !! as_u64 block_number with
    | Some winner_entry =>
        if decide (winner_entry = id s)
        then (EndDuplicate, set_current s block_number, sh)
        else (Skip, set_current s block_number, sh)
    | None =>
        match block_winners sh !! as_u64 block_number with
        | None =>
            (Accept, set_state (set_current s block_number) SPrimary,
             set_winners sh (<[as_u64 block_number := id s]> (block_winners sh)))
        | Some _ => (Skip, set_state s SBehind, sh)
        end
    end.

Definition get_action_for_currently_streaming (seen : gmap Z Uuid) (s : Session)
    (block_number : Z) : BlockAction :=
  if negb (block_number =? current_block_number s) then EndError
  else
    match seen !! as_u64 block_number with
    | Some winner => if decide (winner = id s) then Accept else Resend
    | None => EndError
    end.

Definition get_action_for_block (latest : Z) (seen : gmap Z Uuid) (sh : SharedState)
    (s : Session) (block_number : Z) (previous_action : option BlockAction)
    : BlockAction * Session * SharedState :=
  match previous_action with
  | Some (EndError | EndDuplicate | EndBehind | BadBlockProof) => (EndError, s, sh)
  | Some (Skip | Resend) => (EndError, s, sh)
  | None => get_action_for_header latest seen sh s block_number
  | Some Accept => (get_action_for_currently_streaming seen s block_number, s, sh)
  end.

(** What the service loop does after a request: go on, end the session, or wait
    until the pipeline has dealt with the block. *)
Inductive Next :=
| Continue
| Terminate
| AwaitBlock (block_number : Z) (block_proto : Block).

Record Outcome := MkOutcome {
  o_session : Session;
  o_shared : SharedState;
  o_responses : list Response;
  o_next : Next;
}.

Section session.
Context {CODEC : Codec}.

(** [complete_block] up to the hand-over to the pipeline. *)
Definition complete_block (sh : SharedState) (s : Session) : Outcome :=
  let s := add_counts s 0 1 0 in
  let block_proto := MkBlock (item_buffer s) in
  let s := set_buffer s [] in
  match encode_block block_proto with
  | Err _ => MkOutcome s sh [] Terminate
  | Ok _ => MkOutcome s sh [] (AwaitBlock (as_u64 (current_block_number s)) block_proto)
  end.

(** The loop of [handle_accept]: a block proof completes the block, and what
    follows it in the set is dropped. *)
Fixpoint handle_accept (sh : SharedState) (s : Session) (block_items : list BlockItem)
    : Outcome :=
  match block_items with
  | [] => MkOutcome s sh [] Continue
  | item :: block_items =>
      let s := set_buffer s (item_buffer s ++ [item]) in
      match item with
      | Some (IBlockProof _) => complete_block sh s
      | _ => handle_accept sh s block_items
      end
  end.

Definition handle_skip (sh : SharedState) (s : Session) : Outcome :=
  let s := add_counts s 0 0 1 in
  MkOutcome (reset_for_next_block s) sh [SkipBlock (as_u64 (current_block_number s))] Continue.

Definition handle_resend (sh : SharedState) (s : Session) : Outcome :=
  MkOutcome (reset_for_next_block s) sh [ResendBlock (as_u64 (current_block_number s))] Continue.

Definition handle_end_behind (sh : SharedState) (s : Session) : Outcome :=
  MkOutcome s sh [EndStream CodeBehind (as_u64 (latest_persisted_block sh))] Terminate.

Definition handle_end_duplicate (sh : SharedState) (s : Session) : Outcome :=
  MkOutcome s sh [EndStream CodeDuplicateBlock (as_u64 (current_block_number s))] Terminate.

Definition end_error_response (s : Session) (action : BlockAction) : Response :=
  let code := match action with BadBlockProof => CodeBadBlockProof | _ => CodeError end in
  EndStream code (as_u64 (current_block_number s)).
Definition handle_end_error (sh : SharedState) (s : Session) (action : BlockAction) : Outcome :=
  MkOutcome s sh [end_error_response s action] Terminate.

(** The first header of a set, as [i64]. *)
Fixpoint first_header (block_items : list BlockItem) : option Z :=
  match block_items with
  | [] => None
  | Some (IBlockHeader header) :: _ => Some (as_i64 (header_number header))
  | _ :: block_items => first_header block_items
  end.

Definition run_action (sh : SharedState) (s : Session) (action : BlockAction)
    (block_items : list BlockItem) : Outcome :=
  match action with
  | Accept => handle_accept sh s block_items
  | Skip => handle_skip sh s
  | Resend => handle_resend sh s
  | EndBehind => handle_end_behind sh s
  | EndDuplicate => handle_end_duplicate sh s
  | EndError | BadBlockProof => handle_end_error sh s action
  end.

Definition handle_block_items (max_items_per_set latest : Z) (seen : gmap Z Uuid)
    (sh : SharedState) (s : Session) (block_items : list BlockItem) : Outcome :=
  let s := add_counts s 1 0 0 in
  let block_number := first_header block_items in
  let is_new_block := match block_number with Some _ => true | None => false end in
  match validate_block_items max_items_per_set block_items is_new_block with
  | Err _ =>
      MkOutcome s sh
        [EndStream CodeError (as_u64 (default (current_block_number s) block_number))]
        Terminate
  | Ok _ =>
      let '(action, s, sh) :=
        match block_number with
        | Some num => get_action_for_block latest seen sh s num None
        | None =>
            match current_block_action s with
            | Some _ => get_action_for_block latest seen sh s (current_block_number s)
                          (current_block_action s)
            | None => (EndError, s, sh)
            end
        end in
      run_action sh (set_action s action) action block_items
  end.

Definition handle_block_end (sh : SharedState) (s : Session) (block_number : Z) : Outcome :=
  if decide (current_block_action s ≠ Some Accept) then
    handle_end_error sh (set_action s EndError) EndError
  else if negb (as_i64 block_number =? current_block_number s) then
    handle_end_error sh (set_action s EndError) EndError
  else complete_block sh s.

(** [handle_end_stream] only logs; this is its first test. *)
Definition publisher_significantly_ahead (latest our_latest : Z) : bool :=
  u64_add (as_u64 our_latest) 100 <? latest.

Definition handle_request (max_items_per_set latest : Z) (seen : gmap Z Uuid)
    (sh : SharedState) (s : Session) (request : PublishRequest) : Outcome :=
  match request with
  | ReqBlockItems block_item_set =>
      handle_block_items max_items_per_set latest seen sh s block_item_set
  | ReqEndOfBlock block_end => handle_block_end sh s block_end
  | ReqEndStream _ _ => MkOutcome s sh [] Terminate
  end.
End session.

(** What [wait_for_verification_and_persistence] was told.  It sees, in some
    order, the events broadcast after it subscribed; the first one that carries
    its block number and key decides, and none before the timeout is a timeout. *)
Inductive Notice :=
| NFailed (e : BlockVerificationFailed)
| NPersisted (e : BlockPersisted).
Inductive WaitResult := WPersisted | WFailed (reason : string) | WTimeout.

Fixpoint await_result (block_to_await : Z) (cache_key : Uuid) (received : list Notice)
    : WaitResult :=
  match received with
  | [] => WTimeout
  | NFailed e :: received =>
      if (bvf_block_number e =? block_to_await) && bool_decide (bvf_cache_key e = cache_key)
      then WFailed (bvf_reason e) else await_result block_to_await cache_key received
  | NPersisted e :: received =>
      if (bp_block_number e =? block_to_await) && bool_decide (bp_cache_key e = cache_key)
      then WPersisted else await_result block_to_await cache_key received
  end.

Abbreviation Sent := (list (Uuid * Response)).
Definition broadcast (receivers : gset Uuid) (msg : Response) : Sent :=
  (λ sid, (sid, msg)) <$> elements receivers.

(** The rest of [wait_for_verification_and_persistence] and of [complete_block]:
    the messages sent and whether the session ends. *)
Definition finish_block (sh : SharedState) (s : Session) (result : WaitResult)
    : Session * SharedState * Sent * bool :=
  let block_to_await := as_u64 (current_block_number s) in
  let others := active_sessions sh ∖ {[id s]} in
  let unwon := delete block_to_await (block_winners sh) in
  match result with
  | WPersisted =>
      let sh1 := set_latest_persisted_block sh (as_i64 block_to_await) in
      (reset_for_next_block s, set_winners sh1 unwon,
       broadcast (active_sessions sh) (Acknowledgement block_to_await), false)
  | WFailed reason =>
      (s, set_winners sh unwon,
       (id s, end_error_response s BadBlockProof)
         :: broadcast others (ResendBlock block_to_await), true)
  | WTimeout =>
      (s, set_winners sh unwon, broadcast others (ResendBlock block_to_await), true)
  end.

(** ** service.rs: the start and the end of a session *)
Definition connect (sh : SharedState) (sid : Uuid) : Session * SharedState :=
  (SessionManager_new sid,
   MkShared (block_winners sh) (latest_persisted_block sh) ({[sid]} ∪ active_sessions sh)).

Definition affected_blocks (sh : SharedState) (sid : Uuid) : list Z :=
  (filter (λ e, e.2 = sid) (map_to_list (block_winners sh))).*1.

Definition end_session (sh : SharedState) (sid : Uuid) : SharedState * Sent :=
  let affected := affected_blocks sh sid in
  let winners := foldl (λ w n, delete n w) (block_winners sh) affected in
  let sent := affected ≫= λ n, broadcast (active_sessions sh ∖ {[sid]}) (ResendBlock n) in
  (MkShared winners (latest_persisted_block sh) (active_sessions sh ∖ {[sid]}), sent).

(** ** lib.rs *)
Definition initialize_publish {R : Type} `{BlockReader R} (sh : SharedState) (reader : option R)
    : SharedState :=
  match reader with
  | Some r =>
      let latest :=
        match get_latest_persisted_block_number r with
        | Ok (Some num) => as_i64 num
        | Ok None => -1
        | Err _ => -1
        end in
      set_latest_persisted_block sh latest
  | None => set_latest_persisted_block sh (-1)
  end.

Definition cleanup_winners (sh : SharedState) (cleanup_threshold : Z) : SharedState :=
  let latest_persisted := latest_persisted_block sh in
  if (0 <? latest_persisted) && (cleanup_threshold <? as_u64 latest_persisted) then
    let cleanup_before_block := u64_sub (as_u64 latest_persisted) cleanup_threshold in
    set_winners sh (filter (λ e, cleanup_before_block ≤ e.1) (block_winners sh))
  else sh.

Definition stop_publish (sh : SharedState) : Sent :=
  let latest_block := latest_persisted_block sh in
  broadcast (active_sessions sh)
    (EndStream CodeError (if latest_block <? 0 then 0 else as_u64 latest_block)).

(** ** Streaming one block *)
Definition is_header (i : BlockItem) : bool :=
  match i with Some (IBlockHeader _) => true | _ => false end.
Definition is_proof (i : BlockItem) : bool :=
  match i with Some (IBlockProof _) => true | _ => false end.

(** An item that neither starts nor completes a block. *)
Definition body_item (i : BlockItem) : Prop := is_header i = false ∧ is_proof i = false.

Section stream.
Context {CODEC : Codec} {CLAWS : CodecLaws}.

(** A session that receives the sets one after the other, alone. *)
Fixpoint stream_sets (max_items : Z) (sh : SharedState) (s : Session)
    (sets : list (list BlockItem)) : Outcome :=
  match sets with
  | [] => MkOutcome s sh [] Continue
  | l :: sets =>
      let o := handle_request max_items (latest_persisted_block sh) (block_winners sh)
                 sh s (ReqBlockItems l) in
      match o_next o with
      | Continue =>
          let o' := stream_sets max_items (o_shared o) (o_session o) sets in
          MkOutcome (o_session o') (o_shared o') (o_responses o ++ o_responses o') (o_next o')
      | _ => o
      end
  end.

Lemma handle_accept_body sh s l :
  Forall (λ i, is_proof i = false) l →
  handle_accept sh s l = MkOutcome (set_buffer s (item_buffer s ++ l)) sh [] Continue.
Proof.
  intros H. revert s. induction H as [|i l Hi _ IH]; intros s; cbn.
  - rewrite app_nil_r. by destruct s.
  - destruct i as [[]|]; try done; rewrite IH; cbn; by rewrite <-app_assoc.
Qed.

Lemma handle_accept_proof sh s l p rest :
  Forall (λ i, is_proof i = false) l →
  handle_accept sh s (l ++ Some (IBlockProof p) :: rest)
  = complete_block sh (set_buffer s (item_buffer s ++ l ++ [Some (IBlockProof p)])).
Proof.
  intros H. revert s. induction H as [|i l Hi _ IH]; intros s; cbn; [done|].
  destruct i as [[]|]; try done; rewrite IH; cbn; by rewrite <-app_assoc.
Qed.

Lemma first_header_body l : Forall (λ i, is_header i = false) l → first_header l = None.
Proof. induction 1 as [|[[]|] l]; cbn; try done. Qed.

Lemma complete_block_fits sh s : fits (MkBlock (item_buffer s)) →
  o_next (complete_block sh s) =
    AwaitBlock (as_u64 (current_block_number s)) (MkBlock (item_buffer s)) ∧
  o_shared (complete_block sh s) = sh ∧ o_responses (complete_block sh s) = [].
Proof. intros H. unfold complete_block. cbn. by rewrite encode_block_ok. Qed.

(** A session in the middle of the block it won. *)
Definition streaming (sh : SharedState) (s : Session) : Prop :=
  current_block_action s = Some Accept ∧
  block_winners sh !! as_u64 (current_block_number s) = Some (id s).

Lemma handle_items_streaming max sh s l :
  streaming sh s → l ≠ [] → Z.of_nat (length l) ≤ max →
  Forall (λ i, is_header i = false) l →
  handle_request max (latest_persisted_block sh) (block_winners sh) sh s (ReqBlockItems l)
  = handle_accept sh (set_action (add_counts s 1 0 0) Accept) l.
Proof.
  intros [Ha Hw] Hne Hmax Hh. cbn. unfold handle_block_items.
  rewrite first_header_body by done. destruct l as [|i l]; [done|].
  unfold validate_block_items. destruct (Z.ltb_spec max (Z.of_nat (length (i :: l)))); [lia|].
  cbn. rewrite Ha. cbn. unfold get_action_for_currently_streaming. cbn.
  by rewrite Z.eqb_refl, Hw, decide_True.
Qed.

(** The set that opens a block, received by a free session that wins it. *)
Definition opened (s : Session) (h : BlockHeader) : Session :=
  set_buffer (set_action (set_state (set_current (add_counts s 1 0 0)
    (as_i64 (header_number h))) SPrimary) Accept) [Some (IBlockHeader h)].
Definition won (sh : SharedState) (s : Session) (n : Z) : SharedState :=
  set_winners sh (<[n := id s]> (block_winners sh)).

Lemma handle_items_opening max sh s h l :
  Z.of_nat (length (Some (IBlockHeader h) :: l)) ≤ max → item_buffer s = [] →
  is_u64 (header_number h) → latest_persisted_block sh < as_i64 (header_number h) →
  block_winners sh !! header_number h = None →
  handle_request max (latest_persisted_block sh) (block_winners sh) sh s
    (ReqBlockItems (Some (IBlockHeader h) :: l))
  = handle_accept (won sh s (header_number h)) (opened s h) l ∧
  streaming (won sh s (header_number h)) (opened s h).
Proof.
  intros Hl Hbuf Hu Hlat Hwin. split.
  - cbn -[handle_accept]. unfold handle_block_items, validate_block_items.
    destruct (Z.ltb_spec max (Z.of_nat (length (Some (IBlockHeader h) :: l)))); [lia|].
    cbn [first_header]. unfold get_action_for_block, get_action_for_header.
    destruct (Z.ltb_spec (as_i64 (header_number h)) (latest_persisted_block sh)); [lia|].
    destruct (Z.eqb_spec (as_i64 (header_number h)) (latest_persisted_block sh)); [lia|].
    rewrite !as_u64_as_i64, Hwin by done. unfold run_action, opened, won. cbn.
    by rewrite Hbuf.
  - split; [done|]. cbn. rewrite as_u64_as_i64 by done. apply lookup_insert_eq.
Qed.

(** Splits the items of one set off the rest of the block. *)
Lemma split_body {A} (l rest body : list A) p :
  l ++ rest = body ++ [p] →
  (rest = [] ∧ l = body ++ [p]) ∨ ∃ body', body = l ++ body' ∧ rest = body' ++ [p].
Proof.
  destruct (list_eq_nil_dec rest) as [->|Hne]; [rewrite app_nil_r; by left|].
  intros E. right. destruct (exists_last Hne) as (r & q & ->).
  rewrite app_assoc in E. apply app_inj_tail in E as [<- ->]. by exists r.
Qed.

Lemma stream_rest max sets sh s body p :
  streaming sh s → concat sets = body ++ [Some (IBlockProof p)] →
  Forall (λ l, l ≠ [] ∧ Z.of_nat (length l) ≤ max) sets → Forall body_item body →
  fits (MkBlock (item_buffer s ++ body ++ [Some (IBlockProof p)])) →
  let o := stream_sets max sh s sets in
  o_next o = AwaitBlock (as_u64 (current_block_number s))
               (MkBlock (item_buffer s ++ body ++ [Some (IBlockProof p)])) ∧
  o_shared o = sh ∧ o_responses o = [].
Proof.
  intros Hst Hc Hs. revert s body Hst Hc. induction Hs as [|l sets [Hne Hl] Hs IH];
    intros s body Hst Hc Hb Hfit.
  { destruct body; discriminate. }
  cbn [concat] in Hc. cbn [stream_sets]. apply split_body in Hc as [[Hr ->]|(body' & -> & Hr)].
  - rewrite handle_items_streaming; [|done..|].
    + rewrite handle_accept_proof by (eapply Forall_impl; [done|]; by intros ? [_ ?]).
      set (s1 := set_buffer _ _). destruct (complete_block_fits sh s1 Hfit) as (E1 & E2 & E3).
      rewrite E1. done.
    + apply Forall_app. split; [eapply Forall_impl; [done|]; by intros ? [? _]|by constructor].
  - apply Forall_app in Hb as [Hbl Hb].
    rewrite handle_items_streaming by
      (done || (eapply Forall_impl; [done|]; by intros ? [? _])).
    rewrite handle_accept_body by (eapply Forall_impl; [done|]; by intros ? [_ ?]).
    cbn [o_next o_shared o_session o_responses].
    set (s1 := set_buffer _ _).
    destruct (IH s1 body') as (E1 & E2 & E3).
    + by destruct Hst.
    + done.
    + done.
    + subst s1. cbn. by rewrite <-!app_assoc in *.
    + rewrite E1, E2, E3. subst s1. cbn. by rewrite <-!app_assoc.
Qed.
End stream.

(** ** The end of a session *)
Lemma foldl_delete_lookup {A} (w : gmap Z A) (l : list Z) n :
  foldl (λ w n, delete n w) w l !! n = if decide (n ∈ l) then None else w !! n.
Proof.
  revert w. induction l as [|k l IH]; intros w; [done|]. cbn. rewrite IH.
  destruct (decide (n ∈ l)) as [H|H].
  - by rewrite decide_True by (by right).
  - destruct (decide (n = k)) as [->|Hne].
    + by rewrite lookup_delete_eq, decide_True by (by left).
    + rewrite lookup_delete_ne, decide_False; [done| |done]. by intros [|]%elem_of_cons.
Qed.

Lemma elem_of_affected sh sid n :
  n ∈ affected_blocks sh sid ↔ block_winners sh !! n = Some sid.
Proof.
  unfold affected_blocks. rewrite list_elem_of_fmap. split.
  - intros ([k v] & -> & [Hv Hin%elem_of_map_to_list]%list_elem_of_filter).
    cbn in *. by subst.
  - intros H. exists (n, sid). split; [done|]. apply list_elem_of_filter.
    split; [done|]. by apply elem_of_map_to_list.
Qed.

Lemma elem_of_broadcast r msg sid m :
  (sid, m) ∈ broadcast r msg ↔ sid ∈ r ∧ m = msg.
Proof.
  unfold broadcast. rewrite list_elem_of_fmap. setoid_rewrite elem_of_elements. naive_solver.
Qed.

Lemma end_session_winners sh sid n :
  block_winners (end_session sh sid).1 !! n =
  if decide (block_winners sh !! n = Some sid) then None else block_winners sh !! n.
Proof.
  cbn. rewrite foldl_delete_lookup.
  do 2 case_decide; try done; rewrite elem_of_affected in *; tauto.
Qed.
