(* ===== verification/Ingest.v ===== *)
(** Ingestion: the publisher sessions of the publish plugin and the block pipeline
    behind them, interleaved.

    Any number of sessions run at once.  A request handler is one step up to the
    point where it waits; the loads it makes of the shared state may be stale by
    then, so they are arbitrary in the step.  The wait is a step of its own, after
    the subscription to the broadcast channels. *)
From S2P Require Import Prelude Config Block Core Pipeline Publish.

(** What a session's task is doing. *)
Record Await := MkAwait {
  aw_number : Z;
  aw_key : Uuid;
  aw_subscribed : option (nat * nat);
}.
Inductive Phase := Idle | Waiting (a : Await) | Ended.

Record Ingest {S : Type} := MkIngest {
  ig_shared : SharedState;
  ig_sessions : gmap Uuid (Session * Phase);
  ig_pipeline : Pipeline S;
  ig_sent : Sent;
}.
Arguments Ingest S : clear implicits.
Arguments MkIngest {S}.

Section ingest.
Context {S : Type} {READER : BlockReader S} {WRITER : BlockWriter S}
  {CODEC : Codec} {STORE : BlockStore S}.
Implicit Types (ig : Ingest S) (pub : gmap Uuid Block).

Definition put_session ig (sid : Uuid) (s : Session) (ph : Phase) (sh : SharedState)
    (sent : Sent) : Ingest S :=
  MkIngest sh (<[sid := (s, ph)]> (ig_sessions ig)) (ig_pipeline ig) (ig_sent ig ++ sent).

Definition with_pipeline ig (pl : Pipeline S) : Ingest S :=
  MkIngest (ig_shared ig) (ig_sessions ig) pl (ig_sent ig).
Definition with_shared ig (sh : SharedState) : Ingest S :=
  MkIngest sh (ig_sessions ig) (ig_pipeline ig) (ig_sent ig).

(** The service loop after [handle_request] returned [o]: a complete block goes
    into the cache under [key] and its event into the channel. *)
Definition after_request ig (sid : Uuid) (o : Outcome) (key : Uuid) (now : Z) : Ingest S :=
  let sent := (λ r, (sid, r)) <$> o_responses o in
  match o_next o with
  | Continue => put_session ig sid (o_session o) Idle (o_shared o) sent
  | Terminate => put_session ig sid (o_session o) Ended (o_shared o) sent
  | AwaitBlock n b =>
      with_pipeline (put_session ig sid (o_session o) (Waiting (MkAwait n key None))
                       (o_shared o) sent)
        (publish (ig_pipeline ig) key now n b)
  end.

Definition after_wait ig (sid : Uuid) (s : Session) (result : WaitResult) : Ingest S :=
  let '(s, sh, sent, ended) := finish_block (ig_shared ig) s result in
  put_session ig sid s (if ended then Ended else Idle) sh sent.

Definition after_end ig (sid : Uuid) : Ingest S :=
  let '(sh, sent) := end_session (ig_shared ig) sid in
  MkIngest sh (delete sid (ig_sessions ig)) (ig_pipeline ig) (ig_sent ig ++ sent).

(** The notices a receiver that subscribed at [i], [j] can have seen. *)
Definition visible (pl : Pipeline S) (i j : nat) (received : list Notice) : Prop :=
  Forall (λ x, match x with
               | NFailed e => e ∈ drop i (pl_failed pl)
               | NPersisted e => e ∈ drop j (pl_persisted pl)
               end) received.

(** A publisher that finishes a block before it starts the next. *)
Definition well_behaved (s : Session) (r : PublishRequest) : Prop :=
  match r with
  | ReqBlockItems l => first_header l = None ∨ item_buffer s = []
  | _ => True
  end.

(** [ingest_run max ve thr pub ig]: [ig] is reachable, with the blocks of [pub]
    handed to the pipeline.  The winner cleanup runs only while no block in
    flight is more than [thr] behind the latest one. *)
Inductive ingest_run (max_items : Z) (ve : bool) (thr : Z)
    : gmap Uuid Block → Ingest S → Prop :=
| ingest_init s m latest :
    holds s m → is_i64 latest →
    ingest_run max_items ve thr ∅
      (MkIngest (MkShared ∅ latest ∅) ∅ (MkPipeline Cache.new s [] [] [] []) [])
| ingest_connect pub ig sid :
    ingest_run max_items ve thr pub ig → ig_sessions ig !! sid = None →
    ingest_run max_items ve thr pub
      (let '(s, sh) := connect (ig_shared ig) sid in put_session ig sid s Idle sh [])
| ingest_request pub ig sid s latest seen r key now :
    ingest_run max_items ve thr pub ig → ig_sessions ig !! sid = Some (s, Idle) →
    well_behaved s r → pub !! key = None →
    let o := handle_request max_items latest seen (ig_shared ig) s r in
    (∀ n b, o_next o = AwaitBlock n b → wf_block b ∧ accepts b) →
    ingest_run max_items ve thr
      (match o_next o with AwaitBlock _ b => <[key := b]> pub | _ => pub end)
      (after_request ig sid o key now)
| ingest_subscribe pub ig sid s a :
    ingest_run max_items ve thr pub ig → ig_sessions ig !! sid = Some (s, Waiting a) →
    aw_subscribed a = None →
    ingest_run max_items ve thr pub
      (put_session ig sid s (Waiting (MkAwait (aw_number a) (aw_key a)
         (Some (length (pl_failed (ig_pipeline ig)), length (pl_persisted (ig_pipeline ig))))))
         (ig_shared ig) [])
| ingest_wake pub ig sid s a i j received :
    ingest_run max_items ve thr pub ig → ig_sessions ig !! sid = Some (s, Waiting a) →
    aw_subscribed a = Some (i, j) → visible (ig_pipeline ig) i j received →
    ingest_run max_items ve thr pub
      (after_wait ig sid s (await_result (aw_number a) (aw_key a) received))
| ingest_end pub ig sid s ph :
    ingest_run max_items ve thr pub ig → ig_sessions ig !! sid = Some (s, ph) →
    (∀ a, ph ≠ Waiting a) →
    ingest_run max_items ve thr pub (after_end ig sid)
| ingest_cleanup pub ig :
    ingest_run max_items ve thr pub ig →
    (∀ sid s ph, ig_sessions ig !! sid = Some (s, ph) → ph ≠ Ended →
       current_block_action s = Some Accept →
       latest_persisted_block (ig_shared ig) ≤ as_u64 (current_block_number s) + thr) →
    ingest_run max_items ve thr pub (with_shared ig (cleanup_winners (ig_shared ig) thr))
| ingest_verify pub ig :
    ingest_run max_items ve thr pub ig → ve = true →
    ingest_run max_items ve thr pub (with_pipeline ig (verifier_step (ig_pipeline ig)))
| ingest_persist pub ig :
    ingest_run max_items ve thr pub ig →
    ingest_run max_items ve thr pub (with_pipeline ig (persist_step ve (ig_pipeline ig)))
| ingest_expire pub ig now :
    ingest_run max_items ve thr pub ig →
    ingest_run max_items ve thr pub (with_pipeline ig (cleanup_step now (ig_pipeline ig)))
| ingest_others pub ig s :
    ingest_run max_items ve thr pub ig → keeps (pl_store (ig_pipeline ig)) s →
    ingest_run max_items ve thr pub (with_pipeline ig (with_store (ig_pipeline ig) s)).
End ingest.

(** ** The invariant of a session between two requests *)

(** The buffer starts with the header of the current block. *)
Definition header_first (cur : Z) (buf : list BlockItem) : Prop :=
  ∃ h rest, buf = Some (IBlockHeader h) :: rest ∧ as_i64 (header_number h) = cur.

Definition idle_ok (w : gmap Z Uuid) (s : Session) : Prop :=
  (current_block_action s = None ∧ item_buffer s = []) ∨
  (current_block_action s = Some Accept ∧
   w !! as_u64 (current_block_number s) = Some (id s) ∧
   header_first (current_block_number s) (item_buffer s)).

(** The table after a handler of session [sid]: at most one vacant block was won. *)
Definition winners_step (sid : Uuid) (sh sh' : SharedState) : Prop :=
  sh' = sh ∨
  ∃ n, block_winners sh !! n = None ∧
       sh' = set_winners sh (<[n := sid]> (block_winners sh)).

Definition no_ack (r : Response) : Prop :=
  match r with Acknowledgement _ => False | _ => True end.

Definition next_ok (o : Outcome) (sid : Uuid) : Prop :=
  match o_next o with
  | Continue => idle_ok (block_winners (o_shared o)) (o_session o)
  | Terminate => True
  | AwaitBlock n b =>
      current_block_action (o_session o) = Some Accept ∧
      n = as_u64 (current_block_number (o_session o)) ∧
      block_winners (o_shared o) !! n = Some sid ∧
      (wf_block b → get_block_number b = Ok n)
  end.

Section sessions.
Context {CODEC : Codec}.

Lemma header_first_number cur buf : header_first cur buf → wf_block (MkBlock buf) →
  get_block_number (MkBlock buf) = Ok (as_u64 cur).
Proof.
  intros (h & rest & -> & <-) Hwf. unfold wf_block in Hwf. cbn in Hwf.
  apply Forall_cons in Hwf as [Hh _]. cbn. by rewrite as_u64_as_i64.
Qed.

Lemma complete_block_ok sh s :
  current_block_action s = Some Accept →
  block_winners sh !! as_u64 (current_block_number s) = Some (id s) →
  header_first (current_block_number s) (item_buffer s) →
  let o := complete_block sh s in
  id (o_session o) = id s ∧ o_shared o = sh ∧ o_responses o = [] ∧ next_ok o (id s).
Proof.
  intros Ha Hw Hh. unfold complete_block. cbn.
  destruct (encode_block _); cbn; split_and!; try done. by apply header_first_number.
Qed.

Lemma handle_accept_ok sh s l :
  current_block_action s = Some Accept →
  block_winners sh !! as_u64 (current_block_number s) = Some (id s) →
  header_first (current_block_number s) (item_buffer s) →
  let o := handle_accept sh s l in
  id (o_session o) = id s ∧ o_shared o = sh ∧ o_responses o = [] ∧ next_ok o (id s).
Proof.
  revert s. induction l as [|i l IH]; intros s Ha Hw Hh; cbn.
  { split_and!; try done. right. by split_and!. }
  assert (header_first (current_block_number s) (item_buffer s ++ [i])) as Hh'.
  { destruct Hh as (h & rest & -> & Hc). by exists h, (rest ++ [i]). }
  destruct i as [[| | |]|]; try (by apply (IH (set_buffer s (item_buffer s ++ _)))).
  by apply (complete_block_ok sh (set_buffer s (item_buffer s ++ _))).
Qed.

(** The first set of a block, just accepted. *)
Lemma handle_accept_first sh s h l :
  current_block_action s = Some Accept → item_buffer s = [] →
  block_winners sh !! as_u64 (current_block_number s) = Some (id s) →
  as_i64 (header_number h) = current_block_number s →
  let o := handle_accept sh s (Some (IBlockHeader h) :: l) in
  id (o_session o) = id s ∧ o_shared o = sh ∧ o_responses o = [] ∧ next_ok o (id s).
Proof.
  intros Ha Hb Hw Hc. apply (handle_accept_ok sh (set_buffer s (item_buffer s ++ [_])));
    cbn; try done. rewrite Hb. by exists h, [].
Qed.

(** The other actions end the session or reset it. *)
Lemma run_action_other sh s a l : a ≠ Accept →
  let o := run_action sh s a l in
  id (o_session o) = id s ∧ o_shared o = sh ∧ Forall no_ack (o_responses o) ∧ next_ok o (id s).
Proof.
  intros Ha. destruct a; try done; cbn; split_and!; try done; try by repeat constructor.
  all: left; done.
Qed.

(** What [get_action_for_header] may do. *)
Lemma header_action latest seen sh s n a s' sh' :
  get_action_for_header latest seen sh s n = (a, s', sh') →
  id s' = id s ∧ item_buffer s' = item_buffer s ∧ winners_step (id s) sh sh' ∧
  (a = Accept → current_block_number s' = n ∧ block_winners sh' !! as_u64 n = Some (id s)).
Proof.
  unfold get_action_for_header. intros E. unfold winners_step.
  repeat case_match; simplify_eq; cbn; split_and!; try done; try by left.
  - right. by eexists.
  - intros _. by rewrite lookup_insert_eq.
Qed.

Lemma handle_items_ok max latest seen sh s l :
  idle_ok (block_winners sh) s → well_behaved s (ReqBlockItems l) →
  let o := handle_block_items max latest seen sh s l in
  id (o_session o) = id s ∧ winners_step (id s) sh (o_shared o) ∧
  Forall no_ack (o_responses o) ∧ next_ok o (id s).
Proof.
  intros Hidle Hwb. unfold handle_block_items.
  destruct (validate_block_items _ _ _) as [[]|e] eqn:Ev.
  2: { cbn. split_and!; [done|by left|by repeat constructor|done]. }
  set (s1 := add_counts s 1 0 0).
  assert (∀ a s' sh', a ≠ Accept → id s' = id s → winners_step (id s) sh sh' →
    let o := run_action sh' (set_action s' a) a l in
    id (o_session o) = id s ∧ winners_step (id s) sh (o_shared o) ∧
    Forall no_ack (o_responses o) ∧ next_ok o (id s)) as Hother.
  { intros a s' sh' Ha Hid Hw o.
    destruct (run_action_other sh' (set_action s' a) a l Ha) as (H1 & H2 & H3 & H4).
    subst o. cbn in H1, H4. rewrite H1, H2. rewrite Hid in *. by split_and!. }
  assert (∀ s' sh', id s' = id s → winners_step (id s) sh sh' →
    current_block_action s' = Some Accept →
    block_winners sh' !! as_u64 (current_block_number s') = Some (id s) →
    (header_first (current_block_number s') (item_buffer s') ∨
     item_buffer s' = [] ∧ ∃ h l', l = Some (IBlockHeader h) :: l' ∧
       as_i64 (header_number h) = current_block_number s') →
    let o := run_action sh' s' Accept l in
    id (o_session o) = id s ∧ winners_step (id s) sh (o_shared o) ∧
    Forall no_ack (o_responses o) ∧ next_ok o (id s)) as Haccept.
  { intros s' sh' Hid Hw Ha Hwin Hbuf o. rewrite <-Hid in Hwin.
    assert (id (o_session o) = id s' ∧ o_shared o = sh' ∧ o_responses o = [] ∧
            next_ok o (id s')) as (H1 & H2 & H3 & H4).
    { destruct Hbuf as [Hh|(Hb & h & l' & -> & Hc)];
        [by apply handle_accept_ok|by apply handle_accept_first]. }
    rewrite H1, H2, H3, <-Hid. rewrite <-Hid in Hw. by split_and!. }
  destruct (first_header l) as [num|] eqn:Eh.
  - cbn [get_action_for_block].
    destruct (get_action_for_header latest seen sh s1 num) as [[a s'] sh'] eqn:E.
    destruct (header_action _ _ _ _ _ _ _ _ E) as (Hid & Hb & Hw & Hacc).
    destruct (decide (a = Accept)) as [->|Hne]; [|by apply Hother].
    destruct (Hacc eq_refl) as [Hc Hwin]. destruct Hwb as [|Hbuf]; [congruence|].
    apply Haccept; cbn; [done|done|done|by rewrite Hc|]. right. split; [by rewrite Hb|].
    unfold validate_block_items in Ev. destruct l as [|[[h| | |]|] l]; cbn in Ev; try done;
      try (by destruct (_ <? _) in Ev).
    exists h, l. cbn in Eh. rewrite Hc. by injection Eh as <-.
  - change (current_block_action s1) with (current_block_action s).
    destruct Hidle as [[Ha Hb]|(Ha & Hwin & Hh)]; rewrite Ha; cbn [get_action_for_block].
    + apply Hother; [done|done|by left].
    + destruct (decide (get_action_for_currently_streaming seen s1
        (current_block_number s1) = Accept)) as [->|Hne].
      * apply Haccept; cbn; [done|by left|done|done|by left].
      * apply Hother; [done|done|by left].
Qed.

(** Every request handler keeps the invariant of an idle session. *)
Lemma handle_request_ok max latest seen sh s r :
  idle_ok (block_winners sh) s → well_behaved s r →
  let o := handle_request max latest seen sh s r in
  id (o_session o) = id s ∧ winners_step (id s) sh (o_shared o) ∧
  Forall no_ack (o_responses o) ∧ next_ok o (id s).
Proof.
  intros Hidle Hwb. destruct r as [l|n|]; cbn.
  - by apply handle_items_ok.
  - unfold handle_block_end. destruct Hidle as [[Ha Hb]|(Ha & Hwin & Hh)].
    + rewrite decide_True by (by rewrite Ha). cbn.
      split_and!; [done|by left|by repeat constructor|done].
    + rewrite decide_False by (rewrite Ha; tauto). destruct (negb _).
      * cbn. split_and!; [done|by left|by repeat constructor|done].
      * destruct (complete_block_ok sh s Ha Hwin Hh) as (H1 & H2 & H3 & H4).
        rewrite H1, H2, H3. split_and!; [done|by left|done|done].
  - split_and!; [done|by left|done|done].
Qed.
End sessions.

(** ** The invariant of the system *)
Definition phase_ok (w : gmap Z Uuid) (s : Session) (ph : Phase) : Prop :=
  match ph with
  | Idle => idle_ok w s
  | Waiting a =>
      current_block_action s = Some Accept ∧
      aw_number a = as_u64 (current_block_number s) ∧ w !! aw_number a = Some (id s)
  | Ended => True
  end.

Lemma phase_ok_winners w w' s ph :
  (∀ n, w !! n = Some (id s) → w' !! n = Some (id s)) → phase_ok w s ph → phase_ok w' s ph.
Proof.
  intros H. destruct ph; cbn; [|naive_solver|done].
  intros [?|(? & ? & ?)]; [by left|right]. split_and!; auto.
Qed.

Lemma await_persisted n k received : await_result n k received = WPersisted →
  ∃ e, NPersisted e ∈ received ∧ bp_block_number e = n ∧ bp_cache_key e = k.
Proof.
  induction received as [|[e|e] l IH]; cbn; [done|..].
  - destruct (_ && _); [done|]. intros (e' & ? & ?)%IH. exists e'. split; [by right|done].
  - destruct ((bp_block_number e =? n) && bool_decide (bp_cache_key e = k)) eqn:E.
    + intros _. apply andb_true_iff in E as [E1%Z.eqb_eq E2%bool_decide_eq_true].
      exists e. split; [by left|done].
    + intros (e' & ? & ?)%IH. exists e'. split; [by right|done].
Qed.

Section ingest_theory.
Context {S : Type} {READER : BlockReader S} {WRITER : BlockWriter S}
  {CODEC : Codec} {CLAWS : CodecLaws} {STORE : BlockStore S}.
Implicit Types (ig : Ingest S) (pub : gmap Uuid Block) (pl : Pipeline S).

Definition acked_ok pl (sent : Sent) : Prop :=
  ∀ sid n, (sid, Acknowledgement n) ∈ sent →
    ∃ e, e ∈ pl_persisted pl ∧ bp_block_number e = n.

Record ig_inv pub ig : Prop := {
  igi_pipeline : pl_inv pub (ig_pipeline ig);
  igi_session : ∀ sid s ph, ig_sessions ig !! sid = Some (s, ph) →
    id s = sid ∧ phase_ok (block_winners (ig_shared ig)) s ph;
  igi_winner : ∀ n sid, block_winners (ig_shared ig) !! n = Some sid →
    is_Some (ig_sessions ig !! sid);
  igi_active : active_sessions (ig_shared ig) = dom (ig_sessions ig);
  igi_ack : acked_ok (ig_pipeline ig) (ig_sent ig);
}.

Lemma acked_ok_mono pl pl' sent :
  (∀ e, e ∈ pl_persisted pl → e ∈ pl_persisted pl') → acked_ok pl sent → acked_ok pl' sent.
Proof. intros H Ha sid n (e & He & Hn)%Ha. exists e. auto. Qed.

Lemma acked_ok_app pl s1 s2 : acked_ok pl s1 → acked_ok pl s2 → acked_ok pl (s1 ++ s2).
Proof. intros H1 H2 sid n [H|H]%elem_of_app; [by apply (H1 sid)|by apply (H2 sid)]. Qed.

Lemma acked_ok_none pl (l : list Response) (sid : Uuid) :
  Forall no_ack l → acked_ok pl ((λ r, (sid, r)) <$> l).
Proof.
  intros H sid' n (r & [= -> <-] & Hr)%list_elem_of_fmap.
  rewrite Forall_forall in H. by specialize (H _ Hr).
Qed.

Lemma acked_ok_broadcast pl r msg : no_ack msg → acked_ok pl (broadcast r msg).
Proof. intros H sid n [_ <-]%elem_of_broadcast. done. Qed.

(** A step of session [sid]: it may only take away or give winners of its own. *)
Lemma put_inv pub pub' ig pl' sid s ph sh sent :
  ig_inv pub ig → pl_inv pub' pl' →
  (∀ e, e ∈ pl_persisted (ig_pipeline ig) → e ∈ pl_persisted pl') →
  id s = sid → phase_ok (block_winners sh) s ph →
  (∀ n x, x ≠ sid → block_winners (ig_shared ig) !! n = Some x ↔ block_winners sh !! n = Some x) →
  active_sessions sh = {[sid]} ∪ active_sessions (ig_shared ig) →
  acked_ok pl' sent →
  ig_inv pub' (with_pipeline (put_session ig sid s ph sh sent) pl').
Proof.
  intros [Hpl Hse Hwi Hac Hak] Hpl' Hmono Hid Hph Hw Hact Hsent. constructor; cbn.
  - done.
  - intros sid' s' ph' [[<- [= <- <-]]|[Hne Hl]]%lookup_insert_Some; [done|].
    destruct (Hse _ _ _ Hl) as [Hi Hp]. split; [done|].
    eapply phase_ok_winners; [|done]. intros n. rewrite Hi. apply Hw. congruence.
  - intros n x Hx. destruct (decide (x = sid)) as [->|Hne].
    + by rewrite lookup_insert_eq.
    + rewrite lookup_insert_ne by congruence. eapply Hwi. by apply Hw.
  - rewrite dom_insert_L, Hact, Hac. done.
  - apply acked_ok_app; [|done]. by eapply acked_ok_mono.
Qed.

Lemma put_session_pipeline ig sid s ph sh sent :
  with_pipeline (put_session ig sid s ph sh sent) (ig_pipeline ig)
  = put_session ig sid s ph sh sent.
Proof. done. Qed.

Lemma winners_step_others sid sh sh' : winners_step sid sh sh' →
  active_sessions sh' = active_sessions sh ∧
  ∀ n x, x ≠ sid → block_winners sh !! n = Some x ↔ block_winners sh' !! n = Some x.
Proof.
  intros [->|(k & Hk & ->)]; [done|]. split; [done|]. intros n x Hx. cbn.
  rewrite lookup_insert_Some. destruct (decide (k = n)) as [->|]; [|naive_solver].
  rewrite Hk. naive_solver.
Qed.

Lemma active_self ig pub sid x : ig_inv pub ig → ig_sessions ig !! sid = Some x →
  active_sessions (ig_shared ig) = {[sid]} ∪ active_sessions (ig_shared ig).
Proof.
  intros Hinv Hs. rewrite (igi_active _ _ Hinv). apply elem_of_dom_2 in Hs. set_solver.
Qed.

Lemma request_inv pub ig sid s max latest seen r key now :
  ig_inv pub ig → ig_sessions ig !! sid = Some (s, Idle) → well_behaved s r →
  pub !! key = None →
  let o := handle_request max latest seen (ig_shared ig) s r in
  (∀ n b, o_next o = AwaitBlock n b → wf_block b ∧ accepts b) →
  ig_inv (match o_next o with AwaitBlock _ b => <[key := b]> pub | _ => pub end)
    (after_request ig sid o key now).
Proof.
  intros Hinv Hs Hwb Hkey o Hacc. pose proof (active_self _ _ _ _ Hinv Hs) as Hact.
  pose proof (igi_pipeline _ _ Hinv) as Hpl.
  destruct (igi_session _ _ Hinv _ _ _ Hs) as [<- Hidle]. cbn in Hidle.
  destruct (handle_request_ok max latest seen (ig_shared ig) s r Hidle Hwb)
    as (Hid & Hw & Hno & Hnext). fold o in Hid, Hw, Hno, Hnext.
  destruct (winners_step_others _ _ _ Hw) as [Ha' Hw'].
  unfold after_request, next_ok in *. destruct (o_next o) as [| |n b] eqn:En.
  - rewrite <-put_session_pipeline. apply (put_inv pub); try done; [congruence|].
    by apply acked_ok_none.
  - rewrite <-put_session_pipeline. apply (put_inv pub); try done; [congruence|].
    by apply acked_ok_none.
  - destruct (Hacc n b eq_refl) as [Hwf Hab]. destruct Hnext as (Hac & Hn & Hwin & Hbn).
    apply (put_inv pub); try done.
    + apply publish_inv; auto.
    + cbn. split_and!; [done|done|congruence].
    + congruence.
    + by apply acked_ok_none.
Qed.

Lemma finish_inv pub ig sid s a result :
  ig_inv pub ig → ig_sessions ig !! sid = Some (s, Waiting a) →
  (result = WPersisted →
   ∃ e, e ∈ pl_persisted (ig_pipeline ig) ∧ bp_block_number e = aw_number a) →
  ig_inv pub (after_wait ig sid s result).
Proof.
  intros Hinv Hs Hr. pose proof (active_self _ _ _ _ Hinv Hs) as Hact.
  pose proof (igi_pipeline _ _ Hinv) as Hpl.
  destruct (igi_session _ _ Hinv _ _ _ Hs) as [<- (Ha & Hn & Hw)].
  assert (∀ n x, x ≠ id s → block_winners (ig_shared ig) !! n = Some x ↔
    delete (as_u64 (current_block_number s)) (block_winners (ig_shared ig)) !! n = Some x) as Hd.
  { intros n x Hx. rewrite lookup_delete_Some, <-Hn. split; [|naive_solver].
    intros H. split; [|done]. intros <-. congruence. }
  unfold after_wait, finish_block.
  destruct result as [|reason|]; rewrite <-put_session_pipeline; apply (put_inv pub); try done.
  - by left.
  - intros sid n [_ [= ->]]%elem_of_broadcast. rewrite <-Hn. by apply Hr.
  - intros sid n [[=]|H]%elem_of_cons. by apply elem_of_broadcast in H as [_ ?].
  - by apply acked_ok_broadcast.
Qed.

Lemma connect_inv pub ig sid :
  ig_inv pub ig → ig_sessions ig !! sid = None →
  ig_inv pub (let '(s, sh) := connect (ig_shared ig) sid in put_session ig sid s Idle sh []).
Proof.
  intros Hinv Hs. cbn. rewrite <-put_session_pipeline.
  apply (put_inv pub); try done; [apply Hinv|by left|].
  by intros ? ? ?%elem_of_nil.
Qed.

Lemma end_inv pub ig sid x :
  ig_inv pub ig → ig_sessions ig !! sid = Some x → ig_inv pub (after_end ig sid).
Proof.
  intros [Hpl Hse Hwi Hac Hak] Hs. unfold after_end.
  destruct (end_session (ig_shared ig) sid) as [sh sent] eqn:E.
  assert (∀ n y, block_winners sh !! n = Some y ↔
            y ≠ sid ∧ block_winners (ig_shared ig) !! n = Some y) as Hw.
  { intros n y. change sh with (sh, sent).1. rewrite <-E, end_session_winners.
    case_decide; naive_solver. }
  assert (active_sessions sh = active_sessions (ig_shared ig) ∖ {[sid]} ∧
          acked_ok (ig_pipeline ig) sent) as [Ha Hsent].
  { unfold end_session in E. injection E as <- <-. split; [done|].
    intros sid' n (k & Hk & _)%list_elem_of_bind. by apply elem_of_broadcast in Hk as [_ ?]. }
  constructor; cbn.
  - done.
  - intros sid' s' ph' [Hne Hl]%lookup_delete_Some. destruct (Hse _ _ _ Hl) as [Hi Hp].
    split; [done|]. eapply phase_ok_winners; [|done]. intros n Hn. apply Hw. split; congruence.
  - intros n y [Hy Hn]%Hw. rewrite lookup_delete_ne by congruence. by eapply Hwi.
  - by rewrite dom_delete_L, Ha, Hac.
  - by apply acked_ok_app.
Qed.

Lemma cleanup_winners_lookup sh thr n x : 0 ≤ thr → is_i64 (latest_persisted_block sh) →
  block_winners (cleanup_winners sh thr) !! n = Some x ↔
  block_winners sh !! n = Some x ∧
  (0 < latest_persisted_block sh → thr < latest_persisted_block sh →
   latest_persisted_block sh - thr ≤ n).
Proof.
  intros Ht Hl. unfold cleanup_winners.
  destruct (Z.ltb_spec 0 (latest_persisted_block sh)) as [H0|H0]; cbn; [|naive_solver lia].
  rewrite as_u64_small by u64_lia.
  destruct (Z.ltb_spec thr (latest_persisted_block sh)) as [H1|H1]; cbn; [|naive_solver lia].
  rewrite map_lookup_filter_Some. cbn. rewrite u64_sub_small by u64_lia. naive_solver.
Qed.

Lemma cleanup_active sh thr :
  active_sessions (cleanup_winners sh thr) = active_sessions sh.
Proof. unfold cleanup_winners. by destruct (_ && _). Qed.

Lemma winners_cleanup_inv pub ig thr :
  ig_inv pub ig → 0 ≤ thr → is_i64 (latest_persisted_block (ig_shared ig)) →
  (∀ sid s ph, ig_sessions ig !! sid = Some (s, ph) → ph ≠ Ended →
     current_block_action s = Some Accept →
     latest_persisted_block (ig_shared ig) ≤ as_u64 (current_block_number s) + thr) →
  ig_inv pub (with_shared ig (cleanup_winners (ig_shared ig) thr)).
Proof.
  intros [Hpl Hse Hwi Hac Hak] Ht Hl Hguard. constructor; cbn; try done.
  - intros sid s ph Hs. destruct (Hse _ _ _ Hs) as [Hi Hp]. split; [done|].
    specialize (Hguard sid s ph Hs). destruct ph as [|a|]; cbn in *.
    + destruct Hp as [|(Ha & Hw & Hh)]; [by left|right]. split_and!; [done| |done].
      apply cleanup_winners_lookup; [done..|]. split; [done|].
      intros. specialize (Hguard ltac:(done) Ha). lia.
    + destruct Hp as (Ha & Hn & Hw). split_and!; [done|done|].
      apply cleanup_winners_lookup; [done..|]. split; [done|].
      intros. specialize (Hguard ltac:(done) Ha). lia.
    + done.
  - intros n sid [Hw _]%cleanup_winners_lookup; [by eapply Hwi|done..].
  - by rewrite cleanup_active.
Qed.

Lemma pipeline_step_inv pub ig pl' :
  ig_inv pub ig → pl_inv pub pl' →
  (∀ e, e ∈ pl_persisted (ig_pipeline ig) → e ∈ pl_persisted pl') →
  ig_inv pub (with_pipeline ig pl').
Proof.
  intros [Hpl Hse Hwi Hac Hak] Hpl' Hm. constructor; cbn; try done. by eapply acked_ok_mono.
Qed.

Lemma verifier_persisted pl : pl_persisted (verifier_step pl) = pl_persisted pl.
Proof.
  unfold verifier_step. destruct (pl_items pl); [done|].
  by destruct (verifier_handle _ _) as [? []].
Qed.

Lemma persist_persisted ve pl e :
  e ∈ pl_persisted pl → e ∈ pl_persisted (persist_step ve pl).
Proof.
  intros He. unfold persist_step. destruct (next_event _ _ _); [|done].
  destruct (process_event _ _ _) as [[??]?]. cbn. apply elem_of_app. by left.
Qed.

(** The latest block of the shared state stays an [i64]. *)
Definition latest_ok ig : Prop := is_i64 (latest_persisted_block (ig_shared ig)).

Lemma as_i64_range x : is_i64 (as_i64 (as_u64 x)).
Proof.
  pose proof (wrap64_u64 x). unfold as_u64, as_i64.
  destruct (Z.ltb_spec (wrap64 x) 9223372036854775808); u64_lia.
Qed.

Lemma handle_request_latest max latest seen sh s r :
  latest_persisted_block (o_shared (handle_request max latest seen sh s r))
  = latest_persisted_block sh.
Proof.
  assert (∀ sh s l, o_shared (handle_accept sh s l) = sh) as Ha.
  { intros sh' s' l. revert s'. induction l as [|[[]|] l IH]; intros s'; cbn; try done.
    unfold complete_block. by destruct (encode_block _). }
  assert (∀ sh s a l, o_shared (run_action sh s a l) = sh) as Hr.
  { intros sh' s' [] l; cbn; try done. }
  destruct r as [l|n|]; cbn; [|unfold handle_block_end, complete_block; by repeat case_match|done].
  unfold handle_block_items. destruct (validate_block_items _ _ _); [|done].
  destruct (first_header l) as [num|]; cbn [get_action_for_block].
  - unfold get_action_for_header. repeat case_match; simplify_eq; by rewrite Hr.
  - unfold get_action_for_block. repeat case_match; simplify_eq; by rewrite Hr.
Qed.

Lemma ingest_run_inv max ve thr pub ig :
  ingest_run max ve thr pub ig → 0 ≤ thr → ig_inv pub ig ∧ latest_ok ig.
Proof.
  intros H Ht. induction H as [s m latest Hm Hl|pub ig sid H [IH Hl] Hs
    |pub ig sid s latest seen r key now H [IH Hl] Hs Hwb Hk o Hacc
    |pub ig sid s a H [IH Hl] Hs Hsub|pub ig sid s a i j received H [IH Hl] Hs Hsub Hvis
    |pub ig sid s ph H [IH Hl] Hs Hph|pub ig H [IH Hl] Hg|pub ig H [IH Hl] Hve
    |pub ig H [IH Hl]|pub ig now H [IH Hl]|pub ig st H [IH Hl] Hk].
  - split; [|done]. constructor; cbn.
    + by eapply init_pl_inv.
    + intros sid s' ph Hx. by rewrite lookup_empty in Hx.
    + intros n sid Hx. by rewrite lookup_empty in Hx.
    + by rewrite dom_empty_L.
    + by intros ? ? ?%elem_of_nil.
  - split; [by apply connect_inv|done].
  - split; [by apply request_inv|]. unfold latest_ok, after_request.
    pose proof (handle_request_latest max latest seen (ig_shared ig) s r) as E. fold o in E.
    destruct (o_next o); cbn; by rewrite E.
  - split; [|done]. rewrite <-put_session_pipeline.
    destruct (igi_session _ _ IH _ _ _ Hs) as [Hid Hp].
    apply (put_inv pub); try done; [apply IH|by eapply active_self|].
    by intros ? ? ?%elem_of_nil.
  - split.
    + eapply finish_inv; [done..|]. intros (e & He & Hn & _)%await_persisted.
      unfold visible in Hvis. rewrite Forall_forall in Hvis. specialize (Hvis _ He).
      exists e. split; [|done]. eapply elem_of_submseteq; [exact Hvis|].
      apply sublist_submseteq, sublist_drop.
    + unfold latest_ok, after_wait, finish_block.
      destruct (await_result _ _ _); cbn; [apply as_i64_range|done..].
  - split; [by eapply end_inv|done].
  - split; [by apply winners_cleanup_inv|]. unfold latest_ok, cleanup_winners. cbn.
    by destruct (_ && _).
  - split; [|done]. apply pipeline_step_inv; [done|by apply verifier_inv, IH|].
    intros e. by rewrite verifier_persisted.
  - split; [|done]. apply pipeline_step_inv; [done|by apply persist_inv, IH|].
    apply persist_persisted.
  - split; [|done]. apply pipeline_step_inv; [done|by apply cleanup_inv, IH|done].
  - split; [|done]. apply pipeline_step_inv; [done|by apply others_inv; [apply IH|]|done].
Qed.
End ingest_theory.
