(* ===== verification/Subscriber.v ===== *)
(** The subscriber plugin: crates/rock-node-subscriber-plugin/src (session.rs,
    error.rs).  A session reads any [BlockReader]; what the outside world does
    during one turn of its loop is a [Turn].  Error texts and logs are left out;
    the metric updates are in [Metrics]. *)
From S2P Require Import Prelude Config Block Core.

(** [subscribe_stream_response::Code], as far as the plugin uses it. *)
Inductive Code :=
| CUnknown | CSuccess | CError | CInvalidStartBlockNumber | CInvalidEndBlockNumber
| CNotAvailable.

#[export] Instance Code_eq_dec : EqDecision Code.
Proof. solve_decision. Defined.

(** ** error.rs: the text that goes with a validation error is only logged. *)
Inductive SubscriberError :=
| Validation (code : Code)
| Persistence (e : Error)
| ClientDisconnected
| StreamLagged
| TimeoutWaitingForBlock (n : Z)
| ServerShutdown
| Internal (msg : string).

Definition to_status_code (e : SubscriberError) : Code :=
  match e with
  | Validation code => code
  | Persistence _ => CError
  | StreamLagged => CError
  | TimeoutWaitingForBlock _ => CError
  | ServerShutdown => CError
  | ClientDisconnected => CError
  | Internal _ => CError
  end.

Definition to_metric_label (e : SubscriberError) : string :=
  match e with
  | Validation code =>
      match code with
      | CInvalidStartBlockNumber => "invalid_start_block"
      | CInvalidEndBlockNumber => "invalid_end_block"
      | CNotAvailable => "not_available"
      | _ => "invalid_request"
      end
  | Persistence _ => "persistence_error"
  | ClientDisconnected => "client_disconnect"
  | StreamLagged => "stream_lagged"
  | TimeoutWaitingForBlock _ => "timeout"
  | ServerShutdown => "server_shutdown"
  | Internal _ => "internal_error"
  end.

(** ** session.rs *)
Record SubscribeStreamRequest := MkSubscribe {
  start_block_number : Z;
  end_block_number : Z;
}.

Inductive StreamResponse :=
| BlockItems (block_items : list BlockItem)
| StatusCode (code : Code).

(** What one [recv] on the persisted-block channel returns. *)
Inductive Recv :=
| REvent (block_number : Z)
| RLagged
| RClosed
| RTimeout.

(** [wait_for_new_block] on the receptions so far; [None]: still waiting. *)
Fixpoint wait_for_new_block (block_number_needed : Z) (recvs : list Recv)
    : option (Result SubscriberError unit) :=
  match recvs with
  | [] => None
  | REvent n :: recvs =>
      if block_number_needed <=? n then Some (Ok tt)
      else wait_for_new_block block_number_needed recvs
  | RLagged :: _ => Some (Ok tt)
  | RClosed :: _ => Some (Err (Internal "Broadcast channel closed"))
  | RTimeout :: _ => Some (Err (TimeoutWaitingForBlock block_number_needed))
  end.

(** One turn of the loop of [execute_stream]: a shutdown signal, or the store as
    the session reads it, whether the client still receives, and what arrives on
    the channel if the session waits. *)
Record Turn {S : Type} := MkTurn {
  turn_shutdown : bool;
  turn_store : S;
  turn_connected : bool;
  turn_recvs : list Recv;
}.
Arguments Turn S : clear implicits.
Arguments MkTurn {S}.

Section subscriber.
Context {S : Type} {READER : BlockReader S} {CODEC : Codec}.

Definition lift_read {A} (r : Result Error A) : Result SubscriberError A :=
  match r with Ok a => Ok a | Err e => Err (Persistence e) end.

Definition validate_and_check_fulfillment (cfg : SubscriberServiceConfig)
    (request : SubscribeStreamRequest) (block_reader : S) : Result SubscriberError Z :=
  let req_start := start_block_number request in
  let req_end := end_block_number request in
  earliest ← lift_read (get_earliest_persisted_block_number block_reader);
  latest ← lift_read (get_latest_persisted_block_number block_reader);
  let max_future_lookahead := max_future_block_lookahead cfg in
  if negb (req_end =? u64_MAX) && negb (req_start =? u64_MAX) && (req_end <? req_start)
  then Err (Validation CInvalidEndBlockNumber)
  else
    let start_block := if req_start =? u64_MAX then default 0 earliest else req_start in
    if (req_start =? u64_MAX) && (req_end =? u64_MAX) then Ok start_block
    else if (req_start =? u64_MAX) && negb (req_end =? u64_MAX) then
      match earliest with
      | Some earliest_num =>
          if earliest_num <=? req_end then Ok earliest_num
          else Err (Validation CNotAvailable)
      | None => Err (Validation CNotAvailable)
      end
    else
      _ ← match earliest with
          | Some earliest_num =>
              if start_block <? earliest_num then Err (Validation CInvalidStartBlockNumber)
              else Ok tt
          | None => Ok tt
          end;
      _ ← match latest with
          | Some latest_num =>
              let max_permitted_start := u64_add latest_num max_future_lookahead in
              if max_permitted_start <? start_block then Err (Validation CNotAvailable)
              else Ok tt
          | None => Ok tt
          end;
      Ok start_block.

Definition send_block (connected : bool) (block_bytes : bytes)
    : Result SubscriberError (list BlockItem) :=
  match decode_block block_bytes with
  | Err e => Err (Persistence e)
  | Ok block => if connected then Ok (items block) else Err ClientDisconnected
  end.

(** The set it sends, if any, and what it returns; [None] while it waits. *)
Definition process_next_block (request : SubscribeStreamRequest) (t : Turn S)
    (block_to_send : Z) (is_finite : bool)
    : list StreamResponse * option (Result SubscriberError (option Z)) :=
  if is_finite && (end_block_number request <? block_to_send) then ([], Some (Ok None))
  else
    match read_block (turn_store t) block_to_send with
    | Ok (Some block_bytes) =>
        match send_block (turn_connected t) block_bytes with
        | Ok set => ([BlockItems set], Some (Ok (Some (u64_add block_to_send 1))))
        | Err e => ([], Some (Err e))
        end
    | Ok None =>
        ([], match wait_for_new_block block_to_send (turn_recvs t) with
             | None => None
             | Some (Ok _) => Some (Ok (Some block_to_send))
             | Some (Err e) => Some (Err e)
             end)
    | Err e => ([], Some (Err (Persistence e)))
    end.

(** The loop of [execute_stream]: the responses sent and the result, [None] when
    it is still running after these turns. *)
Fixpoint stream_loop (request : SubscribeStreamRequest) (is_finite : bool)
    (next_block_to_send : Z) (turns : list (Turn S))
    : list StreamResponse * option (Result SubscriberError unit) :=
  match turns with
  | [] => ([], None)
  | t :: turns =>
      if turn_shutdown t then ([], Some (Err ServerShutdown))
      else
        let '(sent, res) := process_next_block request t next_block_to_send is_finite in
        match res with
        | None => (sent, None)
        | Some (Ok (Some next_block)) =>
            let '(more, r) := stream_loop request is_finite next_block turns in
            (sent ++ more, r)
        | Some (Ok None) => (sent, Some (Ok tt))
        | Some (Err e) => (sent, Some (Err e))
        end
  end.

Definition execute_stream (cfg : SubscriberServiceConfig) (request : SubscribeStreamRequest)
    (block_reader : S) (turns : list (Turn S))
    : list StreamResponse * option (Result SubscriberError unit) :=
  match validate_and_check_fulfillment cfg request block_reader with
  | Err e => ([], Some (Err e))
  | Ok next_block_to_send =>
      stream_loop request (negb (end_block_number request =? u64_MAX))
        next_block_to_send turns
  end.

(** [finalize_stream] and [send_final_status]. *)
Definition final_code (result : Result SubscriberError unit) : Code :=
  match result with Ok _ => CSuccess | Err e => to_status_code e end.
Definition send_final_status (code : Code) : list StreamResponse :=
  match code with CUnknown => [] | code => [StatusCode code] end.

Definition run (cfg : SubscriberServiceConfig) (request : SubscribeStreamRequest)
    (block_reader : S) (turns : list (Turn S)) : list StreamResponse :=
  let '(sent, result) := execute_stream cfg request block_reader turns in
  sent ++ match result with
          | Some r => send_final_status (final_code r)
          | None => []
          end.
End subscriber.

Section subscriber_theory.
Context {S : Type} {READER : BlockReader S} {WRITER : BlockWriter S}
  {CODEC : Codec} {CLAWS : CodecLaws} {STORE : BlockStore S}.
Implicit Types (turns : list (Turn S)).

(** A turn whose store returns block [b] under number [n]. *)
Definition read_in_turn turns (n : Z) (b : Block) : Prop :=
  wf_block b ∧ get_block_number b = Ok n ∧
  ∃ t, t ∈ turns ∧ read_block (turn_store t) n = Ok (Some (encode_to_vec b)).

(** Response number [i] is the items of the block [start + i] as the session read it
    from the store during one of its turns. *)
Definition in_order turns (start : Z) (sent : list StreamResponse) : Prop :=
  ∀ i r, sent !! i = Some r →
    ∃ b, r = BlockItems (items b) ∧ read_in_turn turns (start + Z.of_nat i) b.

(** The stores the session reads are in working order. *)
Definition working turns : Prop := Forall (λ t, ∃ m, holds (turn_store t) m) turns.

Lemma in_order_nil turns start : in_order turns start [].
Proof. by intros i r. Qed.

Lemma read_in_turn_cons t turns n b : read_in_turn turns n b → read_in_turn (t :: turns) n b.
Proof. intros (? & ? & t' & ? & ?). split_and!; [done..|]. exists t'. by split; [right|]. Qed.

Lemma in_order_tail t turns start l : in_order turns start l → in_order (t :: turns) start l.
Proof. intros H i r Hr. destruct (H i r Hr) as (b & -> & Hb). eauto using read_in_turn_cons. Qed.

Lemma in_order_cons t turns start b l :
  read_in_turn (t :: turns) start b → in_order turns (start + 1) l →
  in_order (t :: turns) start (BlockItems (items b) :: l).
Proof.
  intros Hb Hl [|i] r Hr; cbn in Hr.
  - injection Hr as <-. exists b. by rewrite Z.add_0_r.
  - destruct (Hl _ _ Hr) as (b' & -> & Hb'). exists b'. split; [done|].
    apply read_in_turn_cons. by replace (start + Z.of_nat (Datatypes.S i))
      with (start + 1 + Z.of_nat i) by lia.
Qed.

Lemma process_found request t m n fin c :
  holds (turn_store t) m → is_u64 n → m !! n = Some c →
  (fin = true → n ≤ end_block_number request) →
  ∃ b, get_block_number b = Ok n ∧ wf_block b ∧ c = encode_to_vec b ∧
    process_next_block request t n fin =
    if turn_connected t then ([BlockItems (items b)], Some (Ok (Some (u64_add n 1))))
    else ([], Some (Err ClientDisconnected)).
Proof.
  intros Hm Hn Hc He. destruct (holds_block _ _ _ _ Hm Hc) as (b & Hwf & Hb & ->).
  exists b. split_and!; [done|done|done|]. unfold process_next_block.
  replace (fin && (end_block_number request <? n)) with false.
  - rewrite (read_block_holds _ _ _ Hm Hn), Hc. unfold send_block.
    rewrite decode_encode_block by done. by destruct (turn_connected t).
  - destruct fin; [|done]. specialize (He eq_refl).
    destruct (Z.ltb_spec (end_block_number request) n); [lia|done].
Qed.

(** Whatever happens around it, a session sends consecutive blocks from its start,
    and it completes only when it has sent the whole range. *)
Lemma stream_loop_ok request fin turns start sent res :
  working turns → 0 ≤ start → start + Z.of_nat (length turns) < u64_modulus →
  (fin = true → start ≤ end_block_number request + 1) →
  stream_loop request fin start turns = (sent, res) →
  in_order turns start sent ∧
  (res = Some (Ok tt) → fin = true ∧ start + Z.of_nat (length sent) = end_block_number request + 1).
Proof.
  intros Hw. revert start sent res. induction Hw as [|t turns [m Hm] Hw IH];
    intros start sent res H0 Hmax Hfin E; cbn -[length] in E.
  { injection E as <- <-. split; [apply in_order_nil|done]. }
  cbn [length] in Hmax.
  destruct (turn_shutdown t); [injection E as <- <-; split; [apply in_order_nil|done]|].
  assert (is_u64 start) as Hu by u64_lia.
  destruct (fin && (end_block_number request <? start)) eqn:Ef.
  { unfold process_next_block in E. rewrite Ef in E. injection E as <- <-.
    apply andb_true_iff in Ef as [-> He%Z.ltb_lt]. specialize (Hfin eq_refl).
    split; [apply in_order_nil|]. intros _. cbn. split; [done|]. lia. }
  assert (fin = true → start ≤ end_block_number request) as Hend.
  { intros ->. cbn in Ef. apply Z.ltb_ge in Ef. lia. }
  destruct (m !! start) as [c|] eqn:Ec.
  - destruct (process_found request t m start fin c Hm Hu Ec Hend) as (b & Hb & Hwf & -> & Ep).
    rewrite Ep in E.
    destruct (turn_connected t); [|injection E as <- <-; split; [apply in_order_nil|done]].
    rewrite u64_add_small in E by u64_lia.
    destruct (stream_loop request fin (start + 1) turns) as [more r] eqn:El.
    injection E as <- <-.
    destruct (IH (start + 1) more r) as [Ho Hr]; [lia|lia| |done|].
    { intros ->. specialize (Hend eq_refl). lia. }
    split.
    { apply in_order_cons; [|done]. split_and!; [done..|]. exists t. split; [by left|].
      by rewrite (read_block_holds _ _ _ Hm Hu), Ec. }
    intros Hres. destruct (Hr Hres) as [? ?].
    split; [done|]. cbn [length app]. lia.
  - unfold process_next_block in E. rewrite Ef, (read_block_holds _ _ _ Hm Hu), Ec in E.
    destruct (wait_for_new_block start (turn_recvs t)) as [[[]|e]|].
    + destruct (stream_loop request fin start turns) as [more r] eqn:El.
      injection E as <- <-.
      destruct (IH start more r) as [Ho Hr]; [lia|lia|done|done|]. eauto using in_order_tail.
    + injection E as <- <-. split; [apply in_order_nil|done].
    + injection E as <- <-. split; [apply in_order_nil|done].
Qed.

(** A range that is there is delivered, one turn per block and one to finish;
    [reads n c]: block [n] with the bytes [c] is what a turn may read. *)
Lemma stream_loop_sends (reads : Z → bytes → Prop) request turns start :
  let e := end_block_number request in
  0 ≤ start ≤ e + 1 → e < u64_MAX →
  Forall (λ t, turn_shutdown t = false ∧ turn_connected t = true ∧
    ∃ m, holds (turn_store t) m ∧
      ∀ n, start ≤ n ≤ e → ∃ c, m !! n = Some c ∧ reads n c) turns →
  e + 2 - start ≤ Z.of_nat (length turns) →
  ∃ bs, stream_loop request true start turns
      = ((λ b, BlockItems (items b)) <$> bs, Some (Ok tt)) ∧
    Forall2 (λ b n, wf_block b ∧ get_block_number b = Ok n ∧ reads n (encode_to_vec b))
      bs (seqZ start (e + 1 - start)).
Proof.
  intros e Hs He Hall. revert start Hs Hall.
  induction turns as [|t turns IH]; intros start Hs Hall Hlen; [cbn in Hlen; lia|].
  apply Forall_cons in Hall as [(Hsd & Hconn & m & Hm & Hdom) Hall].
  cbn [stream_loop]. rewrite Hsd. destruct (Z.ltb_spec e start) as [Hlt|Hge].
  { exists []. unfold process_next_block. fold e.
    destruct (Z.ltb_spec e start); [|lia]. replace (e + 1 - start) with 0 by lia.
    split; [done|constructor]. }
  destruct (Hdom start ltac:(lia)) as (c & Hc & Hr).
  destruct (process_found request t m start true c Hm ltac:(u64_lia) Hc)
    as (b & Hb & Hwf & -> & ->); [fold e; lia|].
  rewrite Hconn, u64_add_small by u64_lia.
  destruct (IH (start + 1)) as (bs & -> & Hbs); [lia| |cbn [length] in Hlen; lia|].
  { eapply Forall_impl; [exact Hall|]. intros t' (? & ? & m' & ? & Hd). split_and!; [done..|].
    exists m'. split; [done|]. intros n ?. apply Hd. lia. }
  exists (b :: bs). split; [done|]. rewrite seqZ_cons by lia. constructor; [done|].
  unfold Z.succ, Z.pred. by replace (e + 1 - start + -1) with (e + 1 - (start + 1)) by lia.
Qed.

Lemma stream_loop_delivers request turns start :
  let e := end_block_number request in
  0 ≤ start ≤ e + 1 → e < u64_MAX →
  Forall (λ t, turn_shutdown t = false ∧ turn_connected t = true ∧
    ∃ m, holds (turn_store t) m ∧ ∀ n, start ≤ n ≤ e → is_Some (m !! n)) turns →
  e + 2 - start ≤ Z.of_nat (length turns) →
  ∃ bs, stream_loop request true start turns
      = ((λ b, BlockItems (items b)) <$> bs, Some (Ok tt)) ∧
    Forall2 (read_in_turn turns) (seqZ start (e + 1 - start)) bs.
Proof.
  intros e Hs He Hall Hlen.
  destruct (stream_loop_sends (λ n c, ∃ t, t ∈ turns ∧ read_block (turn_store t) n = Ok (Some c))
    request turns start Hs He) as (bs & E & Hbs); [|done|].
  - apply Forall_forall. intros t Ht. rewrite Forall_forall in Hall.
    destruct (Hall t Ht) as (? & ? & m & Hm & Hd). split_and!; [done..|].
    exists m. split; [done|]. intros n Hn. destruct (Hd n Hn) as [c Hc].
    exists c. split; [done|]. exists t. split; [done|].
    assert (is_u64 n) as Hu by (fold e in Hn; u64_lia).
    by rewrite (read_block_holds _ _ _ Hm Hu), Hc.
  - exists bs. split; [done|]. by apply Forall2_flip.
Qed.
End subscriber_theory.
