(* ===== verification/LiveSession.v ===== *)
(** A subscriber session beside the tasks that write blocks: the awaits of
    [process_next_block] and [wait_for_new_block] (subscriber-plugin/src/session.rs)
    and the two moments at which a new block becomes known (persistence-plugin/src/
    lib.rs): the write, and the [BlockPersisted] broadcast after it.

    [Subscriber] runs a session on what each turn of its loop happens to meet; here
    the turns come about step by step.  The channel is tokio's broadcast channel:
    every receiver reads the announcements in order from where it subscribed, and one
    that is more than [capacity] of them behind gets [Lagged] instead; [timeout] polls
    the reception first, so it elapses only when nothing is unread.  The theory shows
    that every run is a run of [Subscriber] on such turns, when a session can time
    out, and that an announced block is sent within a bounded number of the session's
    own steps, whatever the writers do in between. *)
From S2P Require Import Prelude Config Block Core Subscriber.

(** Where the session is.  [LMissed n s]: it read the store [s], did not find block
    [n] and has not yet subscribed; [LWaiting n s i recvs]: it has subscribed at
    position [i] of the channel and received [recvs]. *)
Inductive LivePhase {S : Type} :=
| LReading (n : Z)
| LMissed (n : Z) (s : S)
| LWaiting (n : Z) (s : S) (i : nat) (recvs : list Recv)
| LEnded (result : Result SubscriberError unit).
Arguments LivePhase S : clear implicits.

(** The store, the announcements sent so far, the numbers written but not yet
    announced, the session and what it has sent. *)
Record Live {S : Type} := MkLive {
  l_store : S;
  l_announced : list Z;
  l_pending : list Z;
  l_phase : LivePhase S;
  l_sent : list StreamResponse;
}.
Arguments Live S : clear implicits.
Arguments MkLive {S}.

(** Who takes a step: the session, the tasks that write blocks, or the world that
    ends the session (a client that goes away, a shutdown, a closed channel). *)
Inductive Actor := OfSession | OfWriters | OfWorld.

Section live.
Context {S : Type} {READER : BlockReader S} {WRITER : BlockWriter S}
  {CODEC : Codec} {STORE : BlockStore S}.
Context (capacity : nat) (request : SubscribeStreamRequest) (is_finite : bool).
Implicit Types (l : Live S) (s : S).

Definition at_phase l (ph : LivePhase S) (sent : list StreamResponse) : Live S :=
  MkLive (l_store l) (l_announced l) (l_pending l) ph (l_sent l ++ sent).

(** The position of the reader after its receptions: announcements it has passed. *)
Definition cursor (i : nat) (recvs : list Recv) : nat := (i + length recvs)%nat.
Definition lags l (i : nat) (recvs : list Recv) : Prop :=
  (capacity < length (l_announced l) - cursor i recvs)%nat.

Inductive live_step : Actor → Live S → Live S → Prop :=
(** the session *)
| live_finish l n :
    l_phase l = LReading n → is_finite && (end_block_number request <? n) = true →
    live_step OfSession l (at_phase l (LEnded (Ok tt)) [])
| live_send l n c set :
    l_phase l = LReading n → is_finite && (end_block_number request <? n) = false →
    read_block (l_store l) n = Ok (Some c) → send_block true c = Ok set →
    live_step OfSession l (at_phase l (LReading (u64_add n 1)) [BlockItems set])
| live_send_fails l n c e :
    l_phase l = LReading n → is_finite && (end_block_number request <? n) = false →
    read_block (l_store l) n = Ok (Some c) → send_block true c = Err e →
    live_step OfSession l (at_phase l (LEnded (Err e)) [])
| live_read_fails l n e :
    l_phase l = LReading n → is_finite && (end_block_number request <? n) = false →
    read_block (l_store l) n = Err e →
    live_step OfSession l (at_phase l (LEnded (Err (Persistence e))) [])
| live_miss l n :
    l_phase l = LReading n → is_finite && (end_block_number request <? n) = false →
    read_block (l_store l) n = Ok None →
    live_step OfSession l (at_phase l (LMissed n (l_store l)) [])
| live_subscribe l n s :
    l_phase l = LMissed n s →
    live_step OfSession l (at_phase l (LWaiting n s (length (l_announced l)) []) [])
| live_recv_old l n s i recvs k :
    l_phase l = LWaiting n s i recvs → ¬ lags l i recvs →
    l_announced l !! cursor i recvs = Some k → k < n →
    live_step OfSession l (at_phase l (LWaiting n s i (recvs ++ [REvent k])) [])
| live_recv l n s i recvs k :
    l_phase l = LWaiting n s i recvs → ¬ lags l i recvs →
    l_announced l !! cursor i recvs = Some k → n ≤ k →
    live_step OfSession l (at_phase l (LReading n) [])
| live_lagged l n s i recvs :
    l_phase l = LWaiting n s i recvs → lags l i recvs →
    live_step OfSession l (at_phase l (LReading n) [])
| live_timeout l n s i recvs :
    l_phase l = LWaiting n s i recvs → cursor i recvs = length (l_announced l) →
    live_step OfSession l (at_phase l (LEnded (Err (TimeoutWaitingForBlock n))) [])
(** the world *)
| live_disconnect l n c :
    l_phase l = LReading n → is_finite && (end_block_number request <? n) = false →
    read_block (l_store l) n = Ok (Some c) → send_block false c = Err ClientDisconnected →
    live_step OfWorld l (at_phase l (LEnded (Err ClientDisconnected)) [])
| live_closed l n s i recvs :
    l_phase l = LWaiting n s i recvs → cursor i recvs = length (l_announced l) →
    live_step OfWorld l (at_phase l (LEnded (Err (Internal "Broadcast channel closed"))) [])
| live_shutdown l :
    (∀ r, l_phase l ≠ LEnded r) →
    live_step OfWorld l (at_phase l (LEnded (Err ServerShutdown)) [])
(** the writers, of blocks the store can take *)
| live_write l b n s :
    accepts b → get_block_number b = Ok n → writer_write_block (l_store l) b = (s, Ok tt) →
    live_step OfWriters l (MkLive s (l_announced l) (n :: l_pending l) (l_phase l) (l_sent l))
| live_announce l n p q :
    l_pending l = p ++ n :: q →
    live_step OfWriters l
      (MkLive (l_store l) (l_announced l ++ [n]) (p ++ q) (l_phase l) (l_sent l)).

Definition live_run : relation (Live S) := rtc (λ l l', ∃ who, live_step who l l').

(** A stretch in which the world does not end the session, with the number of the
    session's own steps in it. *)
Inductive undisturbed : nat → Live S → Live S → Prop :=
| undisturbed_nil l : undisturbed 0 l l
| undisturbed_own k l l1 l2 :
    undisturbed k l l1 → live_step OfSession l1 l2 → undisturbed (Datatypes.S k) l l2
| undisturbed_writers k l l1 l2 :
    undisturbed k l l1 → live_step OfWriters l1 l2 → undisturbed k l l2.

Lemma undisturbed_run k l l' : undisturbed k l l' → live_run l l'.
Proof.
  induction 1 as [l|k l l1 l2 _ IH Hstep|k l l1 l2 _ IH Hstep]; [apply rtc_refl|..];
    (eapply rtc_r; [exact IH|by eexists]).
Qed.

(** ** Every run is a run of the loop on some turns

    [stepped turns sent n]: after [turns] the loop has sent [sent] and is about to
    look for block [n]. *)
Definition stepped (start : Z) (turns : list (Turn S)) (sent : list StreamResponse) (n : Z) : Prop :=
  ∀ more, stream_loop request is_finite start (turns ++ more) =
    let '(sent', r) := stream_loop request is_finite n more in (sent ++ sent', r).

Lemma stepped_nil start : stepped start [] [] start.
Proof. intros more. cbn. by destruct (stream_loop request is_finite start more). Qed.

(** One more turn. *)
Lemma stepped_snoc start turns sent n t sent' n' :
  stepped start turns sent n → turn_shutdown t = false →
  process_next_block request t n is_finite = (sent', Some (Ok (Some n'))) →
  stepped start (turns ++ [t]) (sent ++ sent') n'.
Proof.
  intros H Ht E more. rewrite <-app_assoc. cbn. rewrite H. cbn. rewrite Ht, E.
  destruct (stream_loop request is_finite n' more) as [s r]. by rewrite app_assoc.
Qed.

(** The last turn. *)
Lemma stepped_end start turns sent n t r :
  stepped start turns sent n →
  (turn_shutdown t = true ∧ r = Err ServerShutdown ∨
   turn_shutdown t = false ∧ process_next_block request t n is_finite
     = ([], Some (match r with Ok _ => Ok None | Err e => Err e end))) →
  stream_loop request is_finite start (turns ++ [t]) = (sent, Some r).
Proof.
  intros H Ht. rewrite H. cbn.
  destruct Ht as [[-> ->]|[-> ->]]; [by rewrite app_nil_r|].
  destruct r as [[]|e]; by rewrite app_nil_r.
Qed.

(** What the receptions of a waiting session are. *)
Definition waits (n : Z) (recvs : list Recv) : Prop :=
  Forall (λ r, ∃ k, r = REvent k ∧ k < n) recvs.

Lemma waits_more n recvs more : waits n recvs →
  wait_for_new_block n (recvs ++ more) = wait_for_new_block n more.
Proof.
  induction 1 as [|r recvs (k & -> & Hk) _ IH]; [done|]. cbn.
  by destruct (Z.leb_spec n k); [lia|].
Qed.

(** Turns on stores that satisfy [P] lead to where the session is. *)
Definition turns_to (P : S → Prop) (start : Z) (sent : list StreamResponse) (n : Z) : Prop :=
  ∃ turns, Forall (λ t, P (turn_store t)) turns ∧ stepped start turns sent n.

Definition phase_turns (P : S → Prop) (start : Z) l : Prop :=
  match l_phase l with
  | LReading n => turns_to P start (l_sent l) n
  | LMissed n s => turns_to P start (l_sent l) n ∧ read_block s n = Ok None ∧
      is_finite && (end_block_number request <? n) = false ∧ P s
  | LWaiting n s i recvs => turns_to P start (l_sent l) n ∧
      read_block s n = Ok None ∧ is_finite && (end_block_number request <? n) = false ∧ P s ∧
      waits n recvs
  | LEnded r => ∃ turns, Forall (λ t, P (turn_store t)) turns ∧
      stream_loop request is_finite start turns = (l_sent l, Some r)
  end.

Lemma phase_turns_mono (P Q : S → Prop) start l :
  (∀ s, P s → Q s) → phase_turns P start l → phase_turns Q start l.
Proof.
  intros H. assert (∀ sent n, turns_to P start sent n → turns_to Q start sent n) as Ht.
  { intros sent n (turns & Hall & ?). exists turns. split; [|done].
    eapply Forall_impl; [exact Hall|]. intros t. apply H. }
  unfold phase_turns. destruct (l_phase l) as [n|n s|n s i recvs|r]; [by apply Ht|naive_solver..|].
  intros (turns & Hall & ?). exists turns. split; [|done].
  eapply Forall_impl; [exact Hall|]. intros t. apply H.
Qed.

(** One more turn, and the last one. *)
Lemma turns_to_snoc (P : S → Prop) start sent n t sent' n' :
  turns_to P start sent n → P (turn_store t) → turn_shutdown t = false →
  process_next_block request t n is_finite = (sent', Some (Ok (Some n'))) →
  turns_to P start (sent ++ sent') n'.
Proof.
  intros (turns & Hall & H) Ht Hs E. exists (turns ++ [t]). split; [|by eapply stepped_snoc].
  apply Forall_app. split; [done|by apply Forall_singleton].
Qed.

Lemma turns_to_end (P : S → Prop) start sent n t r :
  turns_to P start sent n → P (turn_store t) →
  (turn_shutdown t = true ∧ r = Err ServerShutdown ∨
   turn_shutdown t = false ∧ process_next_block request t n is_finite
     = ([], Some (match r with Ok _ => Ok None | Err e => Err e end))) →
  ∃ turns, Forall (λ t, P (turn_store t)) turns ∧
    stream_loop request is_finite start turns = (sent, Some r).
Proof.
  intros (turns & Hall & H) Ht E. exists (turns ++ [t]). split; [|by eapply stepped_end].
  apply Forall_app. split; [done|by apply Forall_singleton].
Qed.

(** A turn that ends a wait. *)
Lemma wait_turn n s recvs last r :
  read_block s n = Ok None → is_finite && (end_block_number request <? n) = false →
  waits n recvs → wait_for_new_block n [last] = Some r →
  process_next_block request (MkTurn false s true (recvs ++ [last])) n is_finite =
  ([], Some (match r with Ok _ => Ok (Some n) | Err e => Err e end)).
Proof.
  intros Hr Hf Hw Hl. unfold process_next_block. rewrite Hf. cbn [turn_store turn_recvs].
  rewrite Hr, waits_more, Hl by done. by destruct r.
Qed.

(** A turn that looks the block up. *)
Lemma read_turn l n con recvs sent r :
  is_finite && (end_block_number request <? n) = false →
  match read_block (l_store l) n with
  | Ok (Some c) => match send_block con c with
                   | Ok set => ([BlockItems set], Some (Ok (Some (u64_add n 1))))
                   | Err e => ([], Some (Err e))
                   end
  | Err e => ([], Some (Err (Persistence e)))
  | Ok None => ([], None)
  end = (sent, Some r) →
  process_next_block request (MkTurn false (l_store l) con recvs) n is_finite = (sent, Some r).
Proof.
  intros Hf H. unfold process_next_block. rewrite Hf. cbn [turn_store turn_connected].
  by destruct (read_block (l_store l) n) as [[c|]|].
Qed.

Lemma live_step_turns P start who l l' : live_step who l l' → P (l_store l) →
  phase_turns P start l → phase_turns P start l'.
Proof.
  intros Hstep HP H. unfold phase_turns in *.
  destruct Hstep as [l n E Hf|l n c set E Hf Hr Hs|l n c e E Hf Hr Hs|l n e E Hf Hr
    |l n E Hf Hr|l n s E|l n s i recvs k E _ Hk Hlt|l n s i recvs k E _ Hk Hle
    |l n s i recvs E _|l n s i recvs E Hi|l n c E Hf Hr Hs|l n s i recvs E Hi|l Hne
    |l b n s Ha Hb Hw|l n p q Hp];
    cbn; try rewrite E in H; rewrite ?app_nil_r; try done.
  - apply (turns_to_end P _ _ n (MkTurn false (l_store l) true []) (Ok tt) H HP). right.
    split; [done|]. unfold process_next_block. by rewrite Hf.
  - apply (turns_to_snoc P _ _ n (MkTurn false (l_store l) true []) _ _ H HP); [done|].
    apply read_turn; [done|]. by rewrite Hr, Hs.
  - apply (turns_to_end P _ _ n (MkTurn false (l_store l) true []) (Err e) H HP). right.
    split; [done|]. apply read_turn; [done|]. by rewrite Hr, Hs.
  - apply (turns_to_end P _ _ n (MkTurn false (l_store l) true []) (Err _) H HP). right.
    split; [done|]. apply read_turn; [done|]. by rewrite Hr.
  - destruct H as (? & ? & ? & ?). split_and!; [done..|constructor].
  - destruct H as (? & ? & ? & ? & Hw). split_and!; [done..|]. apply Forall_app. split; [done|].
    apply Forall_singleton. eauto.
  - destruct H as (H & Hr & Hf & Hs & Hw). rewrite <-(app_nil_r (l_sent l)).
    eapply turns_to_snoc; [exact H| | |apply (wait_turn n s recvs (REvent k) (Ok tt) Hr Hf Hw)];
      [done|done|]. cbn. by destruct (Z.leb_spec n k); [|lia].
  - destruct H as (H & Hr & Hf & Hs & Hw). rewrite <-(app_nil_r (l_sent l)).
    by eapply turns_to_snoc; [exact H| | |apply (wait_turn n s recvs RLagged (Ok tt) Hr Hf Hw)].
  - destruct H as (H & Hr & Hf & Hs & Hw). eapply turns_to_end; [exact H| |right; split;
      [|by apply (wait_turn n s recvs RTimeout (Err (TimeoutWaitingForBlock _)) Hr Hf Hw)]]; done.
  - apply (turns_to_end P _ _ n (MkTurn false (l_store l) false []) (Err _) H HP). right.
    split; [done|]. apply read_turn; [done|]. by rewrite Hr, Hs.
  - destruct H as (H & Hr & Hf & Hs & Hw). eapply turns_to_end; [exact H| |right; split;
      [|by apply (wait_turn n s recvs RClosed (Err (Internal _)) Hr Hf Hw)]]; done.
  - assert (∃ n, turns_to P start (l_sent l) n) as [n H'].
    { destruct (l_phase l) as [n|n s|n s i recvs|r]; [exists n; naive_solver..|by destruct (Hne r)]. }
    apply (turns_to_end P _ _ n (MkTurn true (l_store l) true []) (Err ServerShutdown) H' HP). by left.
Qed.

(** ** What a waiting session has heard *)
Definition heard l : Prop :=
  match l_phase l with
  | LWaiting n s i recvs =>
      (cursor i recvs ≤ length (l_announced l))%nat ∧
      recvs = REvent <$> take (length recvs) (drop i (l_announced l)) ∧ waits n recvs
  | _ => True
  end.

Lemma take_drop_snoc {A} (x : list A) i k y : x !! (i + k)%nat = Some y →
  take (k + 1) (drop i x) = take k (drop i x) ++ [y].
Proof.
  intros H. rewrite Nat.add_1_r. apply take_S_r. by rewrite lookup_drop.
Qed.

Lemma live_step_heard who l l' : live_step who l l' → heard l → heard l'.
Proof.
  intros Hstep H. unfold heard in *. destruct Hstep as [| | | | |l n s E|l n s i recvs k E _ Hk Hlt
    | | | | | | |l b n s Ha Hb Hw|l n p q Hp]; cbn; try done.
  - unfold cursor. cbn. split_and!; [lia|done|constructor].
  - rewrite E in H. destruct H as (Hc & Hr & Hw). pose proof (lookup_lt_Some _ _ _ Hk).
    unfold cursor in *. rewrite length_app. cbn. split_and!; [lia| |].
    + rewrite (take_drop_snoc _ i (length recvs) k Hk), fmap_app, <-Hr. done.
    + apply Forall_app. split; [done|]. apply Forall_singleton. eauto.
  - destruct (l_phase l) as [| |n' s i recvs|]; try done. destruct H as (Hc & Hr & Hw).
    rewrite length_app. cbn. split_and!; [lia| |done].
    unfold cursor in Hc. rewrite drop_app_le, take_app_le; [done|rewrite length_drop; lia|lia].
Qed.

(** What it has received was for earlier blocks. *)
Lemma heard_old l n s i recvs j k : heard l → l_phase l = LWaiting n s i recvs →
  (i ≤ j < cursor i recvs)%nat → l_announced l !! j = Some k → k < n.
Proof.
  unfold heard. intros H E Hj Hk. rewrite E in H. destruct H as (_ & Hr & Hw).
  unfold cursor in Hj. unfold waits in Hw. rewrite Hr, Forall_fmap, Forall_forall in Hw.
  destruct (Hw k) as (k' & [= <-] & ?); [|done]. apply list_elem_of_lookup. exists (j - i)%nat.
  rewrite lookup_take_lt by lia. rewrite lookup_drop. by replace (i + (j - i))%nat with j by lia.
Qed.

(** A session can only time out when no announcement since it subscribed was for
    the block it needs or a later one. *)
Lemma timeout_unheard l n s i recvs : heard l → l_phase l = LWaiting n s i recvs →
  cursor i recvs = length (l_announced l) → ∀ k, k ∈ drop i (l_announced l) → k < n.
Proof.
  intros H E Hc k [j Hj]%list_elem_of_lookup. rewrite lookup_drop in Hj.
  apply (heard_old l n s i recvs (i + j) k H E); [|done].
  pose proof (lookup_lt_Some _ _ _ Hj). lia.
Qed.

(** What is sent stays sent, and the block looked for is a u64. *)
Lemma live_step_sent who l l' : live_step who l l' → l_sent l `prefix_of` l_sent l'.
Proof. destruct 1; cbn; [by apply prefix_app_r..|done|done]. Qed.

Definition phase_u64 l : Prop :=
  match l_phase l with
  | LReading n | LMissed n _ | LWaiting n _ _ _ => is_u64 n
  | LEnded _ => True
  end.

Lemma live_step_u64 who l l' : live_step who l l' → phase_u64 l → phase_u64 l'.
Proof.
  unfold phase_u64. destruct 1 as [l n E|l n c set E|l n c e E|l n e E|l n E|l n s E|l n s i recvs k E
    |l n s i recvs k E|l n s i recvs E|l n s i recvs E|l n c E|l n s i recvs E|l Hne|l b n s|l n p q];
    cbn; try rewrite E; try done. intros _. apply wrap64_u64.
Qed.
End live.

Section live_theory.
Context {S : Type} {READER : BlockReader S} {WRITER : BlockWriter S}
  {CODEC : Codec} {CLAWS : CodecLaws} {STORE : BlockStore S}.
Context (capacity : nat) (request : SubscribeStreamRequest) (is_finite : bool).
Implicit Types (l : Live S) (s : S) (m : gmap Z bytes).

Abbreviation live_step := (live_step capacity request is_finite).
Abbreviation live_run := (live_run capacity request is_finite).
Abbreviation undisturbed := (undisturbed capacity request is_finite).

(** ** The store stays in working order, and keeps what it has *)
Lemma live_step_store who l l' m : live_step who l l' → holds (l_store l) m →
  ∃ m', holds (l_store l') m' ∧ dom m ⊆ dom m'.
Proof.
  intros Hstep Hm. destruct Hstep as [| | | | | | | | | | | | |l b n s Ha Hb Hw|]; cbn; try (by exists m).
  destruct (write_block_holds _ _ _ _ Hm Ha Hb) as (s' & E & Hm').
  rewrite Hw in E. injection E as <-. eexists. split; [exact Hm'|]. set_solver.
Qed.

Definition start_at s (start : Z) : Live S := MkLive s [] [] (LReading start) [].

(** The invariants of a run, and the stores its turns read. *)
Lemma live_run_inv start s l : live_run (start_at s start) l →
  phase_turns request is_finite
    (λ s', ∃ l1, live_run (start_at s start) l1 ∧ live_run l1 l ∧ l_store l1 = s') start l ∧
  heard l ∧ (is_u64 start → phase_u64 l) ∧
  (∀ m, holds s m → ∃ m', holds (l_store l) m').
Proof.
  unfold LiveSession.live_run. revert l. refine (rtc_ind_r _ _ _ _).
  { split_and!; [|done|done|by eauto]. exists []. split; [done|]. apply stepped_nil. }
  intros l l' Hrun [who Hstep] (Ht & Hh & Hu & Hm). split_and!.
  - eapply live_step_turns; [exact Hstep|exists l; split_and!; [done|by eapply rtc_once; eauto|done]|].
    eapply phase_turns_mono; [|exact Ht]. intros s' (l1 & H1 & H2 & H3). exists l1.
    split_and!; [done|by eapply rtc_r; eauto|done].
  - by eapply live_step_heard.
  - intros H. eapply live_step_u64; [done|by apply Hu].
  - intros m0 H0. destruct (Hm m0 H0) as [m Hm0].
    destruct (live_step_store _ _ _ _ Hstep Hm0) as (m' & ? & _). eauto.
Qed.

(** ** An announced block is sent

    [due n sent0 j l]: the session waits for block [n], which is stored, and
    announcement [j], for this block or a later one, is unread; or it is about to
    look block [n] up. *)
Definition due (n : Z) (sent0 : list StreamResponse) (j : nat) (steps : nat) l : Prop :=
  l_sent l = sent0 ∧ is_finite && (end_block_number request <? n) = false ∧
  (∃ m, holds (l_store l) m ∧ is_Some (m !! n)) ∧
  (l_phase l = LReading n ∧ (1 ≤ steps)%nat ∨
   ∃ s i recvs k, l_phase l = LWaiting n s i recvs ∧ (cursor i recvs ≤ j)%nat ∧
     l_announced l !! j = Some k ∧ n ≤ k ∧ (j + 2 - cursor i recvs ≤ steps)%nat).

(** Such a session is never stuck ... *)
Lemma due_progress n sent0 j steps l : is_u64 n → due n sent0 j steps l →
  ∃ l', live_step OfSession l l'.
Proof.
  intros Hn (_ & Hf & (m & Hm & c & Hc) & [[E _]|(s & i & recvs & k & E & Hj & Hk & Hle & _)]).
  - destruct (holds_block _ _ _ _ Hm Hc) as (b & Hwf & Hb & ->). eexists.
    apply (live_send _ _ _ l n (encode_to_vec b) (items b)); [done|done| |].
    + by rewrite (read_block_holds _ _ _ Hm Hn), Hc.
    + unfold send_block. by rewrite decode_encode_block.
  - pose proof (lookup_lt_Some _ _ _ Hk) as Hlen.
    destruct (decide (capacity < length (l_announced l) - cursor i recvs)%nat) as [Hl|Hl].
    { eexists. by eapply live_lagged. }
    destruct (lookup_lt_is_Some_2 (l_announced l) (cursor i recvs)) as [k' Hk']; [lia|].
    destruct (decide (n ≤ k')); eexists; [by eapply live_recv|].
    apply (live_recv_old _ _ _ l n s i recvs k'); [done|done|done|lia].
Qed.

(** ... and each of its own steps sends the block or brings it nearer. *)
Lemma due_own_step n sent0 j steps l l' : is_u64 n → due n sent0 j steps l →
  live_step OfSession l l' →
  (∃ steps', steps = Datatypes.S steps' ∧ due n sent0 j steps' l') ∨
  ∃ b, wf_block b ∧ get_block_number b = Ok n ∧
    read_block (l_store l) n = Ok (Some (encode_to_vec b)) ∧
    l_sent l' = sent0 ++ [BlockItems (items b)].
Proof.
  intros Hn (Hs & Hf & (m & Hm & c & Hc) & Hph) Hstep.
  assert (∃ m, holds (l_store l) m ∧ is_Some (m !! n)) as Hst by eauto.
  pose proof (read_block_holds _ _ _ Hm Hn) as Hread. rewrite Hc in Hread.
  remember OfSession as who eqn:Ew.
  destruct Hph as [[E Hge]|(s & i & recvs & k & E & Hj & Hk & Hle & Hsteps)];
    destruct Hstep as [l n' E' Hf'|l n' c' set E' Hf' Hr Hset|l n' c' e E' Hf' Hr Hset|l n' e E' Hf' Hr
    |l n' E' Hf' Hr|l n' s' E'|l n' s' i' recvs' k' E' Hl Hk' Hlt|l n' s' i' recvs' k' E' Hl Hk' Hle'
    |l n' s' i' recvs' E' Hl|l n' s' i' recvs' E' Hi| | | | |];
    try discriminate Ew; rewrite E in E'; simplify_eq; try congruence.
  - right. rewrite Hread in Hr. injection Hr as <-.
    destruct (holds_block _ _ _ _ Hm Hc) as (b & Hwf & Hb & ->).
    unfold send_block in Hset. rewrite decode_encode_block in Hset by done. simplify_eq. by exists b.
  - destruct (holds_block _ _ _ _ Hm Hc) as (b & Hwf & Hb & ->).
    rewrite Hread in Hr. injection Hr as <-. unfold send_block in Hset.
    by rewrite decode_encode_block in Hset.
  - left. exists (steps - 1)%nat. unfold cursor in *.
    assert (i' + length recvs' ≠ j)%nat by (intros <-; rewrite Hk in Hk'; simplify_eq; lia).
    split; [lia|]. split_and!; [cbn; by rewrite app_nil_r|done|done|]. right.
    exists s', i', (recvs' ++ [REvent k']), k. unfold cursor. rewrite length_app. cbn.
    split_and!; [done|lia|done|done|lia].
  - left. exists (steps - 1)%nat. unfold cursor in *. split; [lia|].
    split_and!; [cbn; by rewrite app_nil_r|done|done|]. left. split; [done|lia].
  - left. exists (steps - 1)%nat. unfold cursor in *. split; [lia|].
    split_and!; [cbn; by rewrite app_nil_r|done|done|]. left. split; [done|lia].
  - apply lookup_lt_Some in Hk. unfold cursor in *. lia.
Qed.

(** The writers leave it where it is. *)
Lemma due_writers n sent0 j steps l l' : due n sent0 j steps l → live_step OfWriters l l' →
  due n sent0 j steps l'.
Proof.
  intros (Hs & Hf & (m & Hm & Hc) & Hph) Hstep.
  destruct (live_step_store _ _ _ _ Hstep Hm) as (m' & Hm' & Hsub).
  assert (is_Some (m' !! n)) as Hc' by (apply elem_of_dom, Hsub; by apply elem_of_dom).
  remember OfWriters as who eqn:Ew. destruct Hstep; try discriminate Ew;
    (split_and!; [done|done|by eauto|]); cbn; (destruct Hph as [Hph|Hph]; [by left|right]); [done|].
  destruct Hph as (s & i & recvs & k & E & Hj & Hk & Hrest). exists s, i, recvs, k.
  split_and!; [done|done| |apply Hrest..]. by apply lookup_app_l_Some.
Qed.

(** After [steps] own steps, whatever the writers did in between, the block has been
    sent; before that the session still has a step to take. *)
Lemma due_sent n sent0 j steps l own l' : is_u64 n → due n sent0 j steps l →
  undisturbed own l l' →
  (∃ steps', steps = (own + steps')%nat ∧ due n sent0 j steps' l') ∨
  ∃ b l1 k, wf_block b ∧ get_block_number b = Ok n ∧ undisturbed k l l1 ∧ (k < own)%nat ∧
    read_block (l_store l1) n = Ok (Some (encode_to_vec b)) ∧
    (sent0 ++ [BlockItems (items b)]) `prefix_of` l_sent l'.
Proof.
  intros Hn Hdue Hrun. induction Hrun as [l|own l l1 l2 Hrun IH Hstep|own l l1 l2 Hrun IH Hstep].
  - left. by exists steps.
  - destruct (IH Hdue) as [(steps' & -> & Hd)|(b & l0 & k & Hwf & Hb & H0 & Hk & Hr & Hp)].
    + destruct (due_own_step _ _ _ _ _ _ Hn Hd Hstep) as [(st & -> & Hd')|(b & Hwf & Hb & Hr & Hs)].
      * left. exists st. split; [lia|done].
      * right. exists b, l1, own. split_and!; [done..|lia|done|by rewrite Hs].
    + right. exists b, l0, k. split_and!; [done..|lia|done|].
      etrans; [exact Hp|by eapply live_step_sent].
  - destruct (IH Hdue) as [(steps' & -> & Hd)|(b & l0 & k & Hwf & Hb & H0 & Hk & Hr & Hp)].
    + left. exists steps'. split; [done|]. by eapply due_writers.
    + right. exists b, l0, k. split_and!; [done..|].
      etrans; [exact Hp|by eapply live_step_sent].
Qed.

Lemma due_steps n sent0 j steps l : due n sent0 j steps l → (1 ≤ steps)%nat.
Proof. intros (_ & _ & _ & [[_ ?]|(? & i & recvs & ? & _ & ? & _ & _ & ?)]); lia. Qed.
End live_theory.
