(* ===== verification/Access.v ===== *)
(** The read-only services: block access (crates/rock-node-block-access-plugin/src/
    service.rs) and server status (crates/rock-node-server-status-plugin/src/
    service.rs), over any [BlockReader].  The metric updates are in
    [Metrics]; logs are left out. *)
From S2P Require Import Prelude Block Core.

(** [block_response::Code]. *)
Inductive AccessCode :=
| AUnknown | ASuccess | AInvalidRequest | AError | ANotFound | ANotAvailable.

(** [block_request::BlockSpecifier]. *)
Inductive BlockSpecifier :=
| ByNumber (num : Z)
| RetrieveLatest (b : bool).

Record BlockResponse := MkBlockResponse {
  status : AccessCode;
  response_block : option Block;
}.
Definition failure (c : AccessCode) : BlockResponse := MkBlockResponse c None.

Section access.
Context {S : Type} {READER : BlockReader S} {CODEC : Codec}.
Implicit Types (s : S).

Definition get_latest_block_number s : Result BlockResponse Z :=
  match get_latest_persisted_block_number s with
  | Ok (Some num) => Ok num
  | Ok None => Err (failure ANotFound)
  | Err _ => Err (failure AUnknown)
  end.

(** The request types ("latest", "by_number") only label metrics. *)
Definition get_target_block_number s (request : option BlockSpecifier)
    : Result BlockResponse Z :=
  match request with
  | Some (ByNumber num) =>
      if num =? u64_MAX then get_latest_block_number s else Ok num
  | Some (RetrieveLatest true) => get_latest_block_number s
  | Some _ => Err (failure AInvalidRequest)
  | None => Err (failure AInvalidRequest)
  end.

Definition handle_found_block (block_bytes : bytes) : BlockResponse :=
  match block_bytes with
  | [] => failure AUnknown
  | _ =>
      match decode_block block_bytes with
      | Ok block => MkBlockResponse ASuccess (Some block)
      | Err _ => failure AUnknown
      end
  end.

Definition handle_not_found_block s (block_number : Z) : BlockResponse :=
  let earliest := mjoin (ok_of (get_earliest_persisted_block_number s)) in
  let latest := mjoin (ok_of (get_latest_persisted_block_number s)) in
  match earliest, latest with
  | Some e, Some l =>
      if (block_number <? e) || (l <? block_number) then failure ANotAvailable
      else failure ANotFound
  | _, _ => failure ANotFound
  end.

Definition get_block s (request : option BlockSpecifier) : BlockResponse :=
  match get_target_block_number s request with
  | Err response => response
  | Ok block_number_to_fetch =>
      match read_block s block_number_to_fetch with
      | Err _ => failure AUnknown
      | Ok (Some block_bytes) => handle_found_block block_bytes
      | Ok None => handle_not_found_block s block_number_to_fetch
      end
  end.

(** ** Server status: [version_information] is always absent. *)
Record ServerStatusResponse := MkServerStatus {
  first_available_block : Z;
  last_available_block : Z;
  only_latest_state : bool;
}.

Definition server_status s : Result Error ServerStatusResponse :=
  earliest ← get_earliest_persisted_block_number s;
  latest ← get_latest_persisted_block_number s;
  Ok (MkServerStatus (default 0 earliest) (default 0 latest) false).
End access.

Section access_theory.
Context {S : Type} {READER : BlockReader S} {WRITER : BlockWriter S}
  {CODEC : Codec} {CLAWS : CodecLaws} {STORE : BlockStore S}.
Implicit Types (s : S).

Lemma handle_found_block_ok b n : wf_block b → get_block_number b = Ok n →
  handle_found_block (encode_to_vec b) = MkBlockResponse ASuccess (Some b).
Proof.
  intros Hwf Hb. assert (encode_to_vec b ≠ []) as Hne.
  { apply encode_nonempty. intros E. unfold get_block_number in Hb. by rewrite E in Hb. }
  unfold handle_found_block. destruct (encode_to_vec b) as [|x l] eqn:E; [done|].
  by rewrite <-E, decode_encode_block.
Qed.

(** A block that is there is served, whatever the request calls it. *)
Lemma get_block_held s m n c request :
  holds s m → is_u64 n → m !! n = Some c → get_target_block_number s request = Ok n →
  ∃ b, wf_block b ∧ get_block_number b = Ok n ∧ c = encode_to_vec b ∧
    get_block s request = MkBlockResponse ASuccess (Some b).
Proof.
  intros Hs Hn Hc Ht. destruct (holds_block _ _ _ _ Hs Hc) as (b & Hwf & Hb & ->).
  exists b. split_and!; try done. unfold get_block.
  rewrite Ht, (read_block_holds _ _ _ Hs Hn), Hc. by eapply handle_found_block_ok.
Qed.

Lemma get_block_missing s m n request :
  holds s m → is_u64 n → m !! n = None → get_target_block_number s request = Ok n →
  get_block s request = handle_not_found_block s n.
Proof.
  intros Hs Hn Hc Ht. unfold get_block. by rewrite Ht, (read_block_holds _ _ _ Hs Hn), Hc.
Qed.
End access_theory.
