(* ===== verification/Backfill.v ===== *)
(** The backfill plugin: crates/rock-node-backfill-plugin/src/worker.rs.

    The peers are the environment: each turn of a retry loop meets an [Attempt],
    what the peer answers to the status call and what its block stream yields.
    Shuffling is the order of the peer list; delays are left out and the metric
    updates are in [Accounting]. *)
From S2P Require Import Prelude Config Database Block StateManager Core Access.

Definition PEER_RETRY_LIMIT : nat := 3.
Definition PEER_BACKOFF_BASE_SECONDS : Z := 1.
Definition BEHIND_PEER_DELAY_SECONDS : Z := 60.
Definition MAX_PEER_CONNECTION_ATTEMPTS : nat := 5.

(** [subscribe_stream_response::Response], or an empty message. *)
Inductive SubMessage :=
| SubBlockItems (block_items : list BlockItem)
| SubStatus
| SubEmpty.

(** What a peer does during one attempt: the status call fails ([Err]), finds no
    server ([Ok None]) or returns; a subscription to a range is refused ([Err]) or
    yields messages until the stream ends or breaks ([Err]). *)
Record Attempt := MkAttempt {
  at_status : Result Error (option ServerStatusResponse);
  at_stream : Z → Z → Result Error (list (Result Error SubMessage));
}.

(** A peer, attempt by attempt. *)
Definition Peer : Type := nat → Attempt.

Section gaps.
Context {RDB : RocksDB}.

Fixpoint collect_gaps (iter : list (Result Error (bytes * bytes))) (gaps : list (Z * Z))
    : Result Error (list (Z * Z)) :=
  match iter with
  | [] => Ok gaps
  | item :: iter =>
      '(key_bytes, val_bytes) ← item;
      start ← ok_or (u64_from_be key_bytes) EInvalidLength;
      end_ ← ok_or (u64_from_be val_bytes) EInvalidLength;
      collect_gaps iter (gaps ++ [(start, end_)])
  end.

Definition get_all_gaps (db : DB) : Result Error (list (Z * Z)) :=
  need_cf db CF_GAPS;;
  collect_gaps (iterator_cf db CF_GAPS IterStart) [].
End gaps.

Section worker.
Context {S : Type} {READER : BlockReader S} {WRITER : BlockWriter S} {CODEC : Codec}.
Implicit Types (s : S).

(** The [while let] loop of [stream_from_peer]. *)
Fixpoint write_stream s (stream : list (Result Error SubMessage)) : S * Result Error unit :=
  match stream with
  | [] => (s, Ok tt)
  | Ok (SubBlockItems block_items) :: stream =>
      let '(s, r) := writer_write_block s (MkBlock block_items) in
      match r with Ok _ => write_stream s stream | Err e => (s, Err e) end
  | Ok _ :: stream => write_stream s stream
  | Err e :: _ => (s, Err e)
  end.

Definition stream_from_peer s (a : Attempt) (start end_ : Z) : S * Result Error unit :=
  match at_stream a start end_ with
  | Err e => (s, Err e)
  | Ok stream => write_stream s stream
  end.

(** The retry [loop] of [run_single_gap_check] for one peer; the result says
    whether it left through [break 'peer_loop].  [fuel] bounds the turns. *)
Fixpoint gap_peer_loop (fuel : nat) s (p : Peer) (turn : nat) (retries : nat)
    (effective_start end_ : Z) : S * option bool :=
  match fuel with
  | O => (s, None)
  | Datatypes.S fuel =>
      let again s :=
        let retries := Datatypes.S retries in
        if (PEER_RETRY_LIMIT <? retries)%nat then (s, Some false)
        else gap_peer_loop fuel s p (Datatypes.S turn) retries effective_start end_ in
      match at_status (p turn) with
      | Ok (Some status) =>
          if (effective_start <? first_available_block status)
             || (last_available_block status <? end_)
          then (s, Some false)
          else
            let '(s, r) := stream_from_peer s (p turn) effective_start end_ in
            match r with Err _ => again s | Ok _ => (s, Some true) end
      | Ok None => (s, Some false)
      | Err _ => again s
      end
  end.

(** Enough turns for every retry. *)
Definition gap_peer_fuel : nat := Datatypes.S PEER_RETRY_LIMIT.

(** ['peer_loop] for one gap: the store and whether the gap was reported filled. *)
Fixpoint peer_loop s (peers : list Peer) (effective_start end_ : Z) : S * bool :=
  match peers with
  | [] => (s, false)
  | p :: peers =>
      let '(s, filled) := gap_peer_loop gap_peer_fuel s p 0 0 effective_start end_ in
      match filled with
      | Some true => (s, true)
      | _ => peer_loop s peers effective_start end_
      end
  end.

Fixpoint fill_gaps s (start_block_number : Z) (peers : list Peer) (gaps : list (Z * Z)) : S :=
  match gaps with
  | [] => s
  | (start, end_) :: gaps =>
      let effective_start := Z.max start start_block_number in
      if end_ <? effective_start then fill_gaps s start_block_number peers gaps
      else
        let '(s, _) := peer_loop s peers effective_start end_ in
        fill_gaps s start_block_number peers gaps
  end.

(** [gaps] is what [get_all_gaps] returned. *)
Definition run_single_gap_check s (start_block_number : Z) (peers : list Peer)
    (gaps : Result Error (list (Z * Z))) : S * Result Error unit :=
  match gaps with
  | Err e => (s, Err e)
  | Ok gaps => (fill_gaps s start_block_number peers gaps, Ok tt)
  end.

(** The retry loop of [run_continuous_stream_cycle] for one peer: [Some true] is
    the [return] after a stream that ended, [None] that the fuel ran out (a peer
    that has no new block yet is asked again without limit). *)
Fixpoint continuous_peer_loop (fuel : nat) s (p : Peer) (turn retries : nat)
    (local_latest_block : Z) : S * option bool :=
  match fuel with
  | O => (s, None)
  | Datatypes.S fuel =>
      let again s :=
        let retries := Datatypes.S retries in
        if (PEER_RETRY_LIMIT <? retries)%nat then (s, Some false)
        else continuous_peer_loop fuel s p (Datatypes.S turn) retries local_latest_block in
      match at_status (p turn) with
      | Ok (Some status) =>
          let peer_latest := as_i64 (last_available_block status) in
          if peer_latest <? local_latest_block then (s, Some false)
          else
            let start_from := as_i64 (local_latest_block + 1) in
            if (peer_latest <? start_from) && (0 <? start_from) then
              continuous_peer_loop fuel s p (Datatypes.S turn) retries local_latest_block
            else
              let '(s, r) := stream_from_peer s (p turn) (as_u64 start_from) u64_MAX in
              match r with Ok _ => (s, Some true) | Err _ => again s end
      | Ok None => (s, Some false)
      | Err _ => again s
      end
  end.

Fixpoint run_continuous_stream_cycle (fuel : nat) s (peers : list Peer) : S * option unit :=
  match peers with
  | [] => (s, Some tt)
  | p :: peers =>
      let local_latest_block :=
        match get_latest_persisted_block_number s with
        | Ok (Some num) => as_i64 num
        | Ok None => -1
        | Err _ => -1
        end in
      let '(s, r) := continuous_peer_loop fuel s p 0 0 local_latest_block in
      match r with
      | None => (s, None)
      | Some true => (s, Some tt)
      | Some false => run_continuous_stream_cycle fuel s peers
      end
  end.

(** ** [stream_blocks_from_peers] and [try_connect_and_stream] *)

(** The peer's status decides whether a subscription is made: the range asked for,
    [Ok None] when the peer does not have it. *)
Definition subscription_range (peer_latest : Z) (start_block_opt end_block_opt : option Z)
    : Result Error (option (Z * Z)) :=
  let start_block := default peer_latest start_block_opt in
  let end_block := default u64_MAX end_block_opt in
  if end_block <? start_block then Err (EOther "start block is after end block")
  else if (peer_latest <? start_block) && (end_block =? u64_MAX) then
    Ok (Some (start_block, end_block))
  else if peer_latest <? start_block then Ok None
  else Ok (Some (start_block, end_block)).

(** The blocks the forwarding task sends on: block sets, up to the first error. *)
Fixpoint forward_stream (stream : list (Result Error SubMessage)) : list (Result Error Block) :=
  match stream with
  | [] => []
  | Ok (SubBlockItems block_items) :: stream => Ok (MkBlock block_items) :: forward_stream stream
  | Ok _ :: stream => forward_stream stream
  | Err e :: _ => [Err e]
  end.

Definition try_connect_and_stream (a : Attempt) (start_block_opt end_block_opt : option Z)
    : Result Error (option (list (Result Error Block))) :=
  status ← at_status a;
  status ← ok_or status (EOther "server status failed");
  range ← subscription_range (last_available_block status) start_block_opt end_block_opt;
  match range with
  | None => Ok None
  | Some (start, end_) =>
      stream ← at_stream a start end_; Ok (Some (forward_stream stream))
  end.

(** The retry loop for one peer: [Some stream] when it connected. *)
Fixpoint connect_loop (fuel : nat) (p : Peer) (turn retries : nat)
    (start_block end_block : option Z) : option (list (Result Error Block)) :=
  match fuel with
  | O => None
  | Datatypes.S fuel =>
      match try_connect_and_stream (p turn) start_block end_block with
      | Ok (Some stream) => Some stream
      | Ok None => None
      | Err _ =>
          if (PEER_RETRY_LIMIT <=? retries)%nat then None
          else connect_loop fuel p (Datatypes.S turn) (Datatypes.S retries) start_block end_block
      end
  end.

(** [rounds]: the peers in the order of each round of the outer loop. *)
Fixpoint connect_rounds (rounds : list (list Peer)) (start_block end_block : option Z)
    : Result Error (list (Result Error Block)) :=
  match rounds with
  | [] => Err (EOther "Failed to connect to any peer")
  | peers :: rounds =>
      match head (omap (λ p, connect_loop (Datatypes.S PEER_RETRY_LIMIT) p 0 0
                               start_block end_block) peers) with
      | Some stream => Ok stream
      | None => connect_rounds rounds start_block end_block
      end
  end.

Definition stream_blocks_from_peers (shuffles : nat → list Peer) (start_block end_block : option Z)
    : Result Error (list (Result Error Block)) :=
  connect_rounds (shuffles <$> seq 0 MAX_PEER_CONNECTION_ATTEMPTS) start_block end_block.
End worker.

(** ** What a gap check achieves *)
Section backfill_theory.
Context {S : Type} {READER : BlockReader S} {WRITER : BlockWriter S}
  {CODEC : Codec} {CLAWS : CodecLaws} {STORE : BlockStore S}.
Implicit Types (s : S) (m : gmap Z bytes).

(** A message the store can take. *)
Definition deliverable (msg : Result Error SubMessage) : Prop :=
  match msg with
  | Ok (SubBlockItems l) =>
      accepts (MkBlock l) ∧ ∃ n, get_block_number (MkBlock l) = Ok n
  | _ => True
  end.

Definition delivers (n : Z) (msg : Result Error SubMessage) : Prop :=
  ∃ l, msg = Ok (SubBlockItems l) ∧ get_block_number (MkBlock l) = Ok n.

Definition unbroken (stream : list (Result Error SubMessage)) : Prop :=
  Forall (λ msg, is_ok msg = true) stream.

(** A peer whose streams hold well-formed blocks, and which ends a stream
    normally only after the whole range. *)
Definition faithful (p : Peer) : Prop :=
  ∀ t a b stream, at_stream (p t) a b = Ok stream →
    Forall deliverable stream ∧
    (unbroken stream → ∀ n, a ≤ n ≤ b → ∃ msg, msg ∈ stream ∧ delivers n msg).

(** A peer that serves the range at once. *)
Definition serves (a b : Z) (p : Peer) : Prop :=
  (∃ status, at_status (p 0%nat) = Ok (Some status) ∧
     first_available_block status ≤ a ∧ b ≤ last_available_block status) ∧
  ∃ stream, at_stream (p 0%nat) a b = Ok stream ∧ unbroken stream.

Lemma write_stream_ok s m stream s' r :
  holds s m → Forall deliverable stream → write_stream s stream = (s', r) →
  ∃ m', holds s' m' ∧ dom m ⊆ dom m' ∧ (unbroken stream → r = Ok tt) ∧
    (r = Ok tt → unbroken stream ∧ ∀ n msg, msg ∈ stream → delivers n msg → n ∈ dom m').
Proof.
  intros Hs Hd. revert s m Hs. induction Hd as [|msg stream Hm Hd IH]; intros s m Hs; cbn.
  { intros [= <- <-]. exists m. split_and!; try done. intros _. split; [constructor|].
    by intros n msg ?%elem_of_nil. }
  destruct msg as [[l| |]|e].
  - destruct Hm as [Ha [n Hn]].
    destruct (write_block_holds s m (MkBlock l) n Hs Ha Hn) as (s1 & -> & Hs1).
    intros E. destruct (IH s1 _ Hs1 E) as (m' & Hm' & Hsub & Hu & Hr).
    rewrite dom_insert_L in Hsub. exists m'. split_and!; [done|set_solver| |].
    + intros [_ Hu']%Forall_cons. by apply Hu.
    + intros Hok. destruct (Hr Hok) as [Hu' Hall]. split; [by constructor|].
      intros n' msg' [->|Hin]%elem_of_cons Hdel; [|by eapply Hall].
      destruct Hdel as (l' & [= <-] & Hn'). assert (n' = n) as -> by congruence. set_solver.
  - intros E. destruct (IH s m Hs E) as (m' & Hm' & Hsub & Hu & Hr).
    exists m'. split_and!; [done|done| |].
    + intros [_ Hu']%Forall_cons. by apply Hu.
    + intros Hok. destruct (Hr Hok) as [Hu' Hall]. split; [by constructor|].
      intros n' msg' [->|Hin]%elem_of_cons Hdel; [|by eapply Hall].
      by destruct Hdel as (l' & ? & _).
  - intros E. destruct (IH s m Hs E) as (m' & Hm' & Hsub & Hu & Hr).
    exists m'. split_and!; [done|done| |].
    + intros [_ Hu']%Forall_cons. by apply Hu.
    + intros Hok. destruct (Hr Hok) as [Hu' Hall]. split; [by constructor|].
      intros n' msg' [->|Hin]%elem_of_cons Hdel; [|by eapply Hall].
      by destruct Hdel as (l' & ? & _).
  - intros [= <- <-]. exists m. split_and!; try done. by intros [? _]%Forall_cons.
Qed.

Lemma stream_from_peer_ok s m p t a b s' r :
  faithful p → holds s m → stream_from_peer s (p t) a b = (s', r) →
  ∃ m', holds s' m' ∧ dom m ⊆ dom m' ∧ (r = Ok tt → ∀ n, a ≤ n ≤ b → n ∈ dom m').
Proof.
  intros Hp Hs. unfold stream_from_peer.
  destruct (at_stream (p t) a b) as [stream|e] eqn:E.
  - destruct (Hp _ _ _ _ E) as [Hd Hall]. intros Ew.
    destruct (write_stream_ok s m stream s' r Hs Hd Ew) as (m' & Hm' & Hsub & _ & Hr).
    exists m'. split_and!; [done|done|]. intros Hok n Hn. destruct (Hr Hok) as [Hu Hin].
    destruct (Hall Hu n Hn) as (msg & Hmsg & Hdel). by eapply Hin.
  - intros [= <- <-]. by exists m.
Qed.

Lemma gap_peer_loop_ok fuel s m p t retries a b s' o :
  faithful p → holds s m → gap_peer_loop fuel s p t retries a b = (s', o) →
  ∃ m', holds s' m' ∧ dom m ⊆ dom m' ∧ (o = Some true → ∀ n, a ≤ n ≤ b → n ∈ dom m').
Proof.
  intros Hp. revert s m t retries.
  induction fuel as [|fuel IH]; intros s m t retries Hs; cbn -[PEER_RETRY_LIMIT Nat.ltb].
  { intros [= <- <-]. by exists m. }
  destruct (at_status (p t)) as [[st|]|e].
  - destruct (_ || _); [intros [= <- <-]; by exists m|].
    destruct (stream_from_peer s (p t) a b) as [s1 r] eqn:E.
    destruct (stream_from_peer_ok s m p t a b s1 r Hp Hs E) as (m1 & Hm1 & Hsub & Hr).
    destruct r as [[]|e].
    + intros [= <- <-]. exists m1. split_and!; [done|done|]. intros _. by apply Hr.
    + destruct (_ <? _)%nat; [intros [= <- <-]; by exists m1|]. intros E2.
      destruct (IH _ _ _ _ Hm1 E2) as (m2 & ? & ? & ?). exists m2. split_and!; [done|set_solver|done].
  - intros [= <- <-]. by exists m.
  - destruct (_ <? _)%nat; [intros [= <- <-]; by exists m|]. by apply IH.
Qed.

(** The fuel covers every retry. *)
Lemma gap_peer_loop_total fuel s p t retries a b :
  (PEER_RETRY_LIMIT < fuel + retries)%nat → (0 < fuel)%nat →
  (gap_peer_loop fuel s p t retries a b).2 ≠ None.
Proof.
  revert s t retries. induction fuel as [|fuel IH]; intros s t retries Hf H0;
    cbn -[PEER_RETRY_LIMIT Nat.ltb]; [lia|].
  assert (∀ s, (if (PEER_RETRY_LIMIT <? Datatypes.S retries)%nat then (s, Some false)
    else gap_peer_loop fuel s p (Datatypes.S t) (Datatypes.S retries) a b).2 ≠ None) as Hag.
  { intros s'. destruct (Nat.ltb_spec PEER_RETRY_LIMIT (Datatypes.S retries)); [done|].
    apply IH; lia. }
  destruct (at_status (p t)) as [[st|]|e]; [|done|apply Hag].
  destruct (_ || _); [done|]. destruct (stream_from_peer _ _ _ _) as [s1 []]; [done|apply Hag].
Qed.

Lemma serves_fills s m p a b :
  faithful p → serves a b p → holds s m →
  (gap_peer_loop gap_peer_fuel s p 0 0 a b).2 = Some true.
Proof.
  intros Hp [(st & Hst & Hlo & Hhi) (stream & Hstr & Hu)] Hs.
  unfold gap_peer_fuel. cbn -[PEER_RETRY_LIMIT Nat.ltb]. rewrite Hst.
  destruct (Z.ltb_spec a (first_available_block st)); [lia|].
  destruct (Z.ltb_spec (last_available_block st) b); [lia|]. cbn -[PEER_RETRY_LIMIT Nat.ltb].
  unfold stream_from_peer. rewrite Hstr.
  destruct (write_stream s stream) as [s' r] eqn:E.
  destruct (write_stream_ok s m stream s' r Hs) as (m' & _ & _ & Hr & _);
    [by eapply Hp|done|]. by rewrite (Hr Hu).
Qed.

Lemma peer_loop_ok s m peers a b s' filled :
  Forall faithful peers → holds s m → peer_loop s peers a b = (s', filled) →
  ∃ m', holds s' m' ∧ dom m ⊆ dom m' ∧ (filled = true → ∀ n, a ≤ n ≤ b → n ∈ dom m') ∧
    (Exists (serves a b) peers → filled = true).
Proof.
  intros Hf. revert s m. induction Hf as [|p peers Hp Hf IH]; intros s m Hs; cbn [peer_loop].
  { intros [= <- <-]. exists m. split_and!; try done. by intros ?%Exists_nil. }
  destruct (gap_peer_loop gap_peer_fuel s p 0 0 a b) as [s1 o] eqn:E.
  destruct (gap_peer_loop_ok _ _ _ _ _ _ _ _ _ _ Hp Hs E) as (m1 & Hm1 & Hsub & Ho).
  destruct o as [[]|].
  - intros [= <- <-]. exists m1. split_and!; try done. intros _. by apply Ho.
  - intros E2. destruct (IH _ _ Hm1 E2) as (m2 & ? & ? & ? & Hex). exists m2.
    split_and!; [done|set_solver|done|].
    intros [Hsv|]%Exists_cons; [|by apply Hex].
    pose proof (serves_fills s m p a b Hp Hsv Hs) as Hc. by rewrite E in Hc.
  - intros E2. exfalso. apply (gap_peer_loop_total gap_peer_fuel s p 0 0 a b);
      [unfold gap_peer_fuel; lia|unfold gap_peer_fuel; lia|by rewrite E].
Qed.

Lemma fill_gaps_ok s m start peers gaps :
  Forall faithful peers → holds s m →
  ∃ m', holds (fill_gaps s start peers gaps) m' ∧ dom m ⊆ dom m' ∧
    ∀ a b n, (a, b) ∈ gaps → Exists (serves (Z.max a start) b) peers →
      start ≤ n → a ≤ n ≤ b → n ∈ dom m'.
Proof.
  intros Hf. revert s m. induction gaps as [|[a b] gaps IH]; intros s m Hs; cbn.
  { exists m. split_and!; try done. by intros ? ? ? ?%elem_of_nil. }
  destruct (Z.ltb_spec b (Z.max a start)) as [Hlt|Hge].
  - destruct (IH s m Hs) as (m' & ? & ? & Hall). exists m'. split_and!; [done..|].
    intros a' b' n [[= -> ->]|Hin]%elem_of_cons; [lia|by apply Hall].
  - destruct (peer_loop s peers (Z.max a start) b) as [s1 filled] eqn:E.
    destruct (peer_loop_ok _ _ _ _ _ _ _ Hf Hs E) as (m1 & Hm1 & Hsub & Hfill & Hex).
    destruct (IH s1 m1 Hm1) as (m' & ? & ? & Hall). exists m'. split_and!; [done|set_solver|].
    intros a' b' n [[= -> ->]|Hin]%elem_of_cons Hsv; [|by apply (Hall a' b')].
    intros ??. specialize (Hfill (Hex Hsv) n ltac:(lia)). set_solver.
Qed.
End backfill_theory.

(** ** The gap listing *)
Section gaps_theory.
Context {RDB : RocksDB} {LAWS : RocksDBLaws}.

Lemma collect_gaps_ok (l : list (Z * Z)) acc :
  Forall (λ p, is_u64 p.1 ∧ is_u64 p.2) l →
  collect_gaps ((λ p, Ok (u64_to_be p.1, u64_to_be p.2)) <$> l) acc = Ok (acc ++ l).
Proof.
  intros H. revert acc. induction H as [|[a b] l [Ha Hb] _ IH]; intros acc; cbn.
  - by rewrite app_nil_r.
  - rewrite !u64_from_to_be by done. cbn. rewrite IH. by rewrite <-app_assoc.
Qed.

(** [get_all_gaps] lists exactly the gap table, by increasing start. *)
Lemma get_all_gaps_ok db g : gaps_ok db g →
  ∃ l, get_all_gaps db = Ok l ∧ StronglySorted (λ p q, p.1 < q.1) l ∧
    ∀ a b, (a, b) ∈ l ↔ g !! a = Some b.
Proof.
  intros [Hdb [Hinv Henc]]. unfold get_all_gaps.
  rewrite need_cf_open by (apply Hdb || set_solver). cbn.
  destruct (iterator_healthy db CF_GAPS IterStart (proj2 Hdb)) as (kv & -> & Hsort & Hin).
  assert (∃ l, kv = (λ p : Z * Z, (u64_to_be p.1, u64_to_be p.2)) <$> l ∧
               Forall (λ p, is_u64 p.1 ∧ is_u64 p.2 ∧ g !! p.1 = Some p.2) l) as (l & -> & Hl).
  { assert (∀ k v, (k, v) ∈ kv → ∃ a b, k = u64_to_be a ∧ v = u64_to_be b ∧
               is_u64 a ∧ is_u64 b ∧ g !! a = Some b) as Hdec.
    { intros k v [Hkv _]%Hin. rewrite Henc in Hkv.
      destruct (u64_from_be k) as [a|] eqn:Ek; [|done]. cbn in Hkv.
      apply u64_from_be_Some in Ek as [-> Ha]. destruct (g !! a) as [b|] eqn:Eg; [|done].
      cbn in Hkv. apply (inj Some) in Hkv as <-. destruct (Hinv _ _ Eg) as (_ & Hb & _).
      by exists a, b. }
    clear -Hdec. induction kv as [|[k v] kv IH]; [by exists []|].
    destruct IH as (l & -> & Hl); [intros; apply Hdec; by right|].
    destruct (Hdec k v ltac:(by left)) as (a & b & -> & -> & ? & ? & ?).
    exists ((a, b) :: l). split; [done|]. by constructor. }
  exists l. split_and!.
  - rewrite <-list_fmap_compose. apply (collect_gaps_ok l []).
    eapply Forall_impl; [exact Hl|]. naive_solver.
  - clear Hin. rewrite <-list_fmap_compose in Hsort. induction Hl as [|p l (Hp & _ & _) Hl IH];
      [constructor|]. cbn in Hsort. apply StronglySorted_inv in Hsort as [Hs Hall].
    constructor; [by apply IH|]. rewrite Forall_fmap in Hall.
    rewrite Forall_forall in *. intros q Hq. specialize (Hall q Hq). cbn in Hall.
    destruct (Hl q Hq) as (Hq1 & _ & _). by apply u64_to_be_lt.
  - intros a b. split.
    + intros Hab. rewrite Forall_forall in Hl. by destruct (Hl _ Hab) as (_ & _ & ?).
    + intros Hg. destruct (Hinv _ _ Hg) as (Ha & Hb & _).
      assert ((u64_to_be a, u64_to_be b) ∈ (λ p : Z * Z, (u64_to_be p.1, u64_to_be p.2)) <$> l)
        as ([a' b'] & E & Hin')%list_elem_of_fmap.
      { apply Hin. split; [|done]. rewrite Henc, u64_from_to_be by done. cbn. by rewrite Hg. }
      cbn in E. rewrite Forall_forall in Hl. destruct (Hl _ Hin') as (Ha' & Hb' & _).
      apply pair_equal_spec in E as [E1 E2]. cbn in *.
      apply u64_to_be_inj in E1, E2; [|done..]. by subst.
Qed.
End gaps_theory.
