(* ===== verification/Peering.v ===== *)
(** Two nodes: the peer that a backfill worker talks to is a Rock Node itself, with
    the status service of server-status-plugin/src/service.rs and the sessions of
    subscriber-plugin/src/session.rs behind its address.  The worker is
    backfill-plugin/src/worker.rs on the other node. *)
From S2P Require Import Prelude Config Block Core Subscriber Access Backfill.

(** A response of the session as the client decodes it. *)
Definition to_message (r : StreamResponse) : SubMessage :=
  match r with
  | BlockItems block_items => SubBlockItems block_items
  | StatusCode _ => SubStatus
  end.

Section peer.
Context {S : Type} {READER : BlockReader S} {CODEC : Codec}.

(** The stream of one session: what it sends, its final status, the end of the
    stream.  A session that is still running when its turns are used up has lost
    the connection. *)
Definition session_stream (cfg : SubscriberServiceConfig) (s : S) (turns : list (Turn S))
    (start end_ : Z) : list (Result Error SubMessage) :=
  let '(sent, result) := execute_stream cfg (MkSubscribe start end_) s turns in
  ((λ r, Ok (to_message r)) <$> sent)
  ++ match result with
     | Some r => (λ m, Ok (to_message m)) <$> send_final_status (final_code r)
     | None => [Err EIo]
     end.

(** [get_peer_status] turns a failing status call into [Ok None]. *)
Definition node_status (s : S) : Result Error (option ServerStatusResponse) :=
  match server_status s with Ok status => Ok (Some status) | Err _ => Ok None end.

(** The node as a peer; its store and the course of its sessions may differ from
    attempt to attempt. *)
Definition rock_peer (cfg : SubscriberServiceConfig) (store : nat → S)
    (turns : nat → Z → Z → list (Turn S)) : Peer := λ t,
  {| at_status := node_status (store t);
     at_stream a b := Ok (session_stream cfg (store t) (turns t a b) a b) |}.
End peer.

Section peering_theory.
Context {S : Type} {READER : BlockReader S} {WRITER : BlockWriter S}
  {CODEC : Codec} {CLAWS : CodecLaws} {STORE : BlockStore S}.
Implicit Types (s : S) (m : gmap Z bytes).

(** A node whose status covers a range accepts a subscription to it. *)
Lemma status_covers_accepts cfg s st a b :
  server_status s = Ok st → first_available_block st ≤ a → a ≤ b → b ≤ last_available_block st →
  0 ≤ max_future_block_lookahead cfg → 0 ≤ a → b < u64_MAX →
  last_available_block st + max_future_block_lookahead cfg < u64_modulus →
  validate_and_check_fulfillment cfg (MkSubscribe a b) s = Ok a.
Proof.
  intros Hst Hlo Hab Hhi Hla H0 Hmax Hsum. unfold server_status in Hst.
  apply bind_Ok in Hst as (e & He & Hst). apply bind_Ok in Hst as (l & Hl & Hst).
  apply (inj Ok) in Hst as <-. cbn in *.
  unfold validate_and_check_fulfillment. rewrite He, Hl. cbn.
  destruct (Z.eqb_spec b u64_MAX) as [|_]; [lia|]. destruct (Z.eqb_spec a u64_MAX) as [|_]; [lia|].
  destruct (Z.ltb_spec b a) as [|_]; [lia|]. cbn.
  destruct e as [e|]; cbn in *;
    [destruct (Z.ltb_spec a e); [lia|]|]; cbn;
    (destruct l as [l|]; [|done]); cbn in *; rewrite u64_add_small by u64_lia;
    (destruct (Z.ltb_spec (l + max_future_block_lookahead cfg) a); [lia|done]).
Qed.

(** An undisturbed session over a stored range: its blocks and a status. *)
Lemma session_stream_range (reads : Z → bytes → Prop) cfg s turns st a b :
  server_status s = Ok st → first_available_block st ≤ a → a ≤ b → b ≤ last_available_block st →
  0 ≤ max_future_block_lookahead cfg → 0 ≤ a → b < u64_MAX →
  last_available_block st + max_future_block_lookahead cfg < u64_modulus →
  Forall (λ t, turn_shutdown t = false ∧ turn_connected t = true ∧
    ∃ m, holds (turn_store t) m ∧ ∀ n, a ≤ n ≤ b → ∃ c, m !! n = Some c ∧ reads n c) turns →
  b + 2 - a ≤ Z.of_nat (length turns) →
  ∃ bs, session_stream cfg s turns a b
      = ((λ b, Ok (SubBlockItems (items b))) <$> bs) ++ [Ok SubStatus] ∧
    Forall2 (λ b n, wf_block b ∧ get_block_number b = Ok n ∧ reads n (encode_to_vec b))
      bs (seqZ a (b + 1 - a)).
Proof.
  intros Hst Hlo Hab Hhi Hla H0 Hmax Hsum Hall Hlen. unfold session_stream, execute_stream.
  rewrite (status_covers_accepts cfg s st a b) by done. cbn [end_block_number].
  destruct (Z.eqb_spec b u64_MAX) as [|_]; [lia|]. cbn [negb].
  destruct (stream_loop_sends reads (MkSubscribe a b) turns a) as (bs & -> & Hbs);
    [cbn; lia|cbn; lia|done|done|].
  exists bs. split; [|done]. cbn. by rewrite <-list_fmap_compose.
Qed.

Lemma block_eta b : MkBlock (items b) = b.
Proof. by destruct b. Qed.

(** Writing a stream of consecutive blocks overwrites exactly their numbers. *)
Lemma write_stream_range (reads : Z → bytes → Prop) s m bs a k :
  holds s m → Forall accepts bs →
  Forall2 (λ b n, wf_block b ∧ get_block_number b = Ok n ∧ reads n (encode_to_vec b))
    bs (seqZ a k) →
  ∃ s' m', write_stream s (((λ b, Ok (SubBlockItems (items b))) <$> bs) ++ [Ok SubStatus])
      = (s', Ok tt) ∧ holds s' m' ∧
    (∀ n, a ≤ n < a + k → ∃ c, m' !! n = Some c ∧ reads n c) ∧
    ∀ n, ¬ (a ≤ n < a + k) → m' !! n = m !! n.
Proof.
  intros Hs Ha. revert s m a k Hs. induction Ha as [|b bs Hb Ha IH]; intros s m a k Hs Hr.
  { apply Forall2_nil_inv_l in Hr. assert (k ≤ 0).
    { destruct (decide (k ≤ 0)); [done|]. by rewrite seqZ_cons in Hr by lia. }
    exists s, m. split_and!; [done|done|lia|done]. }
  destruct (decide (0 < k)) as [Hk|Hk]; [|rewrite seqZ_nil in Hr by lia; inversion Hr].
  rewrite seqZ_cons in Hr by lia. apply Forall2_cons in Hr as [(Hwf & Hn & Hc) Hr].
  destruct (write_block_holds s m b a Hs Hb Hn) as (s1 & Ew & Hs1).
  destruct (IH s1 _ (Z.succ a) (Z.pred k) Hs1 Hr) as (s' & m' & E & Hm' & Hin & Hout).
  exists s', m'. cbn. rewrite block_eta, Ew. split_and!; [done|done| |].
  - intros n Hn'. destruct (decide (n = a)) as [->|]; [|apply Hin; lia].
    rewrite Hout, lookup_insert_eq by lia. eauto.
  - intros n Hn'. rewrite Hout, lookup_insert_ne by lia. done.
Qed.

(** The gap is copied from the node that serves it. *)
Lemma gap_copied (reads : Z → bytes → Prop) cfg (sA : nat → S) turns s m st a b :
  holds s m → server_status (sA 0%nat) = Ok st →
  first_available_block st ≤ a → a ≤ b → b ≤ last_available_block st →
  0 ≤ max_future_block_lookahead cfg → 0 ≤ a → b < u64_MAX →
  last_available_block st + max_future_block_lookahead cfg < u64_modulus →
  Forall (λ t, turn_shutdown t = false ∧ turn_connected t = true ∧
    ∃ m, holds (turn_store t) m ∧ ∀ n, a ≤ n ≤ b → ∃ c, m !! n = Some c ∧ reads n c)
    (turns 0%nat a b) →
  b + 2 - a ≤ Z.of_nat (length (turns 0%nat a b)) →
  (∀ x n, get_block_number x = Ok n → wf_block x → reads n (encode_to_vec x) → accepts x) →
  ∃ s' m', gap_peer_loop gap_peer_fuel s (rock_peer cfg sA turns) 0 0 a b = (s', Some true) ∧
    holds s' m' ∧ (∀ n, a ≤ n ≤ b → ∃ c, m' !! n = Some c ∧ reads n c) ∧
    ∀ n, ¬ (a ≤ n ≤ b) → m' !! n = m !! n.
Proof.
  intros Hs Hst Hlo Hab Hhi Hla H0 Hmax Hsum Hall Hlen Hacc.
  destruct (session_stream_range reads cfg (sA 0%nat) (turns 0%nat a b) st a b)
    as (bs & Es & Hbs); [done..|].
  destruct (write_stream_range reads s m bs a (b + 1 - a) Hs) as (s' & m' & Ew & Hm' & Hin & Hout).
  { clear Es. induction Hbs as [|x n bs ns (? & ? & ?) _ IH]; constructor; eauto. }
  { done. }
  exists s', m'. split_and!; [|done|intros; apply Hin; lia|intros; apply Hout; lia].
  unfold gap_peer_fuel. cbn -[PEER_RETRY_LIMIT Nat.ltb]. unfold node_status. rewrite Hst.
  destruct (Z.ltb_spec a (first_available_block st)); [lia|].
  destruct (Z.ltb_spec (last_available_block st) b); [lia|]. cbn -[PEER_RETRY_LIMIT Nat.ltb].
  unfold stream_from_peer. cbn -[PEER_RETRY_LIMIT Nat.ltb]. by rewrite Es, Ew.
Qed.

(** A session that is shut down ends its stream with a status and no error, and so
    the worker takes the range for fetched. *)
Lemma shutdown_counts_as_filled cfg (sA : nat → S) turns s st t rest a b :
  server_status (sA 0%nat) = Ok st →
  first_available_block st ≤ a → a ≤ b → b ≤ last_available_block st →
  0 ≤ max_future_block_lookahead cfg → 0 ≤ a → b < u64_MAX →
  last_available_block st + max_future_block_lookahead cfg < u64_modulus →
  turns 0%nat a b = t :: rest → turn_shutdown t = true →
  gap_peer_loop gap_peer_fuel s (rock_peer cfg sA turns) 0 0 a b = (s, Some true).
Proof.
  intros Hst Hlo Hab Hhi Hla H0 Hmax Hsum Et Ht.
  unfold gap_peer_fuel. cbn -[PEER_RETRY_LIMIT Nat.ltb]. unfold node_status. rewrite Hst.
  destruct (Z.ltb_spec a (first_available_block st)); [lia|].
  destruct (Z.ltb_spec (last_available_block st) b); [lia|]. cbn -[PEER_RETRY_LIMIT Nat.ltb].
  unfold stream_from_peer. cbn -[PEER_RETRY_LIMIT Nat.ltb]. unfold session_stream, execute_stream.
  rewrite (status_covers_accepts cfg (sA 0%nat) st a b), Et by done. cbn -[PEER_RETRY_LIMIT].
  by rewrite Ht.
Qed.
(** A course of the session for the range that nothing disturbs: no shutdown, the
    client stays, and every turn reads the blocks of [mA]. *)
Definition undisturbed_session (mA : gmap Z bytes) (turns : list (Turn S)) (a b : Z) : Prop :=
  b + 2 - a ≤ Z.of_nat (length turns) ∧
  Forall (λ t, turn_shutdown t = false ∧ turn_connected t = true ∧
    ∃ m, holds (turn_store t) m ∧ ∀ n, a ≤ n ≤ b → ∃ c, m !! n = Some c ∧ mA !! n = Some c) turns.

(** What a node must report and do to serve the range. *)
Definition node_serves cfg (st : ServerStatusResponse) (mA : gmap Z bytes)
    (turns : nat → Z → Z → list (Turn S)) (a b : Z) : Prop :=
  first_available_block st ≤ a ∧ b ≤ last_available_block st ∧ 0 ≤ a ∧ b < u64_MAX ∧
  last_available_block st + max_future_block_lookahead cfg < u64_modulus ∧
  undisturbed_session mA (turns 0%nat a b) a b.

(** The numbers of the recorded gaps from the start block on. *)
Definition missing (start : Z) (gaps : list (Z * Z)) (n : Z) : Prop :=
  ∃ a b, (a, b) ∈ gaps ∧ Z.max a start ≤ n ≤ b.

#[export] Instance missing_dec start gaps n : Decision (missing start gaps n).
Proof.
  refine (cast_if (decide (Exists (λ g, Z.max g.1 start ≤ n ≤ g.2) gaps))).
  - rewrite Exists_exists in e. destruct e as ([a b] & Hin & Hr). by exists a, b.
  - contradict n0. destruct n0 as (a & b & Hin & Hr). apply Exists_exists. by exists (a, b).
Defined.

Lemma gaps_copied cfg sA turns others st mA s m start gaps :
  holds s m → server_status (sA 0%nat) = Ok st → 0 ≤ max_future_block_lookahead cfg →
  (∀ x n, get_block_number x = Ok n → mA !! n = Some (encode_to_vec x) → wf_block x → accepts x) →
  (∀ a b, (a, b) ∈ gaps → Z.max a start ≤ b → node_serves cfg st mA turns (Z.max a start) b) →
  ∃ m', holds (fill_gaps s start (rock_peer cfg sA turns :: others) gaps) m' ∧
    (∀ n, missing start gaps n → ∃ c, m' !! n = Some c ∧ mA !! n = Some c) ∧
    ∀ n, ¬ missing start gaps n → m' !! n = m !! n.
Proof.
  intros Hs Hst Hla Hacc. revert s m Hs.
  induction gaps as [|[a b] gaps IH]; intros s m Hs Hserve.
  { exists m. split_and!; [done|by intros n (? & ? & ?%elem_of_nil & _)|done]. }
  assert (∀ n, missing start ((a, b) :: gaps) n ↔ Z.max a start ≤ n ≤ b ∨ missing start gaps n)
    as Hmiss.
  { intros n. unfold missing. setoid_rewrite elem_of_cons. naive_solver. }
  assert (∀ a' b', (a', b') ∈ gaps → Z.max a' start ≤ b' →
    node_serves cfg st mA turns (Z.max a' start) b') as Hserve'
    by (intros; apply Hserve; [by right|done]).
  cbn [fill_gaps]. destruct (Z.ltb_spec b (Z.max a start)) as [Hlt|Hge].
  { destruct (IH s m Hs Hserve') as (m' & Hm' & Hin & Hout). exists m'. split_and!; [done|..].
    - intros n [?|?]%Hmiss; [lia|by apply Hin].
    - intros n Hn. apply Hout. intros ?. apply Hn, Hmiss. by right. }
  destruct (Hserve a b ltac:(by left) Hge) as (Hlo & Hhi & H0 & Hmax & Hsum & Hlen & Hall).
  destruct (gap_copied (λ n c, mA !! n = Some c) cfg sA turns s m st (Z.max a start) b)
    as (s1 & m1 & E1 & Hm1 & Hin1 & Hout1); [done..|eauto|].
  cbn [peer_loop]. rewrite E1.
  destruct (IH s1 m1 Hm1 Hserve') as (m' & Hm' & Hin & Hout). exists m'. split_and!; [done|..].
  - intros n Hn. destruct (decide (Z.max a start ≤ n ≤ b)) as [Hr|Hr].
    + destruct (decide (missing start gaps n)) as [Hg|Hg]; [by apply Hin|].
      rewrite Hout by done. by apply Hin1.
    + apply Hin. by apply Hmiss in Hn as [|].
  - intros n Hn. rewrite Hout, Hout1; [done|..]; intros ?; apply Hn, Hmiss; auto.
Qed.
(** ** Continuous mode

    A session without an end sends what the node has and then waits; when no new
    block comes it times out and ends the stream with a status. *)
Lemma stream_loop_follows (reads : Z → bytes → Prop) request turns last start k :
  0 ≤ start → start + k < u64_MAX → Z.of_nat (length turns) = k →
  Forall (λ t, turn_shutdown t = false ∧ turn_connected t = true ∧
    ∃ m, holds (turn_store t) m ∧
      ∀ n, start ≤ n < start + k → ∃ c, m !! n = Some c ∧ reads n c) turns →
  turn_shutdown last = false → turn_recvs last = [RTimeout] →
  (∃ m, holds (turn_store last) m ∧ m !! (start + k) = None) →
  ∃ bs, stream_loop request false start (turns ++ [last])
      = ((λ b, BlockItems (items b)) <$> bs,
         Some (Err (TimeoutWaitingForBlock (start + k)))) ∧
    Forall2 (λ b n, wf_block b ∧ get_block_number b = Ok n ∧ reads n (encode_to_vec b))
      bs (seqZ start k).
Proof.
  revert start k. induction turns as [|t turns IH]; intros start k Hs Hk Hlen Hall Hsd Hrc Hlast.
  - cbn in Hlen. subst k. destruct Hlast as (m & Hm & Hno). rewrite Z.add_0_r in *.
    exists []. split; [|constructor]. cbn. rewrite Hsd. unfold process_next_block. cbn.
    rewrite (read_block_holds _ _ _ Hm) by u64_lia. by rewrite Hno, Hrc.
  - apply Forall_cons in Hall as [(Hsd' & Hcn & m & Hm & Hdom) Hall]. cbn [length] in Hlen.
    destruct (Hdom start ltac:(lia)) as (c & Hc & Hr).
    destruct (process_found request t m start false c Hm ltac:(u64_lia) Hc)
      as (b & Hb & Hwf & -> & Ep); [done|].
    destruct (IH (start + 1) (k - 1)) as (bs & E & Hbs); [lia|lia|lia| |done|done| |].
    { eapply Forall_impl; [exact Hall|]. intros t' (? & ? & m' & ? & Hd). split_and!; [done..|].
      exists m'. split; [done|]. intros n ?. apply Hd. lia. }
    { by replace (start + 1 + (k - 1)) with (start + k) by lia. }
    exists (b :: bs). cbn [app stream_loop]. rewrite Hsd', Ep, Hcn, u64_add_small, E by u64_lia.
    replace (start + 1 + (k - 1)) with (start + k) by lia. split; [done|].
    rewrite seqZ_cons by lia. constructor; [done|exact Hbs].
Qed.

(** The node has [k] blocks from [start] on, and the sessions to it run until they
    time out. *)
Definition follows (mA : gmap Z bytes) (turns : list (Turn S)) (start k : Z) : Prop :=
  ∃ ts last, turns = ts ++ [last] ∧ Z.of_nat (length ts) = k ∧
    Forall (λ t, turn_shutdown t = false ∧ turn_connected t = true ∧
      ∃ m, holds (turn_store t) m ∧
        ∀ n, start ≤ n < start + k → ∃ c, m !! n = Some c ∧ mA !! n = Some c) ts ∧
    turn_shutdown last = false ∧ turn_recvs last = [RTimeout] ∧
    ∃ m, holds (turn_store last) m ∧ m !! (start + k) = None.

Lemma session_follows cfg s turns mA start k :
  validate_and_check_fulfillment cfg (MkSubscribe start u64_MAX) s = Ok start →
  0 ≤ start → start + k < u64_MAX → follows mA turns start k →
  ∃ bs, session_stream cfg s turns start u64_MAX
      = ((λ b, Ok (SubBlockItems (items b))) <$> bs) ++ [Ok SubStatus] ∧
    Forall2 (λ b n, wf_block b ∧ get_block_number b = Ok n ∧ mA !! n = Some (encode_to_vec b))
      bs (seqZ start k).
Proof.
  intros Hv H0 Hk (ts & last & -> & Hlen & Hall & Hsd & Hrc & Hlast).
  destruct (stream_loop_follows (λ n c, mA !! n = Some c) (MkSubscribe start u64_MAX) ts last start k)
    as (bs & E & Hbs); [done..|].
  exists bs. split; [|done]. unfold session_stream, execute_stream. rewrite Hv.
  cbn [end_block_number]. rewrite Z.eqb_refl. cbn [negb]. rewrite E.
  by rewrite <-list_fmap_compose.
Qed.

(** What a continuous subscription to a node is accepted for. *)
Lemma continuous_accepted cfg s e l start :
  get_earliest_persisted_block_number s = Ok (Some e) →
  get_latest_persisted_block_number s = Ok (Some l) →
  start < u64_MAX → 0 ≤ l → 0 ≤ max_future_block_lookahead cfg →
  l + max_future_block_lookahead cfg < u64_modulus →
  validate_and_check_fulfillment cfg (MkSubscribe start u64_MAX) s =
  if start <? e then Err (Validation CInvalidStartBlockNumber)
  else if l + max_future_block_lookahead cfg <? start then Err (Validation CNotAvailable)
  else Ok start.
Proof.
  intros He Hl Hs H0 Hla Hsum. unfold validate_and_check_fulfillment. rewrite He, Hl. cbn.
  destruct (Z.eqb_spec start u64_MAX) as [|_]; [lia|]. cbn.
  destruct (start <? e); [done|]. cbn. rewrite u64_add_small by u64_lia.
  by destruct (_ <? start).
Qed.
End peering_theory.
