(* ===== verification/BackfillLoop.v ===== *)
(** The outer loops of the backfill worker (backfill-plugin/src/worker.rs:
    [run_gap_fill_loop], [run_continuous_loop]) and the task that runs them
    (backfill-plugin/src/lib.rs), with the shutdown notification.

    The gap-fill loop has a [Notified] future only between two checks; the continuous
    loop has one all the time, and drops a cycle in the middle when it completes. *)
From S2P Require Import Prelude Config Block Core Subscriber Access Backfill Peering.

(** ** [tokio::sync::Notify], as far as a loop with one future at a time uses it

    [notified] makes a future, which counts as registered from then on;
    [notify_waiters] completes the registered ones and leaves nothing for later. *)
Inductive Waiter := NoFuture | Registered | Completed.
Definition notified (w : Waiter) : Waiter := Registered.
Definition dropped (w : Waiter) : Waiter := NoFuture.
Definition notify_waiters (w : Waiter) : Waiter :=
  match w with Registered => Completed | w => w end.

(** ** [run_gap_fill_loop] *)

(** [GPanicked]: [tokio::time::interval] panics on a zero period, and the task never
    gets to clear the running flag. *)
Inductive GapPhase := GWaiting | GChecking | GEnded | GPanicked.

Inductive GapEvent :=
| Tick
| CheckDone (shuffled_peers : list Peer)
| StopNotified.

(** Where the task is, and its future on the shutdown notification. *)
Record GapTask := MkGapTask {
  gt_phase : GapPhase;
  gt_notified : Waiter;
}.

(** The head of the loop: [select!] makes a future and waits. *)
Definition enter_select (w : Waiter) : GapTask := MkGapTask GWaiting (notified w).

Definition gap_loop_init (check_interval_seconds : Z) : GapTask :=
  if check_interval_seconds =? 0 then MkGapTask GPanicked NoFuture else enter_select NoFuture.

Section loops.
Context {S : Type} {READER : BlockReader S} {WRITER : BlockWriter S} {CODEC : Codec}.
Context (start_block_number : Z) (gaps_of : S → Result Error (list (Z * Z))).
Implicit Types (s : S) (t : GapTask).

(** One event at the task: the timer (which makes [select!] drop the other branch),
    the end of the check it is in (with the order the peers were shuffled to and what
    they did), a call of [notify_waiters].  An error of a check is only logged. *)
Definition gap_loop_step (st : GapTask * S) (ev : GapEvent) : GapTask * S :=
  let '(t, s) := st in
  match ev with
  | Tick =>
      match gt_phase t with
      | GWaiting => (MkGapTask GChecking (dropped (gt_notified t)), s)
      | _ => st
      end
  | CheckDone peers =>
      match gt_phase t with
      | GChecking => (enter_select (gt_notified t),
                      (run_single_gap_check s start_block_number peers (gaps_of s)).1)
      | _ => st
      end
  | StopNotified =>
      match gt_phase t, notify_waiters (gt_notified t) with
      | GWaiting, Completed => (MkGapTask GEnded NoFuture, s)
      | ph, w => (MkGapTask ph w, s)
      end
  end.

Definition gap_loop (st : GapTask * S) (evs : list GapEvent) : GapTask * S :=
  foldl gap_loop_step st evs.

(** ** [run_continuous_loop]

    A cycle that ends is followed by the next; a cycle that the notification drops
    has gone as far as a cycle with peers that fall silent after that point. *)
Inductive continuous_step : S * bool → S * bool → Prop :=
| continuous_cycle s peers fuel s' :
    run_continuous_stream_cycle fuel s peers = (s', Some tt) →
    continuous_step (s, true) (s', true)
| continuous_stop s peers fuel s' o :
    run_continuous_stream_cycle fuel s peers = (s', o) →
    continuous_step (s, true) (s', false).

(** The first [k] cycles, undisturbed; [None] when one of them is still running. *)
Fixpoint run_cycles (k fuel : nat) s (peers : list Peer) : option S :=
  match k with
  | O => Some s
  | Datatypes.S k =>
      match run_continuous_stream_cycle fuel s peers with
      | (s', Some _) => run_cycles k fuel s' peers
      | (_, None) => None
      end
  end.

(** ** The notification *)

(** Between events the future is there exactly while the loop waits. *)
Definition task_ok t : Prop :=
  gt_notified t = match gt_phase t with GWaiting => Registered | _ => NoFuture end.

Lemma gap_loop_step_ok st ev : task_ok st.1 → task_ok (gap_loop_step st ev).1.
Proof.
  destruct st as [[ph w] s]. unfold task_ok. cbn. intros ->.
  by destruct ev, ph; cbn.
Qed.

Lemma gap_loop_ok st evs : task_ok st.1 → task_ok (gap_loop st evs).1.
Proof.
  revert st. induction evs as [|ev evs IH]; intros st H; [done|]. by apply IH, gap_loop_step_ok.
Qed.

Lemma gap_loop_app st evs evs' : gap_loop st (evs ++ evs') = gap_loop (gap_loop st evs) evs'.
Proof. apply foldl_app. Qed.

(** A call of [notify_waiters] ends the loop if it meets it waiting, and is lost on
    it if it meets it in a check. *)
Lemma stop_ends_wait interval s evs :
  let st := gap_loop (gap_loop_init interval, s) evs in
  gt_phase st.1 = GWaiting → gap_loop_step st StopNotified = (MkGapTask GEnded NoFuture, st.2).
Proof.
  intros st Hw. assert (task_ok st.1) as H.
  { apply gap_loop_ok. unfold gap_loop_init. by destruct (interval =? 0). }
  destruct st as [[ph w] s']. cbn in Hw. subst ph. unfold task_ok in H. cbn in H. by subst w.
Qed.

Lemma stop_lost_on_check interval s evs :
  let st := gap_loop (gap_loop_init interval, s) evs in
  gt_phase st.1 = GChecking → gap_loop_step st StopNotified = st.
Proof.
  intros st Hw. assert (task_ok st.1) as H.
  { apply gap_loop_ok. unfold gap_loop_init. by destruct (interval =? 0). }
  destruct st as [[ph w] s']. cbn in Hw. subst ph. unfold task_ok in H. cbn in H. by subst w.
Qed.
End loops.

(** ** What the loops do to the store *)
Section loop_theory.
Context {S : Type} {READER : BlockReader S} {WRITER : BlockWriter S}
  {CODEC : Codec} {CLAWS : CodecLaws} {STORE : BlockStore S}.
Context (start_block_number : Z) (gaps_of : S → Result Error (list (Z * Z))).
Implicit Types (s : S) (m : gmap Z bytes).

(** Streams of blocks the store can take, complete or not. *)
Definition well_formed_peer (p : Peer) : Prop :=
  ∀ t a b stream, at_stream (p t) a b = Ok stream → Forall deliverable stream.

Lemma stream_from_peer_keeps s m p t a b : well_formed_peer p → holds s m →
  ∃ m', holds (stream_from_peer s (p t) a b).1 m' ∧ dom m ⊆ dom m'.
Proof.
  intros Hp Hs. unfold stream_from_peer. destruct (at_stream (p t) a b) as [stream|] eqn:E; [|by exists m].
  destruct (write_stream s stream) as [s' r] eqn:Ew.
  destruct (write_stream_ok s m stream s' r Hs (Hp _ _ _ _ E) Ew) as (m' & ? & ? & _). by exists m'.
Qed.

Lemma continuous_peer_keeps fuel s m p t retries local : well_formed_peer p → holds s m →
  ∃ m', holds (continuous_peer_loop fuel s p t retries local).1 m' ∧ dom m ⊆ dom m'.
Proof.
  intros Hp. revert s m t retries. induction fuel as [|fuel IH]; intros s m t retries Hs;
    cbn -[PEER_RETRY_LIMIT Nat.ltb]; [by exists m|].
  destruct (at_status (p t)) as [[st|]|e]; [|by exists m|].
  - destruct (_ <? local); [by exists m|]. destruct (_ && _); [by apply IH|].
    destruct (stream_from_peer_keeps s m p t (as_u64 (as_i64 (local + 1))) u64_MAX Hp Hs) as (m1 & Hm1 & Hsub).
    destruct (stream_from_peer _ _ _ _) as [s1 [u|e]]; cbn in Hm1; [by exists m1|].
    destruct (_ <? _)%nat; [by exists m1|].
    destruct (IH s1 m1 (Datatypes.S t) (Datatypes.S retries) Hm1) as (m2 & ? & ?).
    exists m2. split; [done|set_solver].
  - destruct (_ <? _)%nat; [by exists m|]. by apply IH.
Qed.

Lemma continuous_cycle_keeps fuel s m peers : Forall well_formed_peer peers → holds s m →
  ∃ m', holds (run_continuous_stream_cycle fuel s peers).1 m' ∧ dom m ⊆ dom m'.
Proof.
  intros Hp. revert s m. induction Hp as [|p peers Hp _ IH]; intros s m Hs; cbn; [by exists m|].
  set (local := match get_latest_persisted_block_number s with
                | Ok (Some num) => as_i64 num | Ok None => -1 | Err _ => -1 end).
  destruct (continuous_peer_keeps fuel s m p 0 0 local Hp Hs) as (m1 & Hm1 & Hsub).
  destruct (continuous_peer_loop fuel s p 0 0 local) as [s1 [[]|]]; cbn in Hm1; [by exists m1| |by exists m1].
  destruct (IH s1 m1 Hm1) as (m2 & ? & ?). exists m2. split; [done|set_solver].
Qed.

(** A cycle whose first peer is a node that is ahead copies what it has. *)
Lemma continuous_copies cfg sA turns others fuel s m mA e l lA :
  holds s m → get_latest_persisted_block_number s = Ok (Some l) →
  get_earliest_persisted_block_number (sA 0%nat) = Ok (Some e) →
  get_latest_persisted_block_number (sA 0%nat) = Ok (Some lA) →
  0 ≤ e ≤ l + 1 → 0 ≤ l < lA → lA < 2 ^ 63 - 1 → 0 ≤ max_future_block_lookahead cfg < 2 ^ 63 →
  follows mA (turns 0%nat (l + 1) u64_MAX) (l + 1) (lA - l) →
  (∀ x n, get_block_number x = Ok n → wf_block x → mA !! n = Some (encode_to_vec x) → accepts x) →
  ∃ s' m', run_continuous_stream_cycle (Datatypes.S fuel) s (rock_peer cfg sA turns :: others)
      = (s', Some tt) ∧ holds s' m' ∧
    (∀ n, l < n ≤ lA → ∃ c, m' !! n = Some c ∧ mA !! n = Some c) ∧
    ∀ n, ¬ (l < n ≤ lA) → m' !! n = m !! n.
Proof.
  intros Hs Hl He HlA Hel Hll Hmax Hla Hf Hacc.
  destruct (session_follows cfg (sA 0%nat) (turns 0%nat (l + 1) u64_MAX) mA (l + 1) (lA - l))
    as (bs & Es & Hbs).
  { rewrite (continuous_accepted cfg (sA 0%nat) e lA) by (done || u64_lia).
    destruct (Z.ltb_spec (l + 1) e); [lia|].
    destruct (Z.ltb_spec (lA + max_future_block_lookahead cfg) (l + 1)); [lia|done]. }
  { lia. }
  { u64_lia. }
  { done. }
  destruct (write_stream_range (λ n c, mA !! n = Some c) s m bs (l + 1) (lA - l) Hs)
    as (s' & m' & Ew & Hm' & Hin & Hout).
  { clear Es. induction Hbs as [|x n bs ns (? & ? & ?) _ IH]; constructor; eauto. }
  { done. }
  exists s', m'. split_and!; [|done|intros; apply Hin; lia|intros; apply Hout; lia].
  cbn -[PEER_RETRY_LIMIT Nat.ltb]. rewrite Hl. unfold node_status, server_status.
  rewrite He, HlA. cbn -[PEER_RETRY_LIMIT Nat.ltb].
  rewrite !as_i64_small by lia. rewrite as_u64_small by u64_lia.
  destruct (Z.ltb_spec lA l); [lia|]. destruct (Z.ltb_spec lA (l + 1)); [lia|].
  cbn -[PEER_RETRY_LIMIT Nat.ltb]. unfold stream_from_peer. cbn -[PEER_RETRY_LIMIT Nat.ltb].
  by rewrite Es, Ew.
Qed.

(** A node without blocks asks for block 0, whatever its start block; a peer that
    begins later refuses, and the cycle ends at once with nothing fetched. *)
Lemma continuous_empty_refused cfg sA turns others fuel s e lA :
  get_latest_persisted_block_number s = Ok None →
  get_earliest_persisted_block_number (sA 0%nat) = Ok (Some e) →
  get_latest_persisted_block_number (sA 0%nat) = Ok (Some lA) →
  0 < e → 0 ≤ lA < 2 ^ 63 → 0 ≤ max_future_block_lookahead cfg < 2 ^ 63 →
  run_continuous_stream_cycle (Datatypes.S fuel) s (rock_peer cfg sA turns :: others) = (s, Some tt).
Proof.
  intros Hl He HlA H0 Hr Hla. cbn -[PEER_RETRY_LIMIT Nat.ltb]. rewrite Hl.
  unfold node_status, server_status. rewrite He, HlA. cbn -[PEER_RETRY_LIMIT Nat.ltb].
  rewrite as_i64_small by lia. destruct (Z.ltb_spec lA (-1)); [lia|].
  rewrite andb_false_r. unfold stream_from_peer, session_stream, execute_stream.
  cbn -[PEER_RETRY_LIMIT Nat.ltb validate_and_check_fulfillment].
  unfold session_stream, execute_stream.
  rewrite (continuous_accepted cfg (sA 0%nat) e lA) by (done || u64_lia).
  change (as_u64 (as_i64 (-1 + 1))) with 0. by destruct (Z.ltb_spec 0 e); [|lia].
Qed.
End loop_theory.
