(* ===== verification/Metrics.v ===== *)
(** Metrics: core/src/metrics.rs and the places that update them.

    The prometheus crate is the interface [Prometheus]: a registry refuses a metric
    whose name it has or whose description is not valid.  [with_registry] is the
    table of the node's metrics, registered in order.  An update names a metric and
    gives one value per label; [with_label_values] panics on any other number of
    values, so the updates of the handlers are checked against the table.  Durations
    are not modelled, only that they are observed. *)
From S2P Require Import Prelude Config Database Block StateManager Core ColdStorage.
From S2P Require Import Subscriber Access Backfill.
From Stdlib Require Import Strings.Ascii.

Inductive MetricKind := KIntCounter | KIntGauge | KCounterVec | KHistogramVec | KGaugeVec.

(** [Opts], the kind of metric made from it, and its label names. *)
Record Opts := MkOpts {
  m_kind : MetricKind;
  m_name : string;
  m_help : string;
  m_labels : list string;
}.

Definition is_name_start (colon : bool) (c : ascii) : bool :=
  let n := nat_of_ascii c in
  ((65 <=? n) && (n <=? 90) || (97 <=? n) && (n <=? 122) || (n =? 95) || (colon && (n =? 58)))%nat.
Definition is_name_char (colon : bool) (c : ascii) : bool :=
  is_name_start colon c || ((48 <=? nat_of_ascii c) && (nat_of_ascii c <=? 57))%nat.
Definition valid_ident (colon : bool) (s : string) : bool :=
  match s with
  | EmptyString => false
  | String c s => is_name_start colon c && forallb (is_name_char colon) (String.list_ascii_of_string s)
  end.

(** What the crate accepts as a description. *)
Definition valid_opts (o : Opts) : bool :=
  valid_ident true (m_name o) && negb (String.eqb (m_help o) "")
  && forallb (valid_ident false) (m_labels o)
  && bool_decide (NoDup (m_labels o))
  && match m_kind o with KHistogramVec => negb (bool_decide ("le" ∈ m_labels o)) | _ => true end.

Class Prometheus := {
  Registry : Type;
  new_registry : Registry;
  register : Registry → Opts → Result Error Registry;
  registered_names : Registry → list string;
  new_registry_names : registered_names new_registry = [];
  register_new : ∀ r o, valid_opts o = true → m_name o ∉ registered_names r →
    ∃ r', register r o = Ok r' ∧ registered_names r' = registered_names r ++ [m_name o];
  register_again : ∀ r o, m_name o ∈ registered_names r → ∃ e, register r o = Err e;
}.

(** ** The table of [MetricsRegistry]: the field of the struct and its description *)
Definition core_metrics : list (string * Opts) := [
  ("blocks_acknowledged", MkOpts KIntCounter "rocknode_blocks_acknowledged"
    "Total number of blocks acknowledged by the publish plugin after successful persistence." []);
  ("active_publish_sessions", MkOpts KIntGauge "rocknode_active_publish_sessions"
    "Number of currently active gRPC publisher sessions." [])].

Definition block_access_metrics : list (string * Opts) := [
  ("block_access_requests_total", MkOpts KCounterVec "rocknode_block_access_requests_total"
    "The total number of getBlock gRPC requests processed." ["status"; "request_type"]);
  ("block_access_request_duration_seconds", MkOpts KHistogramVec "rocknode_block_access_request_duration_seconds"
    "The duration of getBlock gRPC requests from start to finish, in seconds." ["status"; "request_type"]);
  ("block_access_latest_available_block", MkOpts KIntGauge "rocknode_block_access_latest_available_block"
    "The most recent block number known to be available for serving." [])].

Definition status_metrics : list (string * Opts) := [
  ("server_status_requests_total", MkOpts KCounterVec "rocknode_server_status_requests_total"
    "The total number of server_status gRPC requests processed." ["status"]);
  ("server_status_request_duration_seconds", MkOpts KHistogramVec "rocknode_server_status_request_duration_seconds"
    "The duration of server_status gRPC requests, in seconds." ["status"]);
  ("server_status_earliest_available_block", MkOpts KIntGauge "rocknode_server_status_earliest_available_block"
    "The earliest block number reported by the status service." []);
  ("server_status_latest_available_block", MkOpts KIntGauge "rocknode_server_status_latest_available_block"
    "The latest block number reported by the status service." [])].

Definition publish_metrics : list (string * Opts) := [
  ("publish_blocks_received_total", MkOpts KCounterVec "rocknode_publish_blocks_received_total"
    "Total number of block headers received from publishers, categorized by outcome." ["outcome"]);
  ("publish_items_processed_total", MkOpts KIntCounter "rocknode_publish_items_processed_total"
    "Total number of individual BlockItem messages processed by primary sessions." []);
  ("publish_persistence_duration_seconds", MkOpts KHistogramVec "rocknode_publish_persistence_duration_seconds"
    "Duration from block publish to persistence acknowledgement." ["outcome"]);
  ("publish_lifecycle_duration_seconds", MkOpts KHistogramVec "rocknode_publish_lifecycle_duration_seconds"
    "Duration from receiving a block header to sending acknowledgement (or timeout) back to publisher." ["outcome"]);
  ("publish_header_to_proof_duration_seconds", MkOpts KHistogramVec "rocknode_publish_header_to_proof_duration_seconds"
    "Duration from receiving a block header to receiving its corresponding proof." []);
  ("publish_average_header_to_proof_time_seconds", MkOpts KGaugeVec "rocknode_publish_average_header_to_proof_time_seconds"
    "Average time between header and proof for each publisher session." ["session_id"]);
  ("publish_responses_sent_total", MkOpts KCounterVec "rocknode_publish_responses_sent_total"
    "Total number of different response types sent back to publisher clients." ["response_type"]);
  ("publish_session_duration_seconds", MkOpts KHistogramVec "rocknode_publish_session_duration_seconds"
    "Duration of publisher sessions from connection to disconnection." [])].

Definition persistence_metrics : list (string * Opts) := [
  ("persistence_writes_total", MkOpts KCounterVec "rocknode_persistence_writes_total"
    "Total number of block writes, by type (live, batch)." ["type"]);
  ("persistence_write_duration_seconds", MkOpts KHistogramVec "rocknode_persistence_write_duration_seconds"
    "Duration of block writes, by type." ["type"]);
  ("persistence_event_duration_seconds", MkOpts KHistogramVec "rocknode_persistence_event_duration_seconds"
    "Duration from receiving a block event to emitting BlockPersisted, end-to-end latency." []);
  ("persistence_reads_total", MkOpts KCounterVec "rocknode_persistence_reads_total"
    "Total number of block reads, by tier (hot, cold, not_found)." ["tier"]);
  ("persistence_read_duration_seconds", MkOpts KHistogramVec "rocknode_persistence_read_duration_seconds"
    "Duration of block reads, by tier." ["tier"]);
  ("persistence_archival_cycles_total", MkOpts KIntCounter "rocknode_persistence_archival_cycles_total"
    "Total number of hot-to-cold archival cycles completed." []);
  ("persistence_archival_cycle_duration_seconds", MkOpts KHistogramVec "rocknode_persistence_archival_cycle_duration_seconds"
    "Duration of the hot-to-cold archival cycle." []);
  ("persistence_hot_tier_block_count", MkOpts KIntGauge "rocknode_persistence_hot_tier_block_count"
    "The current number of blocks in the hot tier storage." []);
  ("persistence_cold_tier_block_count", MkOpts KIntGauge "rocknode_persistence_cold_tier_block_count"
    "The current number of blocks indexed in the cold tier storage." [])].

Definition subscriber_metrics : list (string * Opts) := [
  ("subscriber_active_sessions", MkOpts KIntGauge "rocknode_subscriber_active_sessions"
    "Number of currently active gRPC subscriber sessions." []);
  ("subscriber_blocks_sent_total", MkOpts KCounterVec "rocknode_subscriber_blocks_sent_total"
    "Total number of blocks sent to subscribers, by type (historical, live)." ["type"]);
  ("subscriber_sessions_total", MkOpts KCounterVec "rocknode_subscriber_sessions_total"
    "Total number of subscriber sessions, labeled by the final outcome." ["outcome"]);
  ("subscriber_average_inter_block_time_seconds", MkOpts KGaugeVec "rocknode_subscriber_average_inter_block_time_seconds"
    "Average time between blocks (seconds) for each subscriber session." ["session_id"])].

Definition backfill_metrics : list (string * Opts) := [
  ("backfill_gaps_found_total", MkOpts KIntCounter "rocknode_backfill_gaps_found_total"
    "Total number of block gaps detected by the GapFill mode." []);
  ("backfill_blocks_fetched_total", MkOpts KCounterVec "rocknode_backfill_blocks_fetched_total"
    "Total number of blocks successfully fetched from peers." ["mode"]);
  ("backfill_peer_connection_attempts_total", MkOpts KCounterVec "rocknode_backfill_peer_connection_attempts_total"
    "Total number of connection attempts to peers." ["peer_address"; "outcome"]);
  ("backfill_stream_duration_seconds", MkOpts KHistogramVec "rocknode_backfill_stream_duration_seconds"
    "Duration of a backfill stream from a single peer." ["peer_address"; "mode"]);
  ("backfill_active_streams", MkOpts KIntGauge "rocknode_backfill_active_streams"
    "Number of currently active backfill streams." []);
  ("backfill_latest_continuous_block", MkOpts KIntGauge "rocknode_backfill_latest_continuous_block"
    "The latest block number fetched in Continuous mode." [])].

Definition all_metrics : list (string * Opts) :=
  core_metrics ++ block_access_metrics ++ status_metrics ++ publish_metrics
  ++ persistence_metrics ++ subscriber_metrics ++ backfill_metrics.

Section registry.
Context {PROM : Prometheus}.

Record MetricsRegistry := MkMetrics {
  registry : Registry;
  metrics : list (string * Opts);
}.

Fixpoint register_metrics (r : Registry) (ms : list (string * Opts)) : Result Error Registry :=
  match ms with
  | [] => Ok r
  | (_, o) :: ms => r ← register r o; register_metrics r ms
  end.

Definition with_registry (r : Registry) : Result Error MetricsRegistry :=
  r ← register_metrics r all_metrics; Ok (MkMetrics r all_metrics).
Definition metrics_new : Result Error MetricsRegistry := with_registry new_registry.

Lemma register_metrics_ok r ms :
  forallb (λ m, valid_opts m.2) ms = true → NoDup ((λ m, m_name m.2) <$> ms) →
  (∀ m, m ∈ ms → m_name m.2 ∉ registered_names r) →
  ∃ r', register_metrics r ms = Ok r' ∧
    registered_names r' = registered_names r ++ ((λ m, m_name m.2) <$> ms).
Proof.
  revert r. induction ms as [|[f o] ms IH]; intros r Hv Hd Hn; cbn in *.
  { exists r. by rewrite app_nil_r. }
  apply andb_true_iff in Hv as [Ho Hv]. apply NoDup_cons in Hd as [Hno Hd].
  destruct (register_new r o Ho) as (r1 & E1 & En1); [apply (Hn (f, o)); by left|].
  rewrite E1. cbn. destruct (IH r1 Hv Hd) as (r' & E' & En').
  - intros m Hm. rewrite En1. intros [H|H%list_elem_of_singleton]%elem_of_app.
    + by apply (Hn m); [right|].
    + apply Hno. rewrite <-H. apply list_elem_of_fmap. eauto.
  - exists r'. split; [done|]. by rewrite En', En1, <-app_assoc.
Qed.

Lemma register_metrics_again r m ms : m_name m.2 ∈ registered_names r →
  ∃ e, register_metrics r (m :: ms) = Err e.
Proof.
  intros H. destruct m as [f o]. destruct (register_again r o H) as [e E].
  exists e. cbn. by rewrite E.
Qed.
End registry.

(** A registry that runs. *)
Module RefPrometheus.
#[refine, export] Instance ref_prometheus : Prometheus := {|
  Registry := list string;
  new_registry := [];
  register r o :=
    if bool_decide (m_name o ∈ r) then Err (EOther "AlreadyReg")
    else if valid_opts o then Ok (r ++ [m_name o]) else Err (EOther "invalid metric");
  registered_names r := r;
|}.
Proof.
  - reflexivity.
  - intros r o Hv Hn. rewrite bool_decide_false, Hv by done. eauto.
  - intros r o H. rewrite bool_decide_true by done. eauto.
Defined.
End RefPrometheus.

(** ** Updates *)
Inductive Update :=
| Inc (metric : string) (labels : list string)
| IncBy (metric : string) (labels : list string) (n : Z)
| Dec (metric : string) (labels : list string)
| Observe (metric : string) (labels : list string)
| SetFloat (metric : string) (labels : list string)
| SetTo (metric : string) (labels : list string) (value : Z).

Definition update_metric (u : Update) : string :=
  match u with Inc m _ | IncBy m _ _ | Dec m _ | Observe m _ | SetFloat m _ | SetTo m _ _ => m end.
Definition update_labels (u : Update) : list string :=
  match u with Inc _ l | IncBy _ l _ | Dec _ l | Observe _ l | SetFloat _ l | SetTo _ l _ => l end.

(** What [with_label_values] needs in order not to panic, and what the Rust type of
    the field allows. *)
Definition kind_allows (k : MetricKind) (u : Update) : bool :=
  match k, u with
  | (KIntCounter | KCounterVec), (Inc _ _ | IncBy _ _ _) => true
  | KIntGauge, (Inc _ _ | Dec _ _ | IncBy _ _ _ | SetTo _ _ _) => true
  | KGaugeVec, SetFloat _ _ => true
  | KHistogramVec, Observe _ _ => true
  | _, _ => false
  end.
Definition well_labelled (u : Update) : bool :=
  match list_find (λ m, m.1 = update_metric u) all_metrics with
  | Some (_, (_, o)) => (length (m_labels o) =? length (update_labels u))%nat && kind_allows (m_kind o) u
  | None => false
  end.

(** The value of a counter or gauge after some updates. *)
Definition update_value (metric : string) (labels : list string) (v : Z) (u : Update) : Z :=
  if bool_decide (update_metric u = metric ∧ update_labels u = labels) then
    match u with
    | Inc _ _ => v + 1 | Dec _ _ => v - 1 | IncBy _ _ n => v + n | SetTo _ _ n => n
    | Observe _ _ | SetFloat _ _ => v
    end
  else v.
Definition updates_value (metric : string) (labels : list string) (v : Z) (us : list Update) : Z :=
  foldl (update_value metric labels) v us.

(** *** Block access and server status *)
Definition code_to_string (code : AccessCode) : string :=
  match code with
  | ASuccess => "Success" | AInvalidRequest => "InvalidRequest" | ANotFound => "NotFound"
  | ANotAvailable => "NotAvailable" | AUnknown => "Unknown" | AError => "Error"
  end.

Definition record_metrics (response : BlockResponse) (request_type : string) : list Update :=
  let status_label := code_to_string (status response) in
  [Observe "block_access_request_duration_seconds" [status_label; request_type];
   Inc "block_access_requests_total" [status_label; request_type]]
  ++ match status response, response_block response with
     | ASuccess, Some block =>
         if String.eqb request_type "latest" then
           match items block with
           | Some (IBlockHeader h) :: _ =>
               [SetTo "block_access_latest_available_block" [] (as_i64 (header_number h))]
           | _ => []
           end
         else []
     | _, _ => []
     end.

Section updates.
Context {S : Type} {READER : BlockReader S} {CODEC : Codec}.
Implicit Types (s : S).

(** The request types [get_target_block_number] returns with the number. *)
Definition request_type s (request : option BlockSpecifier) : string :=
  match get_target_block_number s request, request with
  | Err _, _ => "invalid"
  | Ok _, Some (ByNumber num) => if num =? u64_MAX then "latest" else "by_number"
  | Ok _, _ => "latest"
  end.

Definition get_block_updates s (request : option BlockSpecifier) : list Update :=
  record_metrics (get_block s request) (request_type s request).

Definition server_status_updates s : list Update :=
  match server_status s with
  | Err _ => []
  | Ok r =>
      [Observe "server_status_request_duration_seconds" ["success"];
       Inc "server_status_requests_total" ["success"];
       SetTo "server_status_earliest_available_block" [] (as_i64 (first_available_block r));
       SetTo "server_status_latest_available_block" [] (as_i64 (last_available_block r))]
  end.

(** *** Subscriber sessions *)

(** [wait_for_new_block]: an event that ends a wait counts as a live block. *)
Fixpoint wait_updates (n : Z) (recvs : list Recv) : list Update :=
  match recvs with
  | REvent k :: recvs =>
      if n <=? k then [Inc "subscriber_blocks_sent_total" ["live"]] else wait_updates n recvs
  | _ => []
  end.

(** [process_next_block]: a block that is sent counts as historical.  From the second
    block on [send_block] sets the average time between blocks, before it sends. *)
Definition turn_updates (sid : string) (request : SubscribeStreamRequest) (t : Turn S)
    (n : Z) (is_finite first : bool) : list Update :=
  if is_finite && (end_block_number request <? n) then []
  else
    match read_block (turn_store t) n with
    | Ok (Some c) =>
        match decode_block c with
        | Err _ => []
        | Ok _ =>
            (if first then [] else [SetFloat "subscriber_average_inter_block_time_seconds" [sid]])
            ++ if turn_connected t then [Inc "subscriber_blocks_sent_total" ["historical"]] else []
        end
    | Ok None => wait_updates n (turn_recvs t)
    | Err _ => []
    end.

Fixpoint loop_updates (sid : string) (request : SubscribeStreamRequest) (is_finite first : bool)
    (n : Z) (turns : list (Turn S)) : list Update :=
  match turns with
  | [] => []
  | t :: turns =>
      if turn_shutdown t then []
      else
        let '(sent, res) := process_next_block request t n is_finite in
        turn_updates sid request t n is_finite first
        ++ match res with
           | Some (Ok (Some next)) =>
               loop_updates sid request is_finite (first && bool_decide (sent = [])) next turns
           | _ => []
           end
  end.

(** [finalize_stream]: the outcome, and the average again if there is one. *)
Definition final_updates (sid : string) (averaged : bool) (result : Result SubscriberError unit)
    : list Update :=
  let outcome_label := match result with Ok _ => "completed" | Err e => to_metric_label e end in
  Inc "subscriber_sessions_total" [outcome_label]
  :: if averaged then [SetFloat "subscriber_average_inter_block_time_seconds" [sid]] else [].

(** [run], with the guard that counts the session out when it is over. *)
Definition run_updates (cfg : SubscriberServiceConfig) (sid : string)
    (request : SubscribeStreamRequest) (s : S) (turns : list (Turn S)) : list Update :=
  let loop :=
    match validate_and_check_fulfillment cfg request s with
    | Err _ => []
    | Ok n => loop_updates sid request (negb (end_block_number request =? u64_MAX)) true n turns
    end in
  let averaged := existsb (λ u, match u with SetFloat _ _ => true | _ => false end) loop in
  Inc "subscriber_active_sessions" [] :: loop
  ++ match (execute_stream cfg request s turns).2 with
     | Some r => final_updates sid averaged r ++ [Dec "subscriber_active_sessions" []]
     | None => []
     end.
End updates.

(** *** The cold tier's block count *)
Definition chunk_blocks (mi : MappedIndex) : Z :=
  u64_add (u64_sub (end_block mi) (start_block mi)) 1.
Definition total_blocks (indices : Indices) : Z :=
  map_fold (λ _ mi acc, u64_add acc (chunk_blocks mi)) 0 indices.

Definition load_updates (fs : FS) (indices : Indices) (index_path : fname) : list Update :=
  match load_index_file fs indices index_path, parse_block_range index_path with
  | Ok _, Some (start, end_) =>
      [IncBy "persistence_cold_tier_block_count" [] (as_i64 (u64_add (u64_sub end_ start) 1))]
  | _, _ => []
  end.

(** The scan at start-up: every load counts, and the total is set at the end. *)
Fixpoint scan_files_updates (fs : FS) (listing : list fname) (indices : Indices) : list Update :=
  match listing with
  | [] => [SetTo "persistence_cold_tier_block_count" [] (as_i64 (total_blocks indices))]
  | path :: listing =>
      if decide (extension path = Some (lit "rbi")) then
        load_updates fs indices path
        ++ scan_files_updates fs listing (match load_index_file fs indices path with
                                          | Ok i => i | Err _ => indices end)
      else scan_files_updates fs listing indices
  end.
Definition scan_updates (fs : FS) (listing : list fname) (indices : Indices) : list Update :=
  if dir_exists fs then scan_files_updates fs listing indices else [].

(** ** The updates fit the table *)
Definition fits_table (us : list Update) : Prop := Forall (λ u, well_labelled u = true) us.

Lemma fits_app us us' : fits_table us → fits_table us' → fits_table (us ++ us').
Proof. intros. by apply Forall_app. Qed.

(** Whether an update fits does not depend on the label values. *)
Lemma well_labelled_values u u' :
  update_metric u = update_metric u' → length (update_labels u) = length (update_labels u') →
  (∀ k, kind_allows k u = kind_allows k u') → well_labelled u = well_labelled u'.
Proof.
  intros Em El Ek. unfold well_labelled. rewrite Em.
  destruct (list_find _ all_metrics) as [[i [f o]]|]; [|done]. by rewrite El, Ek.
Qed.

Ltac fits_one :=
  match goal with
  | |- well_labelled (Inc ?m ?l) = true =>
      rewrite (well_labelled_values _ (Inc m ((λ _, "") <$> l))) by (done || by rewrite length_fmap)
  | |- well_labelled (Observe ?m ?l) = true =>
      rewrite (well_labelled_values _ (Observe m ((λ _, "") <$> l))) by (done || by rewrite length_fmap)
  | |- well_labelled (SetFloat ?m ?l) = true =>
      rewrite (well_labelled_values _ (SetFloat m ((λ _, "") <$> l))) by (done || by rewrite length_fmap)
  | |- well_labelled (SetTo ?m ?l ?v) = true => rewrite (well_labelled_values _ (SetTo m l 0)) by done
  | |- well_labelled (IncBy ?m ?l ?v) = true => rewrite (well_labelled_values _ (IncBy m l 0)) by done
  | _ => idtac
  end; vm_compute; reflexivity.
Ltac fits := repeat first [apply Forall_nil_2 | apply Forall_cons_2; [fits_one|] | apply Forall_app_2].

Lemma record_metrics_fits r ty : fits_table (record_metrics r ty).
Proof. unfold record_metrics, fits_table. fits. repeat case_match; fits. Qed.

Section fit.
Context {S : Type} {READER : BlockReader S} {CODEC : Codec}.

Lemma server_status_fits (s : S) : fits_table (server_status_updates s).
Proof. unfold server_status_updates, fits_table. case_match; fits. Qed.

Lemma wait_updates_fits n recvs : fits_table (wait_updates n recvs).
Proof.
  unfold fits_table. induction recvs as [|[k| | |] recvs IH]; cbn; [fits| |fits..].
  case_match; [fits|done].
Qed.

Lemma turn_updates_fits sid request (t : Turn S) n fin first :
  fits_table (turn_updates sid request t n fin first).
Proof.
  unfold turn_updates. repeat case_match; try apply wait_updates_fits; unfold fits_table; fits;
    repeat case_match; fits.
Qed.

Lemma loop_updates_fits sid request fin first n (turns : list (Turn S)) :
  fits_table (loop_updates sid request fin first n turns).
Proof.
  revert first n. induction turns as [|t turns IH]; intros first n; cbn; [constructor|].
  destruct (turn_shutdown t); [constructor|].
  destruct (process_next_block request t n fin) as [sent res].
  apply fits_app; [apply turn_updates_fits|]. repeat case_match; try constructor. apply IH.
Qed.

Lemma run_updates_fits cfg sid request (s : S) turns : fits_table (run_updates cfg sid request s turns).
Proof.
  unfold run_updates, final_updates. apply Forall_cons_2; [fits_one|]. apply fits_app.
  - case_match; [apply loop_updates_fits|constructor].
  - unfold fits_table. repeat case_match; fits.
Qed.
End fit.

Lemma load_updates_fits fs idx path : fits_table (load_updates fs idx path).
Proof. unfold load_updates, fits_table. repeat case_match; fits. Qed.

Lemma scan_updates_fits fs listing idx : fits_table (scan_updates fs listing idx).
Proof.
  unfold scan_updates. destruct (dir_exists fs); [|constructor]. revert idx. induction listing as [|path listing IH]; intros idx; cbn -[decide].
  - unfold fits_table. fits.
  - case_decide; [|apply IH]. apply fits_app; [apply load_updates_fits|apply IH].
Qed.

(** ** What the numbers say *)
Lemma updates_value_app metric labels v us us' :
  updates_value metric labels v (us ++ us') =
  updates_value metric labels (updates_value metric labels v us) us'.
Proof. apply foldl_app. Qed.

(** Updates of other metrics do not matter. *)
Lemma updates_value_other metric labels v us :
  Forall (λ u, update_metric u ≠ metric) us → updates_value metric labels v us = v.
Proof.
  intros H. revert v. induction H as [|u us Hu _ IH]; intros v; [done|]. cbn.
  unfold update_value at 2. rewrite bool_decide_false by naive_solver. apply IH.
Qed.

Section accounting.
Context {S : Type} {READER : BlockReader S} {CODEC : Codec}.

Notation historical := (updates_value "subscriber_blocks_sent_total" ["historical"]).

Lemma wait_updates_historical n recvs v : historical v (wait_updates n recvs) = v.
Proof.
  induction recvs as [|[k| | |] recvs IH]; cbn; try done. case_match; [done|exact IH].
Qed.

Lemma turn_historical sid request (t : Turn S) n fin first v :
  historical v (turn_updates sid request t n fin first)
  = v + Z.of_nat (length (process_next_block request t n fin).1).
Proof.
  unfold turn_updates, process_next_block, send_block. destruct (_ && _); [cbn; lia|].
  destruct (read_block (turn_store t) n) as [[c|]|e]; [|rewrite wait_updates_historical; cbn; lia|cbn; lia].
  destruct (decode_block c) as [b|e]; [|cbn; lia].
  destruct first, (turn_connected t); cbn; unfold update_value; cbn;
    repeat case_bool_decide; naive_solver lia.
Qed.

(** The historical counter counts the blocks sent, live or not. *)
Lemma loop_historical sid request fin first n (turns : list (Turn S)) v :
  historical v (loop_updates sid request fin first n turns)
  = v + Z.of_nat (length (stream_loop request fin n turns).1).
Proof.
  revert first n v. induction turns as [|t turns IH]; intros first n v;
    cbn [loop_updates stream_loop].
  { cbn. lia. }
  destruct (turn_shutdown t); [cbn; lia|].
  pose proof (turn_historical sid request t n fin first v) as Ht.
  destruct (process_next_block request t n fin) as [sent res].
  cbn [fst] in Ht. rewrite updates_value_app, Ht. destruct res as [[[next|]|e]|]; try (cbn; lia).
  rewrite IH. destruct (stream_loop request fin next turns) as [more r]. cbn.
  rewrite length_app. lia.
Qed.

Lemma run_historical cfg sid request (s : S) turns :
  historical 0 (run_updates cfg sid request s turns)
  = Z.of_nat (length (execute_stream cfg request s turns).1).
Proof.
  unfold run_updates. set (loop := match _ with Ok _ => _ | Err _ => _ end).
  assert (historical 0 loop = Z.of_nat (length (execute_stream cfg request s turns).1)) as Hl.
  { unfold loop, execute_stream. destruct (validate_and_check_fulfillment cfg request s); [|done].
    by rewrite loop_historical. }
  change (historical 0 (?u :: ?us)) with (historical (update_value "subscriber_blocks_sent_total" ["historical"] 0 u) us).
  rewrite updates_value_app. change (update_value _ _ 0 _) with 0. rewrite Hl.
  apply updates_value_other. unfold final_updates. repeat case_match; repeat constructor; done.
Qed.
End accounting.

(** *** The cold tier *)
Lemma total_blocks_insert (idx : Indices) k mi : idx !! k = None →
  total_blocks (<[k := mi]> idx) = u64_add (total_blocks idx) (chunk_blocks mi).
Proof.
  intros Hk. unfold total_blocks. rewrite map_fold_insert_L; [done| |done].
  intros j1 j2 z1 z2 y _ _ _. unfold u64_add, wrap64.
  rewrite !Zplus_mod_idemp_l. f_equal. lia.
Qed.

Lemma scan_updates_value fs listing idx v : dir_exists fs = true →
  updates_value "persistence_cold_tier_block_count" [] v (scan_updates fs listing idx)
  = as_i64 (total_blocks (scan_and_build_index fs listing idx)).
Proof.
  unfold scan_updates, scan_and_build_index. intros ->.
  revert idx v. induction listing as [|path listing IH]; intros idx v;
    cbn [scan_files_updates scan_files].
  - cbn. unfold update_value. by rewrite bool_decide_true.
  - case_decide; [|apply IH]. by rewrite updates_value_app, IH.
Qed.

(** Loading an index under a new start block keeps the gauge at the total. *)
Lemma load_updates_value fs (idx idx' : Indices) path a b :
  parse_block_range path = Some (a, b) → load_index_file fs idx path = Ok idx' →
  idx !! a = None → total_blocks idx + chunk_blocks (MkMapped [] a b []) < 2 ^ 63 →
  updates_value "persistence_cold_tier_block_count" [] (as_i64 (total_blocks idx))
    (load_updates fs idx path) = as_i64 (total_blocks idx').
Proof.
  intros Hp Hl Hno Hsmall. unfold load_updates. rewrite Hl, Hp. cbn.
  unfold update_value. rewrite bool_decide_true by done.
  unfold load_index_file in Hl. rewrite Hp in Hl. cbn in Hl.
  destruct (files fs !! with_extension path (lit "rba")); [|done].
  destruct (files fs !! path) as [content|]; [|done]. injection Hl as <-.
  rewrite total_blocks_insert by done. unfold chunk_blocks in *. cbn in *.
  assert (0 ≤ total_blocks idx).
  { unfold total_blocks. apply (map_fold_weak_ind (λ r _, 0 ≤ r)); [lia|].
    intros. unfold u64_add. apply Z.mod_pos_bound. done. }
  assert (0 ≤ u64_add (u64_sub b a) 1) by (unfold u64_add; apply Z.mod_pos_bound; done).
  rewrite (u64_add_small (total_blocks idx)) by u64_lia. rewrite !as_i64_small by lia. done.
Qed.
