(* ===== verification/Accounting.v ===== *)
(** Metrics, continued: what the storage, the backfill worker and the publisher
    sessions record (persistence-plugin/src, backfill-plugin/src/worker.rs,
    publish-plugin/src).

    Each function follows the handler of the same name and lists its updates in
    order.  A [HistogramTimer] observes when it is dropped, so a timed call observes
    once however it ends. *)
From S2P Require Import Prelude Config Database Block StateManager HotTier ColdStorage Core.
From S2P Require Import PersistenceService Archiver Persistence Pipeline Publish Access Backfill.
From S2P Require Import Metrics.

(** ** Storage *)
Section storage_updates.
Context {RDB : RocksDB} {CODEC : Codec}.
Implicit Types (st : Tiers).

Definition read_updates st (block_number : Z) : list Update :=
  Observe "persistence_read_duration_seconds" ["hot"]
  :: match hot_read_block (t_db st) block_number with
     | Err _ => []
     | Ok (Some _) => [Inc "persistence_reads_total" ["hot"]]
     | Ok None =>
         Observe "persistence_read_duration_seconds" ["cold"]
         :: match cold_read_block (t_fs st) (t_indices st) block_number with
            | Err _ => []
            | Ok (Some _) => [Inc "persistence_reads_total" ["cold"]]
            | Ok None => [Inc "persistence_reads_total" ["not_found"]]
            end
     end.

Definition write_updates (cfg : PersistenceServiceConfig) (start : Z) st (block : Block)
    : list Update :=
  Observe "persistence_write_duration_seconds" ["live"]
  :: match (tiers_write_block cfg start st block).2 with
     | Ok _ => [Inc "persistence_writes_total" ["live"]]
     | Err _ => []
     end.

(** The gauge moves with the index of the new archive, if there is one. *)
Definition archive_load_updates st (fault : option nat) (blocks : list Block) : list Update :=
  match io_run (t_fs st) fault (write_archive blocks) with
  | (fs, Ok new_index_path) => load_updates fs (t_indices st) new_index_path
  | (_, Err _) => []
  end.

Definition write_batch_updates st (fault : option nat) (blocks : list Block) : list Update :=
  match blocks with
  | [] => []
  | _ :: _ =>
      archive_load_updates st fault blocks
      ++ Observe "persistence_write_duration_seconds" ["batch"]
      :: match (tiers_write_block_batch st fault blocks).2 with
         | Ok _ => [Inc "persistence_writes_total" ["batch"]]
         | Err _ => []
         end
  end.

(** A batch that reads no blocks ends without being counted. *)
Definition archive_updates st (fault : option nat) (start_block count : Z) : list Update :=
  match read_block_batch (t_db st) start_block count with
  | Err _ | Ok [] => [Observe "persistence_archival_cycle_duration_seconds" []]
  | Ok blocks_to_archive =>
      archive_load_updates st fault blocks_to_archive
      ++ Observe "persistence_archival_cycle_duration_seconds" []
      :: match (archive_batch st fault start_block count).2 with
         | Ok _ => [Inc "persistence_archival_cycles_total" []]
         | Err _ => []
         end
  end.

Definition cycle_turn_updates (cfg : PersistenceServiceConfig) st (fault : option nat)
    : list Update :=
  match get_earliest_hot (t_db st), get_latest_persisted (t_db st) with
  | Ok (Some earliest_hot), Ok latest =>
      let hot_tier_total_blocks := u64_add (saturating_sub (default 0 latest) earliest_hot) 1 in
      SetTo "persistence_hot_tier_block_count" [] (as_i64 hot_tier_total_blocks)
      :: if hot_tier_total_blocks <=? hot_storage_block_count cfg then []
         else match is_batch_complete (t_db st) earliest_hot (archive_batch_size cfg) with
              | Ok true => archive_updates st fault earliest_hot (archive_batch_size cfg)
              | _ => []
              end
  | _, _ => []
  end.

Fixpoint cycle_updates (cfg : PersistenceServiceConfig) (fuel : nat) st
    (faults : nat → option nat) : list Update :=
  match fuel with
  | O => []
  | S fuel =>
      cycle_turn_updates cfg st (faults 0%nat)
      ++ let '(st, o) := cycle_step cfg st (faults 0%nat) in
         match o with
         | Some _ => []
         | None => cycle_updates cfg fuel st (λ i, faults (S i))
         end
  end.

Definition event_updates (cfg : PersistenceServiceConfig) (start : Z) (c : BlockDataCache) st
    (event : InboundEvent) : list Update :=
  match Cache.get c (event_cache_key event) with
  | Some data =>
      match decode_block (bd_contents data) with
      | Ok block_proto => write_updates cfg start st block_proto
      | Err _ => []
      end
  | None => []
  end ++ [Observe "persistence_event_duration_seconds" []].
End storage_updates.

(** ** Backfill *)
Definition mode_str (mode : BackfillMode) : string :=
  match mode with GapFill => "GapFill" | Continuous => "Continuous" end.

Section backfill_updates.
Context {S : Type} {READER : BlockReader S} {WRITER : BlockWriter S}.
Implicit Types (s : S).

Definition fetched_updates (mode : BackfillMode) (block : Block) : list Update :=
  match get_block_number_from_block block with
  | Some block_number =>
      Inc "backfill_blocks_fetched_total" [mode_str mode]
      :: match mode with
         | Continuous => [SetTo "backfill_latest_continuous_block" [] (as_i64 block_number)]
         | GapFill => []
         end
  | None => []
  end.

(** The stream loop: a block is counted before it is written, and the stream ends
    with an error of the stream or of the writer. *)
Fixpoint fetch_updates s (mode : BackfillMode) (stream : list (Result Error SubMessage))
    : list Update :=
  match stream with
  | Ok (SubBlockItems block_items) :: stream =>
      fetched_updates mode (MkBlock block_items)
      ++ let '(s, r) := writer_write_block s (MkBlock block_items) in
         match r with Ok _ => fetch_updates s mode stream | Err _ => [] end
  | Ok _ :: stream => fetch_updates s mode stream
  | _ => []
  end.

(** [stream_from_peer]: a refused subscription is not counted; the guard counts the
    stream out when it is over. *)
Definition stream_updates s (peer_addr : string) (mode : BackfillMode) (a : Attempt)
    (start end_ : Z) : list Update :=
  match at_stream a start end_ with
  | Err _ => []
  | Ok stream =>
      [Inc "backfill_active_streams" []] ++ fetch_updates s mode stream
      ++ [Observe "backfill_stream_duration_seconds" [peer_addr; mode_str mode];
          Dec "backfill_active_streams" []]
  end.

Fixpoint gap_peer_updates (fuel : nat) s (peer_addr : string) (p : Peer) (turn retries : nat)
    (effective_start end_ : Z) : list Update :=
  match fuel with
  | O => []
  | Datatypes.S fuel =>
      let again s :=
        if (PEER_RETRY_LIMIT <? Datatypes.S retries)%nat then []
        else gap_peer_updates fuel s peer_addr p (Datatypes.S turn) (Datatypes.S retries)
               effective_start end_ in
      match at_status (p turn) with
      | Ok (Some status) =>
          if (effective_start <? first_available_block status)
             || (last_available_block status <? end_)
          then []
          else
            stream_updates s peer_addr GapFill (p turn) effective_start end_
            ++ let '(s, r) := stream_from_peer s (p turn) effective_start end_ in
               match r with Err _ => again s | Ok _ => [] end
      | Ok None => []
      | Err _ => again s
      end
  end.

Fixpoint peer_loop_updates s (peers : list (string * Peer)) (effective_start end_ : Z)
    : list Update :=
  match peers with
  | [] => []
  | (addr, p) :: peers =>
      gap_peer_updates gap_peer_fuel s addr p 0 0 effective_start end_
      ++ let '(s, filled) := gap_peer_loop gap_peer_fuel s p 0 0 effective_start end_ in
         match filled with
         | Some true => []
         | _ => peer_loop_updates s peers effective_start end_
         end
  end.

Fixpoint fill_gaps_updates s (start_block_number : Z) (peers : list (string * Peer))
    (gaps : list (Z * Z)) : list Update :=
  match gaps with
  | [] => []
  | (start, end_) :: gaps =>
      let effective_start := Z.max start start_block_number in
      if end_ <? effective_start then fill_gaps_updates s start_block_number peers gaps
      else
        peer_loop_updates s peers effective_start end_
        ++ let '(s, _) := peer_loop s peers.*2 effective_start end_ in
           fill_gaps_updates s start_block_number peers gaps
  end.

(** [run_single_gap_check]. *)
Definition gap_check_updates s (start_block_number : Z) (peers : list (string * Peer))
    (gaps : Result Error (list (Z * Z))) : list Update :=
  match gaps with
  | Err _ | Ok [] => []
  | Ok gaps =>
      IncBy "backfill_gaps_found_total" [] (Z.of_nat (length gaps))
      :: fill_gaps_updates s start_block_number peers gaps
  end.
End backfill_updates.

(** ** Publisher sessions *)
Definition header_label (latest : Z) (seen : gmap Z Uuid) (sh : SharedState) (s : Session)
    (block_number : Z) : string :=
  if block_number <? latest then "behind_persisted"
  else if block_number =? latest then "duplicate"
  else
    match seen !! as_u64 block_number with
    | Some winner_entry => if decide (winner_entry = id s) then "duplicate" else "skipped"
    | None =>
        match block_winners sh !! as_u64 block_number with
        | None => "primary"
        | Some _ => "skipped"
        end
    end.

(** [handle_accept]; [started] says whether [block_start_time] is set. *)
Fixpoint accept_updates (sid : string) (started : bool) (block_items : list BlockItem)
    : list Update :=
  match block_items with
  | [] => []
  | Some (IBlockProof _) :: _ =>
      if started then
        [Observe "publish_header_to_proof_duration_seconds" [];
         SetFloat "publish_average_header_to_proof_time_seconds" [sid]]
      else []
  | _ :: block_items =>
      Inc "publish_items_processed_total" [] :: accept_updates sid started block_items
  end.

Definition response_inc (label : string) : Update := Inc "publish_responses_sent_total" [label].

Definition action_updates (sid : string) (started : bool) (action : BlockAction)
    (block_items : list BlockItem) : list Update :=
  match action with
  | Accept => accept_updates sid started block_items
  | Skip => [response_inc "SkipBlock"]
  | Resend => [response_inc "ResendBlock"]
  | EndBehind => [response_inc "EndStream_Behind"]
  | EndDuplicate => [response_inc "EndStream_Duplicate"]
  | EndError => [response_inc "EndStream_Error"]
  | BadBlockProof => [response_inc "EndStream_BadBlockProof"]
  end.

(** The action a set of items leads to, as in [handle_block_items]. *)
Definition items_action (latest : Z) (seen : gmap Z Uuid) (sh : SharedState) (s : Session)
    (block_items : list BlockItem) : BlockAction :=
  match first_header block_items with
  | Some num => (get_action_for_block latest seen sh s num None).1.1
  | None =>
      match current_block_action s with
      | Some _ => (get_action_for_block latest seen sh s (current_block_number s)
                     (current_block_action s)).1.1
      | None => EndError
      end
  end.

(** The updates of a request and whether [block_start_time] is set after it: winning
    a block sets it, [reset_for_next_block] clears it. *)
Definition items_updates (max_items_per_set latest : Z) (seen : gmap Z Uuid)
    (sh : SharedState) (s : Session) (sid : string) (started : bool)
    (block_items : list BlockItem) : list Update * bool :=
  let block_number := first_header block_items in
  let is_new_block := match block_number with Some _ => true | None => false end in
  match validate_block_items max_items_per_set block_items is_new_block with
  | Err _ =>
      ([Inc "publish_blocks_received_total" ["validation_error"];
        response_inc "EndStream_ValidationError"], started)
  | Ok _ =>
      let action := items_action latest seen sh s block_items in
      let started :=
        match action, block_number with Accept, Some _ => true | _, _ => started end in
      (match block_number with
       | Some num => [Inc "publish_blocks_received_total" [header_label latest seen sh s num]]
       | None => []
       end ++ action_updates sid started action block_items,
       match action with Skip | Resend => false | _ => started end)
  end.

Definition request_updates (max_items_per_set latest : Z) (seen : gmap Z Uuid)
    (sh : SharedState) (s : Session) (sid : string) (started : bool)
    (request : PublishRequest) : list Update * bool :=
  match request with
  | ReqBlockItems block_item_set =>
      items_updates max_items_per_set latest seen sh s sid started block_item_set
  | ReqEndOfBlock block_number =>
      (if decide (current_block_action s ≠ Some Accept) then [response_inc "EndStream_Error"]
       else if negb (as_i64 block_number =? current_block_number s)
       then [response_inc "EndStream_Error"] else [], started)
  | ReqEndStream _ _ => ([], started)
  end.

(** [wait_for_verification_and_persistence]: a broadcast counts once, however many
    sessions it reaches. *)
Definition finish_updates (started : bool) (result : WaitResult) : list Update * bool :=
  let lifecycle label :=
    if started then [Observe "publish_lifecycle_duration_seconds" [label]] else [] in
  match result with
  | WPersisted =>
      (Observe "publish_persistence_duration_seconds" ["acknowledged"] :: lifecycle "acknowledged"
       ++ [Inc "blocks_acknowledged" []; response_inc "Acknowledgement"], false)
  | WFailed _ =>
      ([Observe "publish_persistence_duration_seconds" ["verification_failed"];
        response_inc "EndStream_BadBlockProof"; response_inc "ResendBlock"], started)
  | WTimeout =>
      (Observe "publish_persistence_duration_seconds" ["timeout"] :: lifecycle "timeout"
       ++ [response_inc "ResendBlock"], started)
  end.

(** service.rs: the end of the task, with [log_session_stats]. *)
Definition end_updates (sh : SharedState) (sid : Uuid) : list Update :=
  [Observe "publish_session_duration_seconds" []]
  ++ ((λ _, response_inc "ResendBlock") <$> affected_blocks sh sid)
  ++ [Dec "active_publish_sessions" []].

(** A session from its connection to its end, whatever the others do: for each
    request what the handler loads and finds, and, should it wait, the result of the
    wait and the shared state at that time. *)
Record SessionTurn := MkSessionTurn {
  tn_latest : Z;
  tn_seen : gmap Z Uuid;
  tn_shared : SharedState;
  tn_request : PublishRequest;
  tn_result : WaitResult;
  tn_shared_after : SharedState;
}.

Section session_updates.
Context {CODEC : Codec}.

(** The [while] loop of the task, with the number of blocks it acknowledged. *)
Fixpoint task_updates (max_items_per_set : Z) (s : Session) (sid : string) (started : bool)
    (turns : list SessionTurn) : list Update * Z :=
  match turns with
  | [] => ([], 0)
  | t :: turns =>
      let o := handle_request max_items_per_set (tn_latest t) (tn_seen t) (tn_shared t) s
                 (tn_request t) in
      let '(us, started) := request_updates max_items_per_set (tn_latest t) (tn_seen t)
                              (tn_shared t) s sid started (tn_request t) in
      match o_next o with
      | Continue =>
          let '(us', k) := task_updates max_items_per_set (o_session o) sid started turns in
          (us ++ us', k)
      | Terminate => (us, 0)
      | AwaitBlock _ _ =>
          let '(s, _, _, ended) := finish_block (tn_shared_after t) (o_session o) (tn_result t) in
          let '(fus, started) := finish_updates started (tn_result t) in
          if (ended : bool) then (us ++ fus, 0)
          else
            let '(us', k) := task_updates max_items_per_set s sid started turns in
            (us ++ fus ++ us', 1 + k)
      end
  end.

Definition session_updates (max_items_per_set : Z) (key : Uuid) (sid : string)
    (turns : list SessionTurn) (last : SharedState) : list Update :=
  Inc "active_publish_sessions" []
  :: (task_updates max_items_per_set (SessionManager_new key) sid false turns).1
  ++ end_updates last key.
End session_updates.

(** ** The updates fit the table *)
Section storage_fit.
Context {RDB : RocksDB} {CODEC : Codec}.
Implicit Types (st : Tiers).

Lemma read_updates_fits st n : fits_table (read_updates st n).
Proof. unfold read_updates, fits_table. repeat case_match; fits. Qed.

Lemma write_updates_fits cfg start st b : fits_table (write_updates cfg start st b).
Proof. unfold write_updates, fits_table. case_match; fits. Qed.

Lemma archive_load_fits st fault bs : fits_table (archive_load_updates st fault bs).
Proof. unfold archive_load_updates. repeat case_match; [apply load_updates_fits|constructor]. Qed.

Lemma write_batch_fits st fault bs : fits_table (write_batch_updates st fault bs).
Proof.
  unfold write_batch_updates. case_match; [constructor|].
  apply fits_app; [apply archive_load_fits|]. unfold fits_table. case_match; fits.
Qed.

Lemma archive_updates_fits st fault a k : fits_table (archive_updates st fault a k).
Proof.
  assert (fits_table [Observe "persistence_archival_cycle_duration_seconds" []]) as H
    by (unfold fits_table; fits).
  unfold archive_updates. destruct (read_block_batch _ _ _) as [[|b bs]|e]; [exact H| |exact H].
  apply fits_app; [apply archive_load_fits|]. unfold fits_table. case_match; fits.
Qed.

Lemma cycle_turn_fits cfg st fault : fits_table (cycle_turn_updates cfg st fault).
Proof.
  unfold cycle_turn_updates.
  destruct (get_earliest_hot _) as [[eh|]|]; [|constructor..].
  destruct (get_latest_persisted _); [|constructor]. apply Forall_cons_2; [fits_one|].
  destruct (_ <=? _); [constructor|].
  destruct (is_batch_complete _ _ _) as [[]|]; [apply archive_updates_fits|constructor..].
Qed.

Lemma cycle_updates_fits cfg fuel st faults : fits_table (cycle_updates cfg fuel st faults).
Proof.
  revert st faults. induction fuel as [|fuel IH]; intros st faults; cbn [cycle_updates]; [constructor|].
  apply fits_app; [apply cycle_turn_fits|].
  destruct (cycle_step _ _ _) as [st' [r|]]; [constructor|apply IH].
Qed.

Lemma event_updates_fits cfg start c st ev : fits_table (event_updates cfg start c st ev).
Proof.
  unfold event_updates. apply fits_app; [|unfold fits_table; fits].
  destruct (Cache.get _ _); [|constructor].
  destruct (decode_block _); [apply write_updates_fits|constructor].
Qed.

(** A read that succeeds is counted once, under the tier that had the block. *)
Lemma read_counted st n o : tiers_read_block st n = Ok o →
  ∃ us tier, read_updates st n = us ++ [Inc "persistence_reads_total" [tier]] ∧
    Forall (λ u, update_metric u ≠ "persistence_reads_total") us ∧
    (tier = "not_found" ↔ o = None) ∧ (tier = "hot" ↔ hot_read_block (t_db st) n = Ok o ∧ o ≠ None).
Proof.
  unfold tiers_read_block, read_updates. destruct (hot_read_block (t_db st) n) as [[c|]|e]; cbn.
  - intros [= <-]. exists [Observe "persistence_read_duration_seconds" ["hot"]], "hot".
    split_and!; [done|by repeat constructor|done|]. naive_solver.
  - destruct (cold_read_block _ _ n) as [[c|]|e]; cbn; intros [= <-];
      exists [Observe "persistence_read_duration_seconds" ["hot"];
              Observe "persistence_read_duration_seconds" ["cold"]].
    + exists "cold". split_and!; [done|by repeat constructor|naive_solver..].
    + exists "not_found". split_and!; [done|by repeat constructor|naive_solver..].
  - done.
Qed.
End storage_fit.

Section backfill_fit.
Context {S : Type} {READER : BlockReader S} {WRITER : BlockWriter S}.
Implicit Types (s : S).

(** Everything a stream records besides its own guard. *)
Lemma fetch_updates_all (P : Update → Prop) s mode stream :
  (∀ b, Forall P (fetched_updates mode b)) → Forall P (fetch_updates s mode stream).
Proof.
  intros HP. revert s. induction stream as [|[[l| |]|e] stream IH]; intros s; cbn; try done.
  apply Forall_app. split; [apply HP|]. destruct (writer_write_block _ _) as [s' [[]|e]]; [apply IH|done].
Qed.

Lemma stream_updates_fits s peer mode a x y : fits_table (stream_updates s peer mode a x y).
Proof.
  unfold stream_updates. case_match; [|constructor]. apply fits_app; [unfold fits_table; fits|].
  apply fits_app; [|unfold fits_table; fits].
  apply fetch_updates_all. intros b. unfold fetched_updates. case_match; [|constructor].
  destruct mode; fits.
Qed.

(** The gauge of active streams is back where it was. *)
Lemma stream_updates_balanced s peer mode a x y v :
  updates_value "backfill_active_streams" [] v (stream_updates s peer mode a x y) = v.
Proof.
  unfold stream_updates. case_match; [|done]. rewrite !updates_value_app.
  rewrite (updates_value_other _ _ _ (fetch_updates _ _ _)).
  - cbn. unfold update_value. cbn. repeat case_bool_decide; naive_solver lia.
  - apply fetch_updates_all. intros b. unfold fetched_updates.
    repeat case_match; by repeat constructor.
Qed.

(** What holds of the updates of every stream holds of a whole check: the retries,
    peers and gaps only concatenate them. *)
Lemma gap_updates_all (P : list Update → Prop) start peers gaps s :
  P [] → (∀ us us', P us → P us' → P (us ++ us')) →
  (∀ s addr a x y, P (stream_updates s addr GapFill a x y)) →
  P (fill_gaps_updates s start peers gaps).
Proof.
  intros H0 Happ Hs.
  assert (∀ fuel s addr p turn retries x y, P (gap_peer_updates fuel s addr p turn retries x y)) as Hp.
  { induction fuel as [|fuel IH]; intros; cbn [gap_peer_updates]; [done|].
    assert (∀ s, P (if (PEER_RETRY_LIMIT <? Datatypes.S retries)%nat then []
      else gap_peer_updates fuel s addr p (Datatypes.S turn) (Datatypes.S retries) x y)) as Hagain
      by (intros; case_match; [done|apply IH]).
    destruct (at_status _) as [[status|]|]; [|done|apply Hagain].
    destruct (_ || _); [done|]. apply Happ; [apply Hs|].
    destruct (stream_from_peer _ _ _ _) as [s' [[]|e]]; [done|apply Hagain]. }
  assert (∀ peers s x y, P (peer_loop_updates s peers x y)) as Hl.
  { induction peers0 as [|[addr p] ps IH]; intros; cbn [peer_loop_updates]; [done|].
    apply Happ; [apply Hp|].
    destruct (gap_peer_loop _ _ _ _ _ _ _) as [s' [[]|]]; [done|apply IH..]. }
  revert s. induction gaps as [|[x y] gaps IH]; intros s; cbn; [done|].
  case_match; [apply IH|]. apply Happ; [apply Hl|]. case_match. apply IH.
Qed.

Lemma gap_check_fits s start peers gaps : fits_table (gap_check_updates s start peers gaps).
Proof.
  unfold gap_check_updates. repeat case_match; try constructor; [fits_one|].
  apply gap_updates_all; [constructor|apply fits_app|intros; apply stream_updates_fits].
Qed.

Lemma gap_check_balanced s start peers gaps v :
  updates_value "backfill_active_streams" [] v (gap_check_updates s start peers gaps) = v.
Proof.
  unfold gap_check_updates. repeat case_match; try done.
  change (updates_value ?m ?l v (?u :: ?us)) with (updates_value m l (update_value m l v u) us).
  change (update_value _ _ v _) with v.
  apply (gap_updates_all (λ us, ∀ v, updates_value "backfill_active_streams" [] v us = v)); [done| |].
  - intros us us' Hu Hu' w. by rewrite updates_value_app, Hu, Hu'.
  - intros. apply stream_updates_balanced.
Qed.
End backfill_fit.

(** ** Publisher sessions *)
Lemma accept_updates_fits sid started items : fits_table (accept_updates sid started items).
Proof.
  unfold fits_table. induction items as [|i items IH]; cbn; [constructor|].
  destruct i as [[]|]; try (apply Forall_cons_2; [fits_one|exact IH]). case_match; fits.
Qed.

Lemma request_updates_fits max latest seen sh s sid started r :
  fits_table (request_updates max latest seen sh s sid started r).1.
Proof.
  destruct r as [items|n|]; cbn; [|repeat case_match; unfold fits_table; fits|constructor].
  unfold items_updates. destruct (validate_block_items _ _ _); cbn; [|unfold fits_table; fits].
  apply fits_app; [case_match; unfold fits_table; fits|].
  unfold action_updates. case_match; try (unfold fits_table; fits; fail). apply accept_updates_fits.
Qed.

Lemma finish_updates_fits started r : fits_table (finish_updates started r).1.
Proof. unfold fits_table. destruct r; cbn; destruct started; fits. Qed.

Lemma end_updates_fits sh key : fits_table (end_updates sh key).
Proof.
  unfold end_updates, fits_table. apply Forall_app_2; [fits|]. apply Forall_app_2; [|fits].
  apply Forall_fmap, Forall_true. intros x. cbn. fits_one.
Qed.

(** The updates of a counter of responses. *)
Definition counts_response (u : Update) : Prop := update_metric u = "publish_responses_sent_total".
#[export] Instance counts_response_dec u : Decision (counts_response u).
Proof. unfold counts_response. apply _. Defined.

Section session_fit.
Context {CODEC : Codec}.

Lemma task_updates_all (P : list Update → Prop) max s sid started turns :
  P [] → (∀ us us', P us → P us' → P (us ++ us')) →
  (∀ latest seen sh s started r, P (request_updates max latest seen sh s sid started r).1) →
  (∀ started r, P (finish_updates started r).1) →
  P (task_updates max s sid started turns).1.
Proof.
  intros H0 Happ Hr Hf. revert s started. induction turns as [|t turns IH]; intros s started;
    cbn [task_updates]; [done|].
  specialize (Hr (tn_latest t) (tn_seen t) (tn_shared t) s started (tn_request t)).
  destruct (request_updates _ _ _ _ _ _ _ _) as [us st']. cbn in Hr.
  destruct (o_next _); [|done|].
  - specialize (IH (o_session (handle_request max (tn_latest t) (tn_seen t) (tn_shared t) s
      (tn_request t))) st'). destruct (task_updates _ _ _ _ _) as [us' k]. by apply Happ.
  - destruct (finish_block _ _ _) as [[[s' sh'] sent] []];
      specialize (Hf st' (tn_result t)); destruct (finish_updates _ _) as [fus st'']; cbn in Hf.
    + by apply Happ.
    + specialize (IH s' st''). destruct (task_updates _ _ _ _ _) as [us' k].
      apply Happ; [done|]. by apply Happ.
Qed.

Lemma session_updates_fits max key sid turns last :
  fits_table (session_updates max key sid turns last).
Proof.
  apply Forall_cons_2; [fits_one|]. apply fits_app; [|apply end_updates_fits].
  apply task_updates_all; [constructor|apply fits_app|intros; apply request_updates_fits
    |intros; apply finish_updates_fits].
Qed.

(** The requests and the waits leave the gauge of sessions alone. *)
Lemma request_updates_metric max latest seen sh s sid started r :
  Forall (λ u, update_metric u ≠ "active_publish_sessions" ∧ update_metric u ≠ "blocks_acknowledged")
    (request_updates max latest seen sh s sid started r).1.
Proof.
  assert (∀ st items, Forall (λ u, update_metric u ≠ "active_publish_sessions"
    ∧ update_metric u ≠ "blocks_acknowledged") (accept_updates sid st items)) as Ha.
  { intros st items. induction items as [|i items IH]; cbn; [done|].
    destruct i as [[]|]; try (by constructor). destruct st; by repeat constructor. }
  destruct r as [items|n|]; cbn; [|repeat case_match; by repeat constructor|done].
  unfold items_updates. destruct (validate_block_items _ _ _); cbn; [|by repeat constructor].
  apply Forall_app. split; [destruct (first_header items); by repeat constructor|].
  unfold action_updates. case_match; (apply Ha || by repeat constructor).
Qed.

Lemma session_gauge_balanced max key sid turns last v :
  updates_value "active_publish_sessions" [] v (session_updates max key sid turns last) = v.
Proof.
  unfold session_updates, end_updates.
  change (updates_value ?m ?l v (?u :: ?us)) with (updates_value m l (update_value m l v u) us).
  change (update_value _ _ v _) with (v + 1). rewrite updates_value_app.
  rewrite (updates_value_other _ _ _ (task_updates _ _ _ _ _).1).
  - rewrite !updates_value_app, (updates_value_other _ _ _ (_ <$> _)).
    + cbn -[update_value]. change (update_value ?m ?l ?v (Observe _ _)) with v.
      change (update_value ?m ?l ?v (Dec _ _)) with (v - 1). lia.
    + by apply Forall_fmap, Forall_true.
  - apply task_updates_all; [done|by intros; apply Forall_app| |].
    + intros. eapply Forall_impl; [apply request_updates_metric|]. by intros u [].
    + intros st []; cbn; destruct st; by repeat constructor.
Qed.

Lemma task_acknowledged max s sid started turns v :
  updates_value "blocks_acknowledged" [] v (task_updates max s sid started turns).1
  = v + (task_updates max s sid started turns).2.
Proof.
  revert s started v. induction turns as [|t turns IH]; intros s started v;
    cbn [task_updates]; [cbn; lia|].
  pose proof (request_updates_metric max (tn_latest t) (tn_seen t) (tn_shared t) s sid started
    (tn_request t)) as Hr.
  destruct (request_updates _ _ _ _ _ _ _ _) as [us st']. cbn [fst] in Hr.
  assert (∀ v, updates_value "blocks_acknowledged" [] v us = v) as Hus.
  { intros w. apply updates_value_other. eapply Forall_impl; [exact Hr|]. by intros u []. }
  destruct (o_next _); [| |].
  - specialize (IH (o_session (handle_request max (tn_latest t) (tn_seen t) (tn_shared t) s
      (tn_request t))) st'). destruct (task_updates _ _ _ _ _) as [us' k]. cbn [fst snd] in *.
    by rewrite updates_value_app, Hus, IH.
  - cbn [fst snd]. rewrite Hus. lia.
  - destruct (tn_result t) eqn:Et; cbn [finish_block finish_updates].
    + specialize (IH (reset_for_next_block (o_session (handle_request max (tn_latest t) (tn_seen t)
        (tn_shared t) s (tn_request t)))) false).
      destruct (task_updates _ _ _ _ _) as [us' k]. cbn [fst snd] in *.
      rewrite !updates_value_app, Hus, IH.
      assert (∀ w, updates_value "blocks_acknowledged" [] w
        (finish_updates st' WPersisted).1 = w + 1) as -> by (by intros; destruct st').
      lia.
    + cbn [fst snd]. rewrite updates_value_app, Hus, updates_value_other by (by repeat constructor). lia.
    + cbn [fst snd]. rewrite updates_value_app, Hus, updates_value_other; [lia|].
      destruct st'; by repeat constructor.
Qed.

(** Every response of a handler is counted once. *)
Lemma responses_counted max latest seen sh s sid started r :
  length (filter counts_response (request_updates max latest seen sh s sid started r).1)
  = length (o_responses (handle_request max latest seen sh s r)).
Proof.
  assert (∀ st items, filter counts_response (accept_updates sid st items) = []) as Ha.
  { intros st items. induction items as [|i items IH]; cbn; [done|].
    destruct i as [[]|]; try done. by destruct st. }
  assert (∀ sh s items, o_responses (handle_accept sh s items) = []) as Hb.
  { intros sh0 s0 items. revert s0. induction items as [|i items IH]; intros s0; cbn; [done|].
    destruct i as [[]|]; try apply IH. unfold complete_block. by case_match. }
  destruct r as [items|n|]; [|cbn|done].
  - cbn [request_updates handle_request]. unfold items_updates, handle_block_items.
    destruct (validate_block_items _ _ _); [|done]. cbn [fst].
    assert (∀ act us, Forall (λ u, ¬ counts_response u) us → ∀ sh' s' st,
      length (filter counts_response (us ++ action_updates sid st act items))
      = length (o_responses (run_action sh' s' act items))) as Hact.
    { intros act us Hus sh' s' st. rewrite filter_app.
      replace (filter counts_response us) with (@nil Update).
      - destruct act; cbn [action_updates run_action]; try done. by rewrite Ha, Hb.
      - induction Hus as [|u us Hu _ IH]; [done|]. by rewrite filter_cons_False. }
    unfold items_action. destruct (first_header items) as [num|].
    + set (us := [Inc "publish_blocks_received_total" [_]]).
      assert (Forall (λ u, ¬ counts_response u) us) as Hus by (by repeat constructor).
      cbn [get_action_for_block]. unfold get_action_for_header. clearbody us.
      cbn [id add_counts]. repeat case_match; simplify_eq; by apply (Hact _ us Hus).
    + cbn [current_block_action add_counts]. destruct (current_block_action s) as [[]|];
        cbn [get_action_for_block fst]; apply (Hact _ []); constructor.
  - unfold handle_block_end, handle_end_error, complete_block. repeat case_match; done.
Qed.

(** While a session accepts a block its start time is set, so a proof is timed. *)
Lemma accepting_is_timed max latest seen sh s sid started r :
  (current_block_action s = Some Accept → started = true) →
  current_block_action (o_session (handle_request max latest seen sh s r)) = Some Accept →
  (request_updates max latest seen sh s sid started r).2 = true.
Proof.
  intros Hs. destruct r as [items|n|]; cbn; [|unfold handle_block_end|done].
  - unfold items_updates, handle_block_items.
    destruct (validate_block_items _ _ _); [|exact Hs]. cbn [fst snd].
    assert (∀ act sh' s', current_block_action
      (o_session (run_action sh' (set_action s' act) act items)) = Some Accept → act = Accept) as Hact.
    { intros [] sh' s'; cbn; done. }
    unfold items_action. destruct (first_header items) as [num|].
    + destruct (get_action_for_block _ _ _ _ _ _) as [[act s'] sh'] eqn:E.
      replace (get_action_for_block latest seen sh s num None).1.1 with act; [by intros ->%Hact|].
      revert E. cbn [get_action_for_block]. unfold get_action_for_header. cbn [id add_counts].
      repeat case_match; naive_solver.
    + cbn [current_block_action add_counts]. destruct (current_block_action s) as [act|] eqn:Ea; [|done].
      destruct (get_action_for_block _ _ _ _ _ _) as [[act' s'] sh'] eqn:E.
      intros ->%Hact. replace (get_action_for_block latest seen sh s (current_block_number s)
        (Some act)).1.1 with Accept; [apply Hs|].
      all: destruct act; cbn in E |- *; try discriminate; try done; by injection E as <-.
  - repeat case_match; cbn; try done. intros _. apply Hs. by apply dec_stable.
Qed.
End session_fit.
