(* ===== verification/StatePlugin.v ===== *)
(** The state-management plugin: crates/rock-node-state-management-plugin/src
    (state_manager.rs, plugin.rs).  It applies the state changes of every block to
    the state column family and remembers the last block it processed.

    [prefix_iterator_cf] on a family without a prefix extractor (the database
    configures none) is an unbounded forward iterator from the prefix. *)
From S2P Require Import Prelude Database Block Core Pipeline.

Section state_manager.
Context {RDB : RocksDB} {CODEC : Codec}.
Implicit Types (db : DB) (batch : WriteBatch).

Definition get_last_processed_block db : Result Error (option Z) :=
  need_cf db CF_METADATA;;
  v ← get_cf db CF_METADATA STATE_LAST_PROCESSED_BLOCK;
  Ok (v ≫= u64_from_be).

Definition state_prefix (state_id : Z) : bytes := be_bytes 4 state_id.

Definition construct_db_key (state_id : Z) (map_key : option pb) : Result Error bytes :=
  entity_key ← ok_or map_key (EOther "MapChangeKey is missing");
  Ok (state_prefix state_id ++ encode_msg entity_key).

(** The singleton variants the plugin stores. *)
Definition handled_singleton (k : NewValueKind) : bool :=
  match k with OtherNewValue => false | _ => true end.
Definition handled_queue_value (k : QueueValueKind) : bool :=
  match k with TransactionReceiptEntriesElement => true | OtherQueueValue => false end.

Definition apply_single_state_change db (change : StateChange) (consensus_timestamp : pb) batch
    : Result Error WriteBatch :=
  match change_operation change with
  | None => Ok batch
  | Some (MapUpdate key value) =>
      k ← construct_db_key (state_id change) key;
      v ← ok_or value (EOther "MapUpdateChange is missing value");
      Ok (batch ++ [BPut CF_STATE_DATA k (encode_msg v)])
  | Some (MapDelete key) =>
      k ← construct_db_key (state_id change) key;
      Ok (batch ++ [BDelete CF_STATE_DATA k])
  | Some (SingletonUpdate new_value) =>
      '(kind, v) ← ok_or new_value (EOther "SingletonUpdate missing value");
      if handled_singleton kind
      then Ok (batch ++ [BPut CF_STATE_DATA (state_prefix (state_id change)) (encode_msg v)])
      else Ok batch
  | Some (QueuePush value) =>
      '(kind, v) ← ok_or value (EOther "QueuePushChange missing value");
      if handled_queue_value kind
      then Ok (batch ++ [BPut CF_STATE_DATA
                 (state_prefix (state_id change) ++ encode_msg consensus_timestamp)
                 (encode_msg v)])
      else Ok batch
  | Some QueuePop =>
      match iterator_cf db CF_STATE_DATA
              (IterFrom (state_prefix (state_id change)) Forward) with
      | Ok (key, _) :: _ => Ok (batch ++ [BDelete CF_STATE_DATA key])
      | _ => Ok batch
      end
  | Some (OtherChange _) => Ok batch
  end.

Fixpoint apply_changes db (changes : list StateChange) (ts : pb) batch
    : Result Error WriteBatch :=
  match changes with
  | [] => Ok batch
  | c :: changes =>
      batch ← apply_single_state_change db c ts batch;
      apply_changes db changes ts batch
  end.

Fixpoint apply_items db (items : list BlockItem) batch : Result Error WriteBatch :=
  match items with
  | [] => Ok batch
  | Some (IStateChanges set) :: items =>
      ts ← ok_or (consensus_timestamp set) (EOther "StateChanges missing timestamp");
      batch ← apply_changes db (state_changes set) ts batch;
      apply_items db items batch
  | _ :: items => apply_items db items batch
  end.

Definition apply_state_changes db (block_number : Z) (block_bytes : bytes) : Result Error DB :=
  block ← decode_block block_bytes;
  need_cf db CF_STATE_DATA;;
  need_cf db CF_METADATA;;
  batch ← apply_items db (items block) [];
  write db (batch ++ [BPut CF_METADATA STATE_LAST_PROCESSED_BLOCK (u64_to_be block_number)]).

Definition apply_state_from_block_event db (c : BlockDataCache) (event : BlockPersisted)
    : Result Error (DB * BlockDataCache) :=
  d ← ok_or (Cache.get c (bp_cache_key event)) (EOther "Block data not found in cache");
  db ← apply_state_changes db (bp_block_number event) (bd_contents d);
  Ok (db, Cache.mark_for_removal c (bp_cache_key event)).

Definition apply_state_from_storage {R : Type} `{BlockReader R} (reader : R) db (block_number : Z)
    : Result Error DB :=
  o ← read_block reader block_number;
  block_bytes ← ok_or o (EMissingBlock block_number);
  apply_state_changes db block_number block_bytes.

Definition get_state_value db (key : bytes) : Result Error (option bytes) :=
  need_cf db CF_STATE_DATA;;
  get_cf db CF_STATE_DATA key.

(** ** The event loop of plugin.rs *)

(** [for b in expected..n]: an error only leaves this loop. *)
Fixpoint catch_up {R : Type} `{BlockReader R} (reader : R) db (b : Z) (k : nat) : DB :=
  match k with
  | O => db
  | Datatypes.S k =>
      match apply_state_from_storage reader db b with
      | Err _ => db
      | Ok db => catch_up reader db (u64_add b 1) k
      end
  end.

Record StateTask := MkStateTask {
  st_db : DB;
  st_cache : BlockDataCache;
  last_processed_block : option Z;
}.

(** One event: [None] halts the loop. *)
Definition handle_persisted {R : Type} `{BlockReader R} (reader : R) (t : StateTask)
    (event : BlockPersisted) : option StateTask :=
  let expected_block :=
    match last_processed_block t with Some n => u64_add n 1 | None => 0 end in
  let n := bp_block_number event in
  if n <? expected_block then Some t
  else
    let db :=
      if expected_block <? n
      then catch_up reader (st_db t) expected_block (Z.to_nat (n - expected_block))
      else st_db t in
    match apply_state_from_block_event db (st_cache t) event with
    | Err _ => None
    | Ok (db, c) => Some (MkStateTask db c (Some n))
    end.
End state_manager.

(** ** Reference semantics of a block's changes: one map update after the other

    A queue pop looks at the committed database, that is, at the state [m0] before
    the block, and deletes the first key at or after the prefix, whichever state it
    belongs to. *)
Section state_theory.
Context {RDB : RocksDB} {LAWS : RocksDBLaws} {CODEC : Codec} {CLAWS : CodecLaws}.
Implicit Types (db : DB) (m : gmap bytes bytes).

(** The least key of [m] that is at or after [p]. *)
Definition first_from m (p : bytes) : option bytes :=
  fst <$> head (RefStore.listing m (IterFrom p Forward)).

(** The head of a listing does not depend on how it was made. *)
Lemma iterates_head m p l l' :
  iterates m (IterFrom p Forward) l → iterates m (IterFrom p Forward) l' →
  fst <$> head l = fst <$> head l'.
Proof.
  intros [Hs Hl] [Hs' Hl'].
  assert (∀ x, x ∈ l ↔ x ∈ l') as Hsame by (intros [k v]; by rewrite Hl, Hl').
  destruct l as [|[k v] l], l' as [|[k' v'] l']; cbn.
  - done.
  - destruct (not_elem_of_nil (k', v')). apply Hsame. by left.
  - destruct (not_elem_of_nil (k, v)). apply Hsame. by left.
  - apply StronglySorted_inv in Hs as [_ Hs], Hs' as [_ Hs'].
    cbn in Hs, Hs'. rewrite Forall_forall in Hs, Hs'.
    assert ((k, v) ∈ (k', v') :: l') as [[= -> ->]|H1]%elem_of_cons by (apply Hsame; by left); [done|].
    assert ((k', v') ∈ (k, v) :: l) as [[= -> ->]|H2]%elem_of_cons by (apply Hsame; by left); [done|].
    pose proof (Hs' k ltac:(apply list_elem_of_fmap; by exists (k, v))) as H1'.
    pose proof (Hs k' ltac:(apply list_elem_of_fmap; by exists (k', v'))) as H2'.
    cbn in H1', H2'. pose proof (bytes_lt_trans _ _ _ H1' H2') as H3.
    unfold bytes_lt in H3. by rewrite bytes_ltb_irrefl in H3.
Qed.

Lemma iterator_first db cf p : healthy db →
  ∃ l, iterator_cf db cf (IterFrom p Forward) = Ok <$> l ∧
    fst <$> head l = first_from (entries db cf) p.
Proof.
  intros H. destruct (iterator_healthy db cf (IterFrom p Forward) H) as (l & E & Hl).
  exists l. split; [done|]. eapply iterates_head; [done|apply RefStore.iterates_listing].
Qed.

Definition change_spec m0 (ts : pb) m (c : StateChange) : gmap bytes bytes :=
  match change_operation c with
  | Some (MapUpdate (Some k) (Some v)) =>
      <[state_prefix (state_id c) ++ encode_msg k := encode_msg v]> m
  | Some (MapDelete (Some k)) => delete (state_prefix (state_id c) ++ encode_msg k) m
  | Some (SingletonUpdate (Some (kind, v))) =>
      if handled_singleton kind then <[state_prefix (state_id c) := encode_msg v]> m else m
  | Some (QueuePush (Some (TransactionReceiptEntriesElement, v))) =>
      <[state_prefix (state_id c) ++ encode_msg ts := encode_msg v]> m
  | Some QueuePop =>
      match first_from m0 (state_prefix (state_id c)) with
      | Some k => delete k m
      | None => m
      end
  | _ => m
  end.

(** A change that carries the parts its operation needs. *)
Definition complete_change (c : StateChange) : Prop :=
  match change_operation c with
  | Some (MapUpdate k v) => is_Some k ∧ is_Some v
  | Some (MapDelete k) => is_Some k
  | Some (SingletonUpdate v) => is_Some v
  | Some (QueuePush v) => is_Some v
  | _ => True
  end.

Definition complete_item (i : BlockItem) : Prop :=
  match i with
  | Some (IStateChanges set) =>
      is_Some (consensus_timestamp set) ∧ Forall complete_change (state_changes set)
  | _ => True
  end.

Definition item_spec m0 m (i : BlockItem) : gmap bytes bytes :=
  match i with
  | Some (IStateChanges (MkStateChanges (Some ts) changes)) =>
      foldl (change_spec m0 ts) m changes
  | _ => m
  end.
Definition block_spec m (b : Block) : gmap bytes bytes := foldl (item_spec m) m (items b).

(** Batches that touch only the state family. *)
Definition state_ops (ops : WriteBatch) : Prop := Forall (λ op, op_cf op = CF_STATE_DATA) ops.

Lemma single_change_ok db c ts batch : healthy db → complete_change c →
  ∃ ops, apply_single_state_change db c ts batch = Ok (batch ++ ops) ∧ state_ops ops ∧
    ∀ m, apply_batch CF_STATE_DATA m ops = change_spec (entries db CF_STATE_DATA) ts m c.
Proof.
  unfold complete_change, apply_single_state_change, change_spec, construct_db_key.
  intros Hdb H. destruct (change_operation c) as [[k v|k|nv|v| |]|].
  - destruct H as [[k' ->] [v' ->]]. cbn. eexists. split; [done|].
    split; [by repeat constructor|]. intros m. by batch_simpl.
  - destruct H as [k' ->]. cbn. eexists. split; [done|].
    split; [by repeat constructor|]. intros m. by batch_simpl.
  - destruct H as [[kind v] ->]. cbn. destruct (handled_singleton kind).
    + eexists. split; [done|]. split; [by repeat constructor|]. intros m. by batch_simpl.
    + exists []. rewrite app_nil_r. split; [done|]. split; [constructor|done].
  - destruct H as [[kind w] ->]. cbn. destruct kind; cbn.
    + eexists. split; [done|]. split; [by repeat constructor|]. intros m. by batch_simpl.
    + exists []. rewrite app_nil_r. split; [done|]. split; [constructor|done].
  - destruct (iterator_first db CF_STATE_DATA (state_prefix (state_id c)) Hdb) as (l & -> & <-).
    destruct l as [|[k v] l]; cbn.
    + exists []. rewrite app_nil_r. split; [done|]. split; [constructor|done].
    + eexists. split; [done|]. split; [by repeat constructor|]. intros m. by batch_simpl.
  - exists []. rewrite app_nil_r. split; [done|]. split; [constructor|done].
  - exists []. rewrite app_nil_r. split; [done|]. split; [constructor|done].
Qed.

Lemma apply_changes_ok db changes ts batch : healthy db → Forall complete_change changes →
  ∃ ops, apply_changes db changes ts batch = Ok (batch ++ ops) ∧ state_ops ops ∧
    ∀ m, apply_batch CF_STATE_DATA m ops
         = foldl (change_spec (entries db CF_STATE_DATA) ts) m changes.
Proof.
  intros Hdb H. revert batch. induction H as [|c changes Hc _ IH]; intros batch; cbn.
  - exists []. rewrite app_nil_r. split; [done|]. split; [constructor|done].
  - destruct (single_change_ok db c ts batch Hdb Hc) as (o1 & -> & H1 & E1). cbn.
    destruct (IH (batch ++ o1)) as (o2 & -> & H2 & E2). exists (o1 ++ o2).
    rewrite <-app_assoc. split; [done|]. split; [by apply Forall_app|].
    intros m. by rewrite apply_batch_app, E1, E2.
Qed.

Lemma apply_items_ok db items batch : healthy db → Forall complete_item items →
  ∃ ops, apply_items db items batch = Ok (batch ++ ops) ∧ state_ops ops ∧
    ∀ m, apply_batch CF_STATE_DATA m ops
         = foldl (item_spec (entries db CF_STATE_DATA)) m items.
Proof.
  intros Hdb H. revert batch. induction H as [|i items Hi _ IH]; intros batch.
  - exists []. rewrite app_nil_r. split; [done|]. split; [constructor|done].
  - destruct i as [[h|p|[ts changes]|x]|]; cbn; try (by apply IH).
    destruct Hi as [[ts' E] Hc]. cbn in E, Hc. subst ts. cbn.
    destruct (apply_changes_ok db changes ts' batch Hdb Hc) as (o1 & -> & H1 & E1). cbn.
    destruct (IH (batch ++ o1)) as (o2 & -> & H2 & E2). exists (o1 ++ o2).
    rewrite <-app_assoc. split; [done|]. split; [by apply Forall_app|].
    intros m. by rewrite apply_batch_app, E1, E2.
Qed.

(** Applying a block is one atomic batch with the effect of its changes in order. *)
Lemma apply_state_changes_ok db n b :
  db_ok db → wf_block b → Forall complete_item (items b) →
  ∃ db', apply_state_changes db n (encode_to_vec b) = Ok db' ∧ db_ok db' ∧
    entries db' CF_STATE_DATA = block_spec (entries db CF_STATE_DATA) b ∧
    entries db' CF_METADATA
      = <[STATE_LAST_PROCESSED_BLOCK := u64_to_be n]> (entries db CF_METADATA) ∧
    ∀ cf, cf ≠ CF_STATE_DATA → cf ≠ CF_METADATA → entries db' cf = entries db cf.
Proof.
  intros Hdb Hwf Hi. unfold apply_state_changes. rewrite decode_encode_block by done. cbn.
  rewrite !need_cf_open by (apply Hdb || set_solver). cbn.
  destruct (apply_items_ok db (items b) [] (proj2 Hdb) Hi) as (ops & -> & Hops & Hspec). cbn.
  destruct (write_db_ok db (ops ++ [BPut CF_METADATA STATE_LAST_PROCESSED_BLOCK (u64_to_be n)])
    Hdb) as (db' & E & Hdb' & He).
  exists db'. split_and!; [done|done|..]; try intros cf Hcf1 Hcf2; rewrite He, apply_batch_app.
  - rewrite (apply_batch_other CF_STATE_DATA _ [_]) by by repeat constructor.
    unfold block_spec. by rewrite Hspec.
  - rewrite (apply_batch_other CF_METADATA _ ops).
    + by batch_simpl.
    + eapply Forall_impl; [exact Hops|]. by intros op ->.
  - rewrite (apply_batch_other cf _ [_]) by by repeat constructor.
    apply apply_batch_other. eapply Forall_impl; [exact Hops|]. by intros op ->.
Qed.

Lemma get_last_processed_block_ok db n :
  db_ok db → is_u64 n →
  entries db CF_METADATA !! STATE_LAST_PROCESSED_BLOCK = Some (u64_to_be n) →
  get_last_processed_block db = Ok (Some n).
Proof.
  intros Hdb Hn E. unfold get_last_processed_block.
  rewrite need_cf_open by (apply Hdb || set_solver). cbn.
  rewrite get_cf_healthy, E by apply Hdb. cbn. by rewrite u64_from_to_be.
Qed.

(** ** Catching up from storage *)
Context {R : Type} {READER : BlockReader R} {WRITER : BlockWriter R} {STORE : BlockStore R}.

(** The blocks [b, b + length bs) are in storage, and their changes complete. *)
Definition stored_complete (m : gmap Z bytes) (b : Z) (bs : list Block) : Prop :=
  ∀ i blk, bs !! i = Some blk →
    m !! (b + Z.of_nat i) = Some (encode_to_vec blk) ∧ wf_block blk ∧
    Forall complete_item (items blk).

Lemma catch_up_ok (reader : R) (m : gmap Z bytes) db b bs :
  holds reader m → db_ok db → 0 ≤ b → b + Z.of_nat (length bs) < u64_modulus →
  stored_complete m b bs →
  let db' := catch_up reader db b (length bs) in
  db_ok db' ∧ entries db' CF_STATE_DATA = foldl block_spec (entries db CF_STATE_DATA) bs ∧
  (bs ≠ [] → entries db' CF_METADATA !! STATE_LAST_PROCESSED_BLOCK
             = Some (u64_to_be (b + Z.of_nat (length bs) - 1))).
Proof.
  intros Hr. revert db b. induction bs as [|blk bs IH]; intros db b Hdb Hb Hmax Hst; cbn [length].
  { by cbn. }
  cbn [length] in Hmax. destruct (Hst 0%nat blk eq_refl) as (Hm & Hwf & Hpl).
  rewrite Z.add_0_r in Hm. cbn [catch_up]. unfold apply_state_from_storage.
  rewrite (read_block_holds _ _ _ Hr) by u64_lia. rewrite Hm. cbn [mbind Result_bind ok_or].
  destruct (apply_state_changes_ok db b blk Hdb Hwf Hpl) as (db1 & -> & Hdb1 & Es & Em & _).
  cbn [mbind Result_bind]. rewrite u64_add_small by u64_lia.
  destruct (IH db1 (b + 1)) as (H1 & H2 & H3); [done|lia|lia| |].
  { intros i blk' Hi. specialize (Hst (Datatypes.S i) blk' Hi).
    by replace (b + 1 + Z.of_nat i) with (b + Z.of_nat (Datatypes.S i)) by lia. }
  split_and!; [done|by rewrite H2, Es|]. intros _.
  destruct bs as [|blk' bs].
  - cbn. rewrite Em, lookup_insert_eq. do 2 f_equal. lia.
  - rewrite H3 by done. do 2 f_equal. lia.
Qed.
End state_theory.
