(* ===== verification/QueryTypes.v ===== *)
(** The messages of the query plugin (crates/rock-node-query-plugin) and the
    interfaces it is written against: [StateReader] of
    crates/rock-node-core/src/state_reader.rs, and the wire formats.

    The protobuf messages are generated from a submodule.  A message has the fields
    the handlers read or set; a sub-message they only pass on is a [pb].  Fields a
    handler leaves to [Default::default] are not represented. *)
From S2P Require Import Prelude Block.

(** ** Identifiers *)

(** [TokenId], [FileId], [TopicId], [ScheduleId]: shard, realm and number. *)
Record EntityId := MkEntityId { shard_num : Z; realm_num : Z; entity_num : Z }.
Abbreviation TokenId := EntityId (only parsing).
Abbreviation FileId := EntityId (only parsing).
Abbreviation TopicId := EntityId (only parsing).
Abbreviation ScheduleId := EntityId (only parsing).

(** [account_id::Account] and [contract_id::Contract]. *)
Inductive AccountIdType := AccountNum (num : Z) | Alias (alias : bytes).
Inductive ContractIdType := ContractNum (num : Z) | EvmAddress (address : bytes).

Record AccountId := MkAccountId {
  account_shard_num : Z; account_realm_num : Z; account : option AccountIdType }.
Record ContractId := MkContractId {
  contract_shard_num : Z; contract_realm_num : Z; contract : option ContractIdType }.
Record NftId := MkNftId { nft_token_id : option TokenId; serial_number : Z }.
Record TokenAssociation := MkTokenAssociation {
  assoc_token_id : option TokenId; assoc_account_id : option AccountId }.

(** [map_change_key::KeyChoice]: the variants the handlers build. *)
Inductive KeyChoice :=
| AccountIdKey (id : AccountId)
| FileIdKey (id : FileId)
| TopicIdKey (id : TopicId)
| ScheduleIdKey (id : ScheduleId)
| TokenIdKey (id : TokenId)
| NftIdKey (id : NftId)
| ContractIdKey (id : ContractId)
| TokenRelationshipKey (a : TokenAssociation).

(** [StateIdentifier]: the states the handlers read. *)
Inductive StateIdentifier :=
| StateIdAccounts | StateIdFiles | StateIdTopics | StateIdSchedulesById | StateIdTokens
| StateIdNfts | StateIdContractBytecode | StateIdTokenRelations | StateIdBlockStreamInfo.

(** [ResponseCodeEnum]: the codes the plugin answers with. *)
Inductive ResponseCodeEnum :=
| RcOk | InvalidAccountId | InvalidFileId | InvalidTopicId | InvalidScheduleId
| InvalidTokenId | InvalidNftId | InvalidContractId | ReceiptNotFound | RecordNotFound
| NotSupported.

#[export] Instance EntityId_eq_dec : EqDecision EntityId.
Proof. solve_decision. Defined.
#[export] Instance AccountIdType_eq_dec : EqDecision AccountIdType.
Proof. solve_decision. Defined.
#[export] Instance ContractIdType_eq_dec : EqDecision ContractIdType.
Proof. solve_decision. Defined.
#[export] Instance AccountId_eq_dec : EqDecision AccountId.
Proof. solve_decision. Defined.
#[export] Instance ContractId_eq_dec : EqDecision ContractId.
Proof. solve_decision. Defined.
#[export] Instance NftId_eq_dec : EqDecision NftId.
Proof. solve_decision. Defined.
#[export] Instance TokenAssociation_eq_dec : EqDecision TokenAssociation.
Proof. solve_decision. Defined.
#[export] Instance KeyChoice_eq_dec : EqDecision KeyChoice.
Proof. solve_decision. Defined.
#[export] Instance StateIdentifier_eq_dec : EqDecision StateIdentifier.
Proof. solve_decision. Defined.
#[export] Instance ResponseCodeEnum_eq_dec : EqDecision ResponseCodeEnum.
Proof. solve_decision. Defined.

(** ** The values of the state *)
Record Duration := MkDuration { duration_seconds : Z }.
Record Timestamp := MkTimestamp { timestamp_seconds : Z; nanos : Z }.

Inductive StakedId := StakedNodeId (node : Z) | StakedAccountId (acc : AccountId).

Record AccountCryptoAllowance := MkCryptoAllowance {
  ca_spender_id : option AccountId; ca_amount : Z }.
Record AccountApprovalForAllAllowance := MkApprovalForAll {
  aa_token_id : option TokenId; aa_spender_id : option AccountId }.
Record AccountFungibleTokenAllowance := MkTokenAllowance {
  ta_token_id : option TokenId; ta_spender_id : option AccountId; ta_amount : Z }.

Record Account := MkAccount {
  acc_account_id : option AccountId;
  acc_alias : bytes;
  acc_key : option pb;
  acc_expiration_second : Z;
  acc_tinybar_balance : Z;
  acc_memo : string;
  acc_deleted : bool;
  acc_staked_to_me : Z;
  acc_stake_period_start : Z;
  acc_staked_id : option StakedId;
  acc_decline_reward : bool;
  acc_receiver_sig_required : bool;
  acc_head_token_id : option TokenId;
  acc_number_owned_nfts : Z;
  acc_max_auto_associations : Z;
  acc_number_associations : Z;
  acc_smart_contract : bool;
  acc_ethereum_nonce : Z;
  acc_auto_renew_seconds : Z;
  acc_contract_kv_pairs_number : Z;
  acc_crypto_allowances : list AccountCryptoAllowance;
  acc_approve_for_all_nft_allowances : list AccountApprovalForAllAllowance;
  acc_token_allowances : list AccountFungibleTokenAllowance;
}.

Record File := MkFile {
  file_expiration_second : Z; file_keys : option pb; file_contents : bytes;
  file_memo : string; file_deleted : bool }.

Record Topic := MkTopic {
  topic_sequence_number : Z; topic_expiration_second : Z; topic_auto_renew_period : Z;
  topic_auto_renew_account_id : option AccountId; topic_running_hash : bytes;
  topic_memo : string; topic_admin_key : option pb; topic_submit_key : option pb;
  topic_fee_schedule_key : option pb; topic_fee_exempt_key_list : list pb;
  topic_custom_fees : list pb }.

Record Schedule := MkSchedule {
  sched_memo : string; sched_admin_key : option pb;
  sched_payer_account_id : option AccountId; sched_scheduler_account_id : option AccountId;
  sched_scheduled_transaction : option pb; sched_signatories : list pb;
  sched_wait_for_expiry : bool }.

Record Token := MkToken {
  tok_token_id : option TokenId;
  tok_name : string; tok_symbol : string; tok_decimals : Z; tok_total_supply : Z;
  tok_treasury_account_id : option AccountId;
  tok_admin_key : option pb; tok_kyc_key : option pb; tok_freeze_key : option pb;
  tok_wipe_key : option pb; tok_supply_key : option pb; tok_fee_schedule_key : option pb;
  tok_pause_key : option pb; tok_metadata_key : option pb;
  tok_deleted : bool; tok_paused : bool;
  tok_accounts_frozen_by_default : bool; tok_accounts_kyc_granted_by_default : bool;
  tok_auto_renew_account_id : option AccountId; tok_auto_renew_seconds : Z;
  tok_expiration_second : Z; tok_memo : string;
  tok_token_type : Z; tok_supply_type : Z; tok_max_supply : Z;
  tok_custom_fees : list pb; tok_metadata : bytes }.

Record Nft := MkNft {
  nft_id : option NftId; nft_owner_id : option AccountId; nft_spender_id : option AccountId;
  nft_mint_time : option Timestamp; nft_metadata : bytes }.

Record Bytecode := MkBytecode { code : bytes }.

Record TokenRelation := MkTokenRelation {
  rel_token_id : option TokenId; rel_balance : Z; rel_frozen : bool; rel_kyc_granted : bool;
  rel_automatic_association : bool; rel_next_token : option TokenId }.

(** [SemanticVersion] is passed on; [unwrap_or_default] needs its default. *)
Definition SemanticVersion_default : pb := Pb "SemanticVersion" [].
Record BlockStreamInfo := MkBlockStreamInfo { creation_software_version : option pb }.

(** [map_change_value::ValueChoice]: the variants the handlers know. *)
Inductive ValueChoice :=
| AccountValue (a : Account)
| FileValue (f : File)
| TopicValue (t : Topic)
| ScheduleValue (s : Schedule)
| TokenValue (t : Token)
| NftValue (n : Nft)
| BytecodeValue (b : Bytecode)
| TokenRelationValue (r : TokenRelation)
| OtherValue (m : pb).

(** ** Interfaces *)

(** [StateReader] of state_reader.rs. *)
Class StateReader (R : Type) := {
  reader_get_state_value : R → bytes → Result Error (option bytes);
}.

(** The generated code: numbers of the enums, the message around a key, and the
    decoders.  [value_choice] is what a [MapChangeValue] message holds. *)
Class QueryCodec := {
  state_identifier_u32 : StateIdentifier → Z;
  response_code_i32 : ResponseCodeEnum → Z;
  map_change_key : KeyChoice → pb;
  value_choice : pb → option ValueChoice;
  stream_info : pb → option BlockStreamInfo;
  decode_map_change_value : bytes → Result Error (option ValueChoice);
  decode_block_stream_info : bytes → Result Error BlockStreamInfo;
}.

Definition is_u32 (x : Z) : Prop := 0 ≤ x < 4294967296.

(** Integers of the key are in the range of their Rust types. *)
Definition wf_entity (id : EntityId) : Prop :=
  is_i64 (shard_num id) ∧ is_i64 (realm_num id) ∧ is_i64 (entity_num id).
Definition wf_account_id (id : AccountId) : Prop :=
  is_i64 (account_shard_num id) ∧ is_i64 (account_realm_num id) ∧
  match account id with Some (AccountNum n) => is_i64 n | _ => True end.
Definition wf_contract_id (id : ContractId) : Prop :=
  is_i64 (contract_shard_num id) ∧ is_i64 (contract_realm_num id) ∧
  match contract id with Some (ContractNum n) => is_i64 n | _ => True end.
Definition wf_key (k : KeyChoice) : Prop :=
  match k with
  | AccountIdKey id => wf_account_id id
  | FileIdKey id | TopicIdKey id | ScheduleIdKey id | TokenIdKey id => wf_entity id
  | NftIdKey id =>
      is_i64 (serial_number id) ∧ ∀ t, nft_token_id id = Some t → wf_entity t
  | ContractIdKey id => wf_contract_id id
  | TokenRelationshipKey a =>
      (∀ t, assoc_token_id a = Some t → wf_entity t) ∧
      (∀ i, assoc_account_id a = Some i → wf_account_id i)
  end.

(** Documented behaviour: the enum numbers are distinct, messages can be told apart
    by their encoding, and decoding inverts it. *)
Class QueryCodecLaws `{CODEC : Codec, QC : !QueryCodec} : Prop := {
  state_identifier_range : ∀ s, is_u32 (state_identifier_u32 s);
  state_identifier_inj : ∀ s s', state_identifier_u32 s = state_identifier_u32 s' → s = s';
  response_code_inj : ∀ c c', response_code_i32 c = response_code_i32 c' → c = c';
  map_change_key_inj : ∀ k k', wf_key k → wf_key k' →
    encode_msg (map_change_key k) = encode_msg (map_change_key k') → k = k';
  map_change_key_nonempty : ∀ k, encode_msg (map_change_key k) ≠ [];
  decode_value : ∀ m v, value_choice m = Some v →
    decode_map_change_value (encode_msg m) = Ok (Some v);
  decode_stream_info : ∀ m i, stream_info m = Some i →
    decode_block_stream_info (encode_msg m) = Ok i;
}.
