(* ===== verification/QueryHandlers.v ===== *)
(** The query handlers: crates/rock-node-query-plugin/src/handlers.

    Every handler builds the key of an entity, asks the state reader and turns the
    stored value into a response.  The lookup they all repeat is [query_state]. *)
From stdpp Require Import pretty.
From Stdlib Require Import Ascii Strings.Byte.
From S2P Require Import Prelude Block StatePlugin QueryTypes.

(** [tonic::Status]; [Panicked] is an [unwrap] of [None]. *)
Inductive Status :=
| InvalidArgument (msg : string)
| Unimplemented (msg : string)
| Internal (msg : string) (cause : option Error)
| Panicked.

(** [Option::unwrap] *)
Definition unwrap {A} (o : option A) : Result Status A := ok_or o Panicked.

(** [map_err(|e| Status::internal(format!("...: {}", e)))] *)
Definition or_internal {A} (msg : string) (r : Result Error A) : Result Status A :=
  match r with Ok a => Ok a | Err e => Err (Internal msg (Some e)) end.

(** [hex::encode]: two lower-case digits per byte. *)
Definition hex_digit (n : N) : ascii :=
  Ascii.ascii_of_N (if (n <? 10)%N then 48 + n else 87 + n)%N.
Fixpoint hex_encode (l : bytes) : string :=
  match l with
  | [] => ""
  | b :: l =>
      let n := Byte.to_N b in
      String (hex_digit (n / 16)) (String (hex_digit (n mod 16)) (hex_encode l))
  end.

(** [as u32] *)
Definition as_u32 (x : Z) : Z := x mod 4294967296.

(** ** Responses *)
Record ResponseHeader := MkResponseHeader {
  node_transaction_precheck_code : Z; header_cost : Z }.

Record StakingInfo := MkStakingInfo {
  si_staked_to_me : Z; si_stake_period_start : option Timestamp; si_decline_reward : bool;
  si_pending_reward : Z; si_staked_id : option StakedId }.

Record AccountInfo := MkAccountInfo {
  ai_account_id : option AccountId; ai_contract_account_id : string; ai_memo : string;
  ai_key : option pb; ai_balance : Z; ai_receiver_sig_required : bool; ai_deleted : bool;
  ai_auto_renew_period : option Duration; ai_expiration_time : option Timestamp;
  ai_staking_info : option StakingInfo; ai_ethereum_nonce : Z; ai_owned_nfts : Z;
  ai_max_automatic_token_associations : Z; ai_alias : bytes }.

Record CryptoGetInfoResponse := MkCryptoGetInfoResponse {
  cgi_header : option ResponseHeader; cgi_account_info : option AccountInfo }.

Record CryptoGetAccountBalanceResponse := MkBalanceResponse {
  bal_header : option ResponseHeader; bal_account_id : option AccountId; bal_balance : Z;
  bal_token_balances : list pb }.

Record CryptoGetAccountRecordsResponse := MkRecordsResponse {
  recs_header : option ResponseHeader; recs_account_id : option AccountId;
  recs_records : list pb }.

Record TransactionGetReceiptResponse := MkReceiptResponse {
  rcpt_header : option ResponseHeader; rcpt_receipt : option pb;
  rcpt_duplicates : list pb; rcpt_children : list pb }.

Record TransactionRecord := MkTransactionRecord {
  tr_receipt : option pb; tr_transaction_hash : bytes; tr_consensus_timestamp : option pb;
  tr_transaction_id : option pb; tr_memo : string; tr_transaction_fee : Z;
  tr_body : option pb; tr_transfer_list : option pb; tr_token_transfer_lists : list pb;
  tr_schedule_ref : option pb; tr_assessed_custom_fees : list pb;
  tr_automatic_token_associations : list pb; tr_parent_consensus_timestamp : option pb;
  tr_alias : bytes; tr_ethereum_hash : bytes; tr_paid_staking_rewards : list pb;
  tr_entropy : option pb; tr_evm_address : bytes; tr_new_pending_airdrops : list pb }.

Record TransactionGetRecordResponse := MkRecordResponse {
  rec_header : option ResponseHeader; rec_transaction_record : option TransactionRecord;
  rec_duplicates : list pb; rec_children : list pb }.

Record FileInfo := MkFileInfo {
  fi_file_id : option FileId; fi_size : Z; fi_expiration_time : option Timestamp;
  fi_deleted : bool; fi_keys : option pb; fi_memo : string; fi_ledger_id : bytes }.
Record FileGetInfoResponse := MkFileInfoResponse {
  fgi_header : option ResponseHeader; fgi_file_info : option FileInfo }.
Record FileContents := MkFileContents { fc_file_id : option FileId; fc_contents : bytes }.
Record FileGetContentsResponse := MkFileContentsResponse {
  fgc_header : option ResponseHeader; fgc_file_contents : option FileContents }.

Record ConsensusTopicInfo := MkTopicInfo {
  ti_memo : string; ti_running_hash : bytes; ti_sequence_number : Z;
  ti_expiration_time : option Timestamp; ti_admin_key : option pb; ti_submit_key : option pb;
  ti_auto_renew_period : option Duration; ti_auto_renew_account : option AccountId;
  ti_ledger_id : bytes; ti_fee_schedule_key : option pb; ti_fee_exempt_key_list : list pb;
  ti_custom_fees : list pb }.
Record ConsensusGetTopicInfoResponse := MkTopicInfoResponse {
  cti_header : option ResponseHeader; cti_topic_id : option TopicId;
  cti_topic_info : option ConsensusTopicInfo }.

Record ScheduleInfo := MkScheduleInfo {
  sc_schedule_id : option ScheduleId; sc_memo : string; sc_admin_key : option pb;
  sc_payer_account_id : option AccountId; sc_scheduled_transaction_body : option pb;
  sc_signers : option (list pb); sc_creator_account_id : option AccountId;
  sc_wait_for_expiry : bool }.
Record ScheduleGetInfoResponse := MkScheduleInfoResponse {
  sgi_header : option ResponseHeader; sgi_schedule_info : option ScheduleInfo }.

Record TokenInfo := MkTokenInfo {
  tki_token_id : option TokenId; tki_name : string; tki_symbol : string; tki_decimals : Z;
  tki_total_supply : Z; tki_treasury : option AccountId;
  tki_admin_key : option pb; tki_kyc_key : option pb; tki_freeze_key : option pb;
  tki_wipe_key : option pb; tki_supply_key : option pb;
  tki_default_freeze_status : Z; tki_default_kyc_status : Z; tki_deleted : bool;
  tki_auto_renew_account : option AccountId; tki_auto_renew_period : option Duration;
  tki_expiry : option Timestamp; tki_memo : string; tki_token_type : Z; tki_supply_type : Z;
  tki_max_supply : Z; tki_fee_schedule_key : option pb; tki_custom_fees : list pb;
  tki_pause_key : option pb; tki_pause_status : Z; tki_ledger_id : bytes;
  tki_metadata : bytes; tki_metadata_key : option pb }.
Record TokenGetInfoResponse := MkTokenInfoResponse {
  tgi_header : option ResponseHeader; tgi_token_info : option TokenInfo }.

Record TokenNftInfo := MkTokenNftInfo {
  ni_nft_id : option NftId; ni_account_id : option AccountId;
  ni_creation_time : option Timestamp; ni_metadata : bytes; ni_ledger_id : bytes;
  ni_spender_id : option AccountId }.
Record TokenGetNftInfoResponse := MkNftInfoResponse {
  tgn_header : option ResponseHeader; tgn_nft : option TokenNftInfo }.

Record ContractInfo := MkContractInfo {
  ci_contract_id : option ContractId; ci_account_id : option AccountId;
  ci_contract_account_id : string; ci_admin_key : option pb;
  ci_expiration_time : option Timestamp; ci_auto_renew_period : option Duration;
  ci_storage : Z; ci_memo : string; ci_balance : Z; ci_deleted : bool }.
Record ContractGetInfoResponse := MkContractInfoResponse {
  kgi_header : option ResponseHeader; kgi_contract_info : option ContractInfo }.
Record ContractGetBytecodeResponse := MkBytecodeResponse {
  kgb_header : option ResponseHeader; kgb_bytecode : bytes }.

Record NetworkGetVersionInfoResponse := MkVersionInfoResponse {
  nvi_header : option ResponseHeader; nvi_hapi_proto_version : option pb;
  nvi_hedera_services_version : option pb }.

Record TokenRelationship := MkTokenRelationship {
  rs_token_id : option TokenId; rs_balance : Z; rs_kyc_status : Z; rs_freeze_status : Z;
  rs_decimals : Z; rs_automatic_association : bool }.
Record GrantedCryptoAllowance := MkGrantedCrypto {
  gc_spender : option AccountId; gc_amount : Z }.
Record GrantedNftAllowance := MkGrantedNft {
  gn_token_id : option TokenId; gn_spender : option AccountId }.
Record GrantedTokenAllowance := MkGrantedToken {
  gt_token_id : option TokenId; gt_spender : option AccountId; gt_amount : Z }.
Record AccountDetails := MkAccountDetails {
  ad_account_id : option AccountId; ad_contract_account_id : string; ad_deleted : bool;
  ad_proxy_received : Z; ad_key : option pb; ad_balance : Z; ad_receiver_sig_required : bool;
  ad_expiration_time : option Timestamp; ad_auto_renew_period : option Duration;
  ad_token_relationships : list TokenRelationship; ad_memo : string; ad_owned_nfts : Z;
  ad_max_automatic_token_associations : Z; ad_alias : bytes; ad_ledger_id : bytes;
  ad_granted_crypto_allowances : list GrantedCryptoAllowance;
  ad_granted_nft_allowances : list GrantedNftAllowance;
  ad_granted_token_allowances : list GrantedTokenAllowance }.
Record GetAccountDetailsResponse := MkAccountDetailsResponse {
  gad_header : option ResponseHeader; gad_account_details : option AccountDetails }.

(** ** Queries *)
Inductive BalanceSource := BsAccountId (id : AccountId) | BsContractId (id : ContractId).

Record CryptoGetInfoQuery := MkCryptoGetInfoQuery { cgi_q_account_id : option AccountId }.
Record CryptoGetAccountBalanceQuery := MkBalanceQuery { balance_source : option BalanceSource }.
Record CryptoGetAccountRecordsQuery := MkRecordsQuery { recs_q_account_id : option AccountId }.
Record TransactionGetReceiptQuery := MkReceiptQuery { rcpt_q_transaction_id : option pb }.
Record TransactionGetRecordQuery := MkRecordQuery { rec_q_transaction_id : option pb }.
Record FileGetInfoQuery := MkFileInfoQuery { fgi_q_file_id : option FileId }.
Record FileGetContentsQuery := MkFileContentsQuery { fgc_q_file_id : option FileId }.
Record ConsensusGetTopicInfoQuery := MkTopicInfoQuery { cti_q_topic_id : option TopicId }.
Record ScheduleGetInfoQuery := MkScheduleInfoQuery { sgi_q_schedule_id : option ScheduleId }.
Record TokenGetInfoQuery := MkTokenInfoQuery { tgi_q_token : option TokenId }.
Record TokenGetNftInfoQuery := MkNftInfoQuery { tgn_q_nft_id : option NftId }.
Record ContractGetInfoQuery := MkContractInfoQuery { kgi_q_contract_id : option ContractId }.
Record ContractGetBytecodeQuery := MkBytecodeQuery { kgb_q_contract_id : option ContractId }.
Record NetworkGetVersionInfoQuery := MkVersionInfoQuery {}.
Record GetAccountDetailsQuery := MkAccountDetailsQuery { gad_q_account_id : option AccountId }.

Section handlers.
Context {CODEC : Codec} {QC : QueryCodec} {R : Type} {READER : StateReader R}.
Implicit Types (state_reader : R).

Definition build_response_header (c : ResponseCodeEnum) (cost : Z) : ResponseHeader :=
  MkResponseHeader (response_code_i32 c) cost.

(** [[state_id.to_be_bytes(), map_key.encode_to_vec()].concat()] *)
Definition db_key (state : StateIdentifier) (key : KeyChoice) : bytes :=
  state_prefix (state_identifier_u32 state) ++ encode_msg (map_change_key key).

(** Reads and decodes the value under a key; the inner option is the oneof. *)
Definition query_state state_reader (state : StateIdentifier) (key : KeyChoice)
    : Result Status (option (option ValueChoice)) :=
  value_bytes ← or_internal "Failed to query state"
                  (reader_get_state_value state_reader (db_key state key));
  match value_bytes with
  | Some bytes =>
      v ← or_internal "Failed to decode MapChangeValue" (decode_map_change_value bytes);
      Ok (Some v)
  | None => Ok None
  end.

(** ** crypto_handler.rs *)
Definition contract_account_id_of (account : Account) : Result Status string :=
  if acc_smart_contract account then
    match acc_alias account with
    | [] =>
        id ← unwrap (acc_account_id account);
        match QueryTypes.account id with
        | Some (AccountNum num) => Ok ("0.0." +:+ pretty num)
        | _ => Ok ""
        end
    | alias => Ok (hex_encode alias)
    end
  else Ok "".

Definition positive_timestamp (seconds : Z) : option Timestamp :=
  if 0 <? seconds then Some (MkTimestamp seconds 0) else None.

Definition account_info_of (account : Account) : Result Status AccountInfo :=
  id ← unwrap (acc_account_id account);
  contract_account_id ← contract_account_id_of account;
  Ok {| ai_account_id := Some id;
        ai_contract_account_id := contract_account_id;
        ai_memo := acc_memo account;
        ai_key := acc_key account;
        ai_balance := as_u64 (acc_tinybar_balance account);
        ai_receiver_sig_required := acc_receiver_sig_required account;
        ai_deleted := acc_deleted account;
        ai_auto_renew_period :=
          if 0 <? acc_auto_renew_seconds account
          then Some (MkDuration (acc_auto_renew_seconds account)) else None;
        ai_expiration_time := positive_timestamp (acc_expiration_second account);
        ai_staking_info := Some {|
          si_staked_to_me := acc_staked_to_me account;
          si_stake_period_start := positive_timestamp (acc_stake_period_start account);
          si_decline_reward := acc_decline_reward account;
          si_pending_reward := 0;
          si_staked_id := acc_staked_id account |};
        ai_ethereum_nonce := acc_ethereum_nonce account;
        ai_owned_nfts := acc_number_owned_nfts account;
        ai_max_automatic_token_associations := acc_max_auto_associations account;
        ai_alias := acc_alias account |}.

Definition get_account_info state_reader (query : CryptoGetInfoQuery)
    : Result Status CryptoGetInfoResponse :=
  account_id ← ok_or (cgi_q_account_id query)
                 (InvalidArgument "Missing account_id in CryptoGetInfoQuery");
  o ← query_state state_reader StateIdAccounts (AccountIdKey account_id);
  match o with
  | Some (Some (AccountValue account)) =>
      account_info ← account_info_of account;
      Ok (MkCryptoGetInfoResponse (Some (build_response_header RcOk 0)) (Some account_info))
  | Some _ => Err (Internal "State inconsistency: Expected Account value, found other type" None)
  | None =>
      Ok (MkCryptoGetInfoResponse (Some (build_response_header InvalidAccountId 0)) None)
  end.

Definition get_account_balance state_reader (query : CryptoGetAccountBalanceQuery)
    : Result Status CryptoGetAccountBalanceResponse :=
  source ← ok_or (balance_source query)
             (InvalidArgument "Missing balance_source in CryptoGetAccountBalanceQuery");
  account_id ← match source with
               | BsAccountId id => Ok id
               | BsContractId _ => Err (Unimplemented "Contract balance query not supported")
               end;
  o ← query_state state_reader StateIdAccounts (AccountIdKey account_id);
  match o with
  | Some (Some (AccountValue account)) =>
      Ok {| bal_header := Some (build_response_header RcOk 0);
            bal_account_id := Some account_id;
            bal_balance := as_u64 (acc_tinybar_balance account);
            bal_token_balances := [] |}
  | Some _ => Err (Internal "State inconsistency: Expected Account value, found other type" None)
  | None =>
      Ok {| bal_header := Some (build_response_header InvalidAccountId 0);
            bal_account_id := Some account_id;
            bal_balance := 0;
            bal_token_balances := [] |}
  end.

Definition get_account_records state_reader (query : CryptoGetAccountRecordsQuery)
    : Result Status CryptoGetAccountRecordsResponse :=
  account_id ← ok_or (recs_q_account_id query)
                 (InvalidArgument "Missing account_id in CryptoGetAccountRecordsQuery");
  Ok (MkRecordsResponse (Some (build_response_header RcOk 0)) (Some account_id) []).

Definition get_transaction_receipt state_reader (query : TransactionGetReceiptQuery)
    : Result Status TransactionGetReceiptResponse :=
  Ok (MkReceiptResponse (Some (build_response_header ReceiptNotFound 0)) None [] []).

Definition get_transaction_record state_reader (query : TransactionGetRecordQuery)
    : Result Status TransactionGetRecordResponse :=
  transaction_id ← ok_or (rec_q_transaction_id query)
                     (InvalidArgument "Missing transaction_id in TransactionGetRecordQuery");
  Ok {| rec_header := Some (build_response_header RecordNotFound 0);
        rec_transaction_record := Some {|
          tr_receipt := None; tr_transaction_hash := []; tr_consensus_timestamp := None;
          tr_transaction_id := Some transaction_id; tr_memo := ""; tr_transaction_fee := 0;
          tr_body := None; tr_transfer_list := None; tr_token_transfer_lists := [];
          tr_schedule_ref := None; tr_assessed_custom_fees := [];
          tr_automatic_token_associations := []; tr_parent_consensus_timestamp := None;
          tr_alias := []; tr_ethereum_hash := []; tr_paid_staking_rewards := [];
          tr_entropy := None; tr_evm_address := []; tr_new_pending_airdrops := [] |};
        rec_duplicates := [];
        rec_children := [] |}.

(** ** file_handler.rs *)
Definition get_file_info state_reader (query : FileGetInfoQuery)
    : Result Status FileGetInfoResponse :=
  file_id ← ok_or (fgi_q_file_id query)
              (InvalidArgument "Missing file_id in FileGetInfoQuery");
  o ← query_state state_reader StateIdFiles (FileIdKey file_id);
  match o with
  | Some (Some (FileValue file)) =>
      Ok {| fgi_header := Some (build_response_header RcOk 0);
            fgi_file_info := Some {|
              fi_file_id := Some file_id;
              fi_size := as_i64 (Z.of_nat (length (file_contents file)));
              fi_expiration_time := positive_timestamp (file_expiration_second file);
              fi_deleted := file_deleted file;
              fi_keys := file_keys file;
              fi_memo := file_memo file;
              fi_ledger_id := [] |} |}
  | Some _ => Err (Internal "State inconsistency: Expected File value, found other type" None)
  | None => Ok (MkFileInfoResponse (Some (build_response_header InvalidFileId 0)) None)
  end.

Definition get_file_content state_reader (query : FileGetContentsQuery)
    : Result Status FileGetContentsResponse :=
  file_id ← ok_or (fgc_q_file_id query)
              (InvalidArgument "Missing file_id in FileGetContentsQuery");
  o ← query_state state_reader StateIdFiles (FileIdKey file_id);
  match o with
  | Some (Some (FileValue file)) =>
      Ok (MkFileContentsResponse (Some (build_response_header RcOk 0))
            (Some (MkFileContents (Some file_id) (file_contents file))))
  | Some _ => Err (Internal "State inconsistency: Expected File value, found other type" None)
  | None => Ok (MkFileContentsResponse (Some (build_response_header InvalidFileId 0)) None)
  end.

(** ** consensus_handler.rs *)
Definition get_topic_info state_reader (query : ConsensusGetTopicInfoQuery)
    : Result Status ConsensusGetTopicInfoResponse :=
  topic_id ← ok_or (cti_q_topic_id query)
               (InvalidArgument "Missing topic_id in ConsensusGetTopicInfoQuery");
  o ← query_state state_reader StateIdTopics (TopicIdKey topic_id);
  match o with
  | Some (Some (TopicValue topic)) =>
      Ok {| cti_header := Some (build_response_header RcOk 0);
            cti_topic_id := Some topic_id;
            cti_topic_info := Some {|
              ti_memo := topic_memo topic;
              ti_running_hash := topic_running_hash topic;
              ti_sequence_number := as_u64 (topic_sequence_number topic);
              ti_expiration_time := Some (MkTimestamp (topic_expiration_second topic) 0);
              ti_admin_key := topic_admin_key topic;
              ti_submit_key := topic_submit_key topic;
              ti_auto_renew_period := Some (MkDuration (topic_auto_renew_period topic));
              ti_auto_renew_account := topic_auto_renew_account_id topic;
              ti_ledger_id := [];
              ti_fee_schedule_key := topic_fee_schedule_key topic;
              ti_fee_exempt_key_list := topic_fee_exempt_key_list topic;
              ti_custom_fees := topic_custom_fees topic |} |}
  | Some _ => Err (Internal "State inconsistency: Expected Topic value, found other type" None)
  | None =>
      Ok (MkTopicInfoResponse (Some (build_response_header InvalidTopicId 0))
            (Some topic_id) None)
  end.

(** ** schedule_handler.rs *)
Definition get_schedule_info state_reader (query : ScheduleGetInfoQuery)
    : Result Status ScheduleGetInfoResponse :=
  schedule_id ← ok_or (sgi_q_schedule_id query)
                  (InvalidArgument "Missing schedule_id in ScheduleGetInfoQuery");
  o ← query_state state_reader StateIdSchedulesById (ScheduleIdKey schedule_id);
  match o with
  | Some (Some (ScheduleValue schedule)) =>
      Ok {| sgi_header := Some (build_response_header RcOk 0);
            sgi_schedule_info := Some {|
              sc_schedule_id := Some schedule_id;
              sc_memo := sched_memo schedule;
              sc_admin_key := sched_admin_key schedule;
              sc_payer_account_id := sched_payer_account_id schedule;
              sc_scheduled_transaction_body := sched_scheduled_transaction schedule;
              sc_signers := Some (sched_signatories schedule);
              sc_creator_account_id := sched_scheduler_account_id schedule;
              sc_wait_for_expiry := sched_wait_for_expiry schedule |} |}
  | Some _ =>
      Err (Internal "State inconsistency: Expected Schedule value, found other type" None)
  | None => Ok (MkScheduleInfoResponse (Some (build_response_header InvalidScheduleId 0)) None)
  end.

(** ** token_handler.rs *)
Definition flag_status (b : bool) : Z := if b then 1 else 2.

Definition token_info_of (token : Token) : Result Status TokenInfo :=
  token_id ← unwrap (tok_token_id token);
  Ok {| tki_token_id := Some token_id;
        tki_name := tok_name token;
        tki_symbol := tok_symbol token;
        tki_decimals := as_u32 (tok_decimals token);
        tki_total_supply := as_u64 (tok_total_supply token);
        tki_treasury := tok_treasury_account_id token;
        tki_admin_key := tok_admin_key token;
        tki_kyc_key := tok_kyc_key token;
        tki_freeze_key := tok_freeze_key token;
        tki_wipe_key := tok_wipe_key token;
        tki_supply_key := tok_supply_key token;
        tki_default_freeze_status := flag_status (tok_accounts_frozen_by_default token);
        tki_default_kyc_status := flag_status (tok_accounts_kyc_granted_by_default token);
        tki_deleted := tok_deleted token;
        tki_auto_renew_account := tok_auto_renew_account_id token;
        tki_auto_renew_period := Some (MkDuration (tok_auto_renew_seconds token));
        tki_expiry := Some (MkTimestamp (tok_expiration_second token) 0);
        tki_memo := tok_memo token;
        tki_token_type := tok_token_type token;
        tki_supply_type := tok_supply_type token;
        tki_max_supply := tok_max_supply token;
        tki_fee_schedule_key := tok_fee_schedule_key token;
        tki_custom_fees := tok_custom_fees token;
        tki_pause_key := tok_pause_key token;
        tki_pause_status := flag_status (tok_paused token);
        tki_ledger_id := [];
        tki_metadata := tok_metadata token;
        tki_metadata_key := tok_metadata_key token |}.

Definition get_token_info state_reader (query : TokenGetInfoQuery)
    : Result Status TokenGetInfoResponse :=
  token_id ← ok_or (tgi_q_token query)
               (InvalidArgument "Missing token_id in TokenGetInfoQuery");
  o ← query_state state_reader StateIdTokens (TokenIdKey token_id);
  match o with
  | Some (Some (TokenValue token)) =>
      token_info ← token_info_of token;
      Ok (MkTokenInfoResponse (Some (build_response_header RcOk 0)) (Some token_info))
  | Some _ => Err (Internal "State inconsistency: Expected Token value, found other type" None)
  | None => Ok (MkTokenInfoResponse (Some (build_response_header InvalidTokenId 0)) None)
  end.

Definition get_token_nft_info state_reader (query : TokenGetNftInfoQuery)
    : Result Status TokenGetNftInfoResponse :=
  id ← ok_or (tgn_q_nft_id query)
         (InvalidArgument "Missing nft_id in TokenGetNftInfoQuery");
  o ← query_state state_reader StateIdNfts (NftIdKey id);
  match o with
  | Some (Some (NftValue nft)) =>
      Ok {| tgn_header := Some (build_response_header RcOk 0);
            tgn_nft := Some {|
              ni_nft_id := nft_id nft;
              ni_account_id := nft_owner_id nft;
              ni_creation_time := nft_mint_time nft;
              ni_metadata := nft_metadata nft;
              ni_ledger_id := [];
              ni_spender_id := nft_spender_id nft |} |}
  | Some _ => Err (Internal "State inconsistency: Expected Nft value, found other type" None)
  | None => Ok (MkNftInfoResponse (Some (build_response_header InvalidNftId 0)) None)
  end.

(** ** contract_handler.rs *)

(** Contracts are accounts; only contract numbers are supported. *)
Definition contract_account (contract_id : ContractId) : Result Status AccountId :=
  match contract contract_id with
  | Some (ContractNum num) =>
      Ok (MkAccountId (contract_shard_num contract_id) (contract_realm_num contract_id)
            (Some (AccountNum num)))
  | _ => Err (InvalidArgument "EVM address not supported yet")
  end.

Definition get_contract_info state_reader (query : ContractGetInfoQuery)
    : Result Status ContractGetInfoResponse :=
  contract_id ← ok_or (kgi_q_contract_id query)
                  (InvalidArgument "Missing contract_id in ContractGetInfoQuery");
  account_id ← contract_account contract_id;
  o ← query_state state_reader StateIdAccounts (AccountIdKey account_id);
  match o with
  | Some (Some (AccountValue account)) =>
      if negb (acc_smart_contract account) then
        Ok (MkContractInfoResponse (Some (build_response_header InvalidContractId 0)) None)
      else
        Ok {| kgi_header := Some (build_response_header RcOk 0);
              kgi_contract_info := Some {|
                ci_contract_id := Some contract_id;
                ci_account_id := acc_account_id account;
                ci_contract_account_id := hex_encode (acc_alias account);
                ci_admin_key := acc_key account;
                ci_expiration_time := Some (MkTimestamp (acc_expiration_second account) 0);
                ci_auto_renew_period := Some (MkDuration (acc_auto_renew_seconds account));
                ci_storage := acc_contract_kv_pairs_number account;
                ci_memo := acc_memo account;
                ci_balance := as_u64 (acc_tinybar_balance account);
                ci_deleted := acc_deleted account |} |}
  | Some _ =>
      Err (Internal "State inconsistency: Expected Account value for contract, found other type"
             None)
  | None => Ok (MkContractInfoResponse (Some (build_response_header InvalidContractId 0)) None)
  end.

Definition get_contract_bytecode state_reader (query : ContractGetBytecodeQuery)
    : Result Status ContractGetBytecodeResponse :=
  contract_id ← ok_or (kgb_q_contract_id query)
                  (InvalidArgument "Missing contract_id in ContractGetBytecodeQuery");
  o ← query_state state_reader StateIdContractBytecode (ContractIdKey contract_id);
  match o with
  | Some (Some (BytecodeValue bytecode)) =>
      Ok (MkBytecodeResponse (Some (build_response_header RcOk 0)) (code bytecode))
  | Some _ =>
      Err (Internal "State inconsistency: Expected Bytecode value, found other type" None)
  | None => Ok (MkBytecodeResponse (Some (build_response_header InvalidContractId 0)) [])
  end.

(** ** network_handler.rs *)
Definition get_version_info state_reader (_ : NetworkGetVersionInfoQuery)
    : Result Status NetworkGetVersionInfoResponse :=
  o ← or_internal "Failed to query state"
        (reader_get_state_value state_reader
           (state_prefix (state_identifier_u32 StateIdBlockStreamInfo)));
  '(hapi, services) ←
    match o with
    | Some bytes =>
        info ← or_internal "Failed to decode BlockStreamInfo" (decode_block_stream_info bytes);
        let software_version := default SemanticVersion_default (creation_software_version info) in
        Ok (Some software_version, Some software_version)
    | None => Ok (None, None)
    end;
  Ok (MkVersionInfoResponse (Some (build_response_header RcOk 0)) hapi services).

Definition relationship_of (r : TokenRelation) : TokenRelationship := {|
  rs_token_id := rel_token_id r;
  rs_balance := as_u64 (rel_balance r);
  rs_kyc_status := flag_status (rel_kyc_granted r);
  rs_freeze_status := flag_status (rel_frozen r);
  rs_decimals := 0;
  rs_automatic_association := rel_automatic_association r |}.

(** [for _ in 0..account.number_associations]: [k] turns are left. *)
Fixpoint relationships_from state_reader (account : Account) (current_token_id : option TokenId)
    (k : nat) (relationships : list TokenRelationship)
    : Result Status (list TokenRelationship) :=
  match k with
  | O => Ok relationships
  | S k =>
      match current_token_id with
      | None => Ok relationships
      | Some _ =>
          o ← query_state state_reader StateIdTokenRelations
                (TokenRelationshipKey
                   (MkTokenAssociation current_token_id (acc_account_id account)));
          match o with
          | None => Err (Internal "Token relationship not found in state" None)
          | Some (Some (TokenRelationValue r)) =>
              relationships_from state_reader account (rel_next_token r) k
                (relationships ++ [relationship_of r])
          | Some _ =>
              Err (Internal
                "State inconsistency: Expected TokenRelation value, found other type" None)
          end
      end
  end.

Definition get_token_relationships state_reader (account : Account)
    : Result Status (list TokenRelationship) :=
  relationships_from state_reader account (acc_head_token_id account)
    (Z.to_nat (acc_number_associations account)) [].

Definition account_details_of (account : Account) (rels : list TokenRelationship)
    : Result Status AccountDetails :=
  id ← unwrap (acc_account_id account);
  Ok {| ad_account_id := Some id;
        ad_contract_account_id :=
          if acc_smart_contract account then hex_encode (acc_alias account) else "";
        ad_deleted := acc_deleted account;
        ad_proxy_received := acc_staked_to_me account;
        ad_key := acc_key account;
        ad_balance := as_u64 (acc_tinybar_balance account);
        ad_receiver_sig_required := acc_receiver_sig_required account;
        ad_expiration_time := Some (MkTimestamp (acc_expiration_second account) 0);
        ad_auto_renew_period := Some (MkDuration (acc_auto_renew_seconds account));
        ad_token_relationships := rels;
        ad_memo := acc_memo account;
        ad_owned_nfts := acc_number_owned_nfts account;
        ad_max_automatic_token_associations := acc_max_auto_associations account;
        ad_alias := acc_alias account;
        ad_ledger_id := [];
        ad_granted_crypto_allowances :=
          (λ a, MkGrantedCrypto (ca_spender_id a) (ca_amount a))
            <$> acc_crypto_allowances account;
        ad_granted_nft_allowances :=
          (λ a, MkGrantedNft (aa_token_id a) (aa_spender_id a))
            <$> acc_approve_for_all_nft_allowances account;
        ad_granted_token_allowances :=
          (λ a, MkGrantedToken (ta_token_id a) (ta_spender_id a) (ta_amount a))
            <$> acc_token_allowances account |}.

Definition get_account_details state_reader (query : GetAccountDetailsQuery)
    : Result Status GetAccountDetailsResponse :=
  account_id ← ok_or (gad_q_account_id query)
                 (InvalidArgument "Missing account_id in GetAccountDetailsQuery");
  o ← query_state state_reader StateIdAccounts (AccountIdKey account_id);
  match o with
  | Some (Some (AccountValue account)) =>
      token_relationships ← get_token_relationships state_reader account;
      account_details ← account_details_of account token_relationships;
      Ok (MkAccountDetailsResponse (Some (build_response_header RcOk 0))
            (Some account_details))
  | Some _ => Err (Internal "State inconsistency: Expected Account value, found other type" None)
  | None =>
      Ok (MkAccountDetailsResponse (Some (build_response_header InvalidAccountId 0)) None)
  end.
End handlers.
