(* ===== verification/QueryServices.v ===== *)
(** The gRPC services of the query plugin:
    crates/rock-node-query-plugin/src/services.

    A query method accepts one variant of the top-level [Query], passes it to its
    handler and wraps the answer in the same variant of the top-level [Response];
    a transaction method answers that it is not supported. *)
From S2P Require Import Prelude Block QueryTypes QueryHandlers.

(** What a query or a response is about. *)
Inductive QueryKind :=
| KCryptoGetInfo
| KCryptoGetAccountRecords
| KCryptogetAccountBalance
| KTransactionGetReceipt
| KTransactionGetRecord
| KFileGetContents
| KFileGetInfo
| KConsensusGetTopicInfo
| KScheduleGetInfo
| KTokenGetInfo
| KTokenGetNftInfo
| KContractGetInfo
| KContractGetBytecode
| KNetworkGetVersionInfo
| KAccountDetailsQ.

#[export] Instance QueryKind_eq_dec : EqDecision QueryKind.
Proof. solve_decision. Defined.

(** [query::Query], and the variants the plugin does not know. *)
Inductive Query :=
| CryptoGetInfo (q : CryptoGetInfoQuery)
| CryptoGetAccountRecords (q : CryptoGetAccountRecordsQuery)
| CryptogetAccountBalance (q : CryptoGetAccountBalanceQuery)
| TransactionGetReceipt (q : TransactionGetReceiptQuery)
| TransactionGetRecord (q : TransactionGetRecordQuery)
| FileGetContents (q : FileGetContentsQuery)
| FileGetInfo (q : FileGetInfoQuery)
| ConsensusGetTopicInfo (q : ConsensusGetTopicInfoQuery)
| ScheduleGetInfo (q : ScheduleGetInfoQuery)
| TokenGetInfo (q : TokenGetInfoQuery)
| TokenGetNftInfo (q : TokenGetNftInfoQuery)
| ContractGetInfo (q : ContractGetInfoQuery)
| ContractGetBytecode (q : ContractGetBytecodeQuery)
| NetworkGetVersionInfo (q : NetworkGetVersionInfoQuery)
| AccountDetailsQ (q : GetAccountDetailsQuery)
| OtherQuery (m : pb).

(** [response::Response] *)
Inductive Response :=
| RCryptoGetInfo (r : CryptoGetInfoResponse)
| RCryptoGetAccountRecords (r : CryptoGetAccountRecordsResponse)
| RCryptogetAccountBalance (r : CryptoGetAccountBalanceResponse)
| RTransactionGetReceipt (r : TransactionGetReceiptResponse)
| RTransactionGetRecord (r : TransactionGetRecordResponse)
| RFileGetContents (r : FileGetContentsResponse)
| RFileGetInfo (r : FileGetInfoResponse)
| RConsensusGetTopicInfo (r : ConsensusGetTopicInfoResponse)
| RScheduleGetInfo (r : ScheduleGetInfoResponse)
| RTokenGetInfo (r : TokenGetInfoResponse)
| RTokenGetNftInfo (r : TokenGetNftInfoResponse)
| RContractGetInfo (r : ContractGetInfoResponse)
| RContractGetBytecode (r : ContractGetBytecodeResponse)
| RNetworkGetVersionInfo (r : NetworkGetVersionInfoResponse)
| RAccountDetailsQ (r : GetAccountDetailsResponse).

Definition query_kind (q : Query) : option QueryKind :=
  match q with
  | CryptoGetInfo _ => Some KCryptoGetInfo
  | CryptoGetAccountRecords _ => Some KCryptoGetAccountRecords
  | CryptogetAccountBalance _ => Some KCryptogetAccountBalance
  | TransactionGetReceipt _ => Some KTransactionGetReceipt
  | TransactionGetRecord _ => Some KTransactionGetRecord
  | FileGetContents _ => Some KFileGetContents
  | FileGetInfo _ => Some KFileGetInfo
  | ConsensusGetTopicInfo _ => Some KConsensusGetTopicInfo
  | ScheduleGetInfo _ => Some KScheduleGetInfo
  | TokenGetInfo _ => Some KTokenGetInfo
  | TokenGetNftInfo _ => Some KTokenGetNftInfo
  | ContractGetInfo _ => Some KContractGetInfo
  | ContractGetBytecode _ => Some KContractGetBytecode
  | NetworkGetVersionInfo _ => Some KNetworkGetVersionInfo
  | AccountDetailsQ _ => Some KAccountDetailsQ
  | OtherQuery _ => None
  end.
Definition response_kind (r : Response) : QueryKind :=
  match r with
  | RCryptoGetInfo _ => KCryptoGetInfo
  | RCryptoGetAccountRecords _ => KCryptoGetAccountRecords
  | RCryptogetAccountBalance _ => KCryptogetAccountBalance
  | RTransactionGetReceipt _ => KTransactionGetReceipt
  | RTransactionGetRecord _ => KTransactionGetRecord
  | RFileGetContents _ => KFileGetContents
  | RFileGetInfo _ => KFileGetInfo
  | RConsensusGetTopicInfo _ => KConsensusGetTopicInfo
  | RScheduleGetInfo _ => KScheduleGetInfo
  | RTokenGetInfo _ => KTokenGetInfo
  | RTokenGetNftInfo _ => KTokenGetNftInfo
  | RContractGetInfo _ => KContractGetInfo
  | RContractGetBytecode _ => KContractGetBytecode
  | RNetworkGetVersionInfo _ => KNetworkGetVersionInfo
  | RAccountDetailsQ _ => KAccountDetailsQ
  end.

(** The transaction methods of each service. *)
Inductive CryptoTransaction :=
| Crypto_create_account | Crypto_update_account | Crypto_crypto_transfer
| Crypto_crypto_delete | Crypto_approve_allowances | Crypto_delete_allowances
| Crypto_add_live_hash | Crypto_delete_live_hash.
Inductive FileTransaction :=
| File_create_file | File_update_file | File_delete_file | File_append_content
| File_system_delete | File_system_undelete.
Inductive ConsensusTransaction :=
| Consensus_create_topic | Consensus_update_topic | Consensus_delete_topic
| Consensus_submit_message.
Inductive ScheduleTransaction :=
| Schedule_create_schedule | Schedule_sign_schedule | Schedule_delete_schedule.
Inductive TokenTransaction :=
| Token_create_token | Token_update_token | Token_mint_token | Token_burn_token
| Token_delete_token | Token_wipe_token_account | Token_freeze_token_account
| Token_unfreeze_token_account | Token_grant_kyc_to_token_account
| Token_revoke_kyc_from_token_account | Token_associate_tokens
| Token_dissociate_tokens | Token_update_token_fee_schedule | Token_pause_token
| Token_unpause_token | Token_update_nfts | Token_reject_token
| Token_airdrop_tokens | Token_cancel_airdrop | Token_claim_airdrop.
Inductive ContractTransaction :=
| Contract_create_contract | Contract_update_contract
| Contract_contract_call_method | Contract_delete_contract | Contract_system_delete
| Contract_system_undelete | Contract_call_ethereum | Contract_lambda_s_store.
Inductive NetworkTransaction :=
| Network_unchecked_submit.

Record TransactionResponse := MkTransactionResponse { tx_precheck_code : Z; tx_cost : Z }.

Section services.
Context {CODEC : Codec} {QC : QueryCodec} {R : Type} {READER : StateReader R}.
Implicit Types (state_reader : R) (request : option Query).

(** The answer of every transaction method. *)
Definition not_supported : Result Status TransactionResponse :=
  Ok (MkTransactionResponse (response_code_i32 NotSupported) 0).

(** ** crypto_service.rs *)
Definition get_account_info state_reader request : Result Status Response :=
  match request with
  | Some (CryptoGetInfo q) =>
      r ← QueryHandlers.get_account_info state_reader q;
      Ok (RCryptoGetInfo r)
  | _ => Err (InvalidArgument "Incorrect query type provided for getAccountInfo")
  end.

Definition get_account_records state_reader request : Result Status Response :=
  match request with
  | Some (CryptoGetAccountRecords q) =>
      r ← QueryHandlers.get_account_records state_reader q;
      Ok (RCryptoGetAccountRecords r)
  | _ => Err (InvalidArgument "Incorrect query type provided for getAccountRecords")
  end.

Definition crypto_get_balance state_reader request : Result Status Response :=
  match request with
  | Some (CryptogetAccountBalance q) =>
      r ← QueryHandlers.get_account_balance state_reader q;
      Ok (RCryptogetAccountBalance r)
  | _ => Err (InvalidArgument "Incorrect query type provided for cryptoGetBalance")
  end.

Definition get_transaction_receipts state_reader request : Result Status Response :=
  match request with
  | Some (TransactionGetReceipt q) =>
      r ← QueryHandlers.get_transaction_receipt state_reader q;
      Ok (RTransactionGetReceipt r)
  | _ => Err (InvalidArgument "Incorrect query type provided for getTransactionReceipts")
  end.

Definition get_tx_record_by_tx_id state_reader request : Result Status Response :=
  match request with
  | Some (TransactionGetRecord q) =>
      r ← QueryHandlers.get_transaction_record state_reader q;
      Ok (RTransactionGetRecord r)
  | _ => Err (InvalidArgument "Incorrect query type provided for getTxRecordByTxID")
  end.

Definition get_live_hash state_reader request : Result Status Response :=
  Err (Unimplemented "getLiveHash is obsolete").

Definition crypto_transaction (m : CryptoTransaction) (request : pb)
    : Result Status TransactionResponse :=
  not_supported.

(** ** file_service.rs *)
Definition get_file_content state_reader request : Result Status Response :=
  match request with
  | Some (FileGetContents q) =>
      r ← QueryHandlers.get_file_content state_reader q;
      Ok (RFileGetContents r)
  | _ => Err (InvalidArgument "Incorrect query type provided for getFileContent")
  end.

Definition get_file_info state_reader request : Result Status Response :=
  match request with
  | Some (FileGetInfo q) =>
      r ← QueryHandlers.get_file_info state_reader q;
      Ok (RFileGetInfo r)
  | _ => Err (InvalidArgument "Incorrect query type provided for getFileInfo")
  end.

Definition file_transaction (m : FileTransaction) (request : pb)
    : Result Status TransactionResponse :=
  not_supported.

(** ** consensus_service.rs *)
Definition get_topic_info state_reader request : Result Status Response :=
  match request with
  | Some (ConsensusGetTopicInfo q) =>
      r ← QueryHandlers.get_topic_info state_reader q;
      Ok (RConsensusGetTopicInfo r)
  | _ => Err (InvalidArgument "Incorrect query type provided for getTopicInfo")
  end.

Definition consensus_transaction (m : ConsensusTransaction) (request : pb)
    : Result Status TransactionResponse :=
  not_supported.

(** ** schedule_service.rs *)
Definition get_schedule_info state_reader request : Result Status Response :=
  match request with
  | Some (ScheduleGetInfo q) =>
      r ← QueryHandlers.get_schedule_info state_reader q;
      Ok (RScheduleGetInfo r)
  | _ => Err (InvalidArgument "Incorrect query type provided for getScheduleInfo")
  end.

Definition schedule_transaction (m : ScheduleTransaction) (request : pb)
    : Result Status TransactionResponse :=
  not_supported.

(** ** token_service.rs *)
Definition get_token_info state_reader request : Result Status Response :=
  match request with
  | Some (TokenGetInfo q) =>
      r ← QueryHandlers.get_token_info state_reader q;
      Ok (RTokenGetInfo r)
  | _ => Err (InvalidArgument "Incorrect query type provided for getTokenInfo")
  end.

Definition get_token_nft_info state_reader request : Result Status Response :=
  match request with
  | Some (TokenGetNftInfo q) =>
      r ← QueryHandlers.get_token_nft_info state_reader q;
      Ok (RTokenGetNftInfo r)
  | _ => Err (InvalidArgument "Incorrect query type provided for getTokenNftInfo")
  end.

Definition token_transaction (m : TokenTransaction) (request : pb)
    : Result Status TransactionResponse :=
  not_supported.

(** ** contract_service.rs *)
Definition get_contract_info state_reader request : Result Status Response :=
  match request with
  | Some (ContractGetInfo q) =>
      r ← QueryHandlers.get_contract_info state_reader q;
      Ok (RContractGetInfo r)
  | _ => Err (InvalidArgument "Incorrect query type provided for getContractInfo")
  end.

Definition contract_get_bytecode state_reader request : Result Status Response :=
  match request with
  | Some (ContractGetBytecode q) =>
      r ← QueryHandlers.get_contract_bytecode state_reader q;
      Ok (RContractGetBytecode r)
  | _ => Err (InvalidArgument "Incorrect query type provided for contractGetBytecode")
  end.

Definition contract_call_local_method state_reader request : Result Status Response :=
  Err (Unimplemented "Query not yet implemented").

Definition get_by_solidity_id state_reader request : Result Status Response :=
  Err (Unimplemented "Query not yet implemented").

Definition get_tx_record_by_contract_id state_reader request : Result Status Response :=
  Err (Unimplemented "Query not yet implemented").

Definition contract_transaction (m : ContractTransaction) (request : pb)
    : Result Status TransactionResponse :=
  not_supported.

(** ** network_service.rs *)
Definition get_version_info state_reader request : Result Status Response :=
  match request with
  | Some (NetworkGetVersionInfo q) =>
      r ← QueryHandlers.get_version_info state_reader q;
      Ok (RNetworkGetVersionInfo r)
  | _ => Err (InvalidArgument "Incorrect query type provided for getVersionInfo")
  end.

Definition get_account_details state_reader request : Result Status Response :=
  match request with
  | Some (AccountDetailsQ q) =>
      r ← QueryHandlers.get_account_details state_reader q;
      Ok (RAccountDetailsQ r)
  | _ => Err (InvalidArgument "Incorrect query type provided for getAccountDetails")
  end.

Definition get_execution_time state_reader request : Result Status Response :=
  Err (Unimplemented "getExecutionTime is deprecated").

Definition network_transaction (m : NetworkTransaction) (request : pb)
    : Result Status TransactionResponse :=
  not_supported.

(** The query methods the services answer, and the ones they do not implement. *)
Definition query_methods : list (QueryKind * (R → option Query → Result Status Response)) := [
  (KCryptoGetInfo, get_account_info);
  (KCryptoGetAccountRecords, get_account_records);
  (KCryptogetAccountBalance, crypto_get_balance);
  (KTransactionGetReceipt, get_transaction_receipts);
  (KTransactionGetRecord, get_tx_record_by_tx_id);
  (KFileGetContents, get_file_content);
  (KFileGetInfo, get_file_info);
  (KConsensusGetTopicInfo, get_topic_info);
  (KScheduleGetInfo, get_schedule_info);
  (KTokenGetInfo, get_token_info);
  (KTokenGetNftInfo, get_token_nft_info);
  (KContractGetInfo, get_contract_info);
  (KContractGetBytecode, contract_get_bytecode);
  (KNetworkGetVersionInfo, get_version_info);
  (KAccountDetailsQ, get_account_details)].
Definition unimplemented_methods : list (R → option Query → Result Status Response) := [
  get_live_hash;
  contract_call_local_method;
  get_by_solidity_id;
  get_tx_record_by_contract_id;
  get_execution_time].
End services.
