(* ===== verification/QueryState.v ===== *)
(** Queries over the state the state-management plugin maintains.

    The query plugin reads through [StateReader]; the state manager implements it on
    the database.  The theory connects the two ends: what a handler finds under an
    entity is the last change the applied blocks made to it. *)
From S2P Require Import Prelude Database Block Core Pipeline StatePlugin QueryTypes.
From S2P Require Import QueryHandlers.

(** [impl StateReader for StateManager] *)
#[export] Instance state_manager_reader `{RocksDB} : StateReader DB := {|
  reader_get_state_value db key := get_state_value db key;
|}.

(** ** The changes of a block as a list of key updates *)
Section effects.
Context {CODEC : Codec}.

(** The key a change sets or deletes, with its new value; a queue pop deletes the
    first key at or after the prefix in [m0], the state before the block. *)
Definition change_effect (m0 : gmap bytes bytes) (ts : pb) (c : StateChange) : option (bytes * option bytes) :=
  match change_operation c with
  | Some (MapUpdate (Some k) (Some v)) =>
      Some (state_prefix (state_id c) ++ encode_msg k, Some (encode_msg v))
  | Some (MapDelete (Some k)) => Some (state_prefix (state_id c) ++ encode_msg k, None)
  | Some (SingletonUpdate (Some (kind, v))) =>
      if handled_singleton kind then Some (state_prefix (state_id c), Some (encode_msg v))
      else None
  | Some (QueuePush (Some (TransactionReceiptEntriesElement, v))) =>
      Some (state_prefix (state_id c) ++ encode_msg ts, Some (encode_msg v))
  | Some QueuePop => (λ k, (k, None)) <$> first_from m0 (state_prefix (state_id c))
  | _ => None
  end.

Definition item_effects (m0 : gmap bytes bytes) (i : BlockItem) : list (bytes * option bytes) :=
  match i with
  | Some (IStateChanges (MkStateChanges (Some ts) changes)) => omap (change_effect m0 ts) changes
  | _ => []
  end.
Definition block_effects (m0 : gmap bytes bytes) (b : Block) : list (bytes * option bytes) :=
  items b ≫= item_effects m0.

(** The changes of consecutive blocks, the first on the state [m]. *)
Fixpoint chain_effects (m : gmap bytes bytes) (bs : list Block) : list (bytes * option bytes) :=
  match bs with
  | [] => []
  | b :: bs => block_effects m b ++ chain_effects (block_spec m b) bs
  end.

Definition run_effect (m : gmap bytes bytes) (e : bytes * option bytes) : gmap bytes bytes :=
  partial_alter (λ _, e.2) e.1 m.

(** What the last change of [key] in [l] leaves there, if any changes it. *)
Fixpoint last_effect (key : bytes) (l : list (bytes * option bytes)) : option (option bytes) :=
  match l with
  | [] => None
  | (k, o) :: l =>
      match last_effect key l with
      | Some r => Some r
      | None => if decide (k = key) then Some o else None
      end
  end.

Lemma change_effect_spec m0 ts m c :
  change_spec m0 ts m c = from_option (run_effect m) m (change_effect m0 ts c).
Proof.
  unfold change_spec, change_effect.
  destruct (change_operation c) as [[[k|] [v|]|[k|]|[[kind v]|]|[[[] v]|]| |]|]; try done.
  - by destruct (handled_singleton kind).
  - by destruct (first_from m0 _).
Qed.

Lemma changes_effects m0 ts m changes :
  foldl (change_spec m0 ts) m changes = foldl run_effect m (omap (change_effect m0 ts) changes).
Proof.
  revert m. induction changes as [|c changes IH]; intros m; [done|]. cbn [foldl].
  rewrite change_effect_spec, IH. cbn. by destruct (change_effect m0 ts c).
Qed.

Lemma items_effects m0 m l :
  foldl (item_spec m0) m l = foldl run_effect m (l ≫= item_effects m0).
Proof.
  revert m. induction l as [|i l IH]; intros m; [done|]. cbn. rewrite foldl_app, IH. f_equal.
  destruct i as [[| |[[ts|] changes]|]|]; try done. apply changes_effects.
Qed.

Lemma block_effects_spec m b : block_spec m b = foldl run_effect m (block_effects m b).
Proof. apply items_effects. Qed.

Lemma blocks_effects_spec m bs :
  foldl block_spec m bs = foldl run_effect m (chain_effects m bs).
Proof.
  revert m. induction bs as [|b bs IH]; intros m; [done|]. cbn.
  by rewrite foldl_app, IH, block_effects_spec.
Qed.

Lemma effects_lookup m l key :
  foldl run_effect m l !! key = default (m !! key) (last_effect key l).
Proof.
  revert m. induction l as [|[k o] l IH]; intros m; [done|]. cbn [foldl last_effect].
  rewrite IH. destruct (last_effect key l) as [r|]; [done|]. cbn. unfold run_effect. cbn.
  case_decide as E; subst; cbn; [by rewrite lookup_partial_alter_eq|].
  by rewrite lookup_partial_alter_ne.
Qed.

(** A key no change mentions is unaffected. *)
Lemma last_effect_None key l : key ∉ l.*1 → last_effect key l = None.
Proof.
  induction l as [|[k o] l IH]; cbn; [done|]. intros [Hne Hn]%not_elem_of_cons.
  by rewrite IH, decide_False.
Qed.
End effects.

(** ** Keys of different entities differ *)
Lemma state_prefix_inj s s' r r' : is_u32 s → is_u32 s' →
  state_prefix s ++ r = state_prefix s' ++ r' → s = s' ∧ r = r'.
Proof.
  intros Hs Hs' E. unfold state_prefix in E.
  apply app_inj_1 in E as [E ->]; [|by rewrite !length_be_bytes]. split; [|done].
  apply (f_equal be_value) in E. rewrite !be_value_be_bytes in E.
  unfold is_u32 in *. by rewrite !Z.mod_small in E by (cbn; lia).
Qed.

Section keys.
Context {CODEC : Codec} {QC : QueryCodec} {QLAWS : QueryCodecLaws}.

Lemma db_key_inj s s' k k' : wf_key k → wf_key k' →
  db_key s k = db_key s' k' → s = s' ∧ k = k'.
Proof.
  intros Hk Hk' [E1 E2]%state_prefix_inj; try apply state_identifier_range.
  split; [by apply state_identifier_inj|by apply map_change_key_inj].
Qed.

Lemma db_key_not_singleton s k n : is_u32 n → db_key s k ≠ state_prefix n.
Proof.
  intros Hn E. unfold db_key in E. rewrite <-(app_nil_r (state_prefix n)) in E.
  apply state_prefix_inj in E as [_ E]; [|apply state_identifier_range|done].
  by apply map_change_key_nonempty in E.
Qed.

(** A change that concerns another entity or a singleton, or a push on the queue of
    another state. *)
Definition elsewhere (s : StateIdentifier) (k : KeyChoice) (c : StateChange) : Prop :=
  is_u32 (state_id c) ∧
  match change_operation c with
  | Some (MapUpdate (Some m) _) | Some (MapDelete (Some m)) =>
      state_id c ≠ state_identifier_u32 s ∨
      ∃ k', m = map_change_key k' ∧ wf_key k' ∧ k' ≠ k
  | Some (QueuePush _) => state_id c ≠ state_identifier_u32 s
  | Some QueuePop => False
  | _ => True
  end.

Lemma elsewhere_effect m0 ts s k c e : wf_key k → elsewhere s k c →
  change_effect m0 ts c = Some e → e.1 ≠ db_key s k.
Proof.
  intros Hk [Hu Hc] He E. unfold change_effect in He.
  destruct (change_operation c) as [[[m|] [v|]|[m|]|[[kind v]|]|[[[] v]|]| |]|] eqn:Eo; try done;
    try (destruct (handled_singleton kind); [|done]);
    injection He as <-; cbn in E; try (symmetry in E; by apply db_key_not_singleton in E);
    unfold db_key in E; apply state_prefix_inj in E as [E1 E2]; try done;
    try apply state_identifier_range;
    destruct Hc as [|(k' & -> & Hk' & Hne)]; try done; by apply map_change_key_inj in E2.
Qed.

Lemma elsewhere_block m0 s k b : wf_key k →
  Forall (λ i, match i with
    | Some (IStateChanges set) => Forall (elsewhere s k) (state_changes set)
    | _ => True end) (items b) →
  last_effect (db_key s k) (block_effects m0 b) = None.
Proof.
  intros Hk Hall. apply last_effect_None. unfold block_effects.
  rewrite list_elem_of_fmap. intros (e & E & Hin).
  apply list_elem_of_bind in Hin as (i & He & Hi).
  rewrite Forall_forall in Hall. specialize (Hall i Hi).
  destruct i as [[| |[[ts|] changes]|]|]; cbn in He; try (by apply not_elem_of_nil in He).
  cbn in Hall. apply list_elem_of_omap in He as (c & Hc & Hce). rewrite Forall_forall in Hall.
  eapply (elsewhere_effect m0 ts s k c e); [done|by apply Hall|done|by symmetry].
Qed.
End keys.

(** ** Lookups on the database *)
Section lookups.
Context {RDB : RocksDB} {LAWS : RocksDBLaws} {CODEC : Codec} {CLAWS : CodecLaws}.
Context {QC : QueryCodec} {QLAWS : QueryCodecLaws}.
Implicit Types (db : DB).

(** The value under an entity, as an answer of [query_state]. *)
Definition decoded (o : option bytes) : Result Status (option (option ValueChoice)) :=
  match o with
  | Some bytes =>
      v ← or_internal "Failed to decode MapChangeValue" (decode_map_change_value bytes);
      Ok (Some v)
  | None => Ok None
  end.

Lemma query_state_db db s k : db_ok db →
  query_state db s k = decoded (entries db CF_STATE_DATA !! db_key s k).
Proof.
  intros Hdb. unfold query_state. cbn. unfold get_state_value.
  rewrite need_cf_open by (apply Hdb || set_solver). cbn. by rewrite get_cf_healthy by apply Hdb.
Qed.

Lemma decoded_message m v : value_choice m = Some v →
  decoded (Some (encode_msg m)) = Ok (Some (Some v)).
Proof. intros H. cbn. by rewrite (decode_value _ _ H). Qed.

(** After a block was applied, the lookup of an entity yields the block's last change
    of it, or what was there. *)
Lemma query_after_block db n b db' s k :
  db_ok db → wf_block b → Forall complete_item (items b) →
  apply_state_changes db n (encode_to_vec b) = Ok db' →
  query_state db' s k =
    match last_effect (db_key s k) (block_effects (entries db CF_STATE_DATA) b) with
    | Some o => decoded o
    | None => query_state db s k
    end.
Proof.
  intros Hdb Hwf Hp E. destruct (apply_state_changes_ok db n b Hdb Hwf Hp)
    as (db1 & E1 & Hdb1 & Hs & _). rewrite E in E1. injection E1 as <-.
  rewrite !query_state_db by done. rewrite Hs, block_effects_spec, effects_lookup.
  by destruct (last_effect _ _).
Qed.

(** The same for a chain of blocks taken from the block store. *)
Context {B : Type} {BREADER : BlockReader B} {BWRITER : BlockWriter B} {STORE : BlockStore B}.

Lemma query_after_chain (store : B) (m : gmap Z bytes) db first bs s k :
  holds store m → db_ok db → 0 ≤ first → first + Z.of_nat (length bs) < u64_modulus →
  stored_complete m first bs →
  query_state (catch_up store db first (length bs)) s k =
    match last_effect (db_key s k) (chain_effects (entries db CF_STATE_DATA) bs) with
    | Some o => decoded o
    | None => query_state db s k
    end.
Proof.
  intros Hr Hdb Hf Hmax Hst.
  destruct (catch_up_ok store m db first bs Hr Hdb Hf Hmax Hst) as (Hdb' & Hs & _).
  rewrite !query_state_db by done. rewrite Hs, blocks_effects_spec, effects_lookup.
  by destruct (last_effect _ _).
Qed.
End lookups.

Lemma contract_account_id_total acc id :
  acc_account_id acc = Some id → ∃ c, contract_account_id_of acc = Ok c.
Proof.
  intros Hid. unfold contract_account_id_of. rewrite Hid. cbn.
  destruct (acc_smart_contract acc), (acc_alias acc); try by eexists.
  destruct (account id) as [[]|]; by eexists.
Qed.

(** ** The token relationships of an account as a linked list *)
Section relationships.
Context {CODEC : Codec} {QC : QueryCodec} {R : Type} {READER : StateReader R}.
Implicit Types (rd : R).

(** From token [t] on, the stored relations of [account] are [rels]. *)
Inductive token_chain rd (account : Account) : option TokenId → list TokenRelation → Prop :=
| chain_nil : token_chain rd account None []
| chain_cons t r rels :
    query_state rd StateIdTokenRelations
      (TokenRelationshipKey (MkTokenAssociation (Some t) (acc_account_id account)))
    = Ok (Some (Some (TokenRelationValue r))) →
    token_chain rd account (rel_next_token r) rels →
    token_chain rd account (Some t) (r :: rels).

Lemma relationships_chain rd account cur rels k acc :
  token_chain rd account cur rels →
  relationships_from rd account cur k acc = Ok (acc ++ (relationship_of <$> take k rels)).
Proof.
  intros H. revert k acc. induction H as [|t r rels Hq _ IH]; intros [|k] acc; cbn.
  - by rewrite app_nil_r.
  - by rewrite app_nil_r.
  - by rewrite app_nil_r.
  - rewrite Hq. cbn. rewrite IH. by rewrite <-app_assoc.
Qed.

Lemma relationships_bound rd account cur k acc rels :
  Forall (λ r, is_u64 (rs_balance r)) acc →
  relationships_from rd account cur k acc = Ok rels →
  (length rels ≤ length acc + k)%nat ∧ Forall (λ r, is_u64 (rs_balance r)) rels.
Proof.
  revert cur acc. induction k as [|k IH]; intros cur acc Hacc; cbn.
  - intros [= <-]. split; [lia|done].
  - destruct cur as [t|]; [|intros [= <-]; split; [lia|done]].
    destruct (query_state _ _ _) as [[[[]|]|]|]; cbn; try done.
    intros [Hl Hf]%IH; [|apply Forall_app; split; [done|]; apply Forall_singleton, wrap64_u64].
    rewrite length_app in Hl. cbn in Hl. split; [lia|done].
Qed.
End relationships.
