(* ===== verification/Plugins.v ===== *)
(** The node as its plugins see it: the application context
    (crates/rock-node-core/src/app_context.rs), the [Plugin] trait (plugin.rs) as a
    type class, and the life cycle of the ten plugins (the lib.rs or plugin.rs of
    each plugin crate).

    An [AppContext] is the configuration and handles to what the plugins share; the
    shared part is the [World], passed through every call.  The [running] flag of a
    plugin is a cell that the plugin shares with the task it spawns, so it is part of
    the world too, under the plugin's name.  [tokio::spawn] adds to the list of tasks;
    what the tasks do is in Node.v and in the files of the components.  A poisoned
    lock needs a thread that panicked while it held the lock, which none of the code
    that takes these locks can do, so that branch is left out. *)
From Stdlib Require Import Ascii.
From S2P Require Import Prelude Config Database Block StateManager HotTier ColdStorage.
From S2P Require Import Core PersistenceService Archiver Persistence Publish Subscriber.

(** ** error.rs *)
Inductive CoreError :=
| Configuration (msg : string)
| PluginInitialization (msg : string)
| PluginShutdown (msg : string)
| Io
| Other (e : Error).

#[export] Instance CoreError_eq_dec : EqDecision CoreError.
Proof. solve_decision. Defined.

(** [impl From<anyhow::Error> for Error], as [?] uses it. *)
Definition from_anyhow {A} (r : Result Error A) : Result CoreError A :=
  match r with Ok a => Ok a | Err e => Err (Other e) end.

(** The text of an error; [display] is the text of an [anyhow::Error], whose message
    the model does not keep. *)
Definition core_error_to_string (display : Error → string) (e : CoreError) : string :=
  match e with
  | Configuration msg => "Configuration Error: " +:+ msg
  | PluginInitialization msg => "Plugin Initialization Failed: " +:+ msg
  | PluginShutdown msg => "Plugin Shutdown Failed: " +:+ msg
  | Io => "I/O Error"
  | Other e => display e
  end.

(** ** Service providers *)
Inductive TypeId :=
| TDatabaseManagerProvider | TBlockReaderProvider | TBlockWriterProvider
| TStateReaderProvider.

#[export] Instance TypeId_eq_dec : EqDecision TypeId.
Proof. solve_decision. Defined.
#[export] Instance TypeId_countable : Countable TypeId.
Proof.
  refine (inj_countable' (λ t, match t with
    | TDatabaseManagerProvider => 0 | TBlockReaderProvider => 1
    | TBlockWriterProvider => 2 | TStateReaderProvider => 3 end%nat)
    (λ n, match n with
    | 0 => TDatabaseManagerProvider | 1 => TBlockReaderProvider
    | 2 => TBlockWriterProvider | _ => TStateReaderProvider end%nat) _).
  by intros [].
Defined.

(** [Arc<dyn Any>]: a provider and, by its constructor, its type.  A reader or writer
    is the persistence service, which is its settings and the shared tiers. *)
Inductive ServiceProvider :=
| DatabaseManagerProvider
| BlockReaderProvider (cfg : PersistenceServiceConfig) (start : Z)
| BlockWriterProvider (cfg : PersistenceServiceConfig) (start : Z)
| StateReaderProvider.

Definition type_id (p : ServiceProvider) : TypeId :=
  match p with
  | DatabaseManagerProvider => TDatabaseManagerProvider
  | BlockReaderProvider _ _ => TBlockReaderProvider
  | BlockWriterProvider _ _ => TBlockWriterProvider
  | StateReaderProvider => TStateReaderProvider
  end.

Definition downcast (t : TypeId) (any : ServiceProvider) : option ServiceProvider :=
  if decide (type_id any = t) then Some any else None.

Abbreviation Providers := (gmap TypeId ServiceProvider).

Definition register_service_provider (providers : Providers) (provider : ServiceProvider)
    : Providers :=
  <[type_id provider := provider]> providers.
Definition get_service_provider (providers : Providers) (t : TypeId) : option ServiceProvider :=
  any ← providers !! t; downcast t any.
#[global] Arguments register_service_provider : simpl never.
#[global] Arguments get_service_provider : simpl never.

(** ** The world *)
Inductive GrpcService :=
| BlockStreamPublishService | BlockStreamSubscribeService | BlockAccessService
| BlockNodeService | CryptoService | FileService | ConsensusService | NetworkService
| ScheduleService | TokenService | SmartContractService.

#[export] Instance GrpcService_eq_dec : EqDecision GrpcService.
Proof. solve_decision. Defined.

(** The receiver of the persistence loop, chosen when the task starts to run. *)
Inductive Stream := VerifiedStream | UnverifiedStream.

#[export] Instance Stream_eq_dec : EqDecision Stream.
Proof. solve_decision. Defined.

Inductive Task :=
| RegisterCapability (c : Capability)
| ArchiverTask
| PersistenceTask (rx_items : bool)
| PersistenceLoop (s : Stream)
| VerifierTask
| WinnerCleanupTask (interval threshold : Z)
| StateTask
| BackfillTask (mode : BackfillMode)
| ObservabilityServer (address : string)
| GrpcServer (address : string) (routes : list GrpcService)
| SubscriberTask (session : Uuid).

Record World `{RocksDB} := MkWorld {
  w_providers : Providers;
  w_capabilities : CapabilityRegistry;
  w_tiers : Tiers;
  w_listing : list fname;
  w_publish : SharedState;
  w_subscribers : gset Uuid;
  w_running : gset string;
  w_tasks : list Task;
  w_routes : list GrpcService;
  w_sent : Sent;
  w_signalled : gset string;
}.
Arguments MkWorld {_}.

Section world.
Context {RDB : RocksDB}.
Implicit Types w : World.

Definition with_providers w p : World :=
  MkWorld p (w_capabilities w) (w_tiers w) (w_listing w) (w_publish w) (w_subscribers w)
    (w_running w) (w_tasks w) (w_routes w) (w_sent w) (w_signalled w).
Definition with_capabilities w c : World :=
  MkWorld (w_providers w) c (w_tiers w) (w_listing w) (w_publish w) (w_subscribers w)
    (w_running w) (w_tasks w) (w_routes w) (w_sent w) (w_signalled w).
Definition with_world_tiers w t : World :=
  MkWorld (w_providers w) (w_capabilities w) t (w_listing w) (w_publish w) (w_subscribers w)
    (w_running w) (w_tasks w) (w_routes w) (w_sent w) (w_signalled w).
Definition with_publish w sh : World :=
  MkWorld (w_providers w) (w_capabilities w) (w_tiers w) (w_listing w) sh (w_subscribers w)
    (w_running w) (w_tasks w) (w_routes w) (w_sent w) (w_signalled w).
Definition with_subscribers w s : World :=
  MkWorld (w_providers w) (w_capabilities w) (w_tiers w) (w_listing w) (w_publish w) s
    (w_running w) (w_tasks w) (w_routes w) (w_sent w) (w_signalled w).
Definition with_running w r : World :=
  MkWorld (w_providers w) (w_capabilities w) (w_tiers w) (w_listing w) (w_publish w)
    (w_subscribers w) r (w_tasks w) (w_routes w) (w_sent w) (w_signalled w).
Definition with_tasks w t : World :=
  MkWorld (w_providers w) (w_capabilities w) (w_tiers w) (w_listing w) (w_publish w)
    (w_subscribers w) (w_running w) t (w_routes w) (w_sent w) (w_signalled w).
Definition with_routes w r : World :=
  MkWorld (w_providers w) (w_capabilities w) (w_tiers w) (w_listing w) (w_publish w)
    (w_subscribers w) (w_running w) (w_tasks w) r (w_sent w) (w_signalled w).
Definition with_sent w s : World :=
  MkWorld (w_providers w) (w_capabilities w) (w_tiers w) (w_listing w) (w_publish w)
    (w_subscribers w) (w_running w) (w_tasks w) (w_routes w) s (w_signalled w).
Definition with_signalled w s : World :=
  MkWorld (w_providers w) (w_capabilities w) (w_tiers w) (w_listing w) (w_publish w)
    (w_subscribers w) (w_running w) (w_tasks w) (w_routes w) (w_sent w) s.

Definition set_running (name : string) (b : bool) w : World :=
  with_running w (if b then {[name]} ∪ w_running w else w_running w ∖ {[name]}).
Definition spawn (t : Task) w : World := with_tasks w (w_tasks w ++ [t]).
Definition add_services (s : list GrpcService) w : World := with_routes w (w_routes w ++ s).
(** [Notify::notify_waiters]. *)
Definition notify_waiters (name : string) w : World :=
  with_signalled w ({[name]} ∪ w_signalled w).
Definition provide (p : ServiceProvider) w : World :=
  with_providers w (register_service_provider (w_providers w) p).

(** [BlockReaderProvider::get_reader]: the persistence service on the shared tiers. *)
Definition get_reader w : option Service :=
  p ← get_service_provider (w_providers w) TBlockReaderProvider;
  match p with
  | BlockReaderProvider cfg start => Some (MkService cfg start (w_tiers w))
  | _ => None
  end.
End world.

(** ** plugin.rs *)
Class Plugin `{RocksDB} (P : Type) := {
  plugin_name : P → string;
  plugin_initialize : P → Config → World → Result CoreError (P * World);
  plugin_start : P → World → Result CoreError (P * World);
  plugin_register_grpc_services : P → World → Result CoreError (bool * World);
  plugin_is_running : P → World → bool;
  plugin_stop : P → World → P * World * Result CoreError unit;
}.

(** [register_grpc_services] of the trait: no services. *)
Definition no_grpc_services `{RocksDB} {P} (p : P) (w : World) : Result CoreError (bool * World) :=
  Ok (false, w).

(** [self.running.load], the same in every plugin. *)
Definition is_running `{RocksDB} (name : string) (w : World) : bool :=
  bool_decide (name ∈ w_running w).

(** ** Socket addresses

    [str::parse::<SocketAddr>]: four decimal groups and a port.  IPv6 addresses are
    accepted too; which strings those are is an argument. *)
Class SocketAddrV6 := { is_socket_addr_v6 : string → bool }.

Fixpoint span_digits (s : fname) : fname * fname :=
  match s with
  | c :: s' => if is_digit c then let '(ds, rest) := span_digits s' in (c :: ds, rest) else ([], s)
  | [] => ([], [])
  end.

(** [Parser::read_number] for an unsigned type with maximum [bound]. *)
Definition read_number (max_digits : option nat) (allow_zero_prefix : bool) (bound : Z) (s : fname)
    : option (Z * fname) :=
  let '(ds, rest) := span_digits s in
  let zero_prefix := match ds with c :: _ :: _ => bool_decide (digit_value c = 0) | _ => false end in
  if bool_decide (ds = []) then None
  else if match max_digits with Some k => (k <? length ds)%nat | None => false end then None
  else if negb allow_zero_prefix && zero_prefix then None
  else if bound <? parse_digits ds then None
  else Some (parse_digits ds, rest).

Definition read_char (c : ascii) (s : fname) : option fname :=
  match s with c' :: s => if Ascii.eqb c c' then Some s else None | [] => None end.

Definition parse_socket_addr_v4 (s : fname) : option (Z * Z * Z * Z * Z) :=
  '(a, s) ← read_number (Some 3%nat) false 255 s; s ← read_char "." s;
  '(b, s) ← read_number (Some 3%nat) false 255 s; s ← read_char "." s;
  '(c, s) ← read_number (Some 3%nat) false 255 s; s ← read_char "." s;
  '(d, s) ← read_number (Some 3%nat) false 255 s; s ← read_char ":" s;
  '(port, s) ← read_number None true 65535 s;
  match s with [] => Some (a, b, c, d, port) | _ => None end.

Definition is_socket_addr `{SocketAddrV6} (s : string) : bool :=
  bool_decide (is_Some (parse_socket_addr_v4 (lit s))) || is_socket_addr_v6 s.

Section plugins.
Context {RDB : RocksDB} {CODEC : Codec} {V6 : SocketAddrV6}.
Implicit Types w : World.

(** ** rock-node-persistence-plugin/src/lib.rs *)
Record PersistencePlugin := MkPersistencePlugin {
  pp_context : option Config;
  pp_rx_block_items_received : bool;
  pp_rx_block_verified : bool;
  pp_service : option (PersistenceServiceConfig * Z);
}.
Definition PERSISTENCE : string := "persistence-plugin".

Definition PersistencePlugin_new (rx_block_items_received : bool) : PersistencePlugin :=
  MkPersistencePlugin None rx_block_items_received true None.

Definition persistence_initialize (p : PersistencePlugin) (context : Config) w
    : Result CoreError (PersistencePlugin * World) :=
  _ ← ok_or (get_service_provider (w_providers w) TDatabaseManagerProvider)
        (PluginInitialization "DatabaseManagerProvider not found!");
  let cfg := persistence_service (plugins context) in
  let start := core_start_block_number (core context) in
  svc ← from_anyhow (Persistence.initialize cfg start (t_db (w_tiers w)) (t_fs (w_tiers w))
                       (w_listing w));
  let w := spawn ArchiverTask (with_world_tiers w (svc_tiers svc)) in
  let w := provide (BlockWriterProvider cfg start) (provide (BlockReaderProvider cfg start) w) in
  let w := spawn (RegisterCapability ProvidesBlockReader) w in
  Ok (MkPersistencePlugin (Some context) (pp_rx_block_items_received p)
        (pp_rx_block_verified p) (Some (cfg, start)), w).

Definition persistence_start (p : PersistencePlugin) w : Result CoreError (PersistencePlugin * World) :=
  _ ← ok_or (pp_context p) (PluginInitialization "PersistencePlugin not initialized");
  _ ← ok_or (pp_service p) (PluginInitialization "PersistenceService not initialized");
  if pp_rx_block_verified p then
    let w := set_running PERSISTENCE true w in
    Ok (MkPersistencePlugin (pp_context p) false false (pp_service p),
        spawn (PersistenceTask (pp_rx_block_items_received p)) w)
  else Err (PluginInitialization "Block verified receiver not set").

Definition persistence_stop (p : PersistencePlugin) w
    : PersistencePlugin * World * Result CoreError unit :=
  (p, set_running PERSISTENCE false (notify_waiters PERSISTENCE w), Ok tt).

#[export] Instance persistence_plugin : Plugin PersistencePlugin := {|
  plugin_name _ := PERSISTENCE;
  plugin_initialize := persistence_initialize;
  plugin_start := persistence_start;
  plugin_register_grpc_services := no_grpc_services;
  plugin_is_running _ := is_running PERSISTENCE;
  plugin_stop := persistence_stop;
|}.

(** ** rock-node-verifier-plugin/src/lib.rs *)
Record VerifierPlugin := MkVerifierPlugin {
  vp_context : option Config;
  vp_rx_block_items_received : bool;
}.
Definition VERIFIER : string := "verifier-plugin".

Definition VerifierPlugin_new : VerifierPlugin := MkVerifierPlugin None true.

Definition verifier_initialize (p : VerifierPlugin) (context : Config) w
    : Result CoreError (VerifierPlugin * World) :=
  Ok (MkVerifierPlugin (Some context) (vp_rx_block_items_received p),
      spawn (RegisterCapability ProvidesVerifiedBlocks) w).

Definition verifier_start (p : VerifierPlugin) w : Result CoreError (VerifierPlugin * World) :=
  _ ← ok_or (vp_context p) (Other (EOther "VerifierPlugin not initialized"));
  if vp_rx_block_items_received p then
    Ok (MkVerifierPlugin (vp_context p) false, spawn VerifierTask (set_running VERIFIER true w))
  else Err (Other (EOther "VerifierPlugin receiver already taken")).

Definition verifier_stop (p : VerifierPlugin) w : VerifierPlugin * World * Result CoreError unit :=
  (p, set_running VERIFIER false (notify_waiters VERIFIER w), Ok tt).

#[export] Instance verifier_plugin : Plugin VerifierPlugin := {|
  plugin_name _ := VERIFIER;
  plugin_initialize := verifier_initialize;
  plugin_start := verifier_start;
  plugin_register_grpc_services := no_grpc_services;
  plugin_is_running _ := is_running VERIFIER;
  plugin_stop := verifier_stop;
|}.

(** ** rock-node-publish-plugin/src/lib.rs *)
Record PublishPlugin := MkPublishPlugin {
  pub_context : option Config;
  pub_shared_state : bool;
}.
Definition PUBLISH : string := "publish-plugin".

Definition PublishPlugin_new : PublishPlugin := MkPublishPlugin None false.

Definition publish_initialize (p : PublishPlugin) (context : Config) w
    : Result CoreError (PublishPlugin * World) :=
  if negb (publish_enabled (publish_service (plugins context))) then Ok (p, w)
  else
    Ok (MkPublishPlugin (Some context) true,
        with_publish w (initialize_publish SharedState_new (get_reader w))).

Definition publish_start (p : PublishPlugin) w : Result CoreError (PublishPlugin * World) :=
  context ← ok_or (pub_context p) (PluginInitialization "PublishPlugin not initialized");
  let config := publish_service (plugins context) in
  if negb (publish_enabled config) then Ok (p, w)
  else if pub_shared_state p then
    let w := spawn (WinnerCleanupTask (winner_cleanup_interval_seconds config)
                      (winner_cleanup_threshold_blocks config)) w in
    Ok (p, set_running PUBLISH true w)
  else Err (Other EPanic).

Definition publish_register_grpc_services (p : PublishPlugin) w
    : Result CoreError (bool * World) :=
  context ← ok_or (pub_context p) (PluginInitialization "PublishPlugin not initialized");
  if negb (publish_enabled (publish_service (plugins context))) then Ok (false, w)
  else if pub_shared_state p then Ok (true, add_services [BlockStreamPublishService] w)
  else Err (Other EPanic).

Definition publish_stop (p : PublishPlugin) w : PublishPlugin * World * Result CoreError unit :=
  if negb (is_running PUBLISH w) then (p, w, Ok tt)
  else
    let w := if pub_shared_state p then with_sent w (w_sent w ++ stop_publish (w_publish w)) else w in
    (p, set_running PUBLISH false w, Ok tt).

#[export] Instance publish_plugin : Plugin PublishPlugin := {|
  plugin_name _ := PUBLISH;
  plugin_initialize := publish_initialize;
  plugin_start := publish_start;
  plugin_register_grpc_services := publish_register_grpc_services;
  plugin_is_running _ := is_running PUBLISH;
  plugin_stop := publish_stop;
|}.

(** ** rock-node-subscriber-plugin/src/lib.rs *)
Record SubscriberPlugin := MkSubscriberPlugin { sub_context : option Config }.
Definition SUBSCRIBER : string := "subscriber-plugin".

Definition SubscriberPlugin_new : SubscriberPlugin := MkSubscriberPlugin None.

Definition subscriber_initialize (p : SubscriberPlugin) (context : Config) w
    : Result CoreError (SubscriberPlugin * World) :=
  Ok (MkSubscriberPlugin (Some context), w).

Definition subscriber_start (p : SubscriberPlugin) w : Result CoreError (SubscriberPlugin * World) :=
  context ← ok_or (sub_context p) (PluginInitialization "SubscriberPlugin not initialized");
  Ok (p, if subscriber_enabled (subscriber_service (plugins context))
         then set_running SUBSCRIBER true w else w).

Definition subscriber_register_grpc_services (p : SubscriberPlugin) w
    : Result CoreError (bool * World) :=
  context ← ok_or (sub_context p) (PluginInitialization "SubscriberPlugin not initialized");
  if negb (subscriber_enabled (subscriber_service (plugins context))) then Ok (false, w)
  else Ok (true, add_services [BlockStreamSubscribeService] w).

Definition subscriber_stop (p : SubscriberPlugin) w
    : SubscriberPlugin * World * Result CoreError unit :=
  (p, set_running SUBSCRIBER false (notify_waiters SUBSCRIBER w), Ok tt).

#[export] Instance subscriber_plugin : Plugin SubscriberPlugin := {|
  plugin_name _ := SUBSCRIBER;
  plugin_initialize := subscriber_initialize;
  plugin_start := subscriber_start;
  plugin_register_grpc_services := subscriber_register_grpc_services;
  plugin_is_running _ := is_running SUBSCRIBER;
  plugin_stop := subscriber_stop;
|}.

(** service.rs of the subscriber plugin: a call looks up the reader, registers the
    session under the id it drew and spawns its task; when the task ends it removes
    the session again. *)
Inductive SubscribeStatus := SInternal (msg : string).

Definition subscribe_block_stream w (id : Uuid) : World * Result SubscribeStatus unit :=
  match get_reader w with
  | None => (w, Err (SInternal "BlockReaderProvider not found"))
  | Some _ =>
      (spawn (SubscriberTask id) (with_subscribers w ({[id]} ∪ w_subscribers w)), Ok tt)
  end.
Definition subscriber_session_ends w (id : Uuid) : World :=
  with_subscribers w (w_subscribers w ∖ {[id]}).

(** ** rock-node-block-access-plugin/src/lib.rs *)
Record BlockAccessPlugin := MkBlockAccessPlugin { bap_context : option Config }.
Definition BLOCK_ACCESS : string := "block-access-plugin".

Definition BlockAccessPlugin_new : BlockAccessPlugin := MkBlockAccessPlugin None.

Definition block_access_initialize (p : BlockAccessPlugin) (context : Config) w
    : Result CoreError (BlockAccessPlugin * World) :=
  Ok (MkBlockAccessPlugin (Some context), w).

Definition block_access_start (p : BlockAccessPlugin) w
    : Result CoreError (BlockAccessPlugin * World) :=
  context ← ok_or (bap_context p) (PluginInitialization "BlockAccessPlugin not initialized");
  Ok (p, if block_access_enabled (block_access_service (plugins context))
         then set_running BLOCK_ACCESS true w else w).

Definition block_access_register_grpc_services (p : BlockAccessPlugin) w
    : Result CoreError (bool * World) :=
  context ← ok_or (bap_context p) (PluginInitialization "BlockAccessPlugin not initialized");
  if negb (block_access_enabled (block_access_service (plugins context))) then Ok (false, w)
  else
    match get_reader w with
    | Some _ => Ok (true, add_services [BlockAccessService] w)
    | None => Ok (false, w)
    end.

Definition block_access_stop (p : BlockAccessPlugin) w
    : BlockAccessPlugin * World * Result CoreError unit :=
  (p, set_running BLOCK_ACCESS false w, Ok tt).

#[export] Instance block_access_plugin : Plugin BlockAccessPlugin := {|
  plugin_name _ := BLOCK_ACCESS;
  plugin_initialize := block_access_initialize;
  plugin_start := block_access_start;
  plugin_register_grpc_services := block_access_register_grpc_services;
  plugin_is_running _ := is_running BLOCK_ACCESS;
  plugin_stop := block_access_stop;
|}.

(** ** rock-node-server-status-plugin/src/lib.rs *)
Record StatusPlugin := MkStatusPlugin { sp_context : option Config }.
Definition STATUS : string := "status-plugin".

Definition StatusPlugin_new : StatusPlugin := MkStatusPlugin None.

Definition status_initialize (p : StatusPlugin) (context : Config) w
    : Result CoreError (StatusPlugin * World) :=
  Ok (MkStatusPlugin (Some context), w).

Definition status_start (p : StatusPlugin) w : Result CoreError (StatusPlugin * World) :=
  context ← ok_or (sp_context p) (PluginInitialization "StatusPlugin not initialized");
  Ok (p, if server_status_enabled (server_status_service (plugins context))
         then set_running STATUS true w else w).

Definition status_register_grpc_services (p : StatusPlugin) w
    : Result CoreError (bool * World) :=
  context ← ok_or (sp_context p) (PluginInitialization "StatusPlugin not initialized");
  if negb (server_status_enabled (server_status_service (plugins context))) then Ok (false, w)
  else
    match get_reader w with
    | Some _ => Ok (true, add_services [BlockNodeService] w)
    | None => Ok (false, w)
    end.

Definition status_stop (p : StatusPlugin) w : StatusPlugin * World * Result CoreError unit :=
  (p, set_running STATUS false w, Ok tt).

#[export] Instance status_plugin : Plugin StatusPlugin := {|
  plugin_name _ := STATUS;
  plugin_initialize := status_initialize;
  plugin_start := status_start;
  plugin_register_grpc_services := status_register_grpc_services;
  plugin_is_running _ := is_running STATUS;
  plugin_stop := status_stop;
|}.

(** ** rock-node-observability-plugin/src/lib.rs *)
Record ObservabilityPlugin := MkObservabilityPlugin {
  obs_context : option Config;
  obs_shutdown_tx : bool;
}.
Definition OBSERVABILITY : string := "observability-plugin".

Definition ObservabilityPlugin_new : ObservabilityPlugin := MkObservabilityPlugin None false.

(** The HTTP handlers: status and body. *)
Definition health_check : Z * string := (200, "OK").
Definition readiness_check w : Z * string :=
  if negb (is_registered (w_capabilities w) ProvidesBlockReader) then (503, "NOT_READY")
  else (200, "READY").

Definition observability_initialize (p : ObservabilityPlugin) (context : Config) w
    : Result CoreError (ObservabilityPlugin * World) :=
  Ok (MkObservabilityPlugin (Some context) (obs_shutdown_tx p), set_running OBSERVABILITY false w).

Definition observability_start (p : ObservabilityPlugin) w
    : Result CoreError (ObservabilityPlugin * World) :=
  context ← ok_or (obs_context p) (Other (EOther "ObservabilityPlugin not initialized"));
  let config := observability (plugins context) in
  if negb (observability_enabled config) then Ok (p, w)
  else if is_socket_addr (listen_address config) then
    Ok (MkObservabilityPlugin (obs_context p) true,
        spawn (ObservabilityServer (listen_address config)) (set_running OBSERVABILITY true w))
  else Err (Other (EOther "Invalid observability listen address")).

(** [watch::Sender::send] fails when the receiver is gone, and the receiver lives in
    the server's task. *)
Definition server_listening w : bool :=
  existsb (λ t, match t with ObservabilityServer _ => true | _ => false end) (w_tasks w).
Definition observability_stop (p : ObservabilityPlugin) w
    : ObservabilityPlugin * World * Result CoreError unit :=
  if obs_shutdown_tx p && negb (server_listening w) then
    (MkObservabilityPlugin (obs_context p) false, w,
     Err (PluginShutdown "Failed to send shutdown signal to Observability server: receiver dropped."))
  else
    (MkObservabilityPlugin (obs_context p) false,
     set_running OBSERVABILITY false
       (if obs_shutdown_tx p then notify_waiters OBSERVABILITY w else w), Ok tt).

#[export] Instance observability_plugin : Plugin ObservabilityPlugin := {|
  plugin_name _ := OBSERVABILITY;
  plugin_initialize := observability_initialize;
  plugin_start := observability_start;
  plugin_register_grpc_services := no_grpc_services;
  plugin_is_running _ := is_running OBSERVABILITY;
  plugin_stop := observability_stop;
|}.

(** ** rock-node-state-management-plugin/src/plugin.rs *)
Record StateManagementPlugin := MkStateManagementPlugin {
  smp_app_context : option Config;
  smp_state_manager : bool;
  smp_enabled : bool;
}.
Definition STATE_MANAGEMENT : string := "rock-node-state-management-plugin".

Definition StateManagementPlugin_new : StateManagementPlugin :=
  MkStateManagementPlugin None false false.

Definition init_internal (p : StateManagementPlugin) (context : Config) w
    : Result string (StateManagementPlugin * World) :=
  _ ← ok_or (get_service_provider (w_providers w) TDatabaseManagerProvider)
        "DatabaseManagerProvider not found";
  _ ← ok_or (get_reader w) "BlockReaderProvider not found";
  Ok (MkStateManagementPlugin (Some context) true (smp_enabled p), provide StateReaderProvider w).

Definition plugin_initialization {A} (r : Result string A) : Result CoreError A :=
  match r with Ok a => Ok a | Err e => Err (PluginInitialization e) end.

Definition state_initialize (p : StateManagementPlugin) (context : Config) w
    : Result CoreError (StateManagementPlugin * World) :=
  let enabled := state_management_enabled (state_management_service (plugins context)) in
  if negb enabled then
    Ok (MkStateManagementPlugin (Some context) (smp_state_manager p) false, w)
  else
    plugin_initialization
      (init_internal (MkStateManagementPlugin (smp_app_context p) (smp_state_manager p) true)
         context w).

Definition start_internal (p : StateManagementPlugin) w
    : Result string (StateManagementPlugin * World) :=
  context ← ok_or (smp_app_context p) "AppContext not initialized";
  if negb (smp_enabled p) then Ok (p, w)
  else if 0 <? core_start_block_number (core context) then Ok (p, w)
  else if smp_state_manager p then
    Ok (p, spawn StateTask (set_running STATE_MANAGEMENT true w))
  else Err "StateManager not initialized".

Definition state_start (p : StateManagementPlugin) w
    : Result CoreError (StateManagementPlugin * World) :=
  plugin_initialization (start_internal p w).

Definition state_stop (p : StateManagementPlugin) w
    : StateManagementPlugin * World * Result CoreError unit :=
  (p, set_running STATE_MANAGEMENT false (notify_waiters STATE_MANAGEMENT w), Ok tt).

#[export] Instance state_plugin : Plugin StateManagementPlugin := {|
  plugin_name _ := STATE_MANAGEMENT;
  plugin_initialize := state_initialize;
  plugin_start := state_start;
  plugin_register_grpc_services := no_grpc_services;
  plugin_is_running _ := is_running STATE_MANAGEMENT;
  plugin_stop := state_stop;
|}.

(** ** rock-node-query-plugin/src/plugin.rs *)
Record QueryPlugin := MkQueryPlugin { qp_context : option Config }.
Definition QUERY : string := "rock-node-query-plugin".

Definition QueryPlugin_new : QueryPlugin := MkQueryPlugin None.

Definition query_initialize (p : QueryPlugin) (context : Config) w
    : Result CoreError (QueryPlugin * World) :=
  Ok (MkQueryPlugin (Some context), set_running QUERY false w).

Definition query_start (p : QueryPlugin) w : Result CoreError (QueryPlugin * World) :=
  context ← ok_or (qp_context p) (PluginInitialization "QueryPlugin not initialized");
  Ok (p, if query_enabled (query_service (plugins context)) then set_running QUERY true w else w).

Definition query_register_grpc_services (p : QueryPlugin) w
    : Result CoreError (bool * World) :=
  context ← ok_or (qp_context p) (PluginInitialization "QueryPlugin not initialized");
  if negb (query_enabled (query_service (plugins context))) then Ok (false, w)
  else
    match get_service_provider (w_providers w) TStateReaderProvider with
    | Some _ =>
        Ok (true, add_services [CryptoService; FileService; ConsensusService; NetworkService;
                                ScheduleService; TokenService; SmartContractService] w)
    | None => Ok (false, w)
    end.

Definition query_stop (p : QueryPlugin) w : QueryPlugin * World * Result CoreError unit :=
  (p, set_running QUERY false w, Ok tt).

#[export] Instance query_plugin : Plugin QueryPlugin := {|
  plugin_name _ := QUERY;
  plugin_initialize := query_initialize;
  plugin_start := query_start;
  plugin_register_grpc_services := query_register_grpc_services;
  plugin_is_running _ := is_running QUERY;
  plugin_stop := query_stop;
|}.

(** ** rock-node-backfill-plugin/src/lib.rs, and [BackfillWorker::new] of worker.rs *)
Record BackfillPlugin := MkBackfillPlugin { bp_context : option Config }.
Definition BACKFILL : string := "backfill-plugin".

Definition BackfillPlugin_new : BackfillPlugin := MkBackfillPlugin None.

Definition BackfillWorker_new w : Result string unit :=
  _ ← ok_or (get_reader w) "BackfillPlugin requires BlockReaderProvider";
  _ ← ok_or (get_service_provider (w_providers w) TBlockWriterProvider)
        "BackfillPlugin requires BlockWriterProvider";
  _ ← ok_or (get_service_provider (w_providers w) TDatabaseManagerProvider)
        "BackfillPlugin requires DatabaseManagerProvider";
  Ok tt.

Definition backfill_initialize (p : BackfillPlugin) (context : Config) w
    : Result CoreError (BackfillPlugin * World) :=
  Ok (MkBackfillPlugin (Some context), w).

Definition no_peers (peers : list string) : bool :=
  bool_decide (peers = []) || forallb (λ p, bool_decide (p = "")) peers.

Definition backfill_start (p : BackfillPlugin) w : Result CoreError (BackfillPlugin * World) :=
  context ← ok_or (bp_context p) (PluginInitialization "BackfillPlugin not initialized");
  let config := backfill (plugins context) in
  if negb (backfill_enabled config) then Ok (p, w)
  else if no_peers (peers config) then Ok (p, w)
  else
    _ ← plugin_initialization (BackfillWorker_new w);
    Ok (p, spawn (BackfillTask (mode config)) (set_running BACKFILL true w)).

Definition backfill_stop (p : BackfillPlugin) w : BackfillPlugin * World * Result CoreError unit :=
  (p, set_running BACKFILL false (notify_waiters BACKFILL w), Ok tt).

#[export] Instance backfill_plugin : Plugin BackfillPlugin := {|
  plugin_name _ := BACKFILL;
  plugin_initialize := backfill_initialize;
  plugin_start := backfill_start;
  plugin_register_grpc_services := no_grpc_services;
  plugin_is_running _ := is_running BACKFILL;
  plugin_stop := backfill_stop;
|}.
End plugins.
