(* ===== verification/Node.v ===== *)
(** The application: app/rock-node/src/main.rs.  The plugins are assembled,
    initialised, asked for their gRPC services and started, in this order; then the
    tasks they spawned run in any order ([node_step]) until the shutdown stops the
    plugins in reverse. *)
From stdpp Require Import pretty.
From S2P Require Import Prelude Config ConfigFile Database Block StateManager HotTier ColdStorage.
From S2P Require Import Core PersistenceService Archiver Persistence Publish Subscriber.
From S2P Require Import Plugins.

(** [Box<dyn Plugin>] *)
Record BoxPlugin `{RocksDB} := Box {
  box_type : Type;
  box_methods : Plugin box_type;
  box_value : box_type;
}.
Arguments Box {_ _} _ _.

Inductive MainError :=
| ConfigFileNotFound
| SettingsFailed (e : ConfigError)
| ConfigRejected (e : ConfigError)
| LogLevelInvalid
| DatabaseFailed (e : Error)
| GrpcAddressInvalid
| PluginFailed (e : CoreError).

Section main.
Context {RDB : RocksDB} {CODEC : Codec} {V6 : SocketAddrV6}.
Implicit Types (w : World) (b : BoxPlugin) (ps : list BoxPlugin).

Definition name b : string := plugin_name (Plugin := box_methods b) (box_value b).
Definition box_is_running b w : bool :=
  plugin_is_running (Plugin := box_methods b) (box_value b) w.

(** ** Reporting *)
Definition newline : string := String (Ascii.ascii_of_nat 10) "".

Definition format_plugin_list (plugin_names : list string) (status_symbol : string) : string :=
  match plugin_names with
  | [] => "None"
  | _ =>
      String.concat newline
        ((λ n, "  " +:+ status_symbol +:+ " " +:+ n +:+ " - " +:+
               (if bool_decide (status_symbol = "✅") then "OK" else "FAILED")) <$> plugin_names)
  end.

Definition analyze_plugin_startup_results (total_plugins : nat)
    (running_plugins failed_plugins : list string) : string * bool :=
  let all_successful := bool_decide (failed_plugins = []) in
  let message :=
    if all_successful then "✅ All " +:+ pretty total_plugins +:+ " plugins started successfully!"
    else
      "⚠️  Some plugins failed to start:" +:+ newline +:+ format_plugin_list failed_plugins "❌"
      +:+ newline +:+ "✅ " +:+ pretty (length running_plugins) +:+ " plugins running:"
      +:+ newline +:+ format_plugin_list running_plugins "✅" in
  (message, all_successful).

(** The two lists [report_plugin_startup_status] collects, and what it logs. *)
Fixpoint split_running ps w : list string * list string :=
  match ps with
  | [] => ([], [])
  | b :: ps =>
      let '(running, failed) := split_running ps w in
      if box_is_running b w then (name b :: running, failed) else (running, name b :: failed)
  end.

Definition report_plugin_startup_status ps w : list string :=
  let '(running_plugins, failed_plugins) := split_running ps w in
  let '(message, _) :=
    analyze_plugin_startup_results (length ps) running_plugins failed_plugins in
  [message;
   if bool_decide (failed_plugins = []) then "Rock Node running successfully!"
   else "Rock Node running successfully! However, some plugins may not be available!"].

(** ** Steps 4 to 6, and the first check of step 1 *)
Definition validate_config_file_exists (exists_ : bool) : Result MainError unit :=
  if negb exists_ then Err ConfigFileNotFound else Ok tt.

(** The shared services and the context of a new process on the database [db] and the
    archive directory [fs]. *)
Definition build_context (db : DB) (fs : FS) (listing : list fname) : World :=
  MkWorld (<[TDatabaseManagerProvider := DatabaseManagerProvider]> ∅) (MkRegistry ∅)
    (MkTiers db fs ∅) listing SharedState_new ∅ ∅ [] [] [] ∅.

Definition assemble (cfg : Config) : list BoxPlugin :=
  let verification_service_enabled := verification_enabled (verification_service (plugins cfg)) in
  (if verification_service_enabled
   then [Box persistence_plugin (PersistencePlugin_new false); Box verifier_plugin VerifierPlugin_new]
   else [Box persistence_plugin (PersistencePlugin_new true)]) ++
  [Box publish_plugin PublishPlugin_new;
   Box subscriber_plugin SubscriberPlugin_new;
   Box block_access_plugin BlockAccessPlugin_new;
   Box status_plugin StatusPlugin_new;
   Box observability_plugin ObservabilityPlugin_new;
   Box state_plugin StateManagementPlugin_new;
   Box query_plugin QueryPlugin_new;
   Box backfill_plugin BackfillPlugin_new].

(** ** Steps 7 to 9 *)
Fixpoint initialize_all (cfg : Config) ps w : Result CoreError (list BoxPlugin * World) :=
  match ps with
  | [] => Ok ([], w)
  | b :: ps =>
      '(p, w) ← plugin_initialize (Plugin := box_methods b) (box_value b) cfg w;
      '(ps, w) ← initialize_all cfg ps w;
      Ok (Box (box_methods b) p :: ps, w)
  end.

Fixpoint register_all ps w : Result CoreError (bool * World) :=
  match ps with
  | [] => Ok (false, w)
  | b :: ps =>
      '(found, w) ← plugin_register_grpc_services (Plugin := box_methods b) (box_value b) w;
      '(any_service_found, w) ← register_all ps w;
      Ok (found || any_service_found, w)
  end.

Fixpoint start_all ps w : Result CoreError (list BoxPlugin * World) :=
  match ps with
  | [] => Ok ([], w)
  | b :: ps =>
      '(p, w) ← plugin_start (Plugin := box_methods b) (box_value b) w;
      '(ps, w) ← start_all ps w;
      Ok (Box (box_methods b) p :: ps, w)
  end.

Definition plugin_failed {A} (r : Result CoreError A) : Result MainError A :=
  match r with Ok a => Ok a | Err e => Err (PluginFailed e) end.

Definition grpc_listen_address (cfg : Config) : string :=
  grpc_address (core cfg) +:+ ":" +:+ pretty (grpc_port (core cfg)).

Definition boot (cfg : Config) w : Result MainError (list BoxPlugin * World) :=
  '(ps, w) ← plugin_failed (initialize_all cfg (assemble cfg) w);
  _ ← (if is_socket_addr (grpc_listen_address cfg) then Ok tt else Err GrpcAddressInvalid);
  '(any_service_found, w) ← plugin_failed (register_all ps w);
  let w := if any_service_found : bool
           then spawn (GrpcServer (grpc_listen_address cfg) (w_routes w)) w else w in
  plugin_failed (start_all ps w).

(** ** Step 11: the plugins that run are stopped, the last first; the names in the
    order in which they are stopped, and the errors, which are only logged. *)
Definition GRPC : string := "grpc".

Definition stop_plugin b w : World * list string * list CoreError :=
  if box_is_running b w then
    let '(_, w, r) := plugin_stop (Plugin := box_methods b) (box_value b) w in
    (w, [name b], match r with Ok _ => [] | Err e => [e] end)
  else (w, [], []).

Fixpoint stop_plugins ps w : World * list string * list CoreError :=
  match ps with
  | [] => (w, [], [])
  | b :: ps =>
      let '(w, stopped, errors) := stop_plugin b w in
      let '(w, stopped', errors') := stop_plugins ps w in
      (w, stopped ++ stopped', errors ++ errors')
  end.

Definition shutdown ps w : World * list string * list CoreError :=
  stop_plugins (rev ps) (notify_waiters GRPC w).

(** ** The tasks *)

(** The start of the persistence task: whether verified blocks come is read once. *)
Definition persistence_stream (r : CapabilityRegistry) (rx_items : bool) : option Stream :=
  let use_verified_stream := is_registered r ProvidesVerifiedBlocks in
  if use_verified_stream then Some VerifiedStream
  else if rx_items then Some UnverifiedStream
  else None.

(** The plugin whose running flag a task clears when it ends. *)
Definition task_owner (t : Task) : option string :=
  match t with
  | PersistenceLoop _ => Some PERSISTENCE
  | VerifierTask => Some VERIFIER
  | StateTask => Some STATE_MANAGEMENT
  | BackfillTask _ => Some BACKFILL
  | ObservabilityServer _ => Some OBSERVABILITY
  | _ => None
  end.

Inductive node_step : World → World → Prop :=
| step_capability w l1 c l2 :
    w_tasks w = l1 ++ RegisterCapability c :: l2 →
    node_step w (with_capabilities (with_tasks w (l1 ++ l2)) (register (w_capabilities w) c))
| step_persistence_begins w l1 rx l2 s :
    w_tasks w = l1 ++ PersistenceTask rx :: l2 →
    persistence_stream (w_capabilities w) rx = Some s →
    node_step w (with_tasks w (l1 ++ PersistenceLoop s :: l2))
| step_persistence_without_stream w l1 rx l2 :
    w_tasks w = l1 ++ PersistenceTask rx :: l2 →
    persistence_stream (w_capabilities w) rx = None →
    node_step w (set_running PERSISTENCE false (with_tasks w (l1 ++ l2)))
| step_task_ends w l1 t l2 owner :
    w_tasks w = l1 ++ t :: l2 → task_owner t = Some owner →
    node_step w (set_running owner false (with_tasks w (l1 ++ l2)))
| step_archiver_ends w l1 l2 :
    w_tasks w = l1 ++ ArchiverTask :: l2 → PERSISTENCE ∈ w_signalled w →
    node_step w (with_tasks w (l1 ++ l2))
| step_publishers w sh :
    BlockStreamPublishService ∈ w_routes w → node_step w (with_publish w sh)
| step_subscribe w id :
    BlockStreamSubscribeService ∈ w_routes w → id ∉ w_subscribers w →
    node_step w (subscribe_block_stream w id).1
| step_subscriber_ends w l1 id l2 :
    w_tasks w = l1 ++ SubscriberTask id :: l2 →
    node_step w (subscriber_session_ends (with_tasks w (l1 ++ l2)) id)
| step_storage w st : node_step w (with_world_tiers w st).
End main.

(** ** Provider table *)
Lemma get_register_eq (m : Providers) p :
  get_service_provider (register_service_provider m p) (type_id p) = Some p.
Proof.
  unfold get_service_provider, register_service_provider, downcast.
  rewrite lookup_insert_eq. cbn. by rewrite decide_True.
Qed.

Lemma get_register_ne (m : Providers) p t : type_id p ≠ t →
  get_service_provider (register_service_provider m p) t = get_service_provider m t.
Proof.
  intros H. unfold get_service_provider, register_service_provider.
  by rewrite lookup_insert_ne.
Qed.

(** ** What a boot does, phase by phase *)
Section boot_theory.
Context {RDB : RocksDB} {CODEC : Codec} {V6 : SocketAddrV6}.
Implicit Types (w : World) (ps : list BoxPlugin).

Definition when_on (on : bool) (f : World → World) w : World := if on then f w else w.

Lemma when_on_proj {A} (proj : World → A) on f w :
  (∀ w, proj (f w) = proj w) → proj (when_on on f w) = proj w.
Proof. destruct on; cbn; auto. Qed.

Definition sw_verification (cfg : Config) := verification_enabled (verification_service (plugins cfg)).
Definition sw_publish (cfg : Config) := publish_enabled (publish_service (plugins cfg)).
Definition sw_subscriber (cfg : Config) := subscriber_enabled (subscriber_service (plugins cfg)).
Definition sw_block_access (cfg : Config) := block_access_enabled (block_access_service (plugins cfg)).
Definition sw_status (cfg : Config) := server_status_enabled (server_status_service (plugins cfg)).
Definition sw_observability (cfg : Config) := observability_enabled (observability (plugins cfg)).
Definition sw_state (cfg : Config) := state_management_enabled (state_management_service (plugins cfg)).
Definition sw_query (cfg : Config) := query_enabled (query_service (plugins cfg)).
Definition sw_backfill (cfg : Config) :=
  backfill_enabled (backfill (plugins cfg)) && negb (no_peers (peers (backfill (plugins cfg)))).
(** The state plugin follows the chain only from its first block. *)
Definition sw_state_runs (cfg : Config) :=
  sw_state cfg && negb (0 <? core_start_block_number (core cfg)).

(** The plugins after [initialize] and after [start]. *)
Definition plugins_in (started : bool) (cfg : Config) : list BoxPlugin :=
  let pcfg := persistence_service (plugins cfg) in
  let start := core_start_block_number (core cfg) in
  let v := sw_verification cfg in
  [Box persistence_plugin (MkPersistencePlugin (Some cfg) (negb started && negb v) (negb started)
     (Some (pcfg, start)))] ++
  (if v then [Box verifier_plugin (MkVerifierPlugin (Some cfg) (negb started))] else []) ++
  [Box publish_plugin (MkPublishPlugin (Some cfg) true);
   Box subscriber_plugin (MkSubscriberPlugin (Some cfg));
   Box block_access_plugin (MkBlockAccessPlugin (Some cfg));
   Box status_plugin (MkStatusPlugin (Some cfg));
   Box observability_plugin (MkObservabilityPlugin (Some cfg) (started && sw_observability cfg));
   Box state_plugin (MkStateManagementPlugin (Some cfg) (sw_state cfg) (sw_state cfg));
   Box query_plugin (MkQueryPlugin (Some cfg));
   Box backfill_plugin (MkBackfillPlugin (Some cfg))].

(** The world when the first one or two plugins are initialised. *)
Definition storage_ready (cfg : Config) (svc : Service) w : World :=
  let pcfg := persistence_service (plugins cfg) in
  let start := core_start_block_number (core cfg) in
  let w := spawn ArchiverTask (with_world_tiers w (svc_tiers svc)) in
  let w := provide (BlockWriterProvider pcfg start) (provide (BlockReaderProvider pcfg start) w) in
  let w := spawn (RegisterCapability ProvidesBlockReader) w in
  when_on (sw_verification cfg) (spawn (RegisterCapability ProvidesVerifiedBlocks)) w.

(** The world after step 7. *)
Definition initialized (cfg : Config) (svc : Service) w : World :=
  let w := storage_ready cfg svc w in
  let w := with_publish w (initialize_publish SharedState_new (Some svc)) in
  let w := set_running OBSERVABILITY false w in
  let w := when_on (sw_state cfg) (provide StateReaderProvider) w in
  set_running QUERY false w.
#[local] Arguments storage_ready : simpl never.
#[local] Arguments initialized : simpl never.

Lemma initialize_all_app cfg ps1 ps2 w :
  initialize_all cfg (ps1 ++ ps2) w =
  ('(ps1, w) ← initialize_all cfg ps1 w;
   '(ps2, w) ← initialize_all cfg ps2 w; Ok (ps1 ++ ps2, w)).
Proof.
  revert w. induction ps1 as [|b ps1 IH]; intros w; cbn.
  { by destruct (initialize_all cfg ps2 w) as [[]|]. }
  destruct (plugin_initialize _ _ _) as [[p w1]|]; cbn; [|done].
  rewrite IH. destruct (initialize_all cfg ps1 w1) as [[ps1' w2]|]; cbn; [|done].
  by destruct (initialize_all cfg ps2 w2) as [[]|].
Qed.
Lemma initialize_settings pcfg start db fs listing svc :
  Persistence.initialize pcfg start db fs listing = Ok svc →
  svc = MkService pcfg start (svc_tiers svc).
Proof. unfold Persistence.initialize. intros H. ok_inv. by subst. Qed.

(** What the node needs to start: a database provider, and storage that opens. *)
Definition opens (cfg : Config) w (svc : Service) : Prop :=
  is_Some (get_service_provider (w_providers w) TDatabaseManagerProvider) ∧
  Persistence.initialize (persistence_service (plugins cfg)) (core_start_block_number (core cfg))
    (t_db (w_tiers w)) (t_fs (w_tiers w)) (w_listing w) = Ok svc.

Lemma storage_ready_providers cfg svc w :
  w_providers (storage_ready cfg svc w)
  = register_service_provider (register_service_provider (w_providers w)
      (BlockReaderProvider (persistence_service (plugins cfg)) (core_start_block_number (core cfg))))
      (BlockWriterProvider (persistence_service (plugins cfg)) (core_start_block_number (core cfg))).
Proof. unfold storage_ready. by rewrite (when_on_proj w_providers). Qed.

Lemma storage_ready_reader cfg svc w : opens cfg w svc →
  get_reader (storage_ready cfg svc w) = Some svc.
Proof.
  intros [_ Hs]. unfold get_reader. rewrite storage_ready_providers, get_register_ne by done.
  rewrite (get_register_eq _ (BlockReaderProvider _ _)). cbn.
  unfold storage_ready. rewrite (when_on_proj w_tiers) by done. cbn.
  by rewrite <-(initialize_settings _ _ _ _ _ _ Hs).
Qed.

Lemma storage_ready_database cfg svc w : opens cfg w svc →
  is_Some (get_service_provider (w_providers (storage_ready cfg svc w)) TDatabaseManagerProvider).
Proof. intros [H _]. by rewrite storage_ready_providers, !get_register_ne. Qed.

Lemma initialize_storage cfg w svc : opens cfg w svc →
  initialize_all cfg
    (if sw_verification cfg
     then [Box persistence_plugin (PersistencePlugin_new false); Box verifier_plugin VerifierPlugin_new]
     else [Box persistence_plugin (PersistencePlugin_new true)]) w
  = Ok ([Box persistence_plugin (MkPersistencePlugin (Some cfg) (negb (sw_verification cfg)) true
          (Some (persistence_service (plugins cfg), core_start_block_number (core cfg))))] ++
        (if sw_verification cfg then [Box verifier_plugin (MkVerifierPlugin (Some cfg) true)] else []),
        storage_ready cfg svc w).
Proof.
  intros [[pd Hpd] Hsvc]. unfold storage_ready.
  destruct (sw_verification cfg); cbn; unfold persistence_initialize; by rewrite Hpd, Hsvc.
Qed.

Lemma initialize_all_ok cfg w svc : opens cfg w svc → sw_publish cfg = true →
  initialize_all cfg (assemble cfg) w = Ok (plugins_in false cfg, initialized cfg svc w).
Proof.
  intros Ho Hpub. unfold assemble. fold (sw_verification cfg).
  rewrite initialize_all_app, (initialize_storage _ _ _ Ho).
  pose proof (storage_ready_reader _ _ _ Ho) as Hr.
  destruct (storage_ready_database _ _ _ Ho) as [pd Hd].
  unfold plugins_in, initialized.
  set (w1 := storage_ready cfg svc w) in *. clearbody w1.
  cbn -[app]. unfold publish_initialize. fold (sw_publish cfg). rewrite Hpub, Hr. cbn -[app].
  unfold state_initialize. fold (sw_state cfg).
  destruct (sw_state cfg); cbn -[app].
  - unfold init_internal. cbn -[app]. rewrite Hd. cbn -[app].
    unfold get_reader in Hr |- *. cbn -[app] in Hr |- *.
    destruct (get_service_provider (w_providers w1) TBlockReaderProvider) as [[]|]; try done;
      cbn -[app]; by destruct (sw_verification cfg).
  - by destruct (sw_verification cfg).
Qed.

Lemma initialized_reader cfg w svc : opens cfg w svc → get_reader (initialized cfg svc w) = Some svc.
Proof.
  intros H%storage_ready_reader. rewrite <-H. unfold initialized, get_reader.
  destruct (sw_state cfg); cbn; [|done]. by rewrite get_register_ne.
Qed.

Lemma initialized_provider cfg w svc t : t ≠ TStateReaderProvider →
  get_service_provider (w_providers (initialized cfg svc w)) t
  = get_service_provider (w_providers (storage_ready cfg svc w)) t.
Proof.
  intros H. unfold initialized. destruct (sw_state cfg); cbn; [|done]. by rewrite get_register_ne.
Qed.

Lemma initialized_state_reader cfg w svc :
  get_service_provider (w_providers w) TStateReaderProvider = None →
  get_service_provider (w_providers (initialized cfg svc w)) TStateReaderProvider
  = if sw_state cfg then Some StateReaderProvider else None.
Proof.
  intros H. unfold initialized. destruct (sw_state cfg); cbn.
  - by rewrite (get_register_eq _ StateReaderProvider).
  - by rewrite storage_ready_providers, !get_register_ne.
Qed.

Definition query_services : list GrpcService :=
  [CryptoService; FileService; ConsensusService; NetworkService; ScheduleService; TokenService;
   SmartContractService].

(** The services of the enabled plugins, in the order in which they are registered. *)
Definition services (cfg : Config) : list GrpcService :=
  [BlockStreamPublishService] ++
  (if sw_subscriber cfg then [BlockStreamSubscribeService] else []) ++
  (if sw_block_access cfg then [BlockAccessService] else []) ++
  (if sw_status cfg then [BlockNodeService] else []) ++
  (if sw_query cfg && sw_state cfg then query_services else []).

Lemma add_services_app s s' w :
  add_services s' (add_services s w) = add_services (s ++ s') w.
Proof. unfold add_services, with_routes. cbn. by rewrite app_assoc. Qed.

Lemma register_all_cons b ps w on s any w' :
  plugin_register_grpc_services (Plugin := box_methods b) (box_value b) w
    = Ok (on, add_services s w) →
  register_all ps (add_services s w) = Ok (any, w') →
  register_all (b :: ps) w = Ok (on || any, w').
Proof. intros H1 H2. cbn. rewrite H1. cbn. by rewrite H2. Qed.

Lemma add_no_services w : add_services [] w = w.
Proof. destruct w. unfold add_services, with_routes. cbn. by rewrite app_nil_r. Qed.

Lemma register_all_ok cfg w svc : sw_publish cfg = true → get_reader w = Some svc →
  get_service_provider (w_providers w) TStateReaderProvider
    = (if sw_state cfg then Some StateReaderProvider else None) →
  register_all (plugins_in false cfg) w = Ok (true, add_services (services cfg) w).
Proof.
  intros Hpub Hr Hs.
  assert (∃ any, register_all
    [Box publish_plugin (MkPublishPlugin (Some cfg) true);
     Box subscriber_plugin (MkSubscriberPlugin (Some cfg));
     Box block_access_plugin (MkBlockAccessPlugin (Some cfg));
     Box status_plugin (MkStatusPlugin (Some cfg));
     Box observability_plugin (MkObservabilityPlugin (Some cfg) false);
     Box state_plugin (MkStateManagementPlugin (Some cfg) (sw_state cfg) (sw_state cfg));
     Box query_plugin (MkQueryPlugin (Some cfg));
     Box backfill_plugin (MkBackfillPlugin (Some cfg))] w
    = Ok (true || any, add_services (services cfg) w)) as [any E].
  { eexists. unfold services. rewrite <-!add_services_app.
    eapply register_all_cons.
    { cbn. unfold publish_register_grpc_services. cbn. fold (sw_publish cfg). by rewrite Hpub. }
    eapply (register_all_cons _ _ _ (sw_subscriber cfg)
      (if sw_subscriber cfg then [BlockStreamSubscribeService] else [])).
    { cbn. unfold subscriber_register_grpc_services. cbn. fold (sw_subscriber cfg).
      destruct (sw_subscriber cfg); cbn; [done|by rewrite add_no_services]. }
    eapply (register_all_cons _ _ _ (sw_block_access cfg)
      (if sw_block_access cfg then [BlockAccessService] else [])).
    { cbn. unfold block_access_register_grpc_services. cbn. fold (sw_block_access cfg).
      change (get_reader _) with (get_reader w). rewrite Hr.
      destruct (sw_block_access cfg); cbn; [done|by rewrite add_no_services]. }
    eapply (register_all_cons _ _ _ (sw_status cfg)
      (if sw_status cfg then [BlockNodeService] else [])).
    { cbn. unfold status_register_grpc_services. cbn. fold (sw_status cfg).
      change (get_reader _) with (get_reader w). rewrite Hr.
      destruct (sw_status cfg); cbn; [done|by rewrite add_no_services]. }
    eapply (register_all_cons _ _ _ false []); [by rewrite !add_no_services|].
    eapply (register_all_cons _ _ _ false []); [by rewrite !add_no_services|].
    eapply (register_all_cons _ _ _ (sw_query cfg && sw_state cfg)
      (if sw_query cfg && sw_state cfg then query_services else [])).
    { cbn. unfold query_register_grpc_services. cbn. fold (sw_query cfg).
      rewrite Hs.
      destruct (sw_query cfg), (sw_state cfg); cbn; try done; by rewrite !add_no_services. }
    rewrite !add_no_services. done. }
  unfold plugins_in. cbn in E |- *.
  destruct (sw_verification cfg); cbn; rewrite E; done.
Qed.
(** The world after step 9: the services behind the pipeline, then all. *)
Definition start_services (cfg : Config) w : World :=
  let pub := publish_service (plugins cfg) in
  let w := spawn (WinnerCleanupTask (winner_cleanup_interval_seconds pub)
                    (winner_cleanup_threshold_blocks pub)) w in
  let w := set_running PUBLISH true w in
  let w := when_on (sw_subscriber cfg) (set_running SUBSCRIBER true) w in
  let w := when_on (sw_block_access cfg) (set_running BLOCK_ACCESS true) w in
  let w := when_on (sw_status cfg) (set_running STATUS true) w in
  let w := when_on (sw_observability cfg)
             (λ w, spawn (ObservabilityServer (listen_address (observability (plugins cfg))))
                     (set_running OBSERVABILITY true w)) w in
  let w := when_on (sw_state_runs cfg)
             (λ w, spawn StateTask (set_running STATE_MANAGEMENT true w)) w in
  let w := when_on (sw_query cfg) (set_running QUERY true) w in
  when_on (sw_backfill cfg)
    (λ w, spawn (BackfillTask (mode (backfill (plugins cfg)))) (set_running BACKFILL true w)) w.

Definition started (cfg : Config) w : World :=
  let w := spawn (PersistenceTask (negb (sw_verification cfg))) (set_running PERSISTENCE true w) in
  let w := when_on (sw_verification cfg)
             (λ w, spawn VerifierTask (set_running VERIFIER true w)) w in
  start_services cfg w.

Lemma start_all_app ps1 ps2 w :
  start_all (ps1 ++ ps2) w =
  ('(ps1, w) ← start_all ps1 w; '(ps2, w) ← start_all ps2 w; Ok (ps1 ++ ps2, w)).
Proof.
  revert w. induction ps1 as [|b ps1 IH]; intros w; cbn.
  { by destruct (start_all ps2 w) as [[]|]. }
  destruct (plugin_start _ _) as [[p w1]|]; cbn; [|done].
  rewrite IH. destruct (start_all ps1 w1) as [[ps1' w2]|]; cbn; [|done].
  by destruct (start_all ps2 w2) as [[]|].
Qed.

Lemma start_all_cons b p ps ps' w w1 w2 :
  plugin_start (Plugin := box_methods b) (box_value b) w = Ok (p, w1) →
  start_all ps w1 = Ok (ps', w2) →
  start_all (b :: ps) w = Ok (Box (box_methods b) p :: ps', w2).
Proof. intros H1 H2. cbn. rewrite H1. cbn. by rewrite H2. Qed.

Lemma start_all_flag b on n p ps ps' w w2 :
  plugin_start (Plugin := box_methods b) (box_value b) w
    = Ok (p, if on : bool then set_running n true w else w) →
  start_all ps (when_on on (set_running n true) w) = Ok (ps', w2) →
  start_all (b :: ps) w = Ok (Box (box_methods b) p :: ps', w2).
Proof. apply start_all_cons. Qed.

Lemma started_storage cfg w :
  start_all
    ([Box persistence_plugin (MkPersistencePlugin (Some cfg) (negb false && negb (sw_verification cfg))
        (negb false) (Some (persistence_service (plugins cfg), core_start_block_number (core cfg))))] ++
     (if sw_verification cfg then [Box verifier_plugin (MkVerifierPlugin (Some cfg) (negb false))]
      else [])) w
  = Ok ([Box persistence_plugin (MkPersistencePlugin (Some cfg) false false
        (Some (persistence_service (plugins cfg), core_start_block_number (core cfg))))] ++
     (if sw_verification cfg then [Box verifier_plugin (MkVerifierPlugin (Some cfg) false)] else []),
     when_on (sw_verification cfg) (λ w, spawn VerifierTask (set_running VERIFIER true w))
       (spawn (PersistenceTask (negb (sw_verification cfg))) (set_running PERSISTENCE true w))).
Proof. by destruct (sw_verification cfg). Qed.

Lemma BackfillWorker_new_ok w :
  is_Some (get_reader w) →
  is_Some (get_service_provider (w_providers w) TBlockWriterProvider) →
  is_Some (get_service_provider (w_providers w) TDatabaseManagerProvider) →
  BackfillWorker_new w = Ok tt.
Proof. intros [? H1] [? H2] [? H3]. unfold BackfillWorker_new. by rewrite H1, H2, H3. Qed.

Lemma get_reader_proj w w' : w_providers w = w_providers w' → w_tiers w = w_tiers w' →
  get_reader w = get_reader w'.
Proof. intros E1 E2. unfold get_reader. by rewrite E1, E2. Qed.

Lemma observability_start_ok cfg w :
  (sw_observability cfg = true →
   is_socket_addr (listen_address (observability (plugins cfg))) = true) →
  observability_start (MkObservabilityPlugin (Some cfg) false) w
  = Ok (MkObservabilityPlugin (Some cfg) (sw_observability cfg),
        when_on (sw_observability cfg)
          (λ w, spawn (ObservabilityServer (listen_address (observability (plugins cfg))))
                  (set_running OBSERVABILITY true w)) w).
Proof.
  intros H. unfold observability_start. cbn. fold (sw_observability cfg).
  destruct (sw_observability cfg); cbn; [by rewrite H|done].
Qed.

Lemma state_start_ok cfg w :
  state_start (MkStateManagementPlugin (Some cfg) (sw_state cfg) (sw_state cfg)) w
  = Ok (MkStateManagementPlugin (Some cfg) (sw_state cfg) (sw_state cfg),
        when_on (sw_state_runs cfg)
          (λ w, spawn StateTask (set_running STATE_MANAGEMENT true w)) w).
Proof.
  unfold state_start, start_internal, sw_state_runs. cbn.
  by destruct (sw_state cfg), (0 <? core_start_block_number (core cfg)).
Qed.

Lemma backfill_start_ok cfg w :
  is_Some (get_reader w) →
  is_Some (get_service_provider (w_providers w) TBlockWriterProvider) →
  is_Some (get_service_provider (w_providers w) TDatabaseManagerProvider) →
  backfill_start (MkBackfillPlugin (Some cfg)) w
  = Ok (MkBackfillPlugin (Some cfg),
        when_on (sw_backfill cfg)
          (λ w, spawn (BackfillTask (mode (backfill (plugins cfg)))) (set_running BACKFILL true w)) w).
Proof.
  intros H1 H2 H3. unfold backfill_start, sw_backfill. cbn.
  destruct (backfill_enabled _), (no_peers _); cbn; try done.
  by rewrite BackfillWorker_new_ok.
Qed.

Lemma start_all_ok cfg w : sw_publish cfg = true →
  (sw_observability cfg = true →
   is_socket_addr (listen_address (observability (plugins cfg))) = true) →
  is_Some (get_reader w) →
  is_Some (get_service_provider (w_providers w) TBlockWriterProvider) →
  is_Some (get_service_provider (w_providers w) TDatabaseManagerProvider) →
  start_all (plugins_in false cfg) w = Ok (plugins_in true cfg, started cfg w).
Proof.
  intros Hpub Hobs Hr Hw Hd. unfold plugins_in.
  rewrite app_assoc, start_all_app, started_storage. cbn [mbind Result_bind].
  unfold started. rewrite app_assoc.
  set (w1 := when_on (sw_verification cfg) (λ w, spawn VerifierTask (set_running VERIFIER true w)) _).
  assert (w_providers w1 = w_providers w ∧ w_tiers w1 = w_tiers w) as [Ep Et]
    by (subst w1; rewrite (when_on_proj w_providers), (when_on_proj w_tiers) by done; done).
  clearbody w1.
  match goal with |- context [start_all ?l w1] => assert (start_all l w1 = Ok (
    [Box publish_plugin (MkPublishPlugin (Some cfg) true);
     Box subscriber_plugin (MkSubscriberPlugin (Some cfg));
     Box block_access_plugin (MkBlockAccessPlugin (Some cfg));
     Box status_plugin (MkStatusPlugin (Some cfg));
     Box observability_plugin (MkObservabilityPlugin (Some cfg) (sw_observability cfg));
     Box state_plugin (MkStateManagementPlugin (Some cfg) (sw_state cfg) (sw_state cfg));
     Box query_plugin (MkQueryPlugin (Some cfg));
     Box backfill_plugin (MkBackfillPlugin (Some cfg))],
    start_services cfg w1)) as -> end.
  { unfold start_services.
    eapply start_all_cons.
    { cbn. unfold publish_start. cbn. fold (sw_publish cfg). by rewrite Hpub. }
    do 3 (eapply start_all_flag; [reflexivity|]).
    eapply start_all_cons; [by apply observability_start_ok|].
    eapply start_all_cons; [apply state_start_ok|].
    eapply start_all_flag; [reflexivity|].
    eapply start_all_cons; [|reflexivity].
    match goal with |- plugin_start _ ?w9 = _ => assert (w_providers w9 = w_providers w ∧
      w_tiers w9 = w_tiers w) as [Ep9 Et9]
      by (rewrite !(when_on_proj w_providers), !(when_on_proj w_tiers) by done; done);
      apply (backfill_start_ok cfg w9); [by rewrite (get_reader_proj _ w)|by rewrite Ep9..] end. }
  cbn. done.
Qed.
(** The node when [main] waits for the shutdown signal. *)
Definition booted (cfg : Config) (svc : Service) w : World :=
  let w := add_services (services cfg) (initialized cfg svc w) in
  started cfg (spawn (GrpcServer (grpc_listen_address cfg) (w_routes w)) w).

(** A new process: only the database is there. *)
Definition blank w : Prop :=
  get_service_provider (w_providers w) TStateReaderProvider = None ∧
  w_capabilities w = MkRegistry ∅ ∧ w_routes w = [] ∧ w_tasks w = [] ∧ w_running w = ∅ ∧
  w_subscribers w = ∅.

Definition valid_addresses (cfg : Config) : Prop :=
  is_socket_addr (grpc_listen_address cfg) = true ∧
  (sw_observability cfg = true →
   is_socket_addr (listen_address (observability (plugins cfg))) = true).

Lemma build_context_blank db fs listing : blank (build_context db fs listing).
Proof.
  unfold blank, build_context, get_service_provider. cbn.
  by rewrite lookup_insert_ne, lookup_empty.
Qed.

Lemma build_context_opens cfg db fs listing svc :
  Persistence.initialize (persistence_service (plugins cfg)) (core_start_block_number (core cfg))
    db fs listing = Ok svc →
  opens cfg (build_context db fs listing) svc.
Proof.
  intros H. split; [|done]. unfold get_service_provider. cbn.
  rewrite lookup_insert_eq. cbn. by eexists.
Qed.

Lemma boot_ok cfg w svc : opens cfg w svc → blank w → sw_publish cfg = true →
  valid_addresses cfg → boot cfg w = Ok (plugins_in true cfg, booted cfg svc w).
Proof.
  intros Ho (Hs & _) Hpub [Ha Hobs]. unfold boot.
  rewrite (initialize_all_ok _ _ _ Ho Hpub). cbn [mbind Result_bind plugin_failed]. rewrite Ha.
  cbn [mbind Result_bind plugin_failed].
  rewrite (register_all_ok cfg _ svc Hpub (initialized_reader _ _ _ Ho)
    (initialized_state_reader cfg w svc Hs)).
  cbn [mbind Result_bind plugin_failed]. rewrite start_all_ok; [done|done|done|..].
  - by eexists; apply (initialized_reader _ _ _ Ho).
  - cbn. rewrite initialized_provider, storage_ready_providers by done.
    by rewrite (get_register_eq _ (BlockWriterProvider _ _)).
  - cbn. rewrite initialized_provider by done. by apply storage_ready_database.
Qed.

(** The names of the plugins that run, in the order of the plugin list. *)
Definition running_names (cfg : Config) : list string :=
  [PERSISTENCE] ++ (if sw_verification cfg then [VERIFIER] else []) ++ [PUBLISH] ++
  (if sw_subscriber cfg then [SUBSCRIBER] else []) ++
  (if sw_block_access cfg then [BLOCK_ACCESS] else []) ++
  (if sw_status cfg then [STATUS] else []) ++
  (if sw_observability cfg then [OBSERVABILITY] else []) ++
  (if sw_state_runs cfg then [STATE_MANAGEMENT] else []) ++
  (if sw_query cfg then [QUERY] else []) ++
  (if sw_backfill cfg then [BACKFILL] else []).

Lemma when_on_flag on n f w : (∀ w, w_running (f w) = {[n]} ∪ w_running w) →
  w_running (when_on on f w) = list_to_set (if on : bool then [n] else []) ∪ w_running w.
Proof. intros H. destruct on; cbn; [rewrite H; set_solver|set_solver]. Qed.

Lemma started_running cfg w :
  w_running (started cfg w) = list_to_set (running_names cfg) ∪ w_running w.
Proof.
  unfold started, start_services, running_names.
  rewrite (when_on_flag _ BACKFILL), (when_on_flag _ QUERY), (when_on_flag _ STATE_MANAGEMENT),
    (when_on_flag _ OBSERVABILITY), (when_on_flag _ STATUS), (when_on_flag _ BLOCK_ACCESS),
    (when_on_flag _ SUBSCRIBER) by done.
  cbn [w_running set_running with_running spawn with_tasks].
  rewrite (when_on_flag _ VERIFIER) by done. cbn [w_running set_running with_running spawn with_tasks].
  rewrite !list_to_set_app_L. set_solver.
Qed.

Lemma initialized_running cfg svc w : w_running w = ∅ → w_running (initialized cfg svc w) = ∅.
Proof.
  intros H. unfold initialized, storage_ready. cbn.
  rewrite (when_on_proj w_running) by done. cbn. rewrite (when_on_proj w_running) by done. cbn.
  rewrite H. set_solver.
Qed.

Lemma booted_running cfg svc w : blank w →
  w_running (booted cfg svc w) = list_to_set (running_names cfg).
Proof.
  intros (_ & _ & _ & _ & H & _). unfold booted. rewrite started_running. cbn [w_running spawn
    with_tasks add_services with_routes]. rewrite initialized_running by done. set_solver.
Qed.

Lemma started_proj {A} (proj : World → A) cfg w :
  (∀ t w, proj (spawn t w) = proj w) → (∀ n w, proj (set_running n true w) = proj w) →
  proj (started cfg w) = proj w.
Proof.
  intros H1 H2. unfold started, start_services.
  rewrite !(when_on_proj proj) by (intros; by rewrite ?H1, ?H2).
  rewrite H2, H1, (when_on_proj proj) by (intros; by rewrite H1, H2). by rewrite H1, H2.
Qed.

Lemma booted_routes cfg svc w : blank w → w_routes (booted cfg svc w) = services cfg.
Proof.
  intros (_ & _ & H & _). unfold booted. rewrite (started_proj w_routes) by done. cbn.
  unfold initialized, storage_ready. cbn. rewrite (when_on_proj w_routes) by done. cbn.
  rewrite (when_on_proj w_routes) by done. cbn. by rewrite H.
Qed.

Lemma booted_reader cfg svc w : opens cfg w svc → get_reader (booted cfg svc w) = Some svc.
Proof.
  intros H. rewrite <-(initialized_reader cfg w svc H). apply get_reader_proj.
  - unfold booted. by rewrite (started_proj w_providers).
  - unfold booted. by rewrite (started_proj w_tiers).
Qed.

Lemma booted_capabilities cfg svc w : blank w → w_capabilities (booted cfg svc w) = MkRegistry ∅.
Proof.
  intros (_ & H & _). unfold booted. rewrite (started_proj w_capabilities) by done. cbn.
  unfold initialized, storage_ready. cbn. rewrite (when_on_proj w_capabilities) by done. cbn.
  by rewrite (when_on_proj w_capabilities).
Qed.

(** The tasks a boot leaves, in the order of their creation. *)
Definition boot_tasks (cfg : Config) : list Task :=
  [ArchiverTask; RegisterCapability ProvidesBlockReader] ++
  (if sw_verification cfg then [RegisterCapability ProvidesVerifiedBlocks] else []) ++
  [GrpcServer (grpc_listen_address cfg) (services cfg);
   PersistenceTask (negb (sw_verification cfg))] ++
  (if sw_verification cfg then [VerifierTask] else []) ++
  [WinnerCleanupTask (winner_cleanup_interval_seconds (publish_service (plugins cfg)))
     (winner_cleanup_threshold_blocks (publish_service (plugins cfg)))] ++
  (if sw_observability cfg then [ObservabilityServer (listen_address (observability (plugins cfg)))]
   else []) ++
  (if sw_state_runs cfg then [StateTask] else []) ++
  (if sw_backfill cfg then [BackfillTask (mode (backfill (plugins cfg)))] else []).

Lemma when_on_spawn on t f w : (∀ w, w_tasks (f w) = w_tasks w ++ [t]) →
  w_tasks (when_on on f w) = w_tasks w ++ (if on : bool then [t] else []).
Proof. intros H. destruct on; cbn; [by rewrite H|]. by rewrite app_nil_r. Qed.

Lemma booted_tasks cfg svc w : blank w → w_tasks (booted cfg svc w) = boot_tasks cfg.
Proof.
  intros Hb. pose proof Hb as (_ & _ & Hr & H & _). unfold booted, started, start_services, boot_tasks.
  rewrite (when_on_spawn _ (BackfillTask (mode (backfill (plugins cfg))))) by done.
  rewrite (when_on_proj w_tasks) by done. rewrite (when_on_spawn _ StateTask) by done.
  rewrite (when_on_spawn _ (ObservabilityServer (listen_address (observability (plugins cfg))))) by done.
  rewrite !(when_on_proj w_tasks) by done. cbn [w_tasks set_running with_running spawn with_tasks].
  rewrite (when_on_spawn _ VerifierTask) by done. cbn [w_tasks set_running with_running spawn with_tasks
    add_services with_routes w_routes].
  unfold initialized, storage_ready.
  cbn [w_tasks w_routes set_running with_running].
  rewrite !(when_on_proj w_tasks) by done. rewrite !(when_on_proj w_routes) by done.
  cbn [w_tasks w_routes set_running with_running with_publish].
  rewrite (when_on_spawn _ (RegisterCapability ProvidesVerifiedBlocks)) by done.
  rewrite (when_on_proj w_routes) by done. cbn -[app]. rewrite H, Hr. cbn [app].
  by rewrite <-!app_assoc.
Qed.
End boot_theory.
