(* ===== verification/Startup.v ===== *)
(** The first steps of [main] in app/rock-node/src/main.rs: the arguments, the
    configuration file, the log level, and what is printed before the services start.
    They come before the boot of [Node].  What the config and tracing crates do is
    behind the interface [ConfigCrate]. *)
From S2P Require Import Prelude Config ConfigFile Database Block StateManager HotTier.
From S2P Require Import ColdStorage Core PersistenceService Archiver Persistence Publish.
From S2P Require Import Subscriber Plugins Node.

(** The settings that the config crate builds from a file and the environment, the two
    things they are turned into, and the directives the log filter accepts. *)
Class ConfigCrate := {
  Settings : Type;
  build_settings : string → res Settings;
  settings_toml : Settings → res Value;
  settings_format : Format;
  settings_value : Settings → @Val settings_format;
  parses_as_directive : string → bool;
}.

(** The text of a value and of a path, and the upper case of names outside ASCII. *)
Class Display := {
  show_value : Value → string;
  debug_path : string → string;
  unicode_upper : string → string;
}.

Record Args := MkArgs { config_path : string }.

Definition Args_parse (given : option string) : Args :=
  MkArgs (default "config/config.toml" given).

(** ** Printing the configuration *)
Definition repeat_str (s : string) (n : nat) : string := String.concat "" (replicate n s).

Definition ascii_upper (c : Ascii.ascii) : Ascii.ascii :=
  let n := Ascii.nat_of_ascii c in
  if bool_decide (97 ≤ n ≤ 122)%nat then Ascii.ascii_of_nat (n - 32) else c.

Fixpoint is_ascii (s : string) : bool :=
  match s with
  | EmptyString => true
  | String c s => bool_decide (Ascii.nat_of_ascii c < 128)%nat && is_ascii s
  end.

Fixpoint string_map (f : Ascii.ascii → Ascii.ascii) (s : string) : string :=
  match s with EmptyString => EmptyString | String c s => String (f c) (string_map f s) end.

Section printing.
Context `{Display}.

Definition to_uppercase (s : string) : string :=
  if is_ascii s then string_map ascii_upper s else unicode_upper s.

Definition is_table (v : Value) : bool := match v with VTable _ => true | _ => false end.

Fixpoint print_section (name : string) (section : Value) (depth : nat) : list string :=
  let dash_char := if bool_decide (name = "plugins" ∧ depth = 0%nat) then "=" else "-" in
  let dash_count := (8 + depth)%nat in
  let dashes := repeat_str dash_char dash_count in
  [dashes +:+ " " +:+ to_uppercase name +:+ " " +:+ dashes] ++
  match section with
  | VTable t =>
      mjoin ((λ '(key, value),
        if is_table value then print_section key value (S depth)
        else [key +:+ ": " +:+ show_value value]) <$> t)
  | _ => []
  end ++
  [repeat_str "-" 16].

Definition print_config (config_value : Value) : list string :=
  "===== Configuration =====" ::
  match config_value with
  | VTable top => mjoin ((λ '(name, val), print_section name val 0) <$> top)
  | _ => []
  end.
End printing.

Definition BANNER : string := "
██████╗  ██████╗  ██████╗██╗  ██╗    ███╗   ██╗ ██████╗ ██████╗ ███████╗
██╔══██╗██╔═══██╗██╔════╝██║ ██╔╝    ████╗  ██║██════██╗██╔══██╗██╔════╝
██████╔╝██║   ██║██║     █████╔╝     ██╔██╗ ██║██║   ██║██║  ██║█████╗
██╔══██╗██║   ██║██║     ██╔═██╗     ██║╚██╗██║██║   ██║██║  ██║██╔══╝
██║  ██║╚██████╔╝╚██████╗██║  ██╗    ██║ ╚████║╚██████╔╝██████╔╝███████╗
╚═╝  ╚═╝ ╚═════╝  ╚═════╝╚═╝  ╚═╝    ╚═╝  ╚═══╝ ╚═════╝ ╚═════╝ ╚══════╝
".

Inductive Output :=
| Log (line : string)
| Stdout (text : string).

(** ** Steps 1 to 3 *)
Definition with_error {E E' A} (f : E → E') (r : Result E A) : Result E' A :=
  match r with Ok a => Ok a | Err e => Err (f e) end.

Section startup.
Context `{ConfigCrate, Display} {RDB : RocksDB} {CODEC : Codec} {V6 : SocketAddrV6}.

Definition load_config (exists_ : string → bool) (args : Args)
    : Result MainError (Value * Config) :=
  _ ← validate_config_file_exists (exists_ (config_path args));
  settings ← with_error SettingsFailed (build_settings (config_path args));
  merged_config_value ← with_error ConfigRejected (settings_toml settings);
  config ← with_error ConfigRejected
    (deserialize (F := settings_format) serde_Config (settings_value settings));
  if parses_as_directive (log_level (core config)) then Ok (merged_config_value, config)
  else Err LogLevelInvalid.

Definition startup_output (args : Args) (merged_config_value : Value) (config : Config)
    : list Output :=
  [Log ("Logger initialized with level '" +:+ log_level (core config) +:+
        "'. Loading from: " +:+ debug_path (config_path args));
   Stdout BANNER;
   Log "Configuration loaded successfully (after env overrides)."] ++
  (Log <$> print_config merged_config_value).

(** [main] up to the wait for the shutdown signal, with what it has printed before the
    shared services are created. *)
Definition launch (exists_ : string → bool) (args : Args) (fs : FS) (listing : list fname)
    : list Output * Result MainError (list BoxPlugin * World) :=
  match load_config exists_ args with
  | Err e => ([], Err e)
  | Ok (merged_config_value, config) =>
      (startup_output args merged_config_value config,
       match DatabaseManager_new with
       | Err e => Err (DatabaseFailed e)
       | Ok db => boot config (build_context db fs listing)
       end)
  end.
End startup.

(** ** What is printed *)

(** A setting that is not a table, somewhere in a table. *)
Inductive setting : Value → string → Value → Prop :=
| setting_here t k v : (k, v) ∈ t → is_table v = false → setting (VTable t) k v
| setting_deeper t name section k v :
    (name, section) ∈ t → setting section k v → setting (VTable t) k v.

Section printing_theory.
Context `{Display}.

Lemma setting_in_table section k v : setting section k v → is_table section = true.
Proof. by destruct 1. Qed.

(** Every setting of a section is printed with its value, at any depth. *)
Lemma settings_printed name section depth k v :
  setting section k v → k +:+ ": " +:+ show_value v ∈ print_section name section depth.
Proof.
  intros Hs. revert name depth.
  induction Hs as [t k v Hin Hv|t n s k v Hin Hs IH]; intros name depth; cbn [print_section];
    rewrite !elem_of_app; right; left; apply list_elem_of_join; eexists;
    (split; [|apply list_elem_of_fmap; eexists (_, _); split; [reflexivity|exact Hin]]); cbn beta iota.
  - rewrite Hv. by left.
  - rewrite (setting_in_table _ _ _ Hs). apply IH.
Qed.

(** A value at the top of the file that is not a table is printed as a section without
    content: its value does not appear. *)
Lemma top_level_value_hidden name v v' :
  is_table v = false → is_table v' = false →
  print_config (VTable [(name, v)]) = print_config (VTable [(name, v')]).
Proof. by destruct v, v'. Qed.
End printing_theory.
