(* ===== verification/NodeRun.v ===== *)
(** Reasoning about a node after its boot: what every order of its tasks preserves,
    and what the shutdown can rely on in a plugin. *)
From stdpp Require Import pretty.
From S2P Require Import Prelude Config Database Block StateManager HotTier ColdStorage.
From S2P Require Import Core PersistenceService Archiver Persistence Publish Subscriber.
From S2P Require Import Plugins Node.

(** ** Plugins that can be stopped

    What the shutdown needs of a plugin, with [can_stop] the condition under which
    [stop] succeeds; it may depend on the tasks only, which no [stop] changes. *)
Class LawfulPlugin `{RocksDB} {P : Type} (methods : Plugin P) := {
  can_stop : P → World → Prop;
  can_stop_tasks : ∀ p w w', w_tasks w = w_tasks w' → can_stop p w → can_stop p w';
  lawful_running : ∀ p w, plugin_is_running p w = is_running (plugin_name p) w;
  lawful_stop : ∀ p w, can_stop p w → plugin_is_running p w = true →
    ∃ p' w', plugin_stop p w = (p', w', Ok tt) ∧
      w_running w' = w_running w ∖ {[plugin_name p]} ∧ w_tasks w' = w_tasks w ∧
      w_publish w' = w_publish w ∧
      w_sent w' = w_sent w ++
        (if bool_decide (plugin_name p = PUBLISH) then stop_publish (w_publish w) else []);
}.

Lemma filter_ext_in {A} (P Q : A → Prop) `{!∀ x, Decision (P x), !∀ x, Decision (Q x)} (l : list A) :
  (∀ x, x ∈ l → P x ↔ Q x) → filter P l = filter Q l.
Proof.
  induction l as [|x l IH]; intros Hext; [done|]. rewrite !filter_cons, IH by set_solver.
  assert (P x ↔ Q x) by set_solver. do 2 case_decide; tauto || done.
Qed.

Section stopping.
Context {RDB : RocksDB} {CODEC : Codec} {V6 : SocketAddrV6}.
Implicit Types (w : World) (b : BoxPlugin) (ps : list BoxPlugin).

#[local] Ltac simple_stop :=
  intros p w _ _; do 2 eexists; split; [reflexivity|]; cbn;
  split_and!; by rewrite ?app_nil_r.

#[export] Program Instance persistence_lawful : LawfulPlugin persistence_plugin :=
  {| can_stop _ _ := True |}.
Solve Obligations with try done; simple_stop.
#[export] Program Instance verifier_lawful : LawfulPlugin verifier_plugin :=
  {| can_stop _ _ := True |}.
Solve Obligations with try done; simple_stop.
#[export] Program Instance subscriber_lawful : LawfulPlugin subscriber_plugin :=
  {| can_stop _ _ := True |}.
Solve Obligations with try done; simple_stop.
#[export] Program Instance block_access_lawful : LawfulPlugin block_access_plugin :=
  {| can_stop _ _ := True |}.
Solve Obligations with try done; simple_stop.
#[export] Program Instance status_lawful : LawfulPlugin status_plugin :=
  {| can_stop _ _ := True |}.
Solve Obligations with try done; simple_stop.
#[export] Program Instance state_lawful : LawfulPlugin state_plugin :=
  {| can_stop _ _ := True |}.
Solve Obligations with try done; simple_stop.
#[export] Program Instance query_lawful : LawfulPlugin query_plugin :=
  {| can_stop _ _ := True |}.
Solve Obligations with try done; simple_stop.
#[export] Program Instance backfill_lawful : LawfulPlugin backfill_plugin :=
  {| can_stop _ _ := True |}.
Solve Obligations with try done; simple_stop.

#[export] Program Instance publish_lawful : LawfulPlugin publish_plugin :=
  {| can_stop p _ := pub_shared_state p = true |}.
Next Obligation. done. Qed.
Next Obligation. done. Qed.
Next Obligation.
  intros p w Hp Hr. cbn in Hr |- *. unfold publish_stop. rewrite Hr, Hp. cbn.
  do 2 eexists. split; [reflexivity|]. by split_and!.
Qed.

#[export] Program Instance observability_lawful : LawfulPlugin observability_plugin :=
  {| can_stop p w := obs_shutdown_tx p = true → server_listening w = true |}.
Next Obligation.
  intros p w w' E H. cbn in *. unfold server_listening in *. by rewrite <-E.
Qed.
Next Obligation. done. Qed.
Next Obligation.
  intros p w Hp _. cbn in Hp |- *. unfold observability_stop.
  destruct (obs_shutdown_tx p); cbn; [rewrite Hp by done; cbn|];
    (do 2 eexists; split; [reflexivity|]; cbn; split_and!; by rewrite ?app_nil_r).
Qed.

(** A box whose plugin can be stopped, should it run. *)
Definition stoppable w b : Prop :=
  ∃ law : LawfulPlugin (box_methods b), is_running (name b) w = true → can_stop (LawfulPlugin := law) (box_value b) w.

Lemma box_running w b : stoppable w b → box_is_running b w = bool_decide (name b ∈ w_running w).
Proof. intros [law _]. apply lawful_running. Qed.

Lemma stop_plugin_ok w b : stoppable w b →
  ∃ w', stop_plugin b w = (w', if decide (name b ∈ w_running w) then [name b] else [], []) ∧
    w_running w' = w_running w ∖ {[name b]} ∧ w_tasks w' = w_tasks w ∧
    w_publish w' = w_publish w ∧
    w_sent w' = w_sent w ++
      (if decide (name b ∈ w_running w)
       then if bool_decide (name b = PUBLISH) then stop_publish (w_publish w) else [] else []).
Proof.
  intros H. unfold stop_plugin. rewrite (box_running w b H). destruct H as [law H].
  case_decide as E; [rewrite bool_decide_true by done|rewrite bool_decide_false by done].
  - destruct (lawful_stop (LawfulPlugin := law) (box_value b) w) as (p' & w' & E1 & E2 & E3 & E4 & E5).
    { apply H. unfold is_running. by rewrite bool_decide_true. }
    { rewrite (lawful_running (LawfulPlugin := law)). unfold is_running. by rewrite bool_decide_true. }
    rewrite E1. exists w'. by split_and!.
  - exists w. split_and!; [done|set_solver|done|done|by rewrite app_nil_r].
Qed.

Lemma stoppable_mono w w' b : w_tasks w = w_tasks w' → w_running w' ⊆ w_running w →
  stoppable w b → stoppable w' b.
Proof.
  intros Et Hr [law H]. exists law. intros Hn. apply (can_stop_tasks (LawfulPlugin := law) _ w _ Et), H.
  unfold is_running in *. apply bool_decide_eq_true in Hn. apply bool_decide_eq_true. set_solver.
Qed.

(** Stopping a list of plugins: each one that runs is stopped, in the order of the
    list, without errors. *)
Lemma stop_plugins_ok ps w : Forall (stoppable w) ps → NoDup (name <$> ps) →
  ∃ w', stop_plugins ps w = (w', filter (λ n, n ∈ w_running w) (name <$> ps), []) ∧
    w_running w' = w_running w ∖ list_to_set (name <$> ps) ∧ w_tasks w' = w_tasks w ∧
    w_sent w' = w_sent w ++
      (if decide (PUBLISH ∈ name <$> ps ∧ PUBLISH ∈ w_running w)
       then stop_publish (w_publish w) else []).
Proof.
  revert w. induction ps as [|b ps IH]; intros w Hall Hnd; cbn.
  { exists w. split_and!; [done|set_solver|done|].
    rewrite decide_False by set_solver. by rewrite app_nil_r. }
  apply Forall_cons in Hall as [Hb Hall]. cbn in Hnd. apply NoDup_cons in Hnd as [Hni Hnd].
  destruct (stop_plugin_ok w b Hb) as (w1 & E1 & Er1 & Et1 & Ep1 & Es1). rewrite E1.
  destruct (IH w1) as (w' & E' & Er' & Et' & Es'); [|done|].
  { eapply Forall_impl; [exact Hall|]. intros b' ?. apply (stoppable_mono w); [done| |done].
    rewrite Er1. set_solver. }
  rewrite E'. exists w'. split_and!.
  - assert (filter (λ n, n ∈ w_running w1) (name <$> ps)
      = filter (λ n, n ∈ w_running w) (name <$> ps)) as ->.
    { apply filter_ext_in. intros n Hn. rewrite Er1. set_solver. }
    by destruct (decide (name b ∈ w_running w)).
  - rewrite Er', Er1. set_solver.
  - by rewrite Et', Et1.
  - rewrite Es', Es1, Ep1, Er1, <-app_assoc. f_equal.
    assert (PUBLISH ∈ w_running w ∖ {[name b]} ↔ PUBLISH ∈ w_running w ∧ PUBLISH ≠ name b) as Hd
      by (rewrite elem_of_difference, not_elem_of_singleton; done).
    assert (PUBLISH ∈ name b :: (name <$> ps) ↔ PUBLISH = name b ∨ PUBLISH ∈ name <$> ps) as Hc
      by (by rewrite elem_of_cons).
    destruct (decide (PUBLISH = name b)) as [E|E].
    + rewrite bool_decide_true by done. rewrite <-E in Hc, Hd |- *.
      rewrite (decide_False (P := _ ∧ PUBLISH ∈ _ ∖ _)) by tauto. rewrite app_nil_r.
      apply decide_ext. rewrite Hc. split; [by auto|by intros []].
    + rewrite bool_decide_false by congruence.
      destruct (decide (name b ∈ w_running w)); cbn [app]; apply decide_ext; rewrite Hc, Hd;
        (split; [by intros (? & ? & _); auto|by intros [[|] ?]]).
Qed.
End stopping.

(** ** Invariants of a running node *)
Definition subscriber_session (t : Task) : option Uuid :=
  match t with SubscriberTask id => Some id | _ => None end.
(** The task that announces the block reader. *)
Definition reader_registration (t : Task) : option unit :=
  match t with RegisterCapability ProvidesBlockReader => Some tt | _ => None end.
Definition fed_stream (cfg : Config) : Stream :=
  if sw_verification cfg then VerifiedStream else UnverifiedStream.

Lemma elem_of_if {A} (on : bool) (x y : A) : x ∈ (if on then [y] else []) ↔ on = true ∧ x = y.
Proof. destruct on; rewrite ?list_elem_of_singleton, ?elem_of_nil; naive_solver. Qed.

(** Cases of a membership in the task or name list of a boot. *)
Ltac task_cases H :=
  unfold boot_tasks, running_names in H;
  repeat first [rewrite elem_of_list_to_set in H | rewrite elem_of_app in H | rewrite elem_of_if in H
               | rewrite elem_of_cons in H | rewrite elem_of_nil in H];
  repeat match type of H with _ ∨ _ => destruct H as [H|H] end;
  repeat match type of H with _ ∧ _ => destruct H as [? H] end; simplify_eq; try done.

Section run.
Context {RDB : RocksDB} {CODEC : Codec} {V6 : SocketAddrV6}.
Implicit Types (w : World) (cfg : Config).

Record node_inv cfg w : Prop := {
  ni_reader : ∃ c s,
    get_service_provider (w_providers w) TBlockReaderProvider = Some (BlockReaderProvider c s);
  ni_routes : w_routes w = services cfg;
  ni_verified_task : RegisterCapability ProvidesVerifiedBlocks ∈ w_tasks w →
    sw_verification cfg = true;
  ni_verified : is_registered (w_capabilities w) ProvidesVerifiedBlocks = true →
    sw_verification cfg = true;
  ni_task : ∀ rx, PersistenceTask rx ∈ w_tasks w → rx = negb (sw_verification cfg);
  ni_loop : ∀ s, PersistenceLoop s ∈ w_tasks w → s = fed_stream cfg;
  ni_running : w_running w ⊆ list_to_set (running_names cfg);
  ni_server : OBSERVABILITY ∈ w_running w → ∃ a, ObservabilityServer a ∈ w_tasks w;
  ni_block_reader : omap reader_registration (w_tasks w)
    = if is_registered (w_capabilities w) ProvidesBlockReader then [] else [tt];
  ni_sessions : NoDup (omap subscriber_session (w_tasks w)) ∧
    w_subscribers w = list_to_set (omap subscriber_session (w_tasks w));
}.

Lemma is_registered_register r c c' :
  is_registered (register r c) c' = bool_decide (c' = c) || is_registered r c'.
Proof.
  unfold is_registered, register. cbn.
  destruct (decide (c' = c)) as [->|]; [rewrite !bool_decide_true by set_solver; done|].
  rewrite (bool_decide_false (c' = c)) by done. cbn. apply bool_decide_ext. set_solver.
Qed.

Lemma elem_of_removed (x t : Task) l1 l2 : x ∈ l1 ++ l2 → x ∈ l1 ++ t :: l2.
Proof. rewrite !elem_of_app, elem_of_cons. tauto. Qed.
Lemma elem_of_kept (x t : Task) l1 l2 : x ≠ t → x ∈ l1 ++ t :: l2 → x ∈ l1 ++ l2.
Proof. rewrite !elem_of_app, elem_of_cons. tauto. Qed.
Lemma elem_of_replaced (x t t' : Task) l1 l2 : x ≠ t' → x ∈ l1 ++ t' :: l2 → x ∈ l1 ++ t :: l2.
Proof. rewrite !elem_of_app, !elem_of_cons. tauto. Qed.

Lemma sessions_removed t l1 l2 : subscriber_session t = None →
  omap subscriber_session (l1 ++ t :: l2) = omap subscriber_session (l1 ++ l2).
Proof. intros E. rewrite !omap_app. cbn. by rewrite E. Qed.

Lemma registrations_removed t l1 l2 : reader_registration t = None →
  omap reader_registration (l1 ++ t :: l2) = omap reader_registration (l1 ++ l2).
Proof. intros E. rewrite !omap_app. cbn. by rewrite E. Qed.

(** The task is there exactly as long as the reader is not announced. *)
Lemma registration_pending w :
  omap reader_registration (w_tasks w)
    = (if is_registered (w_capabilities w) ProvidesBlockReader then [] else [tt]) →
  RegisterCapability ProvidesBlockReader ∈ w_tasks w ↔
  is_registered (w_capabilities w) ProvidesBlockReader = false.
Proof.
  intros E. assert (RegisterCapability ProvidesBlockReader ∈ w_tasks w ↔
    tt ∈ omap reader_registration (w_tasks w)) as ->.
  { rewrite list_elem_of_omap. split.
    - intros H. by exists (RegisterCapability ProvidesBlockReader).
    - by intros ([[]| | | | | | | | | |] & Hin & [= ]). }
  rewrite E. destruct (is_registered _ _); set_solver.
Qed.

(** Removing a task keeps the two in step. *)
Lemma registrations_step w w' l1 t l2 :
  (∀ c, is_registered (w_capabilities w') c = true ↔
     is_registered (w_capabilities w) c = true ∨ t = RegisterCapability c) →
  omap reader_registration (l1 ++ t :: l2)
    = (if is_registered (w_capabilities w) ProvidesBlockReader then [] else [tt]) →
  omap reader_registration (l1 ++ l2)
    = if is_registered (w_capabilities w') ProvidesBlockReader then [] else [tt].
Proof.
  intros Hc E. assert (t = RegisterCapability ProvidesBlockReader ∨
    reader_registration t = None ∧ t ≠ RegisterCapability ProvidesBlockReader) as [->|[Hnone Hne]]
    by (destruct t as [[]| | | | | | | | | |]; auto).
  - rewrite (proj2 (Hc _)) by auto. rewrite omap_app in E |- *. cbn in E.
    destruct (is_registered _ _); [by destruct (omap _ l1)|].
    apply (f_equal length) in E. rewrite length_app in E. cbn in E.
    apply length_zero_iff_nil. rewrite length_app. lia.
  - assert (is_registered (w_capabilities w') ProvidesBlockReader
      = is_registered (w_capabilities w) ProvidesBlockReader) as ->.
    { apply eq_true_iff_eq. rewrite Hc. split; [by intros [|]|by auto]. }
    by rewrite registrations_removed in E.
Qed.

Lemma inv_remove cfg w w' l1 t l2 : node_inv cfg w →
  w_tasks w = l1 ++ t :: l2 → w_tasks w' = l1 ++ l2 → subscriber_session t = None →
  w_providers w' = w_providers w → w_routes w' = w_routes w → w_subscribers w' = w_subscribers w →
  w_running w' ⊆ w_running w → (∀ a, t = ObservabilityServer a → OBSERVABILITY ∉ w_running w') →
  (∀ c, is_registered (w_capabilities w') c = true ↔
     is_registered (w_capabilities w) c = true ∨ t = RegisterCapability c) →
  node_inv cfg w'.
Proof.
  intros [] Et Et' Hs Ep Er Es Hr Ho Hc. rewrite Et in *.
  constructor; rewrite ?Ep, ?Er, ?Es, ?Et'; try done.
  - intros H. eauto using elem_of_removed.
  - intros [H| ->]%Hc; [auto|]. apply ni_verified_task0. set_solver.
  - intros rx H. eauto using elem_of_removed.
  - intros s H. eauto using elem_of_removed.
  - set_solver.
  - intros H. destruct (ni_server0 (Hr _ H)) as [a Ha]. exists a.
    apply elem_of_kept with t; [|done]. intros <-. by eapply Ho.
  - by eapply registrations_step.
  - by rewrite <-(sessions_removed t) by done.
Qed.

Lemma inv_same cfg w w' : node_inv cfg w →
  w_providers w' = w_providers w → w_routes w' = w_routes w → w_tasks w' = w_tasks w →
  w_capabilities w' = w_capabilities w → w_running w' = w_running w →
  w_subscribers w' = w_subscribers w → node_inv cfg w'.
Proof.
  intros [] E1 E2 E3 E4 E5 E6. constructor; rewrite ?E1, ?E2, ?E3, ?E4, ?E5, ?E6; done.
Qed.

Lemma persistence_stream_fed cfg w rx s : node_inv cfg w →
  rx = negb (sw_verification cfg) →
  persistence_stream (w_capabilities w) rx = Some s → s = fed_stream cfg.
Proof.
  intros Hi ->. unfold persistence_stream, fed_stream.
  pose proof (ni_verified _ _ Hi) as H.
  destruct (is_registered _ _); [rewrite H by done; by intros [= <-]|].
  destruct (sw_verification cfg); cbn; [done|by intros [= <-]].
Qed.

Lemma inv_persistence_begins cfg w l1 rx l2 s : node_inv cfg w →
  w_tasks w = l1 ++ PersistenceTask rx :: l2 →
  persistence_stream (w_capabilities w) rx = Some s →
  node_inv cfg (with_tasks w (l1 ++ PersistenceLoop s :: l2)).
Proof.
  intros Hi H H0.
  pose proof Hi as []. rewrite H in *.
  assert (s = fed_stream cfg) as -> by (eapply persistence_stream_fed; [done| |done]; set_solver).
  constructor; cbn; try done.
  - intros Hin. eapply ni_verified_task0, elem_of_replaced; [|exact Hin]. done.
  - intros rx' Hin. eapply ni_task0, elem_of_replaced; [|exact Hin]. done.
  - intros s' Hin. destruct (decide (s' = fed_stream cfg)) as [->|Hne]; [done|].
    eapply ni_loop0, elem_of_replaced; [|exact Hin]. congruence.
  - intros Ho. destruct (ni_server0 Ho) as [a Ha]. exists a.
    eapply elem_of_replaced; [|exact Ha]. done.
  - rewrite registrations_removed in * by done. done.
  - rewrite sessions_removed in * by done. done.
Qed.

Lemma inv_subscribe cfg w id : node_inv cfg w → id ∉ w_subscribers w →
  node_inv cfg (subscribe_block_stream w id).1.
Proof.
  intros Hi H.
  unfold subscribe_block_stream. destruct (get_reader w); [|done]. cbn [fst].
  destruct Hi as []. destruct ni_sessions0 as [Hnd Hs].
  constructor; cbn; try done; try (setoid_rewrite elem_of_app; setoid_rewrite list_elem_of_singleton).
  - intros [|]; [auto|done].
  - intros rx [|]; [auto|done].
  - intros s' [|]; [auto|done].
  - intros Ho. destruct (ni_server0 Ho) as [a Ha]. eauto.
  - rewrite omap_app. cbn. by rewrite app_nil_r.
  - rewrite omap_app. cbn. split.
    + apply NoDup_app. split_and!; [done|set_solver|apply NoDup_singleton].
    + rewrite list_to_set_app_L, <-Hs. set_solver.
Qed.

Lemma inv_subscriber_ends cfg w l1 id l2 : node_inv cfg w →
  w_tasks w = l1 ++ SubscriberTask id :: l2 →
  node_inv cfg (subscriber_session_ends (with_tasks w (l1 ++ l2)) id).
Proof.
  intros Hi H.
  destruct Hi as []. rewrite H in *. destruct ni_sessions0 as [Hnd Hs].
  rewrite omap_app in Hnd, Hs. cbn in Hnd, Hs.
  constructor; cbn; try done.
  - eauto using elem_of_removed.
  - eauto using elem_of_removed.
  - eauto using elem_of_removed.
  - intros Ho. destruct (ni_server0 Ho) as [a Ha]. exists a. by eapply elem_of_kept in Ha.
  - rewrite registrations_removed in * by done. done.
  - rewrite omap_app. apply NoDup_app in Hnd as (N1 & N2 & N3).
    apply NoDup_cons in N3 as [N3 N4]. split.
    + apply NoDup_app. split_and!; [done|set_solver|done].
    + rewrite Hs, !list_to_set_app_L. cbn. set_solver.
Qed.

Lemma node_step_inv cfg w w' : node_inv cfg w → node_step w w' → node_inv cfg w'.
Proof.
  intros Hi Hstep. destruct Hstep.
  - eapply (inv_remove cfg w _ l1 _ l2); try done. intros c'. cbn.
    rewrite is_registered_register, orb_true_iff, bool_decide_eq_true. split.
    + intros [->|]; auto.
    + intros [|[= ->]]; auto.
  - by eapply inv_persistence_begins.
  - eapply (inv_remove cfg w _ l1 _ l2); try done; [set_solver|].
    intros c. cbn. split; [auto|]. by intros [|].
  - eapply (inv_remove cfg w _ l1 _ l2); try done; [by destruct t|set_solver| |].
    + intros a ->. cbn in *. simplify_eq. set_solver.
    + intros c. cbn. split; [auto|]. intros [|Ec]; [done|]. by rewrite Ec in *.
  - eapply (inv_remove cfg w _ l1 _ l2); try done.
    intros c. cbn. split; [auto|]. by intros [|].
  - by apply (inv_same cfg w).
  - by apply inv_subscribe.
  - by eapply inv_subscriber_ends.
  - by apply (inv_same cfg w).
Qed.

(** A booted node satisfies them, and so does every state it can reach. *)
Lemma booted_sessions cfg : omap subscriber_session (boot_tasks cfg) = [].
Proof. unfold boot_tasks. rewrite !omap_app. cbn. by repeat case_match. Qed.

Lemma booted_subscribers cfg svc w : blank w → w_subscribers (booted cfg svc w) = ∅.
Proof.
  intros Hb. unfold booted. rewrite (started_proj w_subscribers) by done.
  unfold initialized, storage_ready. cbn. rewrite (when_on_proj w_subscribers) by done. cbn.
  rewrite (when_on_proj w_subscribers) by done. apply Hb.
Qed.

Lemma booted_inv cfg svc w : opens cfg w svc → blank w → node_inv cfg (booted cfg svc w).
Proof.
  intros Ho Hb. pose proof (booted_tasks cfg svc w Hb) as Ht.
  pose proof (booted_capabilities cfg svc w Hb) as Hc.
  constructor; rewrite ?Ht, ?Hc.
  - pose proof (booted_reader cfg svc w Ho) as Hr. unfold get_reader in Hr.
    destruct (get_service_provider _ _) as [[]|]; try done. by do 2 eexists.
  - by apply booted_routes.
  - intros H. by task_cases H.
  - done.
  - intros rx H. by task_cases H.
  - intros s H. by task_cases H.
  - by rewrite booted_running.
  - rewrite booted_running by done. intros H. task_cases H.
    eexists. unfold boot_tasks. rewrite !elem_of_app, !elem_of_if. by eauto 10.
  - unfold boot_tasks. rewrite !omap_app. cbn. by repeat case_match.
  - rewrite booted_sessions, booted_subscribers by done. by split; [constructor|].
Qed.

Lemma node_run_inv cfg svc w w' : opens cfg w svc → blank w → rtc node_step (booted cfg svc w) w' →
  node_inv cfg w'.
Proof.
  intros Ho Hb Hrun. assert (node_inv cfg (booted cfg svc w)) as Hi by (by apply booted_inv).
  induction Hrun; [done|]. eauto using node_step_inv.
Qed.

(** A capability is never withdrawn. *)
Lemma registered_stays w w' c : rtc node_step w w' →
  is_registered (w_capabilities w) c = true → is_registered (w_capabilities w') c = true.
Proof.
  induction 1 as [|w1 w2 w3 Hstep _ IH]; [done|]. intros H. apply IH.
  destruct Hstep; cbn; try done.
  - rewrite is_registered_register, H. apply orb_true_r.
  - unfold subscribe_block_stream. by destruct (get_reader w).
Qed.
End run.
