(* ===== verification/Fixtures.v ===== *)
(** Concrete instances: the reference store and codec put together into a node
    that the examples run. *)
From S2P Require Import Prelude Config Database Block StateManager HotTier ColdStorage.
From S2P Require Import PersistenceService Core Archiver Persistence Recovery.
Export RefStore RefCodec.

Module RefNode.
(** A small configuration: one block stays hot, archives hold two blocks. *)
Definition cfg : PersistenceServiceConfig := {|
  persistence_enabled := true; cold_storage_path := "cold";
  hot_storage_block_count := 1; archive_batch_size := 2 |}.

Definition empty_fs : FS := MkFS true ∅.

(** The plugin started on an empty directory, for start block [start]. *)
Definition boot (start : Z) : Tiers :=
  match initialize cfg start fresh empty_fs [] with
  | Ok svc => svc_tiers svc
  | Err _ => MkTiers fresh empty_fs ∅
  end.

Definition write1 (start : Z) (st : Tiers) (n : Z) : Tiers :=
  (tiers_write_block cfg start st (block_of n)).1.
Definition writes (start : Z) (ns : list Z) : Tiers := foldl (write1 start) (boot start) ns.
Definition archive (st : Tiers) : Tiers :=
  default st (fst <$> run_archival_cycle cfg 10 st (λ _, None)).

(** The archiver stopped before its [k]-th file-system operation, its batch of blocks
    from [eh] not yet retired. *)
Definition crashed (st : Tiers) (eh : Z) (k : nat) : FS :=
  match read_block_batch (t_db st) eh (archive_batch_size cfg) with
  | Ok blocks => fs_exec (t_fs st) (take k (write_archive blocks).1)
  | Err _ => t_fs st
  end.

(** A new process on the store of [st] and the directory [fs]. *)
Definition restarted (start : Z) (st : Tiers) (fs : FS) : Result Error Service :=
  initialize cfg start (t_db st) fs (map_to_list (files fs)).*1.

Definition svc_of (start : Z) (st : Tiers) : Service := MkService cfg start st.

(** The blocks written, as [svc_history] records them. *)
Definition blocks_map (ns : list Z) : gmap Z bytes :=
  foldl (λ m n, <[n := encode_to_vec (block_of n)]> m) ∅ ns.

Lemma fresh_fresh : fresh_db fresh.
Proof. split; [apply fresh_ok|done]. Qed.

Definition storableb (n : Z) : bool :=
  (0 <=? n) && (n <? 10 ^ 10) &&
  (Z.of_nat (length (enc_block (block_of n))) <? 4294967296).

Lemma storable_block b n :
  wf_block b → get_block_number b = Ok n → n < 10 ^ 10 →
  (Z.of_nat (length (enc_block b)) <? 4294967296) = true → storable b n.
Proof.
  intros Hwf Hn Hmax H%Z.ltb_lt. unfold storable. split_and!; try done.
  - unfold fits, isize_MAX. cbn -[enc_block]. lia.
  - by exists (enc_block b).
Qed.

Lemma storable_of n : storableb n = true → storable (block_of n) n.
Proof.
  unfold storableb. intros [[H1%Z.leb_le H2%Z.ltb_lt]%andb_true_iff H3]%andb_true_iff.
  apply storable_block; [apply block_of_wf; u64_lia|done|done|done].
Qed.

Lemma boot_inv start : 0 ≤ start < u64_MAX → svc_inv start ∅ (boot start) (p_init start).
Proof.
  intros Hs. assert (is_u64 start) as Hs64 by u64_lia. unfold boot.
  destruct (initialize_fresh (RDB := ref_rocksdb) cfg start fresh empty_fs fresh_fresh Hs64)
    as (svc & E & _).
  rewrite E. eapply initialize_inv; [apply fresh_fresh|done|exact E].
Qed.

Lemma boot_history start : is_u64 start → svc_history cfg start ∅ (boot start).
Proof.
  intros Hs. unfold boot.
  destruct (initialize_fresh (RDB := ref_rocksdb) cfg start fresh empty_fs fresh_fresh Hs) as (svc & E & _).
  rewrite E. apply (history_init (RDB := ref_rocksdb) cfg start fresh empty_fs svc); [apply fresh_fresh|done|exact E].
Qed.

Lemma writes_history start ns :
  is_u64 start → forallb storableb ns = true →
  svc_history cfg start (blocks_map ns) (writes start ns).
Proof.
  intros Hs. unfold blocks_map, writes.
  assert (∀ m st, svc_history cfg start m st → forallb storableb ns = true →
    svc_history cfg start (foldl (λ m n, <[n := encode_to_vec (block_of n)]> m) m ns)
      (foldl (write1 start) st ns)) as H.
  { induction ns as [|n ns IH]; intros m st Hh Hb; [done|].
    cbn in Hb. apply andb_true_iff in Hb as [Hn Hb]. cbn [foldl]. apply IH; [|done].
    eapply (history_write cfg start m st (block_of n) n _
      (tiers_write_block cfg start st (block_of n)).2); [done|by apply storable_of|].
    unfold write1. by destruct (tiers_write_block cfg start st (block_of n)). }
  intros Hb. apply H; [by apply boot_history|done].
Qed.

(** One more block, of any contents. *)
Lemma write_history start m st b n : svc_history cfg start m st → storable b n →
  svc_history cfg start (<[n := encode_to_vec b]> m) (tiers_write_block cfg start st b).1.
Proof.
  intros H Hb. eapply (history_write cfg start m st b n _ (tiers_write_block cfg start st b).2 H Hb).
  by destruct (tiers_write_block cfg start st b).
Qed.

Lemma archive_history start m st :
  svc_history cfg start m st →
  svc_history cfg start m (archive st).
Proof.
  intros H. unfold archive.
  destruct (run_archival_cycle cfg 10 st (λ _, None)) as [[st' r]|] eqn:E; [|done].
  by eapply history_cycle.
Qed.

Lemma lists_files fs : lists (map_to_list (files fs)).*1 fs.
Proof.
  intros f. rewrite list_elem_of_fmap. split.
  - intros ([f' c] & -> & H%elem_of_map_to_list). by exists c.
  - intros [c H]. exists (f, c). split; [done|]. by apply elem_of_map_to_list.
Qed.

Lemma crashed_crash_fs st eh k :
  get_earliest_hot (t_db st) = Ok (Some eh) →
  is_batch_complete (t_db st) eh (archive_batch_size cfg) = Ok true →
  crash_fs (archive_batch_size cfg) st (crashed st eh k).
Proof.
  intros H1 H2. unfold crashed. destruct (read_block_batch _ _ _) as [bs|] eqn:E; [|by left].
  right. by exists eh, bs, k.
Qed.

Lemma history_holds start m st :
  svc_history cfg start m st → 0 ≤ start < u64_MAX → holds (svc_of start st) m.
Proof.
  intros H Hs. cbn. split_and!; [lia|lia|done|by eapply history_stored|].
  apply (history_svc_inv cfg); [done|done|cbn; lia].
Qed.

Lemma history_tiers_inv start m st :
  svc_history cfg start m st → 0 ≤ start < u64_MAX → tiers_inv st.
Proof.
  intros H Hs. destruct (history_svc_inv cfg start m st H Hs) as (p & Hinv & _); [cbn; lia|done].
Qed.

(** Consecutive blocks as an archive. *)
Lemma archivable_of first k :
  (0 <? k)%nat = true → forallb storableb (seqZ first (Z.of_nat k)) = true →
  Z.of_nat k <= 1000 →
  archivable (block_of <$> seqZ first (Z.of_nat k)) first
    ((λ n, enc_block (block_of n)) <$> seqZ first (Z.of_nat k)).
Proof.
  intros Hk%Nat.ltb_lt Hb Hmax.
  assert (∀ n, n ∈ seqZ first (Z.of_nat k) → storable (block_of n) n) as Hst.
  { intros n Hn. apply storable_of. rewrite forallb_forall in Hb. apply Hb.
    by apply list_elem_of_In. }
  assert (compressed (block_of <$> seqZ first (Z.of_nat k))
    ((λ n, enc_block (block_of n)) <$> seqZ first (Z.of_nat k))) as Hc.
  { unfold compressed. apply Forall2_fmap, Forall_Forall2_diag, Forall_forall.
    intros n Hn. destruct (Hst n Hn) as (_ & _ & _ & _ & z & [= <-] & Hz). by split. }
  pose proof (compressed_total _ _ Hc) as Ht.
  rewrite length_fmap, length_seqZ, Nat2Z.id in Ht.
  destruct (storable_u64 _ _ (Hst first ltac:(apply elem_of_seqZ; lia))).
  destruct (storable_u64 _ _ (Hst (first + Z.of_nat k - 1) ltac:(apply elem_of_seqZ; lia))).
  unfold archivable. rewrite length_fmap, length_seqZ, Nat2Z.id.
  split_and!; [|u64_lia|lia| |done|lia].
  - intros E%(f_equal length). rewrite length_fmap, length_seqZ in E. cbn in E. lia.
  - unfold numbered. rewrite <-(list_fmap_id (seqZ first _)) at 2.
    apply Forall2_fmap, Forall_Forall2_diag, Forall_forall. done.
Qed.
End RefNode.
