(* ===== verification/UnitTests.v ===== *)
(** The repository's own unit tests, run on the model: storage, cache, validation,
    publisher and subscriber sessions, block access, server status, backfill.

    Each [bool] is one test function of the source, with the same name: it sets the
    model up as the test does, on the reference store and codec, and says whether the
    assertions hold.  A failed [unwrap] is [false].  Fields a test leaves at their
    default are the message [dflt]; what a test asserts about wall-clock time or the
    text of a message is left out.  That every test passes is checked at the end of its
    module. *)
From S2P Require Import Prelude Config Database Block StateManager HotTier ColdStorage Core.
From S2P Require Import PersistenceService Archiver Persistence Fixtures Publish Subscriber.
From S2P Require Import Access Backfill Metrics Accounting.
From stdpp Require Import pretty.
Open Scope Z_scope.

Definition unwrap {E A} (r : Result E A) (k : A → bool) : bool :=
  match r with Ok a => k a | Err _ => false end.
Definition unwrap_some {A} (o : option A) (k : A → bool) : bool :=
  match o with Some a => k a | None => false end.
Definition is_ok {E A} (r : Result E A) : bool := unwrap r (λ _, true).
Definition is_err {E A} (r : Result E A) : bool := negb (is_ok r).
Definition is_some {A} (o : option A) : bool := unwrap_some o (λ _, true).
Definition is_none {A} (o : option A) : bool := negb (is_some o).

Declare Scope unit_scope.
Delimit Scope unit_scope with unit.
Notation "'let!' x := r 'in' k" := (unwrap r (λ x, k))
  (at level 200, x binder, r at level 100, k at level 200) : unit_scope.
Notation "'let?' x := r 'in' k" := (unwrap_some r (λ x, k))
  (at level 200, x binder, r at level 100, k at level 200) : unit_scope.
Notation "x == y" := (bool_decide (x = y)) (at level 70) : unit_scope.
Open Scope unit_scope.

Definition dflt : pb := Pb "" [].
Definition header_item (n : Z) : BlockItem := Some (IBlockHeader (Header n dflt)).
Definition proof_item (n : Z) : BlockItem := Some (IBlockProof (Proof_ n dflt)).

(** [make_block] of the storage tests. *)
Definition make_block (num : Z) : Block := MkBlock [header_item num].

(** The number in the header of a stored block. *)
Definition decoded_number (bytes : bytes) : option Z :=
  match decode_block bytes with
  | Ok block =>
      match head (items block) with
      | Some (Some (IBlockHeader h)) => Some (header_number h)
      | _ => None
      end
  | Err _ => None
  end.

(** ** persistence-plugin/src/state.rs *)
Module StateTests.
Definition initializes_and_reads_u64_metadata_keys : bool :=
  let! db := DatabaseManager_new in
  let! latest0 := get_latest_persisted db in
  let! batch := set_latest_persisted db 42 [] in
  let! batch := set_highest_contiguous db 40 batch in
  let! batch := set_true_earliest_persisted db 10 batch in
  let! batch := set_earliest_hot db 11 batch in
  let! db := write db batch in
  let! latest := get_latest_persisted db in
  let! highest := get_highest_contiguous db in
  let! true_earliest := get_true_earliest_persisted db in
  let! earliest_hot := get_earliest_hot db in
  (latest0 == None) && (latest == Some 42) && (highest == 40)
  && (true_earliest == Some 10) && (earliest_hot == Some 11).

Definition initialize_helpers_only_set_when_missing : bool :=
  let! db := DatabaseManager_new in
  let! h0 := get_highest_contiguous db in
  let! db := initialize_highest_contiguous db 5 in
  let! h1 := get_highest_contiguous db in
  let! db := initialize_highest_contiguous db 7 in
  let! h2 := get_highest_contiguous db in
  let! e0 := get_true_earliest_persisted db in
  let! db := initialize_true_earliest_persisted db 12 in
  let! e1 := get_true_earliest_persisted db in
  let! db := initialize_true_earliest_persisted db 9 in
  let! e2 := get_true_earliest_persisted db in
  let! batch := initialize_earliest_hot db 20 [] in
  let! db := write db batch in
  let! hot1 := get_earliest_hot db in
  let! batch2 := initialize_earliest_hot db 25 [] in
  let! db := write db batch2 in
  let! hot2 := get_earliest_hot db in
  (h0 == 0) && (h1 == 5) && (h2 == 5) && (e0 == None) && (e1 == Some 12) && (e2 == Some 12)
  && (hot1 == Some 20) && (hot2 == Some 20).

(** The entries of the gap table in key order. *)
Definition range_of (e : Result Error (bytes * bytes)) : option (Z * Z) :=
  match e with
  | Ok (k, v) => a ← u64_from_be k; b ← u64_from_be v; Some (a, b)
  | Err _ => None
  end.
Definition ranges (db : DB) : list (option (Z * Z)) :=
  range_of <$> iterator_cf db CF_GAPS IterStart.

Definition gap_range_merge_and_fill_logic : bool :=
  let! db := DatabaseManager_new in
  let! batch := add_gap_range db 5 10 [] in
  let! db := write db batch in
  let! batch := add_gap_range db 11 12 [] in
  let! db1 := write db batch in
  let! batch := fill_gap_block db1 5 [] in
  let! db2 := write db1 batch in
  let! batch := fill_gap_block db2 8 [] in
  let! db3 := write db2 batch in
  let! batch := add_gap_range db3 7 9 [] in
  let! db4 := write db3 batch in
  (ranges db1 == [Some (5, 12)])
  && (head (ranges db2) == Some (Some (6, 12)))
  && (take 2 (ranges db3) == [Some (6, 7); Some (9, 12)])
  && (head (ranges db4) == Some (Some (6, 12))).

Lemma state_tests_pass :
  initializes_and_reads_u64_metadata_keys && initialize_helpers_only_set_when_missing
  && gap_range_merge_and_fill_logic = true.
Proof. vm_compute. reflexivity. Qed.
End StateTests.

(** ** persistence-plugin/src/hot_tier.rs *)
Module HotTierTests.
Definition read_and_write_single_block : bool :=
  let! db := DatabaseManager_new in
  let! batch := add_block_to_batch db (make_block 123) 123 [] in
  let! db := commit_batch db batch in
  let! o := hot_read_block db 123 in
  let? bytes := o in
  let! earliest := get_earliest_block_number db in
  let! batch := add_delete_to_batch db 123 [] in
  let! db := commit_batch db batch in
  let! gone := hot_read_block db 123 in
  (decoded_number bytes == Some 123) && (earliest == Some 123) && is_none gone.

Fixpoint add_blocks (db : DB) (nums : list Z) (batch : WriteBatch) : Result Error WriteBatch :=
  match nums with
  | [] => Ok batch
  | num :: nums => batch ← add_block_to_batch db (make_block num) num batch; add_blocks db nums batch
  end.

Definition batch_complete_and_batch_read : bool :=
  let! db := DatabaseManager_new in
  let! write_batch := add_blocks db (seqZ 100 5) [] in
  let! db := commit_batch db write_batch in
  let! complete := is_batch_complete db 100 5 in
  let! blocks := read_block_batch db 100 5 in
  let? first := head blocks in
  complete && (length blocks == 5%nat) && (0 <? length (items first))%nat.

Lemma hot_tier_tests_pass : read_and_write_single_block && batch_complete_and_batch_read = true.
Proof. vm_compute. reflexivity. Qed.
End HotTierTests.

(** ** persistence-plugin/src/cold_storage: writer.rs, reader.rs, archiver.rs *)
Module ColdTests.
Definition reads_back (fs : FS) (indices : Indices) (num : Z) : bool :=
  let! o := cold_read_block fs indices num in
  let? bytes := o in
  decoded_number bytes == Some num.

Definition write_and_read_archive_single_batch : bool :=
  let '(fs, r) := io_run RefNode.empty_fs None (write_archive (make_block <$> seqZ 100 5)) in
  let! index_path := r in
  let! indices := load_index_file fs ∅ index_path in
  forallb (reads_back fs indices) [100; 102; 104].

Definition scan_and_read_from_cold_storage : bool :=
  let '(fs, r) := io_run RefNode.empty_fs None (write_archive (make_block <$> seqZ 200 5)) in
  let! index_path := r in
  let indices := scan_and_build_index fs (map_to_list (files fs)).*1 ∅ in
  let! indices := load_index_file fs indices index_path in
  reads_back fs indices 203.

Definition archiver_config : PersistenceServiceConfig := {|
  persistence_enabled := true; cold_storage_path := "tmp";
  hot_storage_block_count := 2; archive_batch_size := 3 |}.

Definition archival_cycle_moves_complete_batch_and_updates_state : bool :=
  let! db := DatabaseManager_new in
  let! batch := set_earliest_hot db 100 [] in
  let! batch := set_latest_persisted db 104 batch in
  let! batch := HotTierTests.add_blocks db (seqZ 100 5) batch in
  let! db := commit_batch db batch in
  let? cycle := run_archival_cycle archiver_config 3 (MkTiers db RefNode.empty_fs ∅) (λ _, None) in
  let '(st, r) := cycle in
  let! _ := r in
  let! earliest_hot := get_earliest_hot (t_db st) in
  let hot n := unwrap (hot_read_block (t_db st) n) is_some in
  (earliest_hot == Some 103)
  && forallb (λ n, unwrap (hot_read_block (t_db st) n) is_none) [100; 101; 102]
  && forallb hot [103; 104]
  && reads_back (t_fs st) (t_indices st) 101.

Lemma cold_tests_pass :
  write_and_read_archive_single_batch && scan_and_read_from_cold_storage
  && archival_cycle_moves_complete_batch_and_updates_state = true.
Proof. vm_compute. reflexivity. Qed.
End ColdTests.

(** ** persistence-plugin/src/service.rs *)
Module ServiceTests.
Definition service_config : PersistenceServiceConfig := {|
  persistence_enabled := true; cold_storage_path := "tmp";
  hot_storage_block_count := 10; archive_batch_size := 5 |}.

Definition make_service (start_block : Z) : Result Error Service :=
  db ← DatabaseManager_new;
  db ← initialize_highest_contiguous db (saturating_sub start_block 1);
  Ok (MkService service_config start_block (MkTiers db RefNode.empty_fs ∅)).

Definition write_and_read_blocks_updates_state_and_gaps : bool :=
  let! service := make_service 100 in
  let '(service, r100) := writer_write_block service (make_block 100) in
  let '(service1, r102) := writer_write_block service (make_block 102) in
  let! latest := get_latest_persisted_block_number service1 in
  let! highest := get_highest_contiguous_block_number service1 in
  let! gap := find_containing_gap (t_db (svc_tiers service1)) 101 in
  let '(service2, r101) := writer_write_block service1 (make_block 101) in
  let! highest2 := get_highest_contiguous_block_number service2 in
  is_ok r100 && is_ok r102 && is_ok r101
  && (latest == Some 102) && (highest == 100) && is_some gap && (highest2 == 102)
  && forallb (λ n, unwrap (read_block service2 n) is_some) [100; 101; 102].

Definition write_block_batch_updates_true_earliest : bool :=
  let! service := make_service 50 in
  let '(service, r) := writer_write_block_batch service (make_block <$> seqZ 40 5) in
  let! _ := r in
  let! earliest := get_earliest_persisted_block_number service in
  earliest == Some 40.

Lemma service_tests_pass :
  write_and_read_blocks_updates_state_and_gaps && write_block_batch_updates_true_earliest = true.
Proof. vm_compute. reflexivity. Qed.
End ServiceTests.

(** ** core/src/cache.rs

    The keys [insert] draws are arguments, different ones; the time of every insert
    is 0 and a [sleep] is a turn of the cleanup task at that time.  Clones share the
    cache. *)
Module CacheTests.
Definition create_test_block_data (block_number : Z) : BlockData :=
  MkBlockData block_number (String.list_byte_of_string ("Block " +:+ pretty block_number)).
Definition insert (c : BlockDataCache) (key : Uuid) (d : BlockData) : BlockDataCache :=
  Cache.insert c key 0 d.
Definition after_seconds (c : BlockDataCache) (s : Z) : BlockDataCache :=
  Cache.run_cleanup c (s * 1000).
Definition number_at (c : BlockDataCache) (key : Uuid) : option Z :=
  bd_block_number <$> Cache.get c key.

Definition test_cache_insert_and_get : bool :=
  let block_data := create_test_block_data 1 in
  let cache := insert Cache.new 1%N block_data in
  let? retrieved := Cache.get cache 1%N in
  (bd_block_number retrieved == bd_block_number block_data)
  && (bd_contents retrieved == bd_contents block_data).

Definition test_cache_get_nonexistent_key : bool := is_none (Cache.get Cache.new 7%N).

Definition test_cache_insert_multiple_blocks : bool :=
  let cache := insert Cache.new 1%N (create_test_block_data 1) in
  let cache := insert cache 2%N (create_test_block_data 2) in
  let cache := insert cache 3%N (create_test_block_data 3) in
  (number_at cache 1%N == Some 1) && (number_at cache 2%N == Some 2)
  && (number_at cache 3%N == Some 3).

Definition test_cache_mark_for_removal : bool :=
  let cache := insert Cache.new 1%N (create_test_block_data 10) in
  let marked := Cache.mark_for_removal cache 1%N in
  let again := after_seconds (Cache.mark_for_removal marked 1%N) (CLEANUP_INTERVAL_SECONDS + 1) in
  is_some (Cache.get cache 1%N) && is_none (Cache.get marked 1%N) && is_none (Cache.get again 1%N).

Definition test_cache_cleanup_stale_entries : bool :=
  let cache := insert Cache.new 1%N (create_test_block_data 20) in
  is_some (Cache.get cache 1%N) && is_some (Cache.get (after_seconds cache 2) 1%N).

Definition test_cache_concurrent_inserts : bool :=
  let cache := foldl (λ c i, insert c (Z.to_N i) (create_test_block_data i))
                 Cache.new (seqZ 0 100) in
  forallb (λ i, number_at cache (Z.to_N i) == Some i) (seqZ 0 100).

Definition test_cache_mark_multiple_for_removal : bool :=
  let cache := foldl (λ c i, insert c (Z.to_N i) (create_test_block_data i))
                 Cache.new [100; 101; 102] in
  let cache := foldl (λ c i, Cache.mark_for_removal c (Z.to_N i)) cache [100; 101; 102] in
  let cache := after_seconds cache (CLEANUP_INTERVAL_SECONDS + 2) in
  forallb (λ i, is_none (Cache.get cache (Z.to_N i))) [100; 101; 102].

Definition test_cache_mark_nonexistent_key_for_removal : bool :=
  let cache := Cache.mark_for_removal Cache.new 7%N in
  is_none (Cache.get (after_seconds cache (CLEANUP_INTERVAL_SECONDS + 2)) 7%N).

Definition test_cache_lifecycle : bool :=
  let cache := insert Cache.new 1%N (create_test_block_data 200) in
  let marked := Cache.mark_for_removal cache 1%N in
  (number_at cache 1%N == Some 200) && is_none (Cache.get marked 1%N)
  && is_none (Cache.get (after_seconds marked (CLEANUP_INTERVAL_SECONDS + 2)) 1%N).

Lemma cache_tests_pass :
  forallb (λ b, b) [test_cache_insert_and_get; test_cache_get_nonexistent_key;
    test_cache_insert_multiple_blocks; test_cache_mark_for_removal;
    test_cache_cleanup_stale_entries; test_cache_concurrent_inserts;
    test_cache_mark_multiple_for_removal; test_cache_mark_nonexistent_key_for_removal;
    test_cache_lifecycle] = true.
Proof. vm_compute. reflexivity. Qed.
End CacheTests.

(** ** publish-plugin/src: validation.rs and state.rs *)
Module ValidationTests.
Definition test_empty_block_items : bool :=
  match validate_block_items 1000 [] true with Err EmptyBlockItems => true | _ => false end.

Definition test_too_many_items : bool :=
  match validate_block_items 5 (replicate 10 (header_item 1)) true with
  | Err (TooManyItems count max) => (count == 10) && (max == 5)
  | _ => false
  end.

Definition test_new_block_missing_header : bool :=
  match validate_block_items 1000 [proof_item 1] true with
  | Err (MissingBlockHeader _) => true
  | _ => false
  end.

Definition test_valid_new_block : bool :=
  is_ok (validate_block_items 1000 [header_item 1; proof_item 1] true).

Definition test_valid_continuation : bool :=
  is_ok (validate_block_items 1000 [proof_item 1] false).

Definition shared_state_initial_values_and_setters : bool :=
  let state := SharedState_new in
  let state' := set_latest_persisted_block state 42 in
  (latest_persisted_block state == -1) && (latest_persisted_block state' == 42)
  && (size (active_sessions state') == 0%nat) && (size (block_winners state') == 0%nat).

Lemma validation_tests_pass :
  test_empty_block_items && test_too_many_items && test_new_block_missing_header
  && test_valid_new_block && test_valid_continuation
  && shared_state_initial_values_and_setters = true.
Proof. vm_compute. reflexivity. Qed.
End ValidationTests.

(** ** publish-plugin/src/session_manager.rs

    A session runs alone between two requests of the test, so its loads see the
    shared state as it is.  A request that waits is followed by the notices the test
    sends; the cache key is 7.  The responses are those of the session itself and,
    after a wait, the broadcasts with their receivers. *)
Module SessionTests.
#[export] Instance EndCode_eq_dec : EqDecision EndCode.
Proof. solve_decision. Defined.
#[export] Instance Response_eq_dec : EqDecision Response.
Proof. solve_decision. Defined.

(** The configuration of [make_context]. *)
Definition make_context_config : Config := {|
  core := {| log_level := "info"; database_path := ":memory:"; core_start_block_number := 0;
             grpc_address := "0.0.0.0"; grpc_port := 0 |};
  plugins := {|
    observability := {| observability_enabled := false; listen_address := "127.0.0.1:0" |};
    persistence_service := {| persistence_enabled := true; cold_storage_path := "/tmp";
                              hot_storage_block_count := 10; archive_batch_size := 5 |};
    publish_service := {| publish_enabled := true; publish_max_concurrent_streams := 8;
                          persistence_ack_timeout_seconds := 1; stale_winner_timeout_seconds := 1;
                          winner_cleanup_interval_seconds := 60;
                          winner_cleanup_threshold_blocks := 100;
                          max_message_size_bytes := 32 * 1024 * 1024; max_items_per_set := 10000 |};
    verification_service := {| verification_enabled := true |};
    block_access_service := {| block_access_enabled := true |};
    server_status_service := {| server_status_enabled := true |};
    state_management_service := {| state_management_enabled := true |};
    subscriber_service := {| subscriber_enabled := true; subscriber_max_concurrent_streams := 8;
                             session_timeout_seconds := 1; live_stream_queue_size := 64;
                             max_future_block_lookahead := 5 |};
    query_service := {| query_enabled := true |};
    backfill := {| backfill_enabled := false; mode := GapFill; peers := [];
                   check_interval_seconds := 60; max_batch_size := 1000 |} |} |}.
Definition MAX_ITEMS : Z := max_items_per_set (publish_service (plugins make_context_config)).
Definition shared_at (latest : Z) : SharedState := set_latest_persisted_block SharedState_new latest.
Definition activate (sh : SharedState) (sids : list Uuid) : SharedState :=
  MkShared (block_winners sh) (latest_persisted_block sh) (list_to_set sids ∪ active_sessions sh).

Record Handled := MkHandled {
  h_session : Session;
  h_shared : SharedState;
  h_sent : Sent;
  h_terminate : bool;
}.

(** [handle_request] to its end. *)
Definition handle (max_items : Z) (sh : SharedState) (s : Session) (received : list Notice)
    (request : PublishRequest) : Handled :=
  let o := handle_request max_items (latest_persisted_block sh) (block_winners sh) sh s request in
  let own := (λ r, (id s, r)) <$> o_responses o in
  match o_next o with
  | Continue => MkHandled (o_session o) (o_shared o) own false
  | Terminate => MkHandled (o_session o) (o_shared o) own true
  | AwaitBlock n _ =>
      let '(s, sh, sent, ended) :=
        finish_block (o_shared o) (o_session o) (await_result n 7%N received) in
      MkHandled s sh (own ++ sent) ended
  end.
Definition sent_to (sid : Uuid) (h : Handled) : list Response :=
  (filter (λ x, x.1 = sid) (h_sent h)).*2.

Definition header_handles_duplicate_blocks : bool :=
  let h := handle MAX_ITEMS (shared_at 100) (SessionManager_new 1%N) []
             (ReqBlockItems [header_item 100]) in
  h_terminate h && (sent_to 1%N h == [EndStream CodeDuplicateBlock 100]).

Definition first_header_wins_primary_second_goes_behind : bool :=
  let shared := activate (shared_at 100) [1%N; 2%N] in
  let h1 := handle MAX_ITEMS shared (SessionManager_new 1%N) [] (ReqBlockItems [header_item 101]) in
  let h2 := handle MAX_ITEMS (h_shared h1) (SessionManager_new 2%N) []
              (ReqBlockItems [header_item 101]) in
  let h3 := handle MAX_ITEMS (h_shared h2) (h_session h1) [] (ReqBlockItems [proof_item 101]) in
  negb (h_terminate h1) && negb (h_terminate h2) && (sent_to 2%N h2 == [SkipBlock 101])
  && (sent_to 1%N h3 == []) && (sent_to 2%N h3 == [ResendBlock 101]).

Definition ack_path_updates_shared_state_and_sends_ack : bool :=
  let shared := activate (shared_at 100) [1%N] in
  let h := handle MAX_ITEMS shared (SessionManager_new 1%N) [NPersisted (MkPersisted 101 7%N)]
             (ReqBlockItems [header_item 101; proof_item 101]) in
  negb (h_terminate h) && (sent_to 1%N h == [Acknowledgement 101])
  && (latest_persisted_block (h_shared h) == 101).

Definition verification_failure_sends_bad_block_proof_to_primary : bool :=
  let shared := activate (shared_at 100) [1%N] in
  let h := handle MAX_ITEMS shared (SessionManager_new 1%N)
             [NFailed (MkVerificationFailed 101 7%N "Invalid block signature")]
             (ReqBlockItems [header_item 101; proof_item 101]) in
  h_terminate h && (sent_to 1%N h == [EndStream CodeBadBlockProof 101]).

Definition verification_timeout_sends_resend_to_other_sessions : bool :=
  let shared := activate (shared_at 101) [1%N; 2%N] in
  let h := handle MAX_ITEMS shared (SessionManager_new 1%N) []
             (ReqBlockItems [header_item 102; proof_item 102]) in
  h_terminate h && (sent_to 2%N h == [ResendBlock 102]).

Definition header_handles_behind_blocks : bool :=
  let h := handle MAX_ITEMS (shared_at 100) (SessionManager_new 1%N) []
             (ReqBlockItems [header_item 50]) in
  h_terminate h && (sent_to 1%N h == [EndStream CodeBehind 100]).

Definition verification_failure_sends_resend_to_other_sessions : bool :=
  let shared := activate (shared_at 102) [1%N; 2%N] in
  let h := handle MAX_ITEMS shared (SessionManager_new 1%N)
             [NFailed (MkVerificationFailed 103 7%N "Invalid proof")]
             (ReqBlockItems [header_item 103; proof_item 103]) in
  h_terminate h
  && match sent_to 1%N h with EndStream CodeBadBlockProof _ :: _ => true | _ => false end
  && (sent_to 2%N h == [ResendBlock 103]).

Definition three_publishers_race_for_same_block : bool :=
  let shared := activate (shared_at 200) [1%N; 2%N; 3%N] in
  let req := ReqBlockItems [header_item 201] in
  let h1 := handle MAX_ITEMS shared (SessionManager_new 1%N) [] req in
  let h2 := handle MAX_ITEMS (h_shared h1) (SessionManager_new 2%N) [] req in
  let h3 := handle MAX_ITEMS (h_shared h2) (SessionManager_new 3%N) [] req in
  negb (h_terminate h1) && (state (h_session h1) == SPrimary)
  && negb (h_terminate h2) && negb (h_terminate h3)
  && (sent_to 2%N h2 == [SkipBlock 201]) && (sent_to 3%N h3 == [SkipBlock 201])
  && (sent_to 1%N h1 == []) && (block_winners (h_shared h3) !! 201 == Some 1%N).

Definition validation_error_empty_block_items : bool :=
  h_terminate (handle MAX_ITEMS (shared_at 100) (SessionManager_new 1%N) [] (ReqBlockItems [])).

Definition validation_error_missing_header_for_new_block : bool :=
  h_terminate (handle MAX_ITEMS (shared_at 100) (SessionManager_new 1%N) []
                 (ReqBlockItems [proof_item 101])).

Definition validation_error_too_many_items : bool :=
  h_terminate (handle 5 (shared_at 100) (SessionManager_new 1%N) []
                 (ReqBlockItems (header_item 101 :: replicate 9 (proof_item 0)))).

Definition multiple_consecutive_blocks_from_different_publishers : bool :=
  let shared := activate (shared_at 100) [1%N; 2%N] in
  let h1 := handle MAX_ITEMS shared (SessionManager_new 1%N) [NPersisted (MkPersisted 101 7%N)]
              (ReqBlockItems [header_item 101; proof_item 101]) in
  let shared := set_latest_persisted_block (h_shared h1) 101 in
  let h2 := handle MAX_ITEMS shared (SessionManager_new 2%N) [] (ReqBlockItems [header_item 102]) in
  let h3 := handle MAX_ITEMS (h_shared h2) (h_session h1) [] (ReqBlockItems [header_item 102]) in
  negb (h_terminate h1) && (sent_to 1%N h1 == [Acknowledgement 101])
  && negb (h_terminate h2) && (state (h_session h2) == SPrimary)
  && negb (h_terminate h3) && (sent_to 1%N h3 == [SkipBlock 102]).

(** The test repeats the end of the task of service.rs, [end_session]. *)
Definition winner_cleanup_on_session_disconnect : bool :=
  let shared := activate (shared_at 100) [1%N; 2%N] in
  let shared := set_winners shared (<[101 := 1%N]> (block_winners shared)) in
  let '(shared, sent) := end_session shared 1%N in
  ((filter (λ x, x.1 = 2%N) sent).*2 == [ResendBlock 101])
  && is_none (block_winners shared !! 101).

Definition session_stats_recorded_correctly : bool :=
  let h1 := handle MAX_ITEMS (shared_at 100) (SessionManager_new 1%N) []
              (ReqBlockItems [header_item 101]) in
  let skipped := o_session (handle_skip (h_shared h1) (h_session h1)) in
  let s := set_state (reset_for_next_block skipped) SNew in
  let h2 := handle MAX_ITEMS (h_shared h1) s [] (ReqBlockItems [header_item 102]) in
  negb (h_terminate h1) && (state (h_session h1) == SPrimary) && negb (h_terminate h2)
  && (blocks_received (h_session h2) == 2) && (blocks_skipped (h_session h2) == 1).

Definition concurrent_different_blocks_from_multiple_publishers : bool :=
  let shared := activate (shared_at 100) [1%N; 2%N] in
  let h1 := handle MAX_ITEMS shared (SessionManager_new 1%N) [] (ReqBlockItems [header_item 101]) in
  let h2 := handle MAX_ITEMS (h_shared h1) (SessionManager_new 2%N) []
              (ReqBlockItems [header_item 102]) in
  negb (h_terminate h1) && (state (h_session h1) == SPrimary)
  && (current_block_number (h_session h1) == 101)
  && negb (h_terminate h2) && (state (h_session h2) == SPrimary)
  && (current_block_number (h_session h2) == 102)
  && (block_winners (h_shared h2) !! 101 == Some 1%N)
  && (block_winners (h_shared h2) !! 102 == Some 2%N).

Lemma session_tests_pass :
  forallb (λ b, b) [header_handles_duplicate_blocks;
    first_header_wins_primary_second_goes_behind; ack_path_updates_shared_state_and_sends_ack;
    verification_failure_sends_bad_block_proof_to_primary;
    verification_timeout_sends_resend_to_other_sessions; header_handles_behind_blocks;
    verification_failure_sends_resend_to_other_sessions; three_publishers_race_for_same_block;
    validation_error_empty_block_items; validation_error_missing_header_for_new_block;
    validation_error_too_many_items; multiple_consecutive_blocks_from_different_publishers;
    winner_cleanup_on_session_disconnect; session_stats_recorded_correctly;
    concurrent_different_blocks_from_multiple_publishers] = true.
Proof. vm_compute. reflexivity. Qed.
End SessionTests.

(** ** subscriber-plugin/src/session.rs

    The turns are the schedule of the test: an undisturbed turn reads the store as it
    is; a live block is a turn that waits and hears the announcement, and the turn
    after it. *)
Module SubscriberTests.
#[export] Instance StreamResponse_eq_dec : EqDecision StreamResponse.
Proof. solve_decision. Defined.

Record MockBlockReader := MkMock {
  blocks : gmap Z bytes;
  earliest : option Z;
  latest : option Z;
}.
#[export] Instance mock_reader : BlockReader MockBlockReader := {|
  get_latest_persisted_block_number r := Ok (latest r);
  get_earliest_persisted_block_number r := Ok (earliest r);
  read_block r block_number := Ok (blocks r !! block_number);
  get_highest_contiguous_block_number r := Ok (default 0 (latest r));
|}.
Definition mock_default : MockBlockReader := MkMock ∅ None None.
Definition add_block (r : MockBlockReader) (num : Z) : MockBlockReader :=
  MkMock (<[num := encode_to_vec (MkBlock [None])]> (blocks r))
    (match earliest r with None => Some num | e => e end) (Some num).
Definition with_blocks (first last : Z) : MockBlockReader :=
  foldl add_block mock_default (seqZ first (last + 1 - first)).

Definition test_config : SubscriberServiceConfig := {|
  subscriber_enabled := true; subscriber_max_concurrent_streams := 10;
  session_timeout_seconds := 0; live_stream_queue_size := 10;
  max_future_block_lookahead := 100 |}.

Definition reads (r : MockBlockReader) : Turn MockBlockReader := MkTurn false r true [].
Definition waits (r : MockBlockReader) (n : Z) : Turn MockBlockReader := MkTurn false r true [REvent n].
Definition stops (r : MockBlockReader) : Turn MockBlockReader := MkTurn true r true [].
Definition is_block (m : StreamResponse) : bool :=
  match m with BlockItems _ => true | StatusCode _ => false end.

Definition test_finite_historical_stream : bool :=
  let reader := with_blocks 0 20 in
  let received := run test_config (MkSubscribe 5 10) reader (replicate 7 (reads reader)) in
  (length (filter (λ m, is_block m = true) (take 6 received)) == 6%nat)
  && (received !! 6%nat == Some (StatusCode CSuccess)).

Definition test_historical_to_live_to_finite_end : bool :=
  let live i := [waits (with_blocks 0 (i - 1)) i; reads (with_blocks 0 i)] in
  let turns := replicate 6 (reads (with_blocks 0 10)) ++ (seqZ 11 5 ≫= live)
               ++ [reads (with_blocks 0 15)] in
  let received := run test_config (MkSubscribe 5 15) (with_blocks 0 10) turns in
  forallb is_block (take 11 received) && (length (take 11 received) == 11%nat)
  && (received !! 11%nat == Some (StatusCode CSuccess)).

Definition test_invalid_range_start_after_end : bool :=
  run test_config (MkSubscribe 10 5) mock_default [] == [StatusCode CInvalidEndBlockNumber].

Definition test_stream_terminates_on_shutdown_signal : bool :=
  let reader := with_blocks 0 1 in
  match run test_config (MkSubscribe 0 u64_MAX) reader [reads reader; reads reader; stops reader] with
  | [BlockItems _; BlockItems _; StatusCode code] => code == CError
  | _ => false
  end.

Definition test_validation_start_too_far_in_future : bool :=
  run test_config (MkSubscribe 200 u64_MAX) (with_blocks 0 2) [] == [StatusCode CNotAvailable].

Definition test_validation_pure_live_streaming : bool :=
  is_ok (validate_and_check_fulfillment test_config (MkSubscribe u64_MAX u64_MAX) mock_default).

Definition test_validation_from_earliest_to_end : bool :=
  let! start := validate_and_check_fulfillment test_config (MkSubscribe u64_MAX 20)
                  (with_blocks 5 15) in
  start == 5.

Definition test_validation_from_earliest_but_end_before_earliest : bool :=
  run test_config (MkSubscribe u64_MAX 5) (with_blocks 10 20) [] == [StatusCode CNotAvailable].

Definition test_validation_no_blocks_available_explicit_start : bool :=
  let! start := validate_and_check_fulfillment test_config (MkSubscribe 100 u64_MAX) mock_default in
  start == 100.

Definition test_validation_within_future_lookahead : bool :=
  let! start := validate_and_check_fulfillment test_config (MkSubscribe 50 u64_MAX)
                  (with_blocks 0 10) in
  start == 50.

Definition test_failure_cause_tracking : bool :=
  match execute_stream test_config (MkSubscribe 10 5) mock_default [] with
  | (_, Some (Err _)) => true
  | _ => false
  end && (run test_config (MkSubscribe 10 5) mock_default [] == [StatusCode CInvalidEndBlockNumber]).

Lemma subscriber_tests_pass :
  forallb (λ b, b) [test_finite_historical_stream; test_historical_to_live_to_finite_end;
    test_invalid_range_start_after_end; test_stream_terminates_on_shutdown_signal;
    test_validation_start_too_far_in_future; test_validation_pure_live_streaming;
    test_validation_from_earliest_to_end; test_validation_from_earliest_but_end_before_earliest;
    test_validation_no_blocks_available_explicit_start; test_validation_within_future_lookahead;
    test_failure_cause_tracking] = true.
Proof. vm_compute. reflexivity. Qed.
End SubscriberTests.

(** ** block-access-plugin/src/service.rs *)
Module AccessTests.
#[export] Instance AccessCode_eq_dec : EqDecision AccessCode.
Proof. solve_decision. Defined.

Record MockBlockReader := MkMock {
  blocks : gmap Z bytes;
  earliest_block : Z;
  latest_block : Z;
  force_db_error : bool;
}.
Definition create_mock_block : Block := MkBlock [header_item 200].
Definition create_mock_block_bytes : bytes := encode_to_vec create_mock_block.
Definition insert_block (r : MockBlockReader) (number : Z) (data : bytes) : MockBlockReader :=
  MkMock (<[number := data]> (blocks r)) (earliest_block r) (latest_block r) (force_db_error r).
Definition mock_new (earliest latest : Z) : MockBlockReader :=
  let reader := MkMock ∅ earliest latest false in
  if 0 <? latest then insert_block reader (as_u64 latest) create_mock_block_bytes else reader.
Definition forcing_error (r : MockBlockReader) : MockBlockReader :=
  MkMock (blocks r) (earliest_block r) (latest_block r) true.

#[export] Instance mock_reader : BlockReader MockBlockReader := {|
  read_block r block_number :=
    if force_db_error r then Err (EOther "Forced database error")
    else Ok (blocks r !! block_number);
  get_earliest_persisted_block_number r :=
    Ok (if earliest_block r <? 0 then None else Some (as_u64 (earliest_block r)));
  get_latest_persisted_block_number r :=
    Ok (if latest_block r <? 0 then None else Some (as_u64 (latest_block r)));
  get_highest_contiguous_block_number r :=
    Ok (if latest_block r <? 0 then 0 else as_u64 (latest_block r));
|}.

Definition answers (r : BlockResponse) (code : AccessCode) : bool :=
  (status r == code) && is_none (response_block r).

Definition test_get_block_by_number_success : bool :=
  let reader := insert_block (mock_new 100 200) 150 create_mock_block_bytes in
  let response := get_block reader (Some (ByNumber 150)) in
  (status response == ASuccess) && is_some (response_block response).

Definition test_get_latest_block_success : bool :=
  let reader := insert_block (mock_new 100 200) 200 create_mock_block_bytes in
  let response := get_block reader (Some (RetrieveLatest true)) in
  (status response == ASuccess) && (response_block response == Some create_mock_block).

Definition test_block_not_found_in_range : bool :=
  answers (get_block (mock_new 100 200) (Some (ByNumber 150))) ANotFound.
Definition test_block_not_available_too_low : bool :=
  answers (get_block (mock_new 100 200) (Some (ByNumber 50))) ANotAvailable.
Definition test_block_not_available_too_high : bool :=
  answers (get_block (mock_new 100 200) (Some (ByNumber 300))) ANotAvailable.
Definition test_empty_block_specifier : bool :=
  answers (get_block (mock_new 100 200) None) AInvalidRequest.
Definition test_get_latest_block_empty_database : bool :=
  answers (get_block (mock_new (-1) (-1)) (Some (RetrieveLatest true))) ANotFound.

Definition test_get_latest_block_u64_max : bool :=
  let response := get_block (mock_new 100 200) (Some (ByNumber u64_MAX)) in
  (status response == ASuccess) && is_some (response_block response).

Definition test_database_error_on_read_block : bool :=
  answers (get_block (forcing_error (mock_new 100 200)) (Some (ByNumber 150))) AUnknown.
Definition test_database_error_on_get_latest : bool :=
  answers (get_block (forcing_error (mock_new 100 200)) (Some (RetrieveLatest true))) AUnknown.
Definition test_decode_error_on_block : bool :=
  let reader := insert_block (mock_new 100 200) 150 (replicate 4 Byte.xff) in
  answers (get_block reader (Some (ByNumber 150))) AUnknown.
Definition test_empty_block_content : bool :=
  answers (get_block (insert_block (mock_new 100 200) 150 []) (Some (ByNumber 150))) AUnknown.
Definition test_edge_case_block_number_zero : bool :=
  answers (get_block (mock_new 0 200) (Some (ByNumber 0))) ANotFound.
Definition test_latest_block_metrics_update : bool :=
  status (get_block (mock_new 100 200) (Some (RetrieveLatest true))) == ASuccess.

Definition test_code_to_string_conversion : bool :=
  (code_to_string ASuccess == "Success") && (code_to_string AInvalidRequest == "InvalidRequest")
  && (code_to_string ANotFound == "NotFound") && (code_to_string ANotAvailable == "NotAvailable")
  && (code_to_string AUnknown == "Unknown") && (code_to_string AError == "Error").

Lemma access_tests_pass :
  forallb (λ b, b) [test_get_block_by_number_success; test_get_latest_block_success;
    test_block_not_found_in_range; test_block_not_available_too_low;
    test_block_not_available_too_high; test_empty_block_specifier;
    test_get_latest_block_empty_database; test_get_latest_block_u64_max;
    test_database_error_on_read_block; test_database_error_on_get_latest;
    test_decode_error_on_block; test_empty_block_content; test_edge_case_block_number_zero;
    test_latest_block_metrics_update; test_code_to_string_conversion] = true.
Proof. vm_compute. reflexivity. Qed.
End AccessTests.

(** ** server-status-plugin/src/service.rs *)
Module StatusTests.
Record MockBlockReader := MkMock {
  earliest_block : Z;
  latest_block : Z;
  force_earliest_error : bool;
  force_latest_error : bool;
}.
Definition with_error : MockBlockReader := MkMock 100 5000 true true.
Definition with_latest_error : MockBlockReader := MkMock 100 5000 false true.

#[export] Instance mock_reader : BlockReader MockBlockReader := {|
  read_block _ _ := Ok None;
  get_earliest_persisted_block_number r :=
    if force_earliest_error r then Err (EOther "Database connection error")
    else Ok (if earliest_block r <? 0 then None else Some (as_u64 (earliest_block r)));
  get_latest_persisted_block_number r :=
    if force_latest_error r then Err (EOther "Database connection error")
    else Ok (if latest_block r <? 0 then None else Some (as_u64 (latest_block r)));
  get_highest_contiguous_block_number r :=
    Ok (if latest_block r <? 0 then 0 else as_u64 (latest_block r));
|}.

Definition reports (reader : MockBlockReader) (first last : Z) : bool :=
  let! response := server_status reader in
  (first_available_block response == first) && (last_available_block response == last).
Definition i64_MAX : Z := 2 ^ 63 - 1.

Definition test_server_status_with_populated_range : bool :=
  let! response := server_status (MkMock 100 5000 false false) in
  (first_available_block response == 100) && (last_available_block response == 5000)
  && negb (only_latest_state response).
Definition test_server_status_with_empty_db : bool := reports (MkMock (-1) (-1) false false) 0 0.
Definition test_server_status_with_single_block : bool := reports (MkMock 1 1 false false) 1 1.
Definition test_server_status_earliest_block_error : bool := is_err (server_status with_error).
Definition test_server_status_latest_block_error : bool := is_err (server_status with_latest_error).
Definition test_server_status_earliest_none_latest_some : bool :=
  reports (MkMock (-1) 1000 false false) 0 1000.
Definition test_server_status_earliest_some_latest_none : bool :=
  reports (MkMock 100 (-1) false false) 100 0.
Definition test_server_status_large_block_numbers : bool :=
  reports (MkMock (i64_MAX - 1000) (i64_MAX - 100) false false)
    (as_u64 (i64_MAX - 1000)) (as_u64 (i64_MAX - 100)).
Definition test_server_status_metrics_recording : bool :=
  is_ok (server_status (MkMock 100 200 false false)).

Lemma status_tests_pass :
  forallb (λ b, b) [test_server_status_with_populated_range; test_server_status_with_empty_db;
    test_server_status_with_single_block; test_server_status_earliest_block_error;
    test_server_status_latest_block_error; test_server_status_earliest_none_latest_some;
    test_server_status_earliest_some_latest_none; test_server_status_large_block_numbers;
    test_server_status_metrics_recording] = true.
Proof. vm_compute. reflexivity. Qed.
End StatusTests.

(** ** backfill-plugin/src/worker.rs *)
Module BackfillTests.
Record MockBlockWriter := MkWriter { blocks_written : Z; should_error : bool }.
Definition writer_new : MockBlockWriter := MkWriter 0 false.
Definition writer_with_error : MockBlockWriter := MkWriter 0 true.
#[export] Instance mock_writer : BlockWriter MockBlockWriter := {|
  writer_write_block w _ :=
    if should_error w then (w, Err (EOther "Mock write error"))
    else (MkWriter (blocks_written w + 1) false, Ok tt);
  writer_write_block_batch w bs :=
    if should_error w then (w, Err (EOther "Mock batch write error"))
    else (MkWriter (blocks_written w + Z.of_nat (length bs)) false, Ok tt);
|}.
(** The reader of the tests has blocks 1 to 100. *)
#[export] Instance mock_reader : BlockReader MockBlockWriter := {|
  get_latest_persisted_block_number _ := Ok (Some 100);
  read_block _ _ := Ok None;
  get_earliest_persisted_block_number _ := Ok (Some 1);
  get_highest_contiguous_block_number _ := Ok 100;
|}.

Definition create_block_with_number (number : Z) : Block := MkBlock [header_item number].

(** Nothing listens at the peer's address. *)
Definition unreachable : Peer := λ _,
  {| at_status := Err (EOther "connect"); at_stream _ _ := Err (EOther "connect") |}.

(** [process_blocks_directly], with its updates. *)
Fixpoint process_from (w : MockBlockWriter) (mode : BackfillMode) (nums : list Z)
    : MockBlockWriter * list Update * Result Error unit :=
  match nums with
  | [] => (w, [], Ok tt)
  | n :: nums =>
      let block := create_block_with_number n in
      let us := fetched_updates mode block in
      match writer_write_block w block with
      | (w, Ok _) => let '(w, us', r) := process_from w mode nums in (w, us ++ us', r)
      | (w, Err e) => (w, us, Err e)
      end
  end.
Definition process_blocks_directly (w : MockBlockWriter) (start_block end_block : Z)
    (mode : BackfillMode) : MockBlockWriter * list Update * Result Error unit :=
  process_from w mode (seqZ start_block (end_block + 1 - start_block)).

Definition test_get_all_gaps_empty_database : bool :=
  let! db := DatabaseManager_new in
  let! gaps := get_all_gaps db in
  gaps == [].

Definition test_get_all_gaps_with_data : bool :=
  let! db := DatabaseManager_new in
  let! db := put_cf db CF_GAPS (u64_to_be 10) (u64_to_be 20) in
  let! db := put_cf db CF_GAPS (u64_to_be 50) (u64_to_be 60) in
  let! gaps := get_all_gaps db in
  gaps == [(10, 20); (50, 60)].

Definition test_get_block_number_from_block : bool :=
  get_block_number_from_block (create_block_with_number 42) == Some 42.
Definition test_get_block_number_from_empty_block : bool :=
  get_block_number_from_block (MkBlock []) == None.
Definition test_get_block_number_from_block_without_header : bool :=
  get_block_number_from_block (MkBlock [None]) == None.

Definition test_process_blocks_directly : bool :=
  let '(w, _, r) := process_blocks_directly writer_new 5 7 GapFill in
  is_ok r && (blocks_written w == 3).
Definition test_process_blocks_directly_continuous_mode : bool :=
  let '(w, _, r) := process_blocks_directly writer_new 1 3 Continuous in
  is_ok r && (blocks_written w == 3).
Definition test_process_blocks_with_write_error : bool :=
  match process_blocks_directly writer_with_error 1 2 GapFill with
  | (_, _, Err (EOther msg)) => msg == "Mock write error"
  | _ => false
  end.

Definition test_stream_blocks_from_peers_empty_peers : bool :=
  is_err (stream_blocks_from_peers (λ _, []) (Some 1) (Some 10)).
Definition test_stream_blocks_from_peers_invalid_start_end : bool :=
  is_err (stream_blocks_from_peers (λ _, [unreachable]) (Some 10) (Some 5)).

Definition test_decrementing_guard : bool :=
  (updates_value "test_gauge" [] 10 [] == 10)
  && (updates_value "test_gauge" [] 10 [Dec "test_gauge" []] == 9).

Definition test_peer_retry_constants : bool :=
  (PEER_RETRY_LIMIT == 3%nat) && (PEER_BACKOFF_BASE_SECONDS == 1)
  && (BEHIND_PEER_DELAY_SECONDS == 60) && (MAX_PEER_CONNECTION_ATTEMPTS == 5%nat).

(** The test asks only that the cycle ends. *)
Definition test_continuous_stream_with_behind_peer : bool :=
  is_some (run_continuous_stream_cycle 5 writer_new [unreachable]).2.

Lemma backfill_tests_pass :
  forallb (λ b, b) [test_get_all_gaps_empty_database; test_get_all_gaps_with_data;
    test_get_block_number_from_block; test_get_block_number_from_empty_block;
    test_get_block_number_from_block_without_header; test_process_blocks_directly;
    test_process_blocks_directly_continuous_mode; test_process_blocks_with_write_error;
    test_stream_blocks_from_peers_empty_peers; test_stream_blocks_from_peers_invalid_start_end;
    test_decrementing_guard; test_peer_retry_constants;
    test_continuous_stream_with_behind_peer] = true.
Proof. vm_compute. reflexivity. Qed.
End BackfillTests.
