(* ===== verification/PluginTests.v ===== *)
(** The unit tests of the plugin life cycles and of the configuration defaults, run on
    the model: core/src/plugin.rs, core/src/config.rs, observability-plugin,
    block-access-plugin, server-status-plugin, backfill-plugin (lib.rs) and
    state-management-plugin (plugin.rs).

    The context of a test is a configuration and a world without running plugins.
    Where a test provides a mock reader, the provider here is that of the persistence
    service: these tests never read.  A [sleep] lets spawned tasks run, which leaves the
    running flags alone. *)
From S2P Require Import Prelude Config Database Block StateManager HotTier ColdStorage Core.
From S2P Require Import PersistenceService Archiver Persistence Fixtures Publish Subscriber.
From S2P Require Import Plugins UnitTests.
Open Scope Z_scope.
Open Scope unit_scope.

#[local] Instance no_v6 : SocketAddrV6 := {| is_socket_addr_v6 _ := false |}.

(** An [AppContext] with the given providers. *)
Definition test_world (providers : list ServiceProvider) : World :=
  MkWorld (foldl register_service_provider ∅ providers) (MkRegistry ∅) (MkTiers fresh RefNode.empty_fs ∅)
    [] SharedState_new ∅ ∅ [] [] [] ∅.

Definition stopped {P} (r : P * World * Result CoreError unit) (k : P → World → bool) : bool :=
  let '(p, w, res) := r in let! _ := res in k p w.

(** ** core/src/plugin.rs *)
Module TraitTests.
Record MockPlugin := MkMockPlugin {
  name : string;
  initialized : bool;
  started : bool;
  stopped_ : bool;
  should_fail_init : bool;
  should_fail_start : bool;
  should_fail_stop : bool;
  should_register_grpc : bool;
}.
Definition MockPlugin_new (name : string) : MockPlugin :=
  MkMockPlugin name false false false false false false false.
Definition with_init_failure (p : MockPlugin) : MockPlugin :=
  MkMockPlugin (name p) (initialized p) (started p) (stopped_ p) true (should_fail_start p)
    (should_fail_stop p) (should_register_grpc p).
Definition with_start_failure (p : MockPlugin) : MockPlugin :=
  MkMockPlugin (name p) (initialized p) (started p) (stopped_ p) (should_fail_init p) true
    (should_fail_stop p) (should_register_grpc p).
Definition with_stop_failure (p : MockPlugin) : MockPlugin :=
  MkMockPlugin (name p) (initialized p) (started p) (stopped_ p) (should_fail_init p)
    (should_fail_start p) true (should_register_grpc p).
Definition with_grpc_services (p : MockPlugin) : MockPlugin :=
  MkMockPlugin (name p) (initialized p) (started p) (stopped_ p) (should_fail_init p)
    (should_fail_start p) (should_fail_stop p) true.
Definition set_flags (p : MockPlugin) (i s t : bool) : MockPlugin :=
  MkMockPlugin (name p) i s t (should_fail_init p) (should_fail_start p) (should_fail_stop p)
    (should_register_grpc p).

#[export] Instance mock_plugin : Plugin MockPlugin := {|
  plugin_name := name;
  plugin_initialize p _ w :=
    if should_fail_init p then Err (PluginInitialization "Mock initialization failure")
    else Ok (set_flags p true (started p) (stopped_ p), w);
  plugin_start p w :=
    if should_fail_start p then Err (PluginInitialization "Mock start failure")
    else if negb (initialized p) then Err (PluginInitialization "Plugin not initialized")
    else Ok (set_flags p (initialized p) true (stopped_ p), w);
  plugin_register_grpc_services p w := Ok (should_register_grpc p, w);
  plugin_is_running p _ := started p && negb (stopped_ p);
  plugin_stop p w :=
    if should_fail_stop p then (p, w, Err (PluginShutdown "Mock stop failure"))
    else (set_flags p (initialized p) (started p) true, w, Ok tt);
|}.

Definition create_test_app_context : Config := {|
  core := {| log_level := "INFO"; database_path := "/tmp/test"; core_start_block_number := 0;
             grpc_address := "127.0.0.1"; grpc_port := 8080 |};
  plugins := PluginConfigs_default |}.
Definition world : World := test_world [].
Definition runs (p : MockPlugin) : bool := plugin_is_running p world.

Definition test_plugin_lifecycle_success : bool :=
  let plugin := MockPlugin_new "test-plugin" in
  let! '(p1, w) := plugin_initialize plugin create_test_app_context world in
  let! '(p2, w) := plugin_start p1 w in
  stopped (plugin_stop p2 w) (λ p3 _,
    (plugin_name plugin == "test-plugin") && negb (runs plugin)
    && initialized p1 && negb (runs p1) && started p2 && runs p2
    && stopped_ p3 && negb (runs p3)).

(** An operation that fails leaves the plugin as it was. *)
Definition test_plugin_initialization_failure : bool :=
  let plugin := with_init_failure (MockPlugin_new "failing-plugin") in
  match plugin_initialize plugin create_test_app_context world with
  | Err (PluginInitialization msg) => msg == "Mock initialization failure"
  | _ => false
  end && negb (initialized plugin) && negb (runs plugin).

Definition test_plugin_start_failure : bool :=
  let plugin := with_start_failure (MockPlugin_new "failing-plugin") in
  let! '(p1, w) := plugin_initialize plugin create_test_app_context world in
  match plugin_start p1 w with
  | Err (PluginInitialization msg) => msg == "Mock start failure"
  | _ => false
  end && negb (started p1) && negb (runs p1).

Definition test_plugin_start_without_initialization : bool :=
  let plugin := MockPlugin_new "uninitialized-plugin" in
  match plugin_start plugin world with
  | Err (PluginInitialization msg) => msg == "Plugin not initialized"
  | _ => false
  end && negb (runs plugin).

Definition test_plugin_stop_failure : bool :=
  let plugin := with_stop_failure (MockPlugin_new "failing-plugin") in
  let! '(p1, w) := plugin_initialize plugin create_test_app_context world in
  let! '(p2, w) := plugin_start p1 w in
  match plugin_stop p2 w with
  | (p3, _, Err (PluginShutdown msg)) =>
      runs p2 && (msg == "Mock stop failure") && negb (stopped_ p3) && runs p3
  | _ => false
  end.

Definition test_plugin_grpc_service_registration_with_services : bool :=
  let! '(registered, _) :=
    plugin_register_grpc_services (with_grpc_services (MockPlugin_new "grpc-plugin")) world in
  registered.
Definition test_plugin_grpc_service_registration_without_services : bool :=
  let! '(registered, _) := plugin_register_grpc_services (MockPlugin_new "no-grpc-plugin") world in
  negb registered.

Definition test_plugin_is_running_states : bool :=
  let plugin := MockPlugin_new "state-plugin" in
  let! '(p1, w) := plugin_initialize plugin create_test_app_context world in
  let! '(p2, w) := plugin_start p1 w in
  stopped (plugin_stop p2 w) (λ p3 _,
    negb (runs plugin) && negb (runs p1) && runs p2 && negb (runs p3)).

Definition test_multiple_plugin_instances : bool :=
  let! '(p1, w1) := plugin_initialize (MockPlugin_new "plugin-1") create_test_app_context world in
  let! '(p2, w2) := plugin_initialize (MockPlugin_new "plugin-2") create_test_app_context world in
  let! '(p1, w1) := plugin_start p1 w1 in
  let! '(p2, w2) := plugin_start p2 w2 in
  stopped (plugin_stop p1 w1) (λ p1' _, stopped (plugin_stop p2 w2) (λ p2' _,
    runs p1 && runs p2 && negb (runs p1') && negb (runs p2'))).

Lemma trait_tests_pass :
  forallb (λ b, b) [test_plugin_lifecycle_success; test_plugin_initialization_failure;
    test_plugin_start_failure; test_plugin_start_without_initialization;
    test_plugin_stop_failure; test_plugin_grpc_service_registration_with_services;
    test_plugin_grpc_service_registration_without_services; test_plugin_is_running_states;
    test_multiple_plugin_instances] = true.
Proof. vm_compute. reflexivity. Qed.
End TraitTests.

(** The default configuration with one plugin's part replaced. *)
Definition config_with (obs : ObservabilityConfig) (access : BlockAccessServiceConfig)
    (status : ServerStatusServiceConfig) (state : StateManagementServiceConfig) : Config := {|
  core := CoreConfig_default;
  plugins := {|
    observability := obs;
    persistence_service := PersistenceServiceConfig_default;
    publish_service := PublishServiceConfig_default;
    verification_service := VerificationServiceConfig_default;
    block_access_service := access;
    server_status_service := status;
    state_management_service := state;
    subscriber_service := SubscriberServiceConfig_default;
    query_service := QueryServiceConfig_default;
    backfill := BackfillConfig_default |} |}.

(** ** observability-plugin/src/lib.rs *)
Module ObservabilityTests.
Definition context_at (enabled : bool) (address : string) : Config :=
  config_with {| observability_enabled := enabled; listen_address := address |}
    BlockAccessServiceConfig_default ServerStatusServiceConfig_default
    StateManagementServiceConfig_default.
Definition create_test_context (enabled : bool) : Config := context_at enabled "127.0.0.1:0".
Definition world : World := test_world [].
Definition new_plugin : ObservabilityPlugin := ObservabilityPlugin_new.
Definition running (w : World) : bool := plugin_is_running new_plugin w.

Definition test_plugin_name : bool := plugin_name new_plugin == "observability-plugin".

Definition test_plugin_initialization : bool :=
  let! '(plugin, w) := plugin_initialize new_plugin (create_test_context true) world in
  is_some (obs_context plugin) && negb (running w).

Definition test_plugin_initialization_twice : bool :=
  let! '(plugin, w) := plugin_initialize new_plugin (create_test_context true) world in
  is_ok (plugin_initialize plugin (create_test_context true) w).

Definition test_start_without_initialization : bool :=
  match plugin_start new_plugin world with
  | Err (Other (EOther msg)) => msg == "ObservabilityPlugin not initialized"
  | _ => false
  end.

Definition test_start_disabled_plugin : bool :=
  let! '(plugin, w) := plugin_initialize new_plugin (create_test_context false) world in
  let! '(plugin, w) := plugin_start plugin w in
  negb (running w).

Definition test_start_enabled_plugin : bool :=
  let! '(plugin, w) := plugin_initialize new_plugin (create_test_context true) world in
  let! '(plugin, w) := plugin_start plugin w in
  stopped (plugin_stop plugin w) (λ _ w', running w && negb (running w')).

Definition test_stop_without_start : bool :=
  let! '(plugin, w) := plugin_initialize new_plugin (create_test_context true) world in
  stopped (plugin_stop plugin w) (λ _ w, negb (running w)).

Definition test_double_stop : bool :=
  let! '(plugin, w) := plugin_initialize new_plugin (create_test_context true) world in
  let! '(plugin, w) := plugin_start plugin w in
  stopped (plugin_stop plugin w) (λ plugin w1,
  stopped (plugin_stop plugin w1) (λ _ w2, negb (running w1) && negb (running w2))).

Definition test_plugin_restart : bool :=
  let! '(plugin, w) := plugin_initialize new_plugin (create_test_context true) world in
  let! '(plugin, w1) := plugin_start plugin w in
  stopped (plugin_stop plugin w1) (λ plugin w2,
  let! '(plugin, w3) := plugin_start plugin w2 in
  stopped (plugin_stop plugin w3) (λ _ w4,
    running w1 && negb (running w2) && running w3 && negb (running w4))).

Definition test_plugin_not_running_by_default : bool := negb (running world).

Definition test_graceful_shutdown : bool :=
  let! '(plugin, w) := plugin_initialize new_plugin (create_test_context true) world in
  let! '(plugin, w) := plugin_start plugin w in
  stopped (plugin_stop plugin w) (λ _ w', running w && negb (running w')).

Definition test_default_plugin_state : bool :=
  is_none (obs_context new_plugin) && negb (running world) && negb (obs_shutdown_tx new_plugin).

Definition test_server_bind_failure : bool :=
  let! '(plugin, w) :=
    plugin_initialize new_plugin (context_at true "invalid:address:99999") world in
  is_err (plugin_start plugin w) && negb (running w).

Definition test_server_port_allocation : bool :=
  let! '(plugin, w) := plugin_initialize new_plugin (create_test_context true) world in
  let! '(plugin, w) := plugin_start plugin w in
  stopped (plugin_stop plugin w) (λ _ w', running w && negb (running w')).

Definition test_readiness_depends_on_block_reader_capability : bool :=
  let ctx := with_capabilities world (register (w_capabilities world) ProvidesBlockReader) in
  (readiness_check world == (503, "NOT_READY")) && (readiness_check ctx == (200, "READY")).

Lemma observability_tests_pass :
  forallb (λ b, b) [test_plugin_name; test_plugin_initialization;
    test_plugin_initialization_twice; test_start_without_initialization;
    test_start_disabled_plugin; test_start_enabled_plugin; test_stop_without_start;
    test_double_stop; test_plugin_restart; test_plugin_not_running_by_default;
    test_graceful_shutdown; test_default_plugin_state; test_server_bind_failure;
    test_server_port_allocation; test_readiness_depends_on_block_reader_capability] = true.
Proof. vm_compute. reflexivity. Qed.
End ObservabilityTests.

(** The life-cycle tests that block access and server status share: services when
    enabled and not when disabled, and a start and stop. *)
Section serving.
Context {P : Type} {PLUGIN : Plugin P} (new_plugin : P) (context : bool → Config).
Definition reader_world : World :=
  test_world [BlockReaderProvider PersistenceServiceConfig_default 0].
Definition registers (enabled : bool) : bool :=
  let! '(plugin, w) := plugin_initialize new_plugin (context enabled) reader_world in
  let! '(registered, _) := plugin_register_grpc_services plugin w in
  Bool.eqb registered enabled.
Definition enabled_lifecycle : bool :=
  let! '(plugin, w) := plugin_initialize new_plugin (context true) reader_world in
  let! '(registered, w) := plugin_register_grpc_services plugin w in
  let! '(plugin, w) := plugin_start plugin w in
  stopped (plugin_stop plugin w) (λ plugin' w',
    registered && plugin_is_running plugin w && negb (plugin_is_running plugin' w')).
End serving.

(** ** block-access-plugin/src/lib.rs *)
Module AccessPluginTests.
Definition create_test_context (enabled : bool) : Config :=
  config_with ObservabilityConfig_default {| block_access_enabled := enabled |}
    ServerStatusServiceConfig_default StateManagementServiceConfig_default.
Definition test_plugin_name : bool := plugin_name BlockAccessPlugin_new == "block-access-plugin".
Definition test_plugin_registers_services_when_enabled : bool :=
  registers BlockAccessPlugin_new create_test_context true.
Definition test_plugin_does_not_register_services_when_disabled : bool :=
  registers BlockAccessPlugin_new create_test_context false.
Definition test_enabled_plugin_lifecycle : bool :=
  enabled_lifecycle BlockAccessPlugin_new create_test_context.
Lemma access_plugin_tests_pass :
  forallb (λ b, b) [test_plugin_name; test_plugin_registers_services_when_enabled;
    test_plugin_does_not_register_services_when_disabled; test_enabled_plugin_lifecycle] = true.
Proof. vm_compute. reflexivity. Qed.
End AccessPluginTests.

(** ** server-status-plugin/src/lib.rs *)
Module StatusPluginTests.
Definition create_test_context (enabled : bool) : Config :=
  config_with ObservabilityConfig_default BlockAccessServiceConfig_default
    {| server_status_enabled := enabled |} StateManagementServiceConfig_default.
Definition test_plugin_name : bool := plugin_name StatusPlugin_new == "status-plugin".
Definition test_plugin_registers_services_when_enabled : bool :=
  registers StatusPlugin_new create_test_context true.
Definition test_plugin_does_not_register_services_when_disabled : bool :=
  registers StatusPlugin_new create_test_context false.
Definition test_enabled_plugin_lifecycle : bool :=
  enabled_lifecycle StatusPlugin_new create_test_context.
Lemma status_plugin_tests_pass :
  forallb (λ b, b) [test_plugin_name; test_plugin_registers_services_when_enabled;
    test_plugin_does_not_register_services_when_disabled; test_enabled_plugin_lifecycle] = true.
Proof. vm_compute. reflexivity. Qed.
End StatusPluginTests.

(** ** backfill-plugin/src/lib.rs *)
Module BackfillPluginTests.
Definition create_test_context (enabled : bool) (mode : BackfillMode) (peers : list string)
    : Config := {|
  core := {| log_level := "INFO"; database_path := "tmp"; core_start_block_number := 0;
             grpc_address := "127.0.0.1"; grpc_port := 8080 |};
  plugins := {|
    observability := ObservabilityConfig_default;
    persistence_service := PersistenceServiceConfig_default;
    publish_service := PublishServiceConfig_default;
    verification_service := VerificationServiceConfig_default;
    block_access_service := BlockAccessServiceConfig_default;
    server_status_service := ServerStatusServiceConfig_default;
    state_management_service := StateManagementServiceConfig_default;
    subscriber_service := SubscriberServiceConfig_default;
    query_service := QueryServiceConfig_default;
    backfill := {| backfill_enabled := enabled; mode := mode; peers := peers;
                   check_interval_seconds := 1; max_batch_size := 100 |} |} |}.
Definition world : World :=
  test_world [BlockReaderProvider PersistenceServiceConfig_default 0;
              BlockWriterProvider PersistenceServiceConfig_default 0; DatabaseManagerProvider].
Definition peer : list string := ["http://localhost:8080"].

Definition test_plugin_new : bool :=
  (plugin_name BackfillPlugin_new == "backfill-plugin")
  && is_none (bp_context BackfillPlugin_new) && negb (plugin_is_running BackfillPlugin_new world).

Definition test_plugin_initialize : bool :=
  let! '(plugin, _) :=
    plugin_initialize BackfillPlugin_new (create_test_context true GapFill peer) world in
  is_some (bp_context plugin).

Definition test_plugin_start_when_disabled : bool :=
  let! '(plugin, w) :=
    plugin_initialize BackfillPlugin_new (create_test_context false GapFill peer) world in
  let! '(plugin, w) := plugin_start plugin w in
  negb (plugin_is_running plugin w).

Definition test_plugin_start_with_no_peers : bool :=
  let! '(plugin, w) :=
    plugin_initialize BackfillPlugin_new (create_test_context true GapFill []) world in
  let! '(plugin, w) := plugin_start plugin w in
  negb (plugin_is_running plugin w).

(** worker.rs: the worker needs its three providers. *)
Definition test_backfill_worker_new_success : bool := is_ok (BackfillWorker_new world).
Definition test_backfill_worker_new_missing_providers : bool :=
  match BackfillWorker_new (test_world []) with
  | Err msg => msg == "BackfillPlugin requires BlockReaderProvider"
  | Ok _ => false
  end.

Lemma backfill_plugin_tests_pass :
  forallb (λ b, b) [test_plugin_new; test_plugin_initialize; test_plugin_start_when_disabled;
    test_plugin_start_with_no_peers; test_backfill_worker_new_success;
    test_backfill_worker_new_missing_providers] = true.
Proof. vm_compute. reflexivity. Qed.
End BackfillPluginTests.

(** ** state-management-plugin/src/plugin.rs *)
Module StatePluginTests.
Definition create_test_context (enabled : bool) : Config :=
  config_with ObservabilityConfig_default BlockAccessServiceConfig_default
    ServerStatusServiceConfig_default {| state_management_enabled := enabled |}.

Definition test_initialize_disabled_skips_internal_setup : bool :=
  let! '(plugin, w) :=
    plugin_initialize StateManagementPlugin_new (create_test_context false) (test_world []) in
  negb (smp_enabled plugin) && negb (smp_state_manager plugin)
  && is_none (get_service_provider (w_providers w) TStateReaderProvider)
  && negb (plugin_is_running plugin w).

Definition test_start_disabled_does_not_run : bool :=
  let! '(plugin, w) :=
    plugin_initialize StateManagementPlugin_new (create_test_context false) (test_world []) in
  let! '(plugin, w) := plugin_start plugin w in
  negb (plugin_is_running plugin w).

Lemma state_plugin_tests_pass :
  test_initialize_disabled_skips_internal_setup && test_start_disabled_does_not_run = true.
Proof. vm_compute. reflexivity. Qed.
End StatePluginTests.

(** ** core/src/config.rs *)
Module ConfigTests.
Definition test_core_config_default_values : bool :=
  let config := CoreConfig_default in
  (log_level config == "INFO") && (database_path config == "data/database")
  && (core_start_block_number config == 0).
Definition test_observability_config_default_values : bool :=
  let config := ObservabilityConfig_default in
  observability_enabled config && (listen_address config == "0.0.0.0:9600").
Definition test_persistence_service_config_default_values : bool :=
  let config := PersistenceServiceConfig_default in
  persistence_enabled config && (cold_storage_path config == "data/cold_storage")
  && (hot_storage_block_count config == 100) && (archive_batch_size config == 100).
Definition test_publish_service_config_default_values : bool :=
  let config := PublishServiceConfig_default in
  publish_enabled config && (publish_max_concurrent_streams config == 250)
  && (persistence_ack_timeout_seconds config == 60) && (stale_winner_timeout_seconds config == 10)
  && (winner_cleanup_interval_seconds config == 150)
  && (winner_cleanup_threshold_blocks config == 1000).
Definition test_subscriber_service_config_default_values : bool :=
  let config := SubscriberServiceConfig_default in
  subscriber_enabled config && (subscriber_max_concurrent_streams config == 100)
  && (session_timeout_seconds config == 60) && (live_stream_queue_size config == 250)
  && (max_future_block_lookahead config == 250).
Definition test_backfill_config_default_values : bool :=
  let config := BackfillConfig_default in
  negb (backfill_enabled config) && (mode config == GapFill)
  && (length (peers config) == 0%nat) && (check_interval_seconds config == 60)
  && (max_batch_size config == 1000).
Definition test_plugin_configs_default : bool :=
  let configs := PluginConfigs_default in
  observability_enabled (observability configs)
  && persistence_enabled (persistence_service configs)
  && publish_enabled (publish_service configs)
  && negb (verification_enabled (verification_service configs))
  && block_access_enabled (block_access_service configs)
  && server_status_enabled (server_status_service configs)
  && state_management_enabled (state_management_service configs)
  && subscriber_enabled (subscriber_service configs)
  && query_enabled (query_service configs) && negb (backfill_enabled (backfill configs)).
Lemma config_tests_pass :
  forallb (λ b, b) [test_core_config_default_values; test_observability_config_default_values;
    test_persistence_service_config_default_values; test_publish_service_config_default_values;
    test_subscriber_service_config_default_values; test_backfill_config_default_values;
    test_plugin_configs_default] = true.
Proof. vm_compute. reflexivity. Qed.
End ConfigTests.
