(* ===== verification/CoreTests.v ===== *)
(** The unit tests of the core crate and of the application that the other test files
    leave, run on the model: block_reader.rs, block_writer.rs, app_context.rs, error.rs,
    database.rs, metrics.rs and the rest of config.rs in core/src, and
    app/rock-node/src/main.rs.

    As there, a [bool] is one test function and says whether its assertions hold.  A
    handle that a test clones is the same state; a mock is an instance of the trait it
    implements.  Assertions about [Debug] output are left out. *)
From S2P Require Import Prelude Config ConfigFile Database Block StateManager HotTier.
From S2P Require Import ColdStorage Core PersistenceService Archiver Persistence Fixtures.
From S2P Require Import Publish Subscriber Access Backfill Metrics Plugins Node Startup UnitTests.
From S2P Require Import PluginTests.
Open Scope Z_scope.
Open Scope unit_scope.

(** ** core/src/block_reader.rs *)
Module ReaderTests.
Record MockBlockReader := MkReader { blocks : gmap Z bytes }.
Definition MockBlockReader_new : MockBlockReader := MkReader ∅.
Definition insert_block (r : MockBlockReader) (block_number : Z) (data : string) : MockBlockReader :=
  MkReader (<[block_number := String.list_byte_of_string data]> (blocks r)).

(** [keys().max()] and [keys().min()] *)
Definition keys (r : MockBlockReader) : list Z := (map_to_list (blocks r)).*1.
Definition extremum (pick : Z → Z → Z) (l : list Z) : option Z :=
  match l with [] => None | k :: l => Some (foldl pick k l) end.

Fixpoint contiguous_from (highest : Z) (sorted : list Z) : Z :=
  match sorted with
  | [] => highest
  | key :: sorted =>
      if (key =? highest) || (key =? u64_add highest 1) then contiguous_from key sorted else highest
  end.

#[export] Instance mock_reader : BlockReader MockBlockReader := {|
  get_latest_persisted_block_number r := Ok (extremum Z.max (keys r));
  get_earliest_persisted_block_number r := Ok (extremum Z.min (keys r));
  read_block r n := Ok (blocks r !! n);
  get_highest_contiguous_block_number r := Ok (contiguous_from 0 (merge_sort Z.le (keys r)));
|}.

Definition reads (r : MockBlockReader) (n : Z) (data : option string) : bool :=
  let! c := read_block r n in c == (String.list_byte_of_string <$> data).
Definition latest_is (r : MockBlockReader) (o : option Z) : bool :=
  let! n := get_latest_persisted_block_number r in n == o.
Definition earliest_is (r : MockBlockReader) (o : option Z) : bool :=
  let! n := get_earliest_persisted_block_number r in n == o.
Definition contiguous_is (r : MockBlockReader) (n : Z) : bool :=
  let! h := get_highest_contiguous_block_number r in h == n.
Definition with_blocks (l : list (Z * string)) : MockBlockReader :=
  foldl (λ r '(n, data), insert_block r n data) MockBlockReader_new l.

Definition test_block_reader_provider_get_reader : bool := latest_is MockBlockReader_new None.
Definition test_mock_block_reader_empty : bool :=
  let reader := MockBlockReader_new in
  latest_is reader None && earliest_is reader None && reads reader 1 None && contiguous_is reader 0.
Definition test_mock_block_reader_single_block : bool :=
  let reader := with_blocks [(1, "block 1")] in
  latest_is reader (Some 1) && earliest_is reader (Some 1) && reads reader 1 (Some "block 1")
  && contiguous_is reader 1.
Definition test_mock_block_reader_multiple_blocks : bool :=
  let reader := with_blocks [(1, "block 1"); (2, "block 2"); (3, "block 3")] in
  latest_is reader (Some 3) && earliest_is reader (Some 1) && reads reader 2 (Some "block 2")
  && contiguous_is reader 3.
Definition test_mock_block_reader_gap_in_blocks : bool :=
  let reader := with_blocks [(1, "block 1"); (2, "block 2"); (5, "block 5")] in
  latest_is reader (Some 5) && earliest_is reader (Some 1) && contiguous_is reader 2.
Definition test_mock_block_reader_nonexistent_block : bool :=
  reads (with_blocks [(1, "block 1")]) 999 None.
Definition test_mock_block_reader_highest_contiguous_with_gap_at_start : bool :=
  contiguous_is (with_blocks [(5, "block 5"); (6, "block 6"); (7, "block 7")]) 0.
Definition test_mock_block_reader_highest_contiguous_starting_from_zero : bool :=
  contiguous_is (with_blocks [(0, "block 0"); (1, "block 1"); (2, "block 2")]) 2.

Lemma reader_tests_pass :
  forallb (λ b, b) [test_block_reader_provider_get_reader; test_mock_block_reader_empty;
    test_mock_block_reader_single_block; test_mock_block_reader_multiple_blocks;
    test_mock_block_reader_gap_in_blocks; test_mock_block_reader_nonexistent_block;
    test_mock_block_reader_highest_contiguous_with_gap_at_start;
    test_mock_block_reader_highest_contiguous_starting_from_zero] = true.
Proof. vm_compute. reflexivity. Qed.
End ReaderTests.

(** ** core/src/block_writer.rs *)
Module WriterTests.
Record MockBlockWriter := MkWriter { blocks : list Block; should_fail : bool }.
Definition MockBlockWriter_new : MockBlockWriter := MkWriter [] false.
Definition set_should_fail (w : MockBlockWriter) (b : bool) : MockBlockWriter :=
  MkWriter (blocks w) b.
Definition get_written_blocks (w : MockBlockWriter) : list Block := blocks w.
Definition clear (w : MockBlockWriter) : MockBlockWriter := MkWriter [] (should_fail w).

#[export] Instance mock_writer : BlockWriter MockBlockWriter := {|
  writer_write_block w block :=
    if should_fail w then (w, Err (EOther "Mock write failure"))
    else (MkWriter (blocks w ++ [block]) (should_fail w), Ok ());
  writer_write_block_batch w bs :=
    if should_fail w then (w, Err (EOther "Mock batch write failure"))
    else (MkWriter (blocks w ++ bs) (should_fail w), Ok ());
|}.

Definition Block_default : Block := MkBlock [].
Definition written (w : MockBlockWriter) : nat := length (get_written_blocks w).
(** A call and what is asserted of its result. *)
Definition write_ok (w : MockBlockWriter) (k : MockBlockWriter → bool) : bool :=
  let '(w, r) := writer_write_block w Block_default in let! _ := r in k w.
Definition batch_ok (w : MockBlockWriter) (n : nat) (k : MockBlockWriter → bool) : bool :=
  let '(w, r) := writer_write_block_batch w (replicate n Block_default) in let! _ := r in k w.
Fixpoint writes_ok (n : nat) (w : MockBlockWriter) (k : MockBlockWriter → bool) : bool :=
  match n with O => k w | S n => write_ok w (λ w, writes_ok n w k) end.

Definition test_block_writer_provider_get_writer : bool := write_ok MockBlockWriter_new (λ _, true).
Definition test_block_writer_provider_clone : bool := writes_ok 2 MockBlockWriter_new (λ _, true).
Definition test_mock_block_writer_write_single_block : bool :=
  write_ok MockBlockWriter_new (λ w, written w == 1%nat).
Definition test_mock_block_writer_write_multiple_blocks : bool :=
  writes_ok 5 MockBlockWriter_new (λ w, written w == 5%nat).
Definition test_mock_block_writer_write_batch : bool :=
  batch_ok MockBlockWriter_new 3 (λ w, written w == 3%nat).
Definition test_mock_block_writer_write_empty_batch : bool :=
  batch_ok MockBlockWriter_new 0 (λ w, written w == 0%nat).
Definition test_mock_block_writer_write_large_batch : bool :=
  batch_ok MockBlockWriter_new 100 (λ w, written w == 100%nat).
Definition test_mock_block_writer_mixed_operations : bool :=
  write_ok MockBlockWriter_new (λ w, batch_ok w 2 (λ w, write_ok w (λ w, written w == 4%nat))).
Definition test_mock_block_writer_clear : bool :=
  write_ok MockBlockWriter_new (λ w, (written w == 1%nat) && (written (clear w) == 0%nat)).
Definition test_mock_block_writer_failure : bool :=
  let w := set_should_fail MockBlockWriter_new true in
  let '(w, result) := writer_write_block w Block_default in
  is_err result && (written w == 0%nat).
Definition test_mock_block_writer_batch_failure : bool :=
  let w := set_should_fail MockBlockWriter_new true in
  let '(w, result) := writer_write_block_batch w [Block_default; Block_default] in
  is_err result && (written w == 0%nat).
Definition test_mock_block_writer_failure_recovery : bool :=
  write_ok MockBlockWriter_new (λ w,
    let '(w, result) := writer_write_block (set_should_fail w true) Block_default in
    is_err result && write_ok (set_should_fail w false) (λ w, written w == 2%nat)).
Definition test_provider_shares_underlying_writer : bool :=
  writes_ok 2 MockBlockWriter_new (λ mock_writer, written mock_writer == 2%nat).
(** The ten calls take the lock one after the other. *)
Definition test_provider_concurrent_writes : bool :=
  writes_ok 10 MockBlockWriter_new (λ mock_writer, written mock_writer == 10%nat).

Lemma writer_tests_pass :
  forallb (λ b, b) [test_block_writer_provider_get_writer; test_block_writer_provider_clone;
    test_mock_block_writer_write_single_block; test_mock_block_writer_write_multiple_blocks;
    test_mock_block_writer_write_batch; test_mock_block_writer_write_empty_batch;
    test_mock_block_writer_write_large_batch; test_mock_block_writer_mixed_operations;
    test_mock_block_writer_clear; test_mock_block_writer_failure;
    test_mock_block_writer_batch_failure; test_mock_block_writer_failure_recovery;
    test_provider_shares_underlying_writer; test_provider_concurrent_writes] = true.
Proof. vm_compute. reflexivity. Qed.
End WriterTests.

(** ** core/src/app_context.rs

    The services a test defines for itself are stood for by providers of the table: a
    reader whose start block is the number in the service, and a writer. *)
Module ContextTests.
Definition no_cfg : PersistenceServiceConfig := PersistenceServiceConfig_default.
Definition create_test_app_context : Config * World :=
  ({| core := CoreConfig_default; plugins := PluginConfigs_default |}, test_world []).
Definition start_of (p : option ServiceProvider) : option Z :=
  match p with
  | Some (BlockReaderProvider _ start) | Some (BlockWriterProvider _ start) => Some start
  | _ => None
  end.

Definition test_app_context_creation : bool :=
  let '(config, _) := create_test_app_context in database_path (core config) == "data/database".
Definition test_service_provider_registration : bool :=
  let '(_, ctx) := create_test_app_context in
  let ctx := provide (BlockReaderProvider no_cfg 42) ctx in
  start_of (get_service_provider (w_providers ctx) TBlockReaderProvider) == Some 42.
Definition test_service_provider_not_registered : bool :=
  let '(_, ctx) := create_test_app_context in
  is_none (get_service_provider (w_providers ctx) TBlockReaderProvider).
Definition test_service_provider_multiple_types : bool :=
  let '(_, ctx) := create_test_app_context in
  let ctx := provide (BlockWriterProvider no_cfg 100) (provide (BlockReaderProvider no_cfg 1) ctx) in
  (start_of (get_service_provider (w_providers ctx) TBlockReaderProvider) == Some 1)
  && (start_of (get_service_provider (w_providers ctx) TBlockWriterProvider) == Some 100).
Definition test_service_provider_overwrite : bool :=
  let '(_, ctx) := create_test_app_context in
  let ctx := provide (BlockReaderProvider no_cfg 2) (provide (BlockReaderProvider no_cfg 1) ctx) in
  start_of (get_service_provider (w_providers ctx) TBlockReaderProvider) == Some 2.
Definition test_block_data_cache_access : bool :=
  let cache := Cache.insert Cache.new 1%N 0 (MkBlockData 1 (String.list_byte_of_string "test")) in
  let? retrieved := Cache.get cache 1%N in bd_block_number retrieved == 1.
Definition test_capability_registry_access : bool :=
  let '(_, ctx) := create_test_app_context in
  is_registered (Core.register (w_capabilities ctx) ProvidesBlockReader) ProvidesBlockReader.

Lemma context_tests_pass :
  forallb (λ b, b) [test_app_context_creation; test_service_provider_registration;
    test_service_provider_not_registered; test_service_provider_multiple_types;
    test_service_provider_overwrite; test_block_data_cache_access;
    test_capability_registry_access] = true.
Proof. vm_compute. reflexivity. Qed.
End ContextTests.

(** ** core/src/error.rs *)
Module ErrorTests.
(** The text of an error made with [anyhow!]. *)
Definition message (e : Error) : string := match e with EOther m => m | _ => "" end.
Definition to_string (e : CoreError) : string := core_error_to_string message e.

Definition test_configuration_error_display : bool :=
  to_string (Configuration "invalid config value") == "Configuration Error: invalid config value".
Definition test_plugin_initialization_error_display : bool :=
  to_string (PluginInitialization "failed to load plugin")
  == "Plugin Initialization Failed: failed to load plugin".
Definition test_plugin_shutdown_error_display : bool :=
  to_string (PluginShutdown "failed to cleanup resources")
  == "Plugin Shutdown Failed: failed to cleanup resources".
Definition test_io_error_display : bool := to_string Io == "I/O Error".
Definition test_anyhow_error_conversion : bool :=
  match from_anyhow (A := unit) (Err (EOther "something went wrong")) with
  | Err (Other _) => true
  | _ => false
  end.
Definition test_anyhow_error_message_preserved : bool :=
  match from_anyhow (A := unit) (Err (EOther "custom error message")) with
  | Err error => to_string error == "custom error message"
  | Ok _ => false
  end.

Lemma error_tests_pass :
  forallb (λ b, b) [test_configuration_error_display; test_plugin_initialization_error_display;
    test_plugin_shutdown_error_display; test_io_error_display; test_anyhow_error_conversion;
    test_anyhow_error_message_preserved] = true.
Proof. vm_compute. reflexivity. Qed.
End ErrorTests.

(** ** core/src/database.rs: [put] and [get] are those of the default column family. *)
Module DatabaseTests.
Definition str (s : string) : bytes := String.list_byte_of_string s.
Definition put (db : DB) (k v : string) : Result Error DB := put_cf db "default" (str k) (str v).
Definition get (db : DB) (k : string) : Result Error (option bytes) := get_cf db "default" (str k).

Definition test_database_manager_new_success : bool := is_ok DatabaseManager_new.
Definition test_database_manager_creates_required_column_families : bool :=
  let! db := DatabaseManager_new in
  cf_handle db "default" && cf_handle db CF_METADATA && cf_handle db CF_HOT_BLOCKS
  && cf_handle db CF_STATE_DATA && cf_handle db CF_GAPS && cf_handle db CF_SKIPPED_BATCHES.
Definition test_database_manager_column_family_operations : bool :=
  let! db := DatabaseManager_new in
  let! db := put_cf db CF_METADATA (str "meta_key") (str "meta_value") in
  let! db := put_cf db CF_HOT_BLOCKS (str "block_key") (str "block_value") in
  let! meta_value := get_cf db CF_METADATA (str "meta_key") in
  let! block_value := get_cf db CF_HOT_BLOCKS (str "block_key") in
  let! non_existent := get_cf db CF_METADATA (str "block_key") in
  (meta_value == Some (str "meta_value")) && (block_value == Some (str "block_value"))
  && (non_existent == None).
Definition test_database_manager_handle_sharing : bool :=
  let! db := DatabaseManager_new in
  let! db := put db "shared_key" "shared_value" in
  let! value := get db "shared_key" in
  value == Some (str "shared_value").
Definition test_database_constants : bool :=
  (CF_METADATA == "metadata") && (CF_HOT_BLOCKS == "hot_blocks") && (CF_STATE_DATA == "state_data")
  && (CF_GAPS == "gaps") && (CF_SKIPPED_BATCHES == "skipped_batches")
  && (STATE_LAST_PROCESSED_BLOCK == str "state_last_processed_block").

Lemma database_tests_pass :
  forallb (λ b, b) [test_database_manager_new_success;
    test_database_manager_creates_required_column_families;
    test_database_manager_column_family_operations; test_database_manager_handle_sharing;
    test_database_constants] = true.
Proof. vm_compute. reflexivity. Qed.
End DatabaseTests.

(** ** core/src/metrics.rs: the updates a test makes must fit the table, else they panic. *)
Module MetricTests.
#[local] Instance prom : Prometheus := RefPrometheus.ref_prometheus.

Definition value (us : list Update) (metric : string) : Z := updates_value metric [] 0 us.
(** The registry is made, the updates are applied, then [k] is asserted. *)
Definition after_updates (us : list Update) (k : bool) : bool :=
  let! _ := metrics_new in forallb well_labelled us && k.

Definition test_metrics_registry_new_success : bool := is_ok metrics_new.
Definition test_metrics_registry_with_custom_registry : bool := is_ok (with_registry new_registry).
Definition test_all_core_metrics_are_registered : bool :=
  let us := [Inc "blocks_acknowledged" []; SetTo "active_publish_sessions" [] 5] in
  after_updates us
    ((value us "blocks_acknowledged" == 1) && (value us "active_publish_sessions" == 5)).
Definition test_block_access_metrics_are_registered : bool :=
  let us := [Inc "block_access_requests_total" ["success"; "get_block"];
             SetTo "block_access_latest_available_block" [] 100;
             Observe "block_access_request_duration_seconds" ["success"; "get_block"]] in
  after_updates us (value us "block_access_latest_available_block" == 100).
Definition test_publish_plugin_metrics_are_registered : bool :=
  let us := [Inc "publish_blocks_received_total" ["success"]; Inc "publish_items_processed_total" [];
             Observe "publish_persistence_duration_seconds" ["success"]] in
  after_updates us (value us "publish_items_processed_total" == 1).
Definition test_persistence_plugin_metrics_are_registered : bool :=
  let us := [Inc "persistence_writes_total" ["live"]; Inc "persistence_archival_cycles_total" [];
             SetTo "persistence_hot_tier_block_count" [] 50;
             SetTo "persistence_cold_tier_block_count" [] 1000] in
  after_updates us
    ((value us "persistence_archival_cycles_total" == 1)
     && (value us "persistence_hot_tier_block_count" == 50)
     && (value us "persistence_cold_tier_block_count" == 1000)).
Definition test_subscriber_plugin_metrics_are_registered : bool :=
  let us := [SetTo "subscriber_active_sessions" [] 3; Inc "subscriber_blocks_sent_total" ["live"];
             Inc "subscriber_sessions_total" ["completed"];
             SetFloat "subscriber_average_inter_block_time_seconds" ["session_123"]] in
  after_updates us (value us "subscriber_active_sessions" == 3).
Definition test_backfill_plugin_metrics_are_registered : bool :=
  let us := [Inc "backfill_gaps_found_total" []; Inc "backfill_blocks_fetched_total" ["GapFill"];
             Inc "backfill_peer_connection_attempts_total" ["peer1"; "success"];
             SetTo "backfill_active_streams" [] 2; SetTo "backfill_latest_continuous_block" [] 12345] in
  after_updates us
    ((value us "backfill_gaps_found_total" == 1) && (value us "backfill_active_streams" == 2)
     && (value us "backfill_latest_continuous_block" == 12345)).
Definition test_metric_isolation_in_tests : bool :=
  let us1 := [Inc "blocks_acknowledged" []; SetTo "active_publish_sessions" [] 5] in
  let us2 := [] in
  after_updates us1 (after_updates us2
    ((value us1 "blocks_acknowledged" == 1) && (value us1 "active_publish_sessions" == 5)
     && (value us2 "blocks_acknowledged" == 0) && (value us2 "active_publish_sessions" == 0))).
(** The tasks in the order of their numbers; the counter does not depend on it. *)
Definition test_concurrent_metric_updates : bool :=
  let us := mjoin ((λ i, mjoin (replicate 100
    [Inc "blocks_acknowledged" []; SetTo "active_publish_sessions" [] (Z.of_nat i);
     Inc "block_access_requests_total" ["success"; "get_block"]])) <$> seq 0 10) in
  after_updates us
    ((value us "blocks_acknowledged" == 1000) && (0 <=? value us "active_publish_sessions")
     && (value us "active_publish_sessions" <? 10)).

Lemma metric_tests_pass :
  forallb (λ b, b) [test_metrics_registry_new_success; test_metrics_registry_with_custom_registry;
    test_all_core_metrics_are_registered; test_block_access_metrics_are_registered;
    test_publish_plugin_metrics_are_registered; test_persistence_plugin_metrics_are_registered;
    test_subscriber_plugin_metrics_are_registered; test_backfill_plugin_metrics_are_registered;
    test_metric_isolation_in_tests; test_concurrent_metric_updates] = true.
Proof. vm_compute. reflexivity. Qed.
End MetricTests.

(** ** core/src/config.rs: what the tests of the defaults leave.  The text of a TOML file
    is given as the value the toml crate reads from it. *)
Module ConfigFileTests.
#[local] Instance toml : Format := toml_format.

Definition test_state_management_config_default_values : bool :=
  state_management_enabled StateManagementServiceConfig_default.
Definition test_verification_service_config_default_values : bool :=
  negb (verification_enabled VerificationServiceConfig_default).
Definition test_block_access_service_config_default_values : bool :=
  block_access_enabled BlockAccessServiceConfig_default.
Definition test_server_status_service_config_default_values : bool :=
  server_status_enabled ServerStatusServiceConfig_default.
Definition test_query_service_config_default_values : bool :=
  query_enabled QueryServiceConfig_default.
Definition test_default_max_batch_size_function : bool := default_max_batch_size == 1000.

Definition test_config_serialization_deserialization : bool :=
  let original := {|
    core := {| log_level := "DEBUG"; database_path := "/custom/path"; core_start_block_number := 42;
               grpc_address := "0.0.0.0"; grpc_port := 8090 |};
    plugins := {|
      observability := ObservabilityConfig_default;
      persistence_service := PersistenceServiceConfig_default;
      publish_service := PublishServiceConfig_default;
      verification_service := VerificationServiceConfig_default;
      block_access_service := BlockAccessServiceConfig_default;
      server_status_service := ServerStatusServiceConfig_default;
      state_management_service := StateManagementServiceConfig_default;
      subscriber_service := SubscriberServiceConfig_default;
      query_service := QueryServiceConfig_default;
      backfill := {| backfill_enabled := true; mode := Continuous;
        peers := ["peer1:8080"; "peer2:9090"]; check_interval_seconds := 30;
        max_batch_size := 500 |} |} |} in
  let! serialized := serialize serde_Config original in
  let! deserialized := deserialize serde_Config serialized in
  let b := backfill (plugins deserialized) in let b0 := backfill (plugins original) in
  (log_level (core deserialized) == log_level (core original))
  && (database_path (core deserialized) == database_path (core original))
  && (core_start_block_number (core deserialized) == core_start_block_number (core original))
  && (backfill_enabled b == backfill_enabled b0) && (mode b == Continuous)
  && (peers b == peers b0) && (check_interval_seconds b == check_interval_seconds b0)
  && (max_batch_size b == max_batch_size b0).

(** The only field of the struct of the test. *)
Definition test_backfill_mode_direct_deserialization : bool :=
  let parsed s := deserialize serde_BackfillMode (VString s) in
  let! m1 := parsed "gap-fill" in
  let! m2 := parsed "continuous" in
  let! m3 := parsed "GapFill" in
  let! m4 := parsed "Continuous" in
  (m1 == GapFill) && (m2 == Continuous) && (m3 == GapFill) && (m4 == Continuous).

Definition test_backfill_mode_deserialization_variants : bool :=
  let parsed l := deserialize serde_BackfillConfig (VTable [("backfill", VTable l)]) in
  let! c1 := parsed [("mode", VString "gap-fill")] in
  let! c2 := parsed [("mode", VString "GapFill")] in
  let! c3 := parsed [("mode", VString "gapFill")] in
  let! c4 := parsed [("mode", VString "GAPFILL")] in
  let! c5 := parsed [] in
  (mode c1 == GapFill) && (mode c2 == GapFill) && (mode c3 == GapFill) && (mode c4 == GapFill)
  && (mode c5 == GapFill).

Definition test_partial_config_with_defaults : bool :=
  let! config := deserialize serde_Config
    (VTable [("core", VTable [("log_level", VString "WARN")]);
             ("plugins", VTable [("backfill", VTable [("enabled", VBoolean true);
                ("peers", VArray [VString "http://localhost:8080"])])])]) in
  let b := backfill (plugins config) in
  (log_level (core config) == "WARN") && (database_path (core config) == "data/database")
  && (core_start_block_number (core config) == 0) && backfill_enabled b
  && (peers b == ["http://localhost:8080"]) && (mode b == GapFill)
  && (check_interval_seconds b == 60) && (max_batch_size b == 1000)
  && observability_enabled (observability (plugins config))
  && persistence_enabled (persistence_service (plugins config))
  && negb (verification_enabled (verification_service (plugins config))).

Lemma config_file_tests_pass :
  forallb (λ b, b) [test_state_management_config_default_values;
    test_verification_service_config_default_values; test_block_access_service_config_default_values;
    test_server_status_service_config_default_values; test_query_service_config_default_values;
    test_default_max_batch_size_function; test_config_serialization_deserialization;
    test_backfill_mode_direct_deserialization; test_backfill_mode_deserialization_variants;
    test_partial_config_with_defaults] = true.
Proof. vm_compute. reflexivity. Qed.

(** What the comments of these tests put down to the default of the field: in its own
    place the mode is read, and an invalid one is refused. *)
Lemma mode_read_in_its_place :
  mode <$> deserialize serde_BackfillConfig (VTable [("mode", VString "continuous")]) = Ok Continuous ∧
  deserialize serde_BackfillConfig (VTable [("mode", VString "invalid-mode")])
  = Err (UnknownVariant "invalid-mode").
Proof. by vm_compute. Qed.
End ConfigFileTests.

(** ** app/rock-node/src/main.rs *)
Module MainTests.
Definition contains (s sub : string) : bool := is_some (String.index 0 sub s).

Definition test_validate_config_file_exists_with_valid_file : bool :=
  is_ok (validate_config_file_exists true).
Definition test_validate_config_file_exists_with_missing_file : bool :=
  match validate_config_file_exists false with Err ConfigFileNotFound => true | _ => false end.
Definition test_format_plugin_list_empty : bool := format_plugin_list [] "✅" == "None".
Definition test_format_plugin_list_multiple_plugins : bool :=
  format_plugin_list ["Plugin1"; "Plugin2"] "❌"
  == "  ❌ Plugin1 - FAILED" +:+ newline +:+ "  ❌ Plugin2 - FAILED".
Definition test_analyze_plugin_startup_results_all_successful : bool :=
  let '(message, success) := analyze_plugin_startup_results 2 ["Plugin1"; "Plugin2"] [] in
  success && contains message "All 2 plugins started successfully".
Definition test_analyze_plugin_startup_results_partial_failure : bool :=
  let '(message, success) :=
    analyze_plugin_startup_results 3 ["Plugin1"] ["Plugin2"; "Plugin3"] in
  negb success && contains message "Some plugins failed to start"
  && contains message "❌ Plugin2 - FAILED" && contains message "✅ Plugin1 - OK".

Lemma main_tests_pass :
  forallb (λ b, b) [test_validate_config_file_exists_with_valid_file;
    test_validate_config_file_exists_with_missing_file; test_format_plugin_list_empty;
    test_format_plugin_list_multiple_plugins; test_analyze_plugin_startup_results_all_successful;
    test_analyze_plugin_startup_results_partial_failure] = true.
Proof. vm_compute. reflexivity. Qed.
End MainTests.
