(* ===== verification/StorageTheorems.v ===== *)
(** What the persistence plugin guarantees, and where it falls short: the theorems
    on the tiers, the bookkeeping, the gap table, the archives and the archiver. *)
From S2P Require Import Prelude Config Database Block StateManager HotTier ColdStorage.
From S2P Require Import Core PersistenceService ConcurrentWrites Archiver Persistence ConcurrentStorage Recovery.
From S2P Require Import Linearizability Fixtures.

Section storage_theorems.
Context {RDB : RocksDB} {LAWS : RocksDBLaws} {CODEC : Codec} {CLAWS : CodecLaws}.
Implicit Types (st : Tiers) (db : DB) (g : gmap Z Z).

(** C1: Durability.  After a first start on an empty directory and any sequence of
    block writes, archiver turns and restarts, the archiver failing or the process
    stopping at any file-system operation, reading any block number returns exactly
    the bytes of the last block written under it, and nothing for a number never
    written. *)
Theorem durability cfg start m st n :
  svc_history cfg start m st → 0 ≤ start < u64_MAX →
  1 ≤ archive_batch_size cfg ≤ 4294967296 → is_u64 n →
  tiers_read_block st n = Ok (m !! n).
Proof.
  intros H Hs Hz Hn. destruct (history_svc_inv _ _ _ _ H Hs Hz) as (p & _ & _ & _ & _ & Hr).
  by apply Hr.
Qed.

(** C6: Recovery.  In every such history, if the process stops, be it in the middle
    of writing an archive, then start-up on the directory it leaves, listed in any
    order, succeeds; every block reads as before, and the latest and the contiguous
    mark are the old ones. *)
Theorem restart_recovers cfg start m st fs' listing :
  svc_history cfg start m st → 0 ≤ start < u64_MAX →
  1 ≤ archive_batch_size cfg ≤ 4294967296 →
  crash_fs (archive_batch_size cfg) st fs' → lists listing fs' →
  ∃ svc, initialize cfg start (t_db st) fs' listing = Ok svc ∧
    (∀ n, is_u64 n → read_block svc n = Ok (m !! n)) ∧
    get_latest_persisted_block_number svc = get_latest_persisted (t_db st) ∧
    get_highest_contiguous_block_number svc = get_highest_contiguous (t_db st).
Proof.
  intros H Hs Hz Hc Hl. destruct (history_dir_inv _ _ _ _ H Hs Hz) as (p & Hinv & Hd).
  destruct (restart_inv cfg start m st p fs' listing Hinv Hd Hz Hc Hl)
    as (svc & p' & E & (_ & Hp' & _ & _ & Hr) & _ & El & Ec & _).
  destruct Hinv as (_ & Hp & _). exists svc. split_and!; [done|exact Hr|..]; cbn.
  - unfold get_latest_persisted. pose proof Hp as (Hg & Hla & _). pose proof Hp' as (Hg' & Hla' & _).
    rewrite (get_u64_opt_ok _ _ _ (proj1 Hg) Hla), (get_u64_opt_ok _ _ _ (proj1 Hg') Hla').
    by rewrite El.
  - by rewrite (get_highest_contiguous_ok _ _ Hp), (get_highest_contiguous_ok _ _ Hp'), Ec.
Qed.

(** C7: The contiguous mark is sound.  In every such history, every block from the
    first counted one, [max 1 start_block_number], up to what [get_highest_contiguous]
    reports is stored under its own number and readable.  Block 0 is not counted: with
    the default start block 0 the mark says nothing about it. *)
Theorem contiguous_mark_sound cfg start m st h n :
  svc_history cfg start m st → 0 ≤ start < u64_MAX →
  1 ≤ archive_batch_size cfg ≤ 4294967296 →
  get_highest_contiguous (t_db st) = Ok h → first_counted start ≤ n ≤ h →
  ∃ b, get_block_number b = Ok n ∧ tiers_read_block st n = Ok (Some (encode_to_vec b)).
Proof.
  intros H Hs Hz Hh Hn.
  destruct (history_svc_inv _ _ _ _ H Hs Hz) as (p & _ & Hp & (HA & _) & _ & Hr).
  rewrite (get_highest_contiguous_ok _ _ Hp) in Hh. injection Hh as <-.
  specialize (HA n Hn). apply elem_of_dom in HA as [c Hc].
  destruct (history_stored _ _ _ _ H n c Hc) as (b & Hb & ->).
  exists b. split; [apply Hb|]. rewrite Hr, Hc; [done|].
  pose proof (storable_u64 _ _ Hb). u64_lia.
Qed.

(** C9: No missing block goes unrecorded.  Every number above the contiguous mark
    and up to the latest block that is not readable lies in a gap that
    [find_containing_gap] returns, so a backfill can find it. *)
Theorem missing_blocks_recorded cfg start m st h l n :
  svc_history cfg start m st → 0 ≤ start < u64_MAX →
  1 ≤ archive_batch_size cfg ≤ 4294967296 →
  get_highest_contiguous (t_db st) = Ok h → get_latest_persisted (t_db st) = Ok (Some l) →
  h < n ≤ l → tiers_read_block st n = Ok None →
  ∃ a b, find_containing_gap (t_db st) n = Ok (Some (a, b)) ∧ a ≤ n ≤ b.
Proof.
  intros H Hs Hz Hh Hl Hn Hread.
  destruct (history_svc_inv _ _ _ _ H Hs Hz) as (p & _ & Hp & (_ & HB & _) & _ & Hr).
  rewrite (get_highest_contiguous_ok _ _ Hp) in Hh. injection Hh as <-.
  pose proof Hp as (Hg & Hla & _ & _ & Hc).
  unfold get_latest_persisted in Hl. rewrite (get_u64_opt_ok _ _ _ (proj1 Hg) Hla) in Hl.
  injection Hl as Hl. destruct Hla as [_ Hlu]. destruct (Hlu _ Hl).
  destruct Hc as [_ Hcu]. destruct (Hcu _ eq_refl).
  assert (is_u64 n) as Hn64 by u64_lia.
  destruct (HB n) as [Hin|(a & b & Hab & Hr')].
  { unfold eff_latest. rewrite Hl. cbn. lia. }
  - apply elem_of_dom in Hin as [c Hc]. rewrite Hr, Hc in Hread by done. done.
  - destruct (find_containing_gap_ok _ _ n Hg Hn64) as (o & Ho & Hspec).
    destruct o as [[a' b']|]; [exists a', b'|].
    + destruct Hspec. rewrite Ho. split; [done|lia].
    + exfalso. apply Hspec. by exists a, b.
Qed.

(** C10: [write_block] refines its specification.  On a store whose metadata and
    gap table represent [p], writing a well-formed block number [n] commits the batch
    that [stage_block] makes, in one write, after which they represent a [p'] with
    [spec_write]: the latest mark is raised to [n] if smaller, the earliest marks are
    set once, and the contiguous mark and gap set move as [contiguous_step] says; the
    block is in the hot tier.  Nothing else changes: no other hot entry, no column
    family but the hot, gap and metadata ones (so neither the state data nor the
    skipped batches), and no metadata key but the four marks. *)
Theorem write_block_refines db p cfg start b n :
  p_repr db p → wf_block b → fits b → get_block_number b = Ok n →
  n < u64_MAX → is_u64 start → eff_latest start p < u64_MAX → p_contiguous p < u64_MAX →
  ∃ db' p' r v, write_block db cfg start b = (db', r) ∧
    (∃ batch w, stage_block db start b = Ok (batch, w) ∧ write db batch = Ok db') ∧
    p_repr db' p' ∧ spec_write start n p p' ∧
    entries db' CF_HOT_BLOCKS = <[u64_to_be n := v]> (entries db CF_HOT_BLOCKS) ∧
    hot_read_block db' n = Ok (Some (encode_to_vec b)) ∧
    (∀ cf, cf ≠ CF_METADATA → cf ≠ CF_GAPS → cf ≠ CF_HOT_BLOCKS →
       entries db' cf = entries db cf) ∧
    (∀ k, k ∉ mark_keys → entries db' CF_METADATA !! k = entries db CF_METADATA !! k) ∧
    (archive_batch_size cfg ≠ 0 → ∃ notified, r = Ok notified).
Proof.
  intros Hp Hwf Hfit Hbn Hn Hst Hlat Hcm.
  destruct (write_block_ok db p cfg start b n) as
    (db' & p' & r & E & Hp' & Hsp & (v & Hhot & Hv) & _ & Hok); [done..|].
  destruct (write_block_frame db p cfg start b n db' r) as (Hone & Hcf & Hk); [done..|].
  exists db', p', r, v. split_and!; try done. apply hot_read_block_found; [apply Hp'|].
  exists v. by rewrite Hhot, lookup_insert_eq.
Qed.

(** C11: The archiver terminates and readers never notice it.  With a positive
    batch size every run of [run_archival_cycle], whatever file-system operation
    cuts it short, ends within one turn per hot block plus one, and every block
    reads as before, the gap table and all other metadata unchanged. *)
Theorem archiving_invisible cfg st faults fuel :
  tiers_inv st → 1 ≤ archive_batch_size cfg ≤ 4294967296 →
  (size (entries (t_db st) CF_HOT_BLOCKS) < fuel)%nat →
  ∃ st' r, run_archival_cycle cfg fuel st faults = Some (st', r) ∧
    tiers_inv st' ∧ same_service st st'.
Proof.
  intros Hinv Hz Hf. destruct (cycle_terminates cfg st faults fuel) as (st' & r & E);
    [apply Hinv|lia|done|].
  exists st', r. split; [done|]. by eapply cycle_same.
Qed.

(** A zero [archive_batch_size], which the configuration does not reject,
    makes the archiver spin: once the hot tier is over its limit no number of
    turns ends the cycle. *)
Lemma zero_batch_size_diverges cfg st faults eh l fuel :
  db_ok (t_db st) → archive_batch_size cfg = 0 →
  meta_is (t_db st) EARLIEST_HOT_KEY (Some eh) →
  meta_is (t_db st) LATEST_PERSISTED_KEY (Some l) →
  hot_storage_block_count cfg < u64_add (saturating_sub l eh) 1 →
  run_archival_cycle cfg fuel st faults = None.
Proof.
  intros Hdb Hz He Hl Hc. revert faults. induction fuel as [|fuel IH]; intros faults; [done|].
  cbn. rewrite (cycle_stuck cfg st _ eh l) by done. apply IH.
Qed.

(** C27: Archive round trip.  Writing consecutive blocks to an archive and loading
    its index makes every one of them readable, with its own bytes, from the cold
    tier, provided no other archive starts inside the range. *)
Theorem archive_roundtrip blocks first zs fs indices j b :
  archivable blocks first zs → blocks !! j = Some b →
  (∀ k mi, indices !! k = Some mi → k ≤ first + Z.of_nat j → k ≤ first) →
  ∃ fs' index_path indices',
    io_run fs None (write_archive blocks) = (fs', Ok index_path) ∧
    load_index_file fs' indices index_path = Ok indices' ∧
    cold_read_block fs' indices' (first + Z.of_nat j) = Ok (Some (encode_to_vec b)).
Proof.
  intros Ha Hb Hk. destruct (archive_write_load blocks first zs fs indices Ha)
    as (fs' & E & El & Hd & _).
  exists fs', (index_filename first (last_of blocks first)),
    (<[first := archive_entry blocks first zs]> indices). split_and!; [done|done|].
  eapply archive_read; [done|done|done|]. split_and!; [by rewrite lookup_insert_eq|lia|].
  intros k' mi' [[<- _]|[_ Hl]]%lookup_insert_Some Hle; [lia|by eapply Hk].
Qed.

(** C26: Archives are crash-safe.  Wherever the writing of an archive is cut, the
    index file of the range is either as before or complete with a complete data
    file beside it, and no file of any other range is touched. *)
Theorem archive_crash_safe blocks first zs fs k :
  archivable blocks first zs →
  let last := last_of blocks first in
  let d := data_filename first last in let i := index_filename first last in
  let fs' := fs_exec fs (take k (write_archive blocks).1) in
  (files fs' !! i = files fs !! i ∨
   files fs' !! i = Some (concat (records (seqZ first (Z.of_nat (length blocks))) zs 0)) ∧
   files fs' !! d = Some (concat zs)) ∧
  ∀ f, f ≠ d → f ≠ i → f ≠ tmp_filename d → f ≠ tmp_filename i →
    files fs' !! f = files fs !! f.
Proof.
  intros Ha. destruct (archivable_ends blocks first zs Ha) as (Hn & Hz & Hhd & Hls & Ht).
  destruct (write_archive_cut blocks _ zs first (last_of blocks first) fs k Hn Hz Hhd Hls Ht)
    as [(Hi & _ & Hf) _]. split; [|done]. destruct Hi as [|(? & ? & _)]; [by left|by right].
Qed.

(** C31: [add_gap_range] is set union.  On a well-formed gap table (disjoint,
    non-adjacent ranges) it stages a batch after which the table is again
    well-formed and covers exactly the old numbers and the new range. *)
Theorem add_gap_range_union db g a b batch :
  gaps_ok db g → is_u64 a → is_u64 b → a ≤ b →
  ∃ ops g', add_gap_range db a b batch = Ok (batch ++ ops) ∧
    Forall (λ op, op_cf op = CF_GAPS) ops ∧
    gaps_repr (apply_batch CF_GAPS (entries db CF_GAPS) ops) g' ∧
    ∀ n, in_gap g' n ↔ a ≤ n ≤ b ∨ in_gap g n.
Proof. intros Hg Ha Hb Hab. by apply add_gap_range_ok. Qed.

(** C39: [fill_gap_block] removes one number.  It stages a batch after which the
    gap table is again well-formed and covers exactly the old numbers but [n]. *)
Theorem fill_gap_block_removes db g n batch :
  gaps_ok db g → is_u64 n →
  ∃ ops g', fill_gap_block db n batch = Ok (batch ++ ops) ∧
    Forall (λ op, op_cf op = CF_GAPS) ops ∧
    gaps_repr (apply_batch CF_GAPS (entries db CF_GAPS) ops) g' ∧
    ∀ m, in_gap g' m ↔ in_gap g m ∧ m ≠ n.
Proof. intros Hg Hn. by apply fill_gap_block_ok. Qed.

(** [find_containing_gap] decides membership: it returns the gap of the table
    that contains [n], and [None] exactly when no gap contains it. *)
Lemma find_containing_gap_correct db g n :
  gaps_ok db g → is_u64 n →
  ∃ o, find_containing_gap db n = Ok o ∧
    (∀ a b, o = Some (a, b) → g !! a = Some b ∧ a ≤ n ≤ b) ∧ (o = None ↔ ¬ in_gap g n).
Proof.
  intros Hg Hn. destruct (find_containing_gap_ok db g n Hg Hn) as (o & Eo & Ho).
  exists o. split; [done|]. destruct o as [[a b]|].
  - split; [by intros ? ? [= <- <-]|]. split; [done|]. intros Hno. destruct Hno.
    exists a, b. tauto.
  - by split.
Qed.

(** In-order ingestion.  When the blocks from the start block on are written
    in order, the contiguous mark and the latest mark both follow the last block
    and no gap is ever recorded. *)
Lemma in_order_ingestion cfg start m st p bs n :
  svc_inv start m st p → is_u64 start → p_contiguous p = eff_latest start p →
  (∀ k, ¬ in_gap (p_gaps p) k) → bs ≠ [] →
  Forall2 storable bs (seqZ (eff_latest start p + 1) (Z.of_nat (length bs))) → is_u64 n →
  let st' := foldl (λ st b, (tiers_write_block cfg start st b).1) st bs in
  get_highest_contiguous (t_db st') = Ok (eff_latest start p + Z.of_nat (length bs)) ∧
  get_latest_persisted (t_db st') = Ok (Some (eff_latest start p + Z.of_nat (length bs))) ∧
  find_containing_gap (t_db st') n = Ok None.
Proof.
  intros Hinv Hs Hc Hg Hne Hbs Hn st'.
  destruct (in_order_writes cfg start bs m st p) as (m' & p' & Hinv' & Hl & Hc' & Hg' & Hsome);
    [done..|]. fold st' in Hinv'. destruct Hinv' as (_ & Hp & _).
  rewrite (get_highest_contiguous_ok _ _ Hp), Hc'.
  pose proof Hp as (Hgo & Hla & _). unfold get_latest_persisted.
  rewrite (get_u64_opt_ok _ _ _ (proj1 Hgo) Hla), (Hsome Hne).
  destruct (find_containing_gap_ok _ _ n Hgo Hn) as (o & -> & Ho).
  destruct o as [[a b]|]; [|done]. exfalso. apply (Hg' n). exists a, b. tauto.
Qed.

(** C40: Historical batches.  [write_block_batch] of consecutive blocks whose range
    no archive interrupts makes each of them readable unless the hot tier has the
    number, and the earliest mark ends at or below the first block. *)
Theorem batch_write_readable st blocks first zs j b :
  db_ok (t_db st) → (∃ o, meta_is (t_db st) TRUE_EARLIEST_PERSISTED_KEY o) →
  archivable blocks first zs → blocks !! j = Some b →
  entries (t_db st) CF_HOT_BLOCKS !! u64_to_be (first + Z.of_nat j) = None →
  (∀ k mi, t_indices st !! k = Some mi → k ≤ first + Z.of_nat j → k ≤ first) →
  ∃ st' e, tiers_write_block_batch st None blocks = (st', Ok tt) ∧
    tiers_read_block st' (first + Z.of_nat j) = Ok (Some (encode_to_vec b)) ∧
    get_true_earliest_persisted (t_db st') = Ok (Some e) ∧ e ≤ first.
Proof.
  intros Hdb [o Ho] Ha Hb Hhot Hk.
  destruct (archive_write_load blocks first zs (t_fs st) (t_indices st) Ha)
    as (fs' & E & El & Hd & _).
  pose proof Ha as (Hne & Hf & _ & Hn & _).
  destruct blocks as [|b0 bs]; [done|]. cbn [length] in Hn. rewrite seqZ_step in Hn.
  apply Forall2_cons in Hn as [Hb0 _].
  assert (∃ db' e, update_true_earliest_if_less (t_db st) first = Ok db' ∧ db_ok db' ∧
    entries db' CF_HOT_BLOCKS = entries (t_db st) CF_HOT_BLOCKS ∧
    meta_is db' TRUE_EARLIEST_PERSISTED_KEY (Some e) ∧ e ≤ first)
    as (db' & e & Eu & Hdb' & Hh & He & Hle).
  { unfold update_true_earliest_if_less, get_true_earliest_persisted.
    rewrite (get_u64_opt_ok _ _ _ Hdb Ho). cbn.
    destruct (put_u64_direct_ok (t_db st) TRUE_EARLIEST_PERSISTED_KEY first Hdb Hf)
      as (db1 & E1 & Hdb1 & Hm & _ & Hcf).
    destruct o as [e|]; [destruct (Z.ltb_spec first e)|].
    - exists db1, first. rewrite E1. split_and!; [done|done|by apply Hcf|done|lia].
    - exists (t_db st), e. split_and!; try done.
    - exists db1, first. rewrite E1. split_and!; [done|done|by apply Hcf|done|lia]. }
  exists (MkTiers db' fs' (<[first := archive_entry (b0 :: bs) first zs]> (t_indices st))), e.
  unfold tiers_write_block_batch. rewrite E, El, Hb0. cbn [mbind Result_bind]. rewrite Eu.
  split_and!; [done| |by apply get_u64_opt_ok|done].
  unfold tiers_read_block. cbn [t_db t_fs t_indices].
  rewrite hot_read_block_absent by (done || by rewrite Hh). cbn [mbind Result_bind].
  rewrite (archive_read (b0 :: bs) first zs _ _ j b); [done..|].
  split_and!; [by rewrite lookup_insert_eq|lia|].
  intros k' mi' [[<- _]|[_ Hl]]%lookup_insert_Some Hle'; [lia|by eapply Hk].
Qed.

(** C2: Concurrent reads are atomic and miss nothing.  Start from any history of the
    service that has a block and no archive waiting for its blocks to be retired.  Let
    any number of writes and reads and the archiver interleave at every access.  A read
    that has not begun in one state and has returned in a later one returns without
    error what the store held at one moment between the two; if that is a block, its
    bytes are those the store returned at the beginning or those of a write to this
    number that has committed; and if the block could be read when the read began, it is
    not missed, even if the archiver moves it between the two look-ups. *)
Theorem concurrent_reads_atomic cfg start m st0 blocks ns s1 s2 i n r :
  svc_history cfg start m st0 → 0 ≤ start < u64_MAX →
  1 ≤ archive_batch_size cfg ≤ 4294967296 → settled st0 →
  Forall (λ b, ∃ k, storable b k) blocks → Forall is_u64 ns →
  rtc (storage_step cfg start) (MkStorage st0 (Pending <$> blocks) AIdle (RNew <$> ns)) s1 →
  s_readers s1 !! i = Some (RNew n) →
  rtc (storage_step cfg start) s1 s2 → s_readers s2 !! i = Some (RDone n r) →
  ∃ o, r = Ok o ∧
    (∃ s, rtc (storage_step cfg start) s1 s ∧ rtc (storage_step cfg start) s s2 ∧
       tiers_read_block (s_tiers s) n = Ok o) ∧
    (∀ c, o = Some c → m !! n = Some c ∨
       ∃ b, Committed b ∈ s_writers s2 ∧ get_block_number b = Ok n ∧ c = encode_to_vec b) ∧
    (∀ c, tiers_read_block (s_tiers s1) n = Ok (Some c) → o ≠ None).
Proof.
  intros Hh Hs Hsz Hset Hbl Hns Hrun1 Hi1 Hrun2 Hi2.
  destruct (history_svc_inv _ _ _ _ Hh Hs Hsz) as (p & Hti & _ & _ & _ & Hreads).
  destruct (concurrent_start cfg Hsz start st0 blocks Hbl m ns Hti Hreads Hset Hns s1 i n Hrun1 Hi1)
    as [Hinv1 Hb1].
  destruct (run_on_the_way cfg Hsz start st0 blocks Hbl s1 s2 i n Hinv1 Hb1 Hi1 Hrun2)
    as (Hinv2 & _ & r' & Hi' & Hway).
  assert (r' = RDone n r) as -> by congruence. destruct Hway as (_ & o & -> & Hheld).
  exists o. split_and!; [done|done| |].
  - intros c ->. assert (RDone n (Ok (Some c)) ∈ s_readers s2) as Hin
      by (by eapply list_elem_of_lookup_2).
    pose proof (si_numbers _ _ _ _ Hinv2 _ Hin) as Hn. cbn in Hn.
    destruct (si_done _ _ _ _ Hinv2 _ _ Hin) as [?|(c' & [= <-] & [(b & ?)|Hc])]; [done|..].
    + right. by exists b.
    + left. rewrite (Hreads n Hn) in Hc. by injection Hc.
  - intros c Hc ->. destruct (storage_run_tracks cfg Hsz start st0 blocks Hbl _ _ i _ Hinv1 Hrun2 Hi1)
      as (_ & r' & Hr' & _ & Ht). assert (r' = RDone n (Ok None)) as -> by congruence.
    destruct Ht as [c' ?]; [|done]. destruct (si_archiver _ _ _ _ Hinv1) as [eh Ha].
    by eapply read_found; [apply Ha|].
Qed.

(** C3: The concurrent storage refines a map.  In the situation of
    [concurrent_reads_atomic], let the calls write
    pairwise different numbers that are not stored yet.  Then at every moment of every
    interleaving a read at one go returns, for every number, what the map of the
    committed calls says (the archiver and the calls under way do not show), and a
    read that overlaps with other steps returns what that map says at one moment between
    its beginning and its end. *)
Theorem concurrent_storage_refines_map cfg start m st0 blocks ns s1 s2 :
  svc_history cfg start m st0 → 0 ≤ start < u64_MAX →
  1 ≤ archive_batch_size cfg ≤ 4294967296 → settled st0 →
  Forall (λ b, ∃ k, storable b k) blocks → Forall is_u64 ns →
  NoDup (get_block_number <$> blocks) →
  (∀ b k, b ∈ blocks → get_block_number b = Ok k → m !! k = None) →
  rtc (storage_step cfg start) (MkStorage st0 (Pending <$> blocks) AIdle (RNew <$> ns)) s1 →
  rtc (storage_step cfg start) s1 s2 →
  (∀ n, is_u64 n → tiers_read_block (s_tiers s1) n = Ok (committed m (s_writers s1) !! n)) ∧
  (∀ i n r, s_readers s1 !! i = Some (RNew n) → s_readers s2 !! i = Some (RDone n r) →
     ∃ s, rtc (storage_step cfg start) s1 s ∧ rtc (storage_step cfg start) s s2 ∧
       r = Ok (committed m (s_writers s) !! n)).
Proof.
  intros Hh Hs Hsz Hset Hbl Hns Hnd Hfr Hrun1 Hrun2.
  destruct (history_svc_inv _ _ _ _ Hh Hs Hsz) as (p & Hti & _ & _ & _ & Hreads).
  assert (∀ s n, rtc (storage_step cfg start)
      (MkStorage st0 (Pending <$> blocks) AIdle (RNew <$> ns)) s → is_u64 n →
    tiers_read_block (s_tiers s) n = Ok (committed m (s_writers s) !! n)) as Hmap.
  { intros s n Hrun Hn.
    by apply (concurrent_store_is_map cfg Hsz start st0 blocks Hbl m ns Hti Hreads Hset Hns s n). }
  split; [by intros n; apply Hmap|]. intros i n r Hi1 Hi2.
  destruct (concurrent_start cfg Hsz start st0 blocks Hbl m ns Hti Hreads Hset Hns s1 i n Hrun1 Hi1)
    as [Hinv1 Hb1].
  destruct (run_on_the_way cfg Hsz start st0 blocks Hbl s1 s2 i n Hinv1 Hb1 Hi1 Hrun2)
    as (_ & _ & r' & Hi' & Hway).
  assert (r' = RDone n r) as -> by congruence.
  destruct Hway as (_ & o & -> & s & H1 & H2 & Hview). exists s. split_and!; [done|done|].
  rewrite <-Hview. apply Hmap; [by etrans|].
  apply (si_numbers _ _ _ _ Hinv1 (RNew n)). by eapply list_elem_of_lookup_2.
Qed.

(** Overlapping writes lose no block.  Whatever the interleaving of any number of
    [write_block] calls, each reading the metadata at several times and committing at
    another, the hot tier returns for the number of every call that committed the
    bytes of such a call, and for every number that no call writes what it returned
    before. *)
Lemma overlapping_writes_keep_blocks start db0 blocks db ws :
  db_ok db0 → Forall wf_block blocks →
  rtc (write_step start) (db0, Pending <$> blocks) (db, ws) →
  (∀ b n, Committed b ∈ ws → get_block_number b = Ok n →
     ∃ b', Committed b' ∈ ws ∧ get_block_number b' = Ok n ∧
       hot_read_block db n = Ok (Some (encode_to_vec b'))) ∧
  (∀ n, is_u64 n → (∀ b, b ∈ blocks → get_block_number b ≠ Ok n) →
     hot_read_block db n = hot_read_block db0 n).
Proof.
  intros Hok Hwf Hrun. destruct (writes_run_inv _ _ _ _ _ Hok Hwf Hrun) as [Hdb _ _ Hst Hold].
  split.
  - intros b n Hb Hn. destruct (Hst b n Hb Hn) as (b' & v & Hb' & [Hn' Hv] & He).
    exists b'. split_and!; [done|done|]. apply hot_read_block_found; [done|]. by exists v.
  - intros n Hu Hno. unfold hot_read_block.
    rewrite !need_cf_open by (apply Hok || apply Hdb || set_solver). cbn.
    rewrite !get_cf_healthy by (apply Hok || apply Hdb). by rewrite (Hold n Hu Hno).
Qed.
End storage_theorems.

(** Archive names.  [parse_block_range] inverts the name the writer gives an
    index file exactly when both numbers have at most ten digits; the names of
    later blocks are rejected. *)
Lemma archive_name_roundtrip a b :
  0 ≤ a → 0 ≤ b →
  parse_block_range (index_filename a b) =
  if decide (a < 10 ^ 10 ∧ b < 10 ^ 10) then Some (a, b) else None.
Proof. apply parse_index_filename. Qed.

Import RefNode.

(** A block that closes the gap next to the contiguous mark leaves its gap
    entry behind: after 100, 102, 101 the table still holds [101, 101] although
    the block is stored, and after 100, 102, 104, 101, 103 the mark stays at 101
    although every block up to 104 is stored. *)
Lemma closing_block_leaves_gap :
  find_containing_gap (t_db (writes 100 [100; 102; 101])) 101 = Ok (Some (101, 101)) ∧
  tiers_read_block (writes 100 [100; 102; 101]) 101 = Ok (Some (encode_to_vec (block_of 101))) ∧
  get_highest_contiguous (t_db (writes 100 [100; 102; 104; 101; 103])) = Ok 101 ∧
  (λ n, tiers_read_block (writes 100 [100; 102; 104; 101; 103]) n) <$> [100; 101; 102; 103; 104]
  = (λ n, Ok (Some (encode_to_vec (block_of n)))) <$> [100; 101; 102; 103; 104].
Proof. split_and!; vm_compute; reflexivity. Qed.

(** Blocks with more than ten digits are lost when they are archived: the
    index name is rejected, the failure only logged, and the hot entries deleted. *)
Lemma long_block_numbers_lost :
  let st := writes 10000000000 [10000000000; 10000000001; 10000000002] in
  tiers_read_block st 10000000000 = Ok (Some (encode_to_vec (block_of 10000000000))) ∧
  tiers_read_block (archive st) 10000000000 = Ok None ∧
  tiers_read_block (archive st) 10000000001 = Ok None.
Proof. split_and!; vm_compute; reflexivity. Qed.

(** An archive of non-consecutive blocks misplaces them: after a batch write
    of 40 and 42, reading 41 returns block 42 and reading 42 returns nothing. *)
Lemma gapped_batch_misplaces :
  let st := (tiers_write_block_batch (boot 40) None [block_of 40; block_of 42]).1 in
  tiers_read_block st 41 = Ok (Some (encode_to_vec (block_of 42))) ∧
  tiers_read_block st 42 = Ok None.
Proof. split_and!; vm_compute; reflexivity. Qed.

(** With start block 0 the first block does not count: after block 0 the
    latest mark is still unset, and after 1 and 2 the contiguous mark says 2
    although block 0 is missing and in no gap. *)
Lemma genesis_block_uncounted :
  get_latest_persisted (t_db (writes 0 [0])) = Ok None ∧
  get_highest_contiguous (t_db (writes 0 [1; 2])) = Ok 2 ∧
  tiers_read_block (writes 0 [1; 2]) 0 = Ok None ∧
  find_containing_gap (t_db (writes 0 [1; 2])) 0 = Ok None.
Proof. split_and!; vm_compute; reflexivity. Qed.

(** The batch one [write_block] call stages on the store as it reads it. *)
Definition staged (st : Tiers) (n : Z) : WriteBatch :=
  match stage_block (t_db st) 100 (block_of n) with Ok (b, _) => b | Err _ => [] end.

(** Two calls of [write_block] that overlap, the event loop's and the
    backfill's, lose an update: when both stage their batch before either commits,
    the latest mark goes from 101 back to 100. *)
Lemma overlapping_writes_lose_update :
  let st := boot 100 in
  (db1 ← commit_batch (t_db st) (staged st 101);
   db2 ← commit_batch db1 (staged st 100);
   l1 ← get_latest_persisted db1;
   l2 ← get_latest_persisted db2;
   Ok (l1, l2)) = Ok (Some 101, Some 100).
Proof. vm_compute. reflexivity. Qed.

(** ** The theorems at work on the reference node *)
#[local] Ltac history :=
  match goal with
  | |- svc_history _ _ _ (archive (writes ?s ?l)) =>
      refine (archive_history s _ _ (writes_history s l _ _))
  | |- svc_history _ _ _ (writes ?s ?l) => refine (writes_history s l _ _)
  end; [u64_lia|vm_compute; reflexivity].

Lemma durability_witness :
  tiers_read_block (archive (writes 100 [100; 101; 102; 103])) 100
  = Ok (blocks_map [100; 101; 102; 103] !! 100).
Proof.
  refine (durability cfg 100 (blocks_map [100; 101; 102; 103])
    (archive (writes 100 [100; 101; 102; 103])) 100 _ _ _ _); [history|lia|cbn; lia|u64_lia].
Defined.

Lemma boot_gaps : gaps_ok (t_db (boot 100)) ∅.
Proof. destruct (boot_inv 100) as (_ & (Hg & _) & _); [lia|exact Hg]. Qed.

(** The archiver moves blocks 100 and 101, a call writes block 104, and a read of block
    100 that has begun before finds it in the cold tier. *)
Definition run_tiers : Tiers := writes 100 [100; 101; 102; 103].
Definition run_start : Storage :=
  MkStorage run_tiers (Pending <$> [block_of 104]) AIdle (RNew <$> [100]).

Lemma example_run : ∃ s, rtc (storage_step cfg 100) run_start s ∧
  s_readers s = [RDone 100 (Ok (Some (encode_to_vec (block_of 100))))] ∧
  s_writers s = [Committed (block_of 104)] ∧ hot_read_block (t_db (s_tiers s)) 100 = Ok None.
Proof.
  unfold run_start. set (st0 := run_tiers).
  set (st1 := (cycle_step cfg st0 None).1).
  set (db2 := (write_block (t_db st1) cfg 100 (block_of 104)).1).
  assert (cycle_step cfg st0 None = (st1, None)) as E1.
  { rewrite (surjective_pairing (cycle_step cfg st0 None)). f_equal; vm_compute; reflexivity. }
  assert (write_block (t_db st1) cfg 100 (block_of 104) = (db2, Ok false)) as E2.
  { rewrite (surjective_pairing (write_block (t_db st1) cfg 100 (block_of 104))).
    f_equal; vm_compute; reflexivity. }
  assert (tiers_read_block (with_db st1 db2) 100 = Ok (Some (encode_to_vec (block_of 100)))) as E3
    by (vm_compute; reflexivity).
  assert (hot_read_block db2 100 = Ok None) as E4 by (vm_compute; reflexivity).
  clearbody st1 db2.
  exists (MkStorage (with_db st1 db2) [Committed (block_of 104)] AIdle
            [RDone 100 (Ok (Some (encode_to_vec (block_of 100))))]).
  split_and!; [|done..].
  apply (transitivity (y := MkStorage st1 [Pending (block_of 104)] AIdle [RNew 100])).
  { apply (archiver_runs cfg 100), undisturbed_cycle, E1. }
  apply (transitivity (y := MkStorage (with_db st1 db2) [Committed (block_of 104)] AIdle [RNew 100])).
  - rewrite <-(with_db_same st1) at 1. apply (writer_runs cfg 100).
    by apply (undisturbed_write cfg 100 _ _ _ false).
  - apply (reader_runs cfg 100 _ _ _ [RNew 100] 0 (RNew 100)); [reflexivity|].
    by apply undisturbed_read.
Qed.

Lemma run_settled : settled run_tiers.
Proof.
  exists 100. split; [|vm_compute; intros ? ? [=]].
  apply get_u64_opt_sound. vm_compute. reflexivity.
Qed.

Lemma run_storable : Forall (λ b, ∃ k, storable b k) [block_of 104].
Proof. repeat constructor. exists 104. apply storable_of. vm_compute. reflexivity. Qed.

Lemma concurrent_reads_atomic_witness : ∃ s2 s o,
  hot_read_block (t_db (s_tiers s2)) 100 = Ok None ∧
  s_readers s2 = [RDone 100 (Ok o)] ∧ rtc (storage_step cfg 100) s s2 ∧
  tiers_read_block (s_tiers s) 100 = Ok o ∧ o ≠ None.
Proof.
  destruct example_run as (s2 & Hrun & Hr & _ & Hhot).
  destruct (concurrent_reads_atomic cfg 100 (blocks_map [100; 101; 102; 103]) run_tiers
    [block_of 104] [100] run_start s2 0 100 (Ok (Some (encode_to_vec (block_of 100)))))
    as (o & Ho & (s & _ & Hs & Hview) & _ & Hf).
  - unfold run_tiers; history.
  - lia.
  - cbn; lia.
  - exact run_settled.
  - exact run_storable.
  - repeat constructor; u64_lia.
  - apply rtc_refl.
  - reflexivity.
  - exact Hrun.
  - by rewrite Hr.
  - exists s2, s, o. split_and!; [exact Hhot|by rewrite Hr, Ho|exact Hs|exact Hview|].
    apply (Hf (encode_to_vec (block_of 100))). vm_compute. reflexivity.
Defined.

Lemma concurrent_storage_refines_map_witness : ∃ s2,
  s_writers s2 = [Committed (block_of 104)] ∧
  tiers_read_block (s_tiers s2) 104 = Ok (Some (encode_to_vec (block_of 104))) ∧
  tiers_read_block (s_tiers s2) 100 = Ok (Some (encode_to_vec (block_of 100))).
Proof.
  destruct example_run as (s2 & Hrun & _ & Hw & _). exists s2. split; [exact Hw|].
  destruct (concurrent_storage_refines_map cfg 100 (blocks_map [100; 101; 102; 103]) run_tiers
    [block_of 104] [100] s2 s2) as [Hmap _].
  - unfold run_tiers; history.
  - lia.
  - cbn; lia.
  - exact run_settled.
  - exact run_storable.
  - repeat constructor; u64_lia.
  - apply NoDup_singleton.
  - intros b k ->%list_elem_of_singleton. cbn. intros [= <-]. vm_compute. reflexivity.
  - exact Hrun.
  - apply rtc_refl.
  - rewrite Hw in Hmap. split; (rewrite Hmap by u64_lia); vm_compute; reflexivity.
Defined.

(** A block that is written again between the reading of its batch and the retiring of it
    is lost: the archive has the old version and the hot entry that is deleted is the
    new one.  The call has committed, and the store returns the old block. *)
Definition newer_block : Block := MkBlock (items (block_of 100) ++ [None]).

Lemma rewrite_during_archival_lost : ∃ s,
  rtc (storage_step cfg 100) (MkStorage run_tiers [Pending newer_block] AIdle []) s ∧
  s_writers s = [Committed newer_block] ∧ s_archiver s = AIdle ∧
  get_block_number newer_block = Ok 100 ∧
  tiers_read_block (s_tiers s) 100 = Ok (Some (encode_to_vec (block_of 100))) ∧
  encode_to_vec newer_block ≠ encode_to_vec (block_of 100).
Proof.
  set (st0 := run_tiers). set (bs := [block_of 100; block_of 101]).
  set (path := match (write_archive bs).2 with Ok p => p | Err _ => [] end).
  set (fs1 := fs_exec (t_fs st0) (write_archive bs).1).
  set (st1 := MkTiers (t_db st0) fs1 (match load_index_file fs1 (t_indices st0) path with
                                      | Ok i => i | Err _ => t_indices st0 end)).
  set (db2 := (write_block (t_db st1) cfg 100 newer_block).1).
  set (batch := match retire_batch db2 100 2 with Ok b => b | Err _ => [] end).
  set (db3 := match commit_batch db2 batch with Ok d => d | Err _ => db2 end).
  assert (write_block (t_db st1) cfg 100 newer_block = (db2, Ok false)) as Ew.
  { rewrite (surjective_pairing (write_block _ _ _ _)). f_equal; vm_compute; reflexivity. }
  exists (MkStorage (with_db (with_db st1 db2) db3) [Committed newer_block] AIdle []).
  split_and!; [|done|done|reflexivity|vm_compute; reflexivity|vm_compute; done].
  apply (transitivity (y := MkStorage st1 [Pending newer_block] (ALoaded 100) [])).
  { apply (archiver_runs cfg 100).
    eapply rtc_l; [by apply (arch_check _ _ 100); vm_compute|].
    eapply rtc_l; [by apply (arch_read _ _ _ bs); vm_compute|]. eapply rtc_l; [apply arch_open|].
    etrans; [apply undisturbed_ops|].
    assert ((write_archive bs).2 = Ok path) as -> by (vm_compute; reflexivity).
    eapply rtc_l; [apply arch_wrote|]. eapply rtc_l; [apply arch_load|]. apply rtc_refl. }
  apply (transitivity (y := MkStorage (with_db st1 db2) [Committed newer_block] (ALoaded 100) [])).
  - rewrite <-(with_db_same st1) at 1. apply (writer_runs cfg 100).
    by apply (undisturbed_write cfg 100 _ _ _ false).
  - apply (archiver_runs cfg 100), rtc_once. apply (arch_retire _ (with_db st1 db2) 100 batch db3);
      vm_compute; reflexivity.
Qed.

Lemma restart_recovers_witness :
  ∃ svc, restarted 100 (writes 100 [100; 101; 102])
           (crashed (writes 100 [100; 101; 102]) 100 100) = Ok svc ∧
    (∀ n, is_u64 n → read_block svc n = Ok (blocks_map [100; 101; 102] !! n)) ∧
    get_latest_persisted_block_number svc
      = get_latest_persisted (t_db (writes 100 [100; 101; 102])) ∧
    get_highest_contiguous_block_number svc
      = get_highest_contiguous (t_db (writes 100 [100; 101; 102])).
Proof.
  refine (restart_recovers cfg 100 (blocks_map [100; 101; 102]) (writes 100 [100; 101; 102])
    (crashed (writes 100 [100; 101; 102]) 100 100) _ _ _ _ _ _);
    [history|lia|cbn; lia| |apply lists_files].
  apply crashed_crash_fs; vm_compute; reflexivity.
Defined.

Lemma contiguous_mark_sound_witness :
  ∃ b, get_block_number b = Ok 101 ∧
    tiers_read_block (archive (writes 100 [100; 101; 102])) 101 = Ok (Some (encode_to_vec b)).
Proof.
  refine (contiguous_mark_sound cfg 100 (blocks_map [100; 101; 102])
    (archive (writes 100 [100; 101; 102])) 102 101 _ _ _ _ _);
    [history|lia|cbn; lia|vm_compute; reflexivity|unfold first_counted; lia].
Defined.

Lemma missing_blocks_recorded_witness :
  ∃ a b, find_containing_gap (t_db (writes 100 [100; 103])) 101 = Ok (Some (a, b)) ∧
    a ≤ 101 ≤ b.
Proof.
  refine (missing_blocks_recorded cfg 100 (blocks_map [100; 103])
    (writes 100 [100; 103]) 100 103 101 _ _ _ _ _ _ _);
    [history|lia|cbn; lia|vm_compute; reflexivity|vm_compute; reflexivity|lia
    |vm_compute; reflexivity].
Defined.

Lemma write_block_refines_witness :
  let db := t_db (boot 100) in
  ∃ db' p' r v, write_block db cfg 100 (block_of 100) = (db', r) ∧
    (∃ batch w, stage_block db 100 (block_of 100) = Ok (batch, w) ∧ write db batch = Ok db') ∧
    p_repr db' p' ∧ spec_write 100 100 (p_init 100) p' ∧
    entries db' CF_HOT_BLOCKS = <[u64_to_be 100 := v]> (entries db CF_HOT_BLOCKS) ∧
    hot_read_block db' 100 = Ok (Some (encode_to_vec (block_of 100))) ∧
    (∀ cf, cf ≠ CF_METADATA → cf ≠ CF_GAPS → cf ≠ CF_HOT_BLOCKS →
       entries db' cf = entries db cf) ∧
    (∀ k, k ∉ mark_keys → entries db' CF_METADATA !! k = entries db CF_METADATA !! k) ∧
    (archive_batch_size cfg ≠ 0 → ∃ notified, r = Ok notified).
Proof.
  apply (write_block_refines (t_db (boot 100)) (p_init 100) cfg 100 (block_of 100) 100).
  - destruct (boot_inv 100) as (_ & Hp & _); [lia|exact Hp].
  - apply block_of_wf. u64_lia.
  - vm_compute. discriminate.
  - reflexivity.
  - lia.
  - u64_lia.
  - vm_compute. reflexivity.
  - vm_compute. reflexivity.
Defined.

Lemma archiving_invisible_witness :
  ∃ st' r, run_archival_cycle cfg 10 (writes 100 [100; 101; 102]) (λ i, Some i) = Some (st', r) ∧
    tiers_inv st' ∧ same_service (writes 100 [100; 101; 102]) st'.
Proof.
  apply (archiving_invisible cfg (writes 100 [100; 101; 102]) (λ i, Some i) 10).
  - apply (history_tiers_inv 100 (blocks_map [100; 101; 102])); [history|lia].
  - cbn. lia.
  - apply Nat.ltb_lt. vm_compute. reflexivity.
Defined.

Definition cfg_zero : PersistenceServiceConfig := {|
  persistence_enabled := true; cold_storage_path := "cold";
  hot_storage_block_count := 1; archive_batch_size := 0 |}.

Lemma zero_batch_size_diverges_witness :
  run_archival_cycle cfg_zero 1000 (writes 100 [100; 101; 102]) (λ _, None) = None.
Proof.
  apply (zero_batch_size_diverges cfg_zero _ _ 100 102).
  - apply (history_tiers_inv 100 (blocks_map [100; 101; 102])); [history|lia].
  - reflexivity.
  - apply get_u64_opt_sound. vm_compute. reflexivity.
  - apply get_u64_opt_sound. vm_compute. reflexivity.
  - vm_compute. reflexivity.
Defined.

Definition run40 : list Block := block_of <$> seqZ 40 (Z.of_nat 2).
Definition run40_z : list bytes := (λ n, enc_block (block_of n)) <$> seqZ 40 (Z.of_nat 2).
Lemma run40_archivable : archivable run40 40 run40_z.
Proof. apply archivable_of; [reflexivity|vm_compute; reflexivity|lia]. Qed.

Lemma archive_roundtrip_witness :
  ∃ fs' index_path indices',
    io_run empty_fs None (write_archive run40) = (fs', Ok index_path) ∧
    load_index_file fs' ∅ index_path = Ok indices' ∧
    cold_read_block fs' indices' (40 + Z.of_nat 1) = Ok (Some (encode_to_vec (block_of 41))).
Proof.
  apply (archive_roundtrip run40 40 run40_z empty_fs ∅ 1 (block_of 41)).
  - exact run40_archivable.
  - reflexivity.
  - intros k mi Hk. by rewrite lookup_empty in Hk.
Defined.

Lemma archive_crash_safe_witness :
  let last := last_of run40 40 in
  let d := data_filename 40 last in let i := index_filename 40 last in
  let fs' := fs_exec empty_fs (take 5 (write_archive run40).1) in
  (files fs' !! i = files empty_fs !! i ∨
   files fs' !! i = Some (concat (records (seqZ 40 (Z.of_nat (length run40))) run40_z 0)) ∧
   files fs' !! d = Some (concat run40_z)) ∧
  ∀ f, f ≠ d → f ≠ i → f ≠ tmp_filename d → f ≠ tmp_filename i →
    files fs' !! f = files empty_fs !! f.
Proof. apply (archive_crash_safe run40 40 run40_z empty_fs 5). exact run40_archivable. Defined.

Lemma add_gap_range_union_witness :
  ∃ ops g', add_gap_range (t_db (boot 100)) 100 105 [] = Ok ([] ++ ops) ∧
    Forall (λ op, op_cf op = CF_GAPS) ops ∧
    gaps_repr (apply_batch CF_GAPS (entries (t_db (boot 100)) CF_GAPS) ops) g' ∧
    ∀ n, in_gap g' n ↔ 100 ≤ n ≤ 105 ∨ in_gap ∅ n.
Proof. apply add_gap_range_union; [exact boot_gaps|u64_lia|u64_lia|lia]. Defined.

(** Filling block 101 of the gap [101, 102]. *)
Lemma fill_gap_block_removes_witness :
  ∃ g ops g', in_gap g 101 ∧
    fill_gap_block (t_db (writes 100 [100; 103])) 101 [] = Ok ([] ++ ops) ∧
    gaps_repr (apply_batch CF_GAPS (entries (t_db (writes 100 [100; 103])) CF_GAPS) ops) g' ∧
    ¬ in_gap g' 101 ∧ in_gap g' 102.
Proof.
  destruct (history_svc_inv cfg 100 (blocks_map [100; 103]) (writes 100 [100; 103]))
    as (p & _ & (Hg & _) & _); [history|lia|cbn; lia|].
  assert (in_gap (p_gaps p) 101 ∧ in_gap (p_gaps p) 102) as [H1 H2].
  { split; [destruct (find_containing_gap_ok _ _ 101 Hg ltac:(u64_lia)) as (o & E & Ho)
           |destruct (find_containing_gap_ok _ _ 102 Hg ltac:(u64_lia)) as (o & E & Ho)];
      vm_compute in E; injection E as <-; by exists 101, 102. }
  destruct (fill_gap_block_removes (t_db (writes 100 [100; 103])) (p_gaps p) 101 [] Hg ltac:(u64_lia))
    as (ops & g' & E & _ & Hr & Hin).
  exists (p_gaps p), ops, g'. split_and!; [exact H1|exact E|exact Hr|rewrite Hin; tauto|].
  apply Hin. split; [exact H2|lia].
Defined.

Lemma find_containing_gap_correct_witness :
  ∃ o, find_containing_gap (t_db (boot 100)) 100 = Ok o ∧
    (∀ a b, o = Some (a, b) → (∅ : gmap Z Z) !! a = Some b ∧ a ≤ 100 ≤ b) ∧
    (o = None ↔ ¬ in_gap ∅ 100).
Proof. apply find_containing_gap_correct; [exact boot_gaps|u64_lia]. Defined.

Lemma in_order_ingestion_witness :
  let st' := foldl (λ st b, (tiers_write_block cfg 100 st b).1) (boot 100)
               [block_of 100; block_of 101] in
  get_highest_contiguous (t_db st') = Ok (99 + 2) ∧
  get_latest_persisted (t_db st') = Ok (Some (99 + 2)) ∧
  find_containing_gap (t_db st') 100 = Ok None.
Proof.
  apply (in_order_ingestion cfg 100 ∅ (boot 100) (p_init 100) [block_of 100; block_of 101]).
  - apply boot_inv. lia.
  - u64_lia.
  - reflexivity.
  - intros k (a & b & Hab & _). cbn in Hab. by rewrite lookup_empty in Hab.
  - discriminate.
  - apply Forall2_cons. split; [apply storable_of; vm_compute; reflexivity|].
    apply Forall2_cons. split; [apply storable_of; vm_compute; reflexivity|constructor].
  - u64_lia.
Defined.

Lemma batch_write_readable_witness :
  ∃ st' e, tiers_write_block_batch (boot 100) None run40 = (st', Ok tt) ∧
    tiers_read_block st' (40 + Z.of_nat 1) = Ok (Some (encode_to_vec (block_of 41))) ∧
    get_true_earliest_persisted (t_db st') = Ok (Some e) ∧ e ≤ 40.
Proof.
  apply (batch_write_readable (boot 100) run40 40 run40_z 1 (block_of 41)).
  - destruct (boot_inv 100) as ((Hdb & _) & _); [lia|exact Hdb].
  - exists None. destruct (boot_inv 100) as (_ & (_ & _ & Ht & _) & _); [lia|exact Ht].
  - exact run40_archivable.
  - reflexivity.
  - vm_compute. reflexivity.
  - intros k mi Hk. vm_compute in Hk. discriminate Hk.
Defined.

Lemma archive_name_roundtrip_witness :
  parse_block_range (index_filename 40 141) =
  if decide (40 < 10 ^ 10 ∧ 141 < 10 ^ 10) then Some (40, 141) else None.
Proof. apply archive_name_roundtrip; lia. Defined.
