(* ===== verification/IngestTheorems.v ===== *)
(** What ingestion guarantees, and where it falls short: the theorems on the block
    pipeline, the publisher sessions and the two together. *)
From S2P Require Import Prelude Config Database Block StateManager HotTier ColdStorage.
From S2P Require Import Core PersistenceService Archiver Persistence Fixtures Pipeline.
From S2P Require Import Publish Ingest.

Section ingest_theorems.
Context {S : Type} {READER : BlockReader S} {WRITER : BlockWriter S}
  {CODEC : Codec} {CLAWS : CodecLaws} {STORE : BlockStore S}.
Implicit Types (pl : Pipeline S) (ig : Ingest S) (pub : gmap Uuid Block).

(** An announced block can be read back. *)
Lemma persisted_readable pub pl e :
  pl_inv pub pl → e ∈ pl_persisted pl →
  ∃ k b, pub !! k = Some b ∧ get_block_number b = Ok (bp_block_number e) ∧
    read_block (pl_store pl) (bp_block_number e) = Ok (Some (encode_to_vec b)).
Proof.
  intros Hinv He. destruct (pli_store _ _ Hinv) as (m & Hm & Hall).
  destruct (Hall e He) as [_ (k & b & (Hk & Hwf & _ & Hn) & Hmn)].
  exists k, b. split_and!; [done|done|].
  by rewrite (read_block_holds _ _ _ Hm (get_block_number_u64 _ _ Hwf Hn)), Hmn.
Qed.

(** C12: A [BlockPersisted] event is only broadcast for a block that is there.
    Whatever the interleaving of publishers, verifier, persistence, cache cleanup and
    other tasks that keep the blocks of the store (the archiver, backfill), every announced number can be read back, and the bytes are those of
    a published block with this number in its header. *)
Theorem persisted_events_sound ve pub pl e :
  pipeline_run ve pub pl → e ∈ pl_persisted pl →
  ∃ k b, pub !! k = Some b ∧ get_block_number b = Ok (bp_block_number e) ∧
    read_block (pl_store pl) (bp_block_number e) = Ok (Some (encode_to_vec b)).
Proof. intros H%run_inv. by apply persisted_readable. Qed.

(** Each published block has at most one outcome: over a whole run no cache
    key is announced twice, none is announced both as persisted and as failed, and
    every announced key was published. *)
Lemma one_outcome_per_block ve pub pl :
  pipeline_run ve pub pl →
  NoDup ((bvf_cache_key <$> pl_failed pl) ++ (bp_cache_key <$> pl_persisted pl)) ∧
  ∀ k, k ∈ (bvf_cache_key <$> pl_failed pl) ++ (bp_cache_key <$> pl_persisted pl) →
    is_Some (pub !! k).
Proof.
  intros H%run_inv. split.
  - pose proof (pli_keys _ _ H) as Hk. unfold event_keys in Hk.
    by apply NoDup_app in Hk as (_ & _ & (_ & _ & Hk)%NoDup_app).
  - intros k Hk. apply (pli_pub _ _ H). unfold event_keys. set_solver.
Qed.

(** C28: The pipeline delivers.  In every reachable state with the verifier enabled,
    if the data of the waiting events is still cached, running the verifier and
    then the persistence plugin once per event persists every block, announces
    them in the order of arrival, reports no failure, and leaves the channels
    empty. *)
Theorem pipeline_delivers pub pl :
  pipeline_run true pub pl → pl_verified pl = [] →
  (∀ e, e ∈ pl_items pl → cached (pl_cache pl) (bir_cache_key e)) →
  let k := length (pl_items pl) in
  let pl' := Nat.iter k (persist_step true) (Nat.iter k verifier_step pl) in
  pl_items pl' = [] ∧ pl_verified pl' = [] ∧ pl_failed pl' = pl_failed pl ∧
  pl_persisted pl' = pl_persisted pl ++ (persisted_of <$> pl_items pl) ∧
  ∀ e, e ∈ pl_items pl →
    ∃ b, get_block_number b = Ok (bir_block_number e) ∧
      read_block (pl_store pl') (bir_block_number e) = Ok (Some (encode_to_vec b)).
Proof.
  intros Hrun Hv Hcached k pl'. pose proof (run_inv _ _ _ Hrun) as Hinv.
  assert (pl_inv pub pl') as Hinv'.
  { assert (∀ i p, pl_inv pub p → pl_inv pub (Nat.iter i verifier_step p)) as H1.
    { intros i p Hp. induction i; cbn; [done|by apply verifier_inv]. }
    assert (∀ i p, pl_inv pub p → pl_inv pub (Nat.iter i (persist_step true) p)) as H2.
    { intros i p Hp. induction i; cbn; [done|by apply persist_inv]. }
    by apply H2, H1. }
  pose proof Hinv as [Hc Hi _ Hk _ (m & Hm & _)].
  unfold event_keys in Hk. apply NoDup_app in Hk as [Hk _].
  revert Hinv'. subst pl' k. destruct pl as [c s items vs fs ps].
  cbn [pl_cache pl_store pl_items pl_verified pl_failed pl_persisted] in *. subst vs.
  rewrite (drain_verifier pub) by done. cbn [app].
  destruct (drain_persistence pub c s m (verified_of <$> items) [] fs ps)
    as (c' & s' & m' & E & Hm' & _); [done|done| | |].
  { rewrite <-list_fmap_compose. exact Hk. }
  { intros e (x & -> & Hx)%list_elem_of_fmap. split; [by apply Hcached|by apply Hi]. }
  rewrite length_fmap in E. rewrite E. intros Hinv'. cbn. rewrite <-list_fmap_compose.
  split_and!; try done. intros e He.
  destruct (persisted_readable _ _ (persisted_of e) Hinv') as (kk & b & _ & Hb & Hr).
  - cbn. apply elem_of_app. right. rewrite <-list_fmap_compose.
    apply list_elem_of_fmap. by exists e.
  - exists b. split; [exact Hb|exact Hr].
Qed.

(** C8: At most one session streams a block.  In every interleaving of any number
    of sessions of publishers that finish one block before the next, two different
    live sessions that both accept items work on different block numbers. *)
Theorem election_exclusive max ve thr pub ig id1 id2 s1 s2 ph1 ph2 :
  ingest_run max ve thr pub ig → 0 ≤ thr →
  ig_sessions ig !! id1 = Some (s1, ph1) → ig_sessions ig !! id2 = Some (s2, ph2) →
  ph1 ≠ Ended → ph2 ≠ Ended →
  current_block_action s1 = Some Accept → current_block_action s2 = Some Accept →
  id1 ≠ id2 → as_u64 (current_block_number s1) ≠ as_u64 (current_block_number s2).
Proof.
  intros H Ht H1 H2 Hp1 Hp2 Ha1 Ha2 Hne Hn. destruct (ingest_run_inv _ _ _ _ _ H Ht) as [Hinv _].
  assert (∀ sid s ph, ig_sessions ig !! sid = Some (s, ph) → ph ≠ Ended →
    current_block_action s = Some Accept →
    block_winners (ig_shared ig) !! as_u64 (current_block_number s) = Some sid) as Hw.
  { intros sid s ph Hs Hp Ha. destruct (igi_session _ _ Hinv _ _ _ Hs) as [<- Hph].
    destruct ph as [|a|]; cbn in Hph; [|by destruct Hph as (_ & <- & ?)|done].
    destruct Hph as [[? _]|(_ & ? & _)]; [congruence|done]. }
  pose proof (Hw _ _ _ H1 Hp1 Ha1) as W1. pose proof (Hw _ _ _ H2 Hp2 Ha2) as W2.
  rewrite Hn, W2 in W1. by injection W1 as ->.
Qed.

(** C4: An acknowledgement is true.  Whenever a session of such publishers has been
    sent an acknowledgement for a block number, the store returns for this number,
    then and at all later times, the bytes of a published block with this number in its
    header; the archiver and the backfill worker may use the store meanwhile. *)
Theorem acknowledged_is_stored max ve thr pub ig sid n :
  ingest_run max ve thr pub ig → 0 ≤ thr →
  (sid, Acknowledgement n) ∈ ig_sent ig →
  ∃ k b, pub !! k = Some b ∧ get_block_number b = Ok n ∧
    read_block (pl_store (ig_pipeline ig)) n = Ok (Some (encode_to_vec b)).
Proof.
  intros H Ht Hs. destruct (ingest_run_inv _ _ _ _ _ H Ht) as [Hinv _].
  destruct (igi_ack _ _ Hinv sid n Hs) as (e & He & <-).
  by apply persisted_readable; [apply Hinv|].
Qed.

(** Winners never outlive their session.  In every reachable state each entry
    of the winner table belongs to a session that is still connected, and the
    sessions that receive broadcasts are exactly the connected ones. *)
Lemma winners_are_connected max ve thr pub ig :
  ingest_run max ve thr pub ig → 0 ≤ thr →
  (∀ n sid, block_winners (ig_shared ig) !! n = Some sid → is_Some (ig_sessions ig !! sid)) ∧
  active_sessions (ig_shared ig) = dom (ig_sessions ig).
Proof.
  intros H Ht. destruct (ingest_run_inv _ _ _ _ _ H Ht) as [Hinv _].
  split; [apply Hinv|apply Hinv].
Qed.

(** A session that subscribes to the persisted-block channel after its block
    was announced is never acknowledged: whatever it receives from then on, its
    wait does not end with success. *)
Lemma late_subscription_never_acknowledged max ve thr pub ig sid s a i j e received :
  ingest_run max ve thr pub ig → 0 ≤ thr →
  ig_sessions ig !! sid = Some (s, Waiting a) → aw_subscribed a = Some (i, j) →
  e ∈ take j (pl_persisted (ig_pipeline ig)) → bp_cache_key e = aw_key a →
  visible (ig_pipeline ig) i j received →
  await_result (aw_number a) (aw_key a) received ≠ WPersisted.
Proof.
  intros H Ht Hs Hsub He Hk Hvis Hres. destruct (ingest_run_inv _ _ _ _ _ H Ht) as [Hinv _].
  destruct (await_persisted _ _ _ Hres) as (e' & Hin & _ & Hk').
  unfold visible in Hvis. rewrite Forall_forall in Hvis. specialize (Hvis _ Hin). cbn in Hvis.
  pose proof (pli_keys _ _ (igi_pipeline _ _ Hinv)) as Hnd. unfold event_keys in Hnd.
  apply NoDup_app in Hnd as (_ & _ & (_ & _ & (_ & _ & Hnd)%NoDup_app)%NoDup_app).
  rewrite <-(take_drop j (pl_persisted (ig_pipeline ig))), fmap_app in Hnd.
  apply NoDup_app in Hnd as (_ & Hnd & _).
  apply (Hnd (bp_cache_key e)); [by apply list_elem_of_fmap_2|].
  rewrite Hk, <-Hk'. by apply list_elem_of_fmap_2.
Qed.
End ingest_theorems.

Section session_theorems.
Context {CODEC : Codec} {CLAWS : CodecLaws}.

(** C32: The framing of a block does not matter.  However the items of a block
    (a header, body items, the proof) are cut into request sets, a free session
    that wins the block hands exactly these items, in order, to the pipeline under
    the header's number, and no response is sent before. *)
Theorem block_assembled_from_sets max sh s sets h body p :
  concat sets = Some (IBlockHeader h) :: body ++ [Some (IBlockProof p)] →
  Forall (λ l, l ≠ [] ∧ Z.of_nat (length l) ≤ max) sets → Forall body_item body →
  item_buffer s = [] → is_u64 (header_number h) →
  latest_persisted_block sh < as_i64 (header_number h) →
  block_winners sh !! header_number h = None →
  fits (MkBlock (concat sets)) →
  let o := stream_sets max sh s sets in
  o_next o = AwaitBlock (header_number h) (MkBlock (concat sets)) ∧
  o_responses o = [] ∧
  block_winners (o_shared o) = <[header_number h := id s]> (block_winners sh).
Proof.
  intros Hc Hsets Hbody Hbuf Hu Hlat Hwin Hfit.
  destruct sets as [|l sets]; [done|]. apply Forall_cons in Hsets as [[Hne Hl] Hsets].
  destruct l as [|i l]; [done|]. cbn in Hc. injection Hc as -> Hc.
  destruct (handle_items_opening max sh s h l Hl Hbuf Hu Hlat Hwin) as [E Hst].
  cbn [stream_sets]. rewrite E. cbn [concat] in Hfit. cbn [app] in Hfit. rewrite Hc in Hfit.
  set (sh' := won sh s (header_number h)) in *. set (s2 := opened s h) in *.
  apply split_body in Hc as [[Hr ->]|(body' & -> & Hr)].
  - rewrite handle_accept_proof by (eapply Forall_impl; [done|]; by intros ? [_ ?]).
    set (s3 := set_buffer s2 _).
    destruct (complete_block_fits sh' s3) as (E3 & E4 & E5); [exact Hfit|].
    rewrite E3. cbn [concat app]. rewrite E3, E4, E5, Hr, app_nil_r.
    split_and!; [|done|done]. cbn. by rewrite as_u64_as_i64.
  - apply Forall_app in Hbody as [Hbl Hbody].
    rewrite handle_accept_body by (eapply Forall_impl; [done|]; by intros ? [_ ?]).
    cbn [o_next o_shared o_session o_responses]. set (s3 := set_buffer s2 _).
    destruct (stream_rest max sets sh' s3 body' p) as (E3 & E4 & E5); try done.
    { subst s3. cbn. rewrite <-app_assoc in Hfit. exact Hfit. }
    rewrite E3, E4, E5. cbn [concat app]. rewrite Hr.
    split_and!; [|done|done]. cbn. by rewrite as_u64_as_i64.
Qed.

(** A session that ends frees its blocks.  Afterwards it wins nothing, the
    winners of all other sessions are untouched, and every other connected session
    has been told to resend each block it held. *)
Lemma ended_session_frees_blocks sh sid :
  let '(sh', sent) := end_session sh sid in
  (∀ n x, block_winners sh' !! n = Some x ↔ x ≠ sid ∧ block_winners sh !! n = Some x) ∧
  sid ∉ active_sessions sh' ∧
  ∀ n other, block_winners sh !! n = Some sid → other ∈ active_sessions sh → other ≠ sid →
    (other, ResendBlock n) ∈ sent.
Proof.
  destruct (end_session sh sid) as [sh' sent] eqn:E. split_and!.
  - intros n x. change sh' with (sh', sent).1. rewrite <-E, end_session_winners.
    case_decide; naive_solver.
  - unfold end_session in E. injection E as <- <-. cbn. set_solver.
  - intros n other Hw Ho Hne. unfold end_session in E. injection E as <- <-.
    apply list_elem_of_bind. exists n. split; [|by apply elem_of_affected].
    apply elem_of_broadcast. split; [set_solver|done].
Qed.
End session_theorems.

(** The archiver is one of the tasks that may use the store between the steps of the
    pipeline: a turn of it, whatever cuts it short, keeps every block. *)
Lemma archiver_turn_keeps `{RocksDBLaws, CodecLaws} (svc : Service) m fault st o :
  holds svc m → 1 ≤ archive_batch_size (svc_cfg svc) ≤ 4294967296 →
  cycle_step (svc_cfg svc) (svc_tiers svc) fault = (st, o) →
  keeps svc (MkService (svc_cfg svc) (svc_start svc) st).
Proof.
  intros Hm Hsz E. exists m, m. split_and!; [done| |done].
  destruct Hm as (Hs & Hz & Hu & p & Hinv). destruct (step_inv _ _ _ _ _ _ _ _ Hinv Hsz E) as [p' Hp'].
  split_and!; cbn; [lia..|done|done|by exists p'].
Qed.

(** ** Shortcomings, on the reference node *)
Definition header_item (n : Z) : BlockItem := Some (IBlockHeader (Header n (Pb "h" []))).
Definition proof_item (n : Z) : BlockItem := Some (IBlockProof (Proof_ n (Pb "p" []))).

(** A request on a shared state nobody else changes meanwhile. *)
Definition request_alone (sh : SharedState) (s : Session) (r : PublishRequest) : Outcome :=
  handle_request 100 (latest_persisted_block sh) (block_winners sh) sh s r.

Definition node : Service := RefNode.svc_of 100 (RefNode.boot 100).
Definition idle_pipeline : Pipeline Service := MkPipeline Cache.new node [] [] [] [].

(** A header in mid-block misfiles a block.  A session that won 105 and then
    sends the header and proof of 106 hands over one block, announced as 106, that
    starts with the header of 105: the pipeline announces 106 as persisted, the
    session is told so, and the store has it under 105 and nothing under 106. *)
Lemma midblock_header_misfiles :
  let o1 := request_alone SharedState_new (SessionManager_new 1) (ReqBlockItems [header_item 105]) in
  let o2 := request_alone (o_shared o1) (o_session o1)
              (ReqBlockItems [header_item 106; proof_item 106]) in
  let b := MkBlock [header_item 105; header_item 106; proof_item 106] in
  let pl := persist_step false (publish idle_pipeline 7 0 106 b) in
  o_next o2 = AwaitBlock 106 b ∧ get_block_number b = Ok 105 ∧
  pl_persisted pl = [MkPersisted 106 7] ∧
  read_block (pl_store pl) 106 = Ok None ∧
  read_block (pl_store pl) 105 = Ok (Some (encode_to_vec b)).
Proof. split_and!; vm_compute; reflexivity. Qed.

(** The latest block of the publish plugin goes backwards.  When 106 is
    acknowledged before 105, the shared state ends at 105, and a third session
    that offers 106 again, already persisted, is accepted. *)
Lemma latest_block_regresses :
  let sh0 := MkShared ∅ 104 {[1%N; 2%N; 3%N]} in
  let o1 := request_alone sh0 (SessionManager_new 1) (ReqBlockItems [header_item 105]) in
  let o2 := request_alone (o_shared o1) (SessionManager_new 2) (ReqBlockItems [header_item 106]) in
  let '(_, sh1, _, _) := finish_block (o_shared o2) (o_session o2) WPersisted in
  let '(_, sh2, _, _) := finish_block sh1 (o_session o1) WPersisted in
  let o3 := request_alone sh2 (SessionManager_new 3) (ReqBlockItems [header_item 106]) in
  latest_persisted_block sh1 = 106 ∧ latest_persisted_block sh2 = 105 ∧
  current_block_action (o_session o3) = Some Accept ∧ o_next o3 = Continue.
Proof. split_and!; vm_compute; reflexivity. Qed.

(** A session that loses the race for block 105 between its look-up and its
    entry is told to skip block 0. *)
Lemma lost_race_skips_wrong_block :
  let sh := MkShared {[105 := 2%N]} 104 {[1%N; 2%N]} in
  o_responses (handle_request 100 104 ∅ sh (SessionManager_new 1)
                 (ReqBlockItems [header_item 105]))
  = [SkipBlock 0].
Proof. vm_compute. reflexivity. Qed.

(** ** The theorems at work *)
Lemma node_holds : holds node ∅.
Proof.
  unfold node. apply RefNode.history_holds; [|lia]. apply RefNode.boot_history. u64_lia.
Qed.

Lemma accepts_of n : RefNode.storableb n = true → accepts (BlockStore := service_store) (block_of n).
Proof. intros H. exists n. by apply RefNode.storable_of. Qed.

Definition piped : Pipeline Service := publish idle_pipeline 7 0 100 (block_of 100).
Definition piped_pub : gmap Uuid Block := <[7%N := block_of 100]> ∅.

Lemma piped_run ve : pipeline_run ve piped_pub piped.
Proof.
  unfold piped, piped_pub. apply run_publish.
  - apply (run_init _ node ∅). exact node_holds.
  - apply lookup_empty.
  - apply block_of_wf. u64_lia.
  - apply accepts_of. vm_compute. reflexivity.
  - reflexivity.
Qed.

Lemma persisted_events_sound_witness :
  ∃ k b, piped_pub !! k = Some b ∧ get_block_number b = Ok 100 ∧
    read_block (pl_store (persist_step false piped)) 100 = Ok (Some (encode_to_vec b)).
Proof.
  refine (persisted_events_sound false piped_pub (persist_step false piped)
    (MkPersisted 100 7) _ _).
  - apply run_persist. apply piped_run.
  - vm_compute. left.
Defined.

Lemma one_outcome_per_block_witness :
  NoDup ((bvf_cache_key <$> pl_failed (persist_step false piped))
         ++ (bp_cache_key <$> pl_persisted (persist_step false piped))) ∧
  ∀ k, k ∈ (bvf_cache_key <$> pl_failed (persist_step false piped))
           ++ (bp_cache_key <$> pl_persisted (persist_step false piped)) →
    is_Some (piped_pub !! k).
Proof.
  refine (one_outcome_per_block false piped_pub (persist_step false piped) _).
  apply run_persist. apply piped_run.
Defined.

Lemma pipeline_delivers_witness :
  let pl' := Nat.iter 1 (persist_step true) (Nat.iter 1 verifier_step piped) in
  pl_items pl' = [] ∧ pl_verified pl' = [] ∧ pl_failed pl' = pl_failed piped ∧
  pl_persisted pl' = pl_persisted piped ++ (persisted_of <$> pl_items piped) ∧
  ∀ e, e ∈ pl_items piped →
    ∃ b, get_block_number b = Ok (bir_block_number e) ∧
      read_block (pl_store pl') (bir_block_number e) = Ok (Some (encode_to_vec b)).
Proof.
  refine (pipeline_delivers piped_pub piped _ _ _).
  - apply piped_run.
  - reflexivity.
  - intros e He. apply list_elem_of_singleton in He as ->. vm_compute. eauto.
Defined.

(** Two sessions, then one block each. *)
Definition ig0 : Ingest Service := MkIngest (MkShared ∅ (-1) ∅) ∅ idle_pipeline [].
Definition connected (ig : Ingest Service) (sid : Uuid) : Ingest Service :=
  let '(s, sh) := connect (ig_shared ig) sid in put_session ig sid s Idle sh [].
Definition ig2 : Ingest Service := connected (connected ig0 1) 2.
Definition requested (ig : Ingest Service) (sid : Uuid) (r : PublishRequest) (key : Uuid)
    : Ingest Service :=
  after_request ig sid (handle_request 100 (-1) ∅ (ig_shared ig) (SessionManager_new sid) r) key 0.
Definition ig_two : Ingest Service :=
  requested (requested ig2 1 (ReqBlockItems [header_item 100]) 8)
    2 (ReqBlockItems [header_item 101]) 9.
Definition whole_block (n : Z) : PublishRequest := ReqBlockItems (items (block_of n)).
Definition ig_waiting : Ingest Service := requested ig2 1 (whole_block 100) 7.

Lemma ig2_run : ingest_run 100 false 1000 ∅ ig2.
Proof.
  unfold ig2, connected. apply ingest_connect; [|reflexivity].
  apply ingest_connect; [|reflexivity].
  apply (ingest_init _ _ _ node ∅ (-1)); [exact node_holds|u64_lia].
Qed.

Lemma ig_two_run : ingest_run 100 false 1000 ∅ ig_two.
Proof.
  unfold ig_two, requested.
  refine (ingest_request 100 false 1000 ∅ (requested ig2 1 (ReqBlockItems [header_item 100]) 8)
    2 (SessionManager_new 2) (-1) ∅ (ReqBlockItems [header_item 101]) 9 0 _ _ _ _ _).
  - refine (ingest_request 100 false 1000 ∅ ig2 1 (SessionManager_new 1) (-1) ∅
      (ReqBlockItems [header_item 100]) 8 0 _ _ _ _ _);
      [exact ig2_run|reflexivity|by right|apply lookup_empty|].
    intros n b E. vm_compute in E. discriminate E.
  - vm_compute. reflexivity.
  - by right.
  - apply lookup_empty.
  - intros n b E. vm_compute in E. discriminate E.
Qed.

Lemma ig_waiting_run : ingest_run 100 false 1000 piped_pub ig_waiting.
Proof.
  refine (ingest_request 100 false 1000 ∅ ig2 1 (SessionManager_new 1) (-1) ∅
    (whole_block 100) 7 0 _ _ _ _ _); [exact ig2_run|reflexivity|by right|apply lookup_empty|].
  intros n b E. assert (b = block_of 100) as -> by (vm_compute in E; by injection E).
  split; [apply block_of_wf; u64_lia|apply accepts_of; vm_compute; reflexivity].
Qed.

Definition session_of (ig : Ingest Service) (sid : Uuid) : Session :=
  match ig_sessions ig !! sid with Some (s, _) => s | None => SessionManager_new sid end.

Lemma election_exclusive_witness :
  current_block_action (session_of ig_two 1) = Some Accept ∧
  current_block_action (session_of ig_two 2) = Some Accept ∧
  as_u64 (current_block_number (session_of ig_two 1))
    ≠ as_u64 (current_block_number (session_of ig_two 2)).
Proof.
  split; [vm_compute; reflexivity|]. split; [vm_compute; reflexivity|].
  refine (election_exclusive 100 false 1000 ∅ ig_two 1 2 (session_of ig_two 1)
    (session_of ig_two 2) Idle Idle _ _ _ _ _ _ _ _ _).
  - exact ig_two_run.
  - lia.
  - vm_compute. reflexivity.
  - vm_compute. reflexivity.
  - discriminate.
  - discriminate.
  - vm_compute. reflexivity.
  - vm_compute. reflexivity.
  - discriminate.
Defined.

(** Session 1 has subscribed, its block is persisted, and it wakes up. *)
Definition with_subscription (ig : Ingest Service) (i j : nat) : Ingest Service :=
  put_session ig 1 (session_of ig 1) (Waiting (MkAwait 100 7 (Some (i, j)))) (ig_shared ig) [].
Definition persisted_ig (ig : Ingest Service) : Ingest Service :=
  with_pipeline ig (persist_step false (ig_pipeline ig)).
Definition ig_acked : Ingest Service :=
  after_wait (persisted_ig (with_subscription ig_waiting 0 0)) 1 (session_of ig_waiting 1)
    (await_result 100 7 [NPersisted (MkPersisted 100 7)]).

Lemma ig_acked_run : ingest_run 100 false 1000 piped_pub ig_acked.
Proof.
  unfold ig_acked.
  apply (ingest_wake 100 false 1000 piped_pub _ 1 (session_of ig_waiting 1)
    (MkAwait 100 7 (Some (0%nat, 0%nat))) 0 0).
  - apply ingest_persist.
    refine (ingest_subscribe 100 false 1000 piped_pub ig_waiting 1 (session_of ig_waiting 1)
      (MkAwait 100 7 None) ig_waiting_run _ _).
    + vm_compute. reflexivity.
    + reflexivity.
  - vm_compute. reflexivity.
  - reflexivity.
  - apply Forall_singleton. vm_compute. left.
Qed.

(** Meanwhile the backfill worker stores block 102. *)
Definition ig_filled : Ingest Service :=
  with_pipeline ig_acked (with_store (ig_pipeline ig_acked)
    (writer_write_block (pl_store (ig_pipeline ig_acked)) (block_of 102)).1).

Lemma ig_filled_run : ingest_run 100 false 1000 piped_pub ig_filled.
Proof.
  apply ingest_others; [exact ig_acked_run|].
  destruct (ingest_run_inv _ _ _ _ _ ig_acked_run ltac:(lia)) as [Hinv _].
  destruct (pli_store _ _ (igi_pipeline _ _ Hinv)) as (m & Hm & _).
  apply (new_block_keeps _ m _ 102); [done| |reflexivity|].
  - apply accepts_of. vm_compute. reflexivity.
  - pose proof (read_block_holds _ _ 102 Hm ltac:(u64_lia)) as E.
    vm_compute in E. by injection E.
Qed.

Lemma acknowledged_is_stored_witness :
  ∃ k b, piped_pub !! k = Some b ∧ get_block_number b = Ok 100 ∧
    read_block (pl_store (ig_pipeline ig_filled)) 100 = Ok (Some (encode_to_vec b)).
Proof.
  refine (acknowledged_is_stored 100 false 1000 piped_pub ig_filled 1 100 _ _ _).
  - exact ig_filled_run.
  - lia.
  - vm_compute. first [left | right; left].
Defined.

Lemma winners_are_connected_witness :
  (∀ n sid, block_winners (ig_shared ig_two) !! n = Some sid →
     is_Some (ig_sessions ig_two !! sid)) ∧
  active_sessions (ig_shared ig_two) = dom (ig_sessions ig_two).
Proof.
  refine (winners_are_connected 100 false 1000 ∅ ig_two _ _); [exact ig_two_run|lia].
Defined.

(** Session 1 subscribes only after its block was persisted. *)
Definition ig_before : Ingest Service := persisted_ig ig_waiting.
Definition late_await : Await :=
  MkAwait 100 7 (Some (length (pl_failed (ig_pipeline ig_before)),
                       length (pl_persisted (ig_pipeline ig_before)))).
Definition ig_late : Ingest Service :=
  put_session ig_before 1 (session_of ig_waiting 1) (Waiting late_await) (ig_shared ig_before) [].

Lemma ig_late_run : ingest_run 100 false 1000 piped_pub ig_late.
Proof.
  unfold ig_late, late_await.
  apply (ingest_subscribe 100 false 1000 piped_pub ig_before 1 (session_of ig_waiting 1)
    (MkAwait 100 7 None)).
  - apply ingest_persist. exact ig_waiting_run.
  - vm_compute. reflexivity.
  - reflexivity.
Qed.

Lemma late_subscription_never_acknowledged_witness :
  await_result 100 7 [] ≠ WPersisted.
Proof.
  refine (late_subscription_never_acknowledged 100 false 1000 piped_pub ig_late 1
    (session_of ig_waiting 1) late_await
    (length (pl_failed (ig_pipeline ig_before))) (length (pl_persisted (ig_pipeline ig_before)))
    (MkPersisted 100 7) [] _ _ _ _ _ _ _).
  - exact ig_late_run.
  - lia.
  - vm_compute. reflexivity.
  - reflexivity.
  - vm_compute. left.
  - reflexivity.
  - constructor.
Defined.

Lemma block_assembled_from_sets_witness :
  let sets := [[header_item 100; None]; [proof_item 100]] in
  let o := stream_sets 100 SharedState_new (SessionManager_new 1) sets in
  o_next o = AwaitBlock 100 (MkBlock (concat sets)) ∧ o_responses o = [] ∧
  block_winners (o_shared o) = <[100 := 1%N]> (block_winners SharedState_new).
Proof.
  refine (block_assembled_from_sets 100 SharedState_new (SessionManager_new 1)
    [[header_item 100; None]; [proof_item 100]] (Header 100 (Pb "h" [])) [None]
    (Proof_ 100 (Pb "p" [])) _ _ _ _ _ _ _ _).
  - reflexivity.
  - repeat constructor; cbn; lia || discriminate.
  - repeat constructor.
  - reflexivity.
  - cbn. u64_lia.
  - vm_compute. reflexivity.
  - apply lookup_empty.
  - vm_compute. discriminate.
Defined.

(** Sessions 1 and 2 hold blocks 105 and 106; session 1 ends. *)
Definition two_winners : SharedState :=
  MkShared {[105 := 1%N; 106 := 2%N]} 104 {[1%N; 2%N]}.

Lemma ended_session_frees_blocks_witness :
  block_winners (end_session two_winners 1).1 !! 106 = Some 2%N ∧
  block_winners (end_session two_winners 1).1 !! 105 ≠ Some 1%N ∧
  (2%N, ResendBlock 105) ∈ (end_session two_winners 1).2.
Proof.
  pose proof (ended_session_frees_blocks two_winners 1) as H.
  destruct (end_session two_winners 1) as [sh' sent].
  destruct H as (Hw & _ & Hr). split_and!.
  - apply Hw. split; [discriminate|vm_compute; reflexivity].
  - intros Hx. by apply Hw in Hx as [? _].
  - apply Hr; [vm_compute; reflexivity|cbn; set_solver|discriminate].
Defined.
