(* ===== verification/ServingTheorems.v ===== *)
(** What the consumers of the store guarantee, and where they fall short: the
    theorems on the subscriber, block access, server status, backfill and state
    plugins, and on the block-data cache. *)
From S2P Require Import Prelude Config Database Block StateManager HotTier ColdStorage.
From S2P Require Import Core PersistenceService Archiver Persistence Fixtures Pipeline.
From S2P Require Import Subscriber Access Backfill StatePlugin.

Section serving_theorems.
Context {S : Type} {READER : BlockReader S} {WRITER : BlockWriter S}
  {CODEC : Codec} {CLAWS : CodecLaws} {STORE : BlockStore S}.
Implicit Types (s : S) (m : gmap Z bytes).

(** A finite range that validation accepts is not empty. *)
Lemma validated_range cfg request s start :
  validate_and_check_fulfillment cfg request s = Ok start →
  end_block_number request ≠ u64_MAX → start ≤ end_block_number request.
Proof.
  unfold validate_and_check_fulfillment. intros H He.
  apply bind_Ok in H as (earliest & _ & H). apply bind_Ok in H as (latest & _ & H).
  destruct (Z.eqb_spec (end_block_number request) u64_MAX) as [|_]; [done|].
  destruct (Z.eqb_spec (start_block_number request) u64_MAX) as [Hs|Hs];
    cbn [negb andb] in H.
  - destruct earliest as [e|]; [|done].
    destruct (Z.leb_spec e (end_block_number request)); [|done]. by injection H as <-.
  - destruct (Z.ltb_spec (end_block_number request) (start_block_number request)); [done|].
    apply bind_Ok in H as ([] & _ & H). apply bind_Ok in H as ([] & _ & H).
    by injection H as <-.
Qed.

(** C16: A subscriber gets consecutive stored blocks.  Let the stores a session reads
    be in working order; they may change from turn to turn, and the client and the
    event channel may do anything.  The sets it sends are the items of the blocks
    start, start + 1, ... in order, each with all its items and the bytes the store
    returned for that number during the session, and the session reports success
    only when the whole requested range was sent. *)
Theorem subscription_in_order cfg request s turns start sent res :
  validate_and_check_fulfillment cfg request s = Ok start →
  0 ≤ start → start + Z.of_nat (length turns) < u64_modulus → working turns →
  execute_stream cfg request s turns = (sent, res) →
  in_order turns start sent ∧
  (res = Some (Ok tt) →
   end_block_number request ≠ u64_MAX ∧
   start + Z.of_nat (length sent) = end_block_number request + 1).
Proof.
  intros Hv H0 Hmax Hw. unfold execute_stream. rewrite Hv. intros E.
  destruct (stream_loop_ok request (negb (end_block_number request =? u64_MAX)) turns start
    sent res) as [Ho Hr]; [done|done|done| |done|].
  - intros Hf%negb_true_iff%Z.eqb_neq. pose proof (validated_range _ _ _ _ Hv Hf). lia.
  - split; [done|]. intros Hres. destruct (Hr Hres) as [Hf Hlen].
    by apply negb_true_iff, Z.eqb_neq in Hf.
Qed.


(** What a subscription is refused for.  On a node with earliest block [e] and
    latest block [l], a request for an explicit start block is accepted exactly
    when the range is not reversed, starts at or after [e] and at most the
    configured look-ahead after [l], and it then starts at that block. *)
Lemma subscription_accepted_iff cfg start end_ s e l st :
  get_earliest_persisted_block_number s = Ok (Some e) →
  get_latest_persisted_block_number s = Ok (Some l) →
  start ≠ u64_MAX → is_u64 (l + max_future_block_lookahead cfg) →
  validate_and_check_fulfillment cfg (MkSubscribe start end_) s = Ok st ↔
  st = start ∧ (end_ = u64_MAX ∨ start ≤ end_) ∧
  e ≤ start ≤ l + max_future_block_lookahead cfg.
Proof.
  intros He Hl Hs Hu. unfold validate_and_check_fulfillment. rewrite He, Hl. cbn.
  rewrite u64_add_small by done.
  destruct (Z.eqb_spec start u64_MAX); [done|].
  destruct (Z.eqb_spec end_ u64_MAX); destruct (Z.ltb_spec end_ start); cbn;
    destruct (Z.ltb_spec start e); cbn;
    try destruct (Z.ltb_spec (l + max_future_block_lookahead cfg) start); cbn;
    split; intros H'; try discriminate H'; try (injection H' as <-); try lia;
    destruct H' as (-> & ? & ?); first [done | lia].
Qed.

(** Block access serves what is stored: a request by number returns the stored
    block with this number when there is one, and otherwise no block, with a
    not-found or not-available status. *)
Lemma block_access_by_number s m n :
  holds s m → is_u64 n → n ≠ u64_MAX →
  match m !! n with
  | Some c => ∃ b, get_block_number b = Ok n ∧ c = encode_to_vec b ∧
      get_block s (Some (ByNumber n)) = MkBlockResponse ASuccess (Some b)
  | None => ∃ code, (code = ANotFound ∨ code = ANotAvailable) ∧
      get_block s (Some (ByNumber n)) = MkBlockResponse code None
  end.
Proof.
  intros Hs Hn Hne.
  assert (get_target_block_number s (Some (ByNumber n)) = Ok n) as Ht.
  { cbn. by destruct (Z.eqb_spec n u64_MAX). }
  destruct (m !! n) as [c|] eqn:Ec.
  - destruct (get_block_held s m n c _ Hs Hn Ec Ht) as (b & _ & Hb & Hc & Hg). by exists b.
  - rewrite (get_block_missing s m n _ Hs Hn Ec Ht). unfold handle_not_found_block, failure.
    destruct (mjoin (ok_of (get_earliest_persisted_block_number s))) as [e|],
      (mjoin (ok_of (get_latest_persisted_block_number s))) as [l|];
      try (exists ANotFound; by auto).
    destruct (_ || _); [exists ANotAvailable|exists ANotFound]; by auto.
Qed.
End serving_theorems.

Section node_theorems.
Context {RDB : RocksDB} {LAWS : RocksDBLaws} {CODEC : Codec} {CLAWS : CodecLaws}.
Implicit Types (svc : Service) (db : DB).

(** C38: The node reports and serves its latest block: once a block at or after the
    start block (other than block 0) is stored, the server status ends at the greatest stored number and
    the request for the latest block returns the block with that number. *)
Theorem latest_block_served svc m k :
  holds svc m → is_Some (m !! k) → first_counted (svc_start svc) ≤ k →
  ∃ l b status, (∀ n, is_Some (m !! n) → n ≤ l) ∧ get_block_number b = Ok l ∧
    get_block svc (Some (RetrieveLatest true)) = MkBlockResponse ASuccess (Some b) ∧
    server_status svc = Ok status ∧ last_available_block status = l.
Proof.
  intros Hs Hk Hge. pose proof Hs as (Hst & _ & _ & p & Hinv).
  destruct (svc_latest (svc_start svc) m (svc_tiers svc) p k Hinv)
    as (l & Hl & Hu & [c Hc] & Hmax); [lia|done|done|].
  assert (get_target_block_number svc (Some (RetrieveLatest true)) = Ok l) as Ht.
  { cbn. unfold get_latest_block_number. cbn. by rewrite Hl. }
  destruct (get_block_held svc m l c _ Hs Hu Hc Ht) as (b & _ & Hb & _ & Hg).
  destruct Hinv as (_ & (Hgo & _ & Hte & _) & _).
  exists l, b, (MkServerStatus (default 0 (p_true_earliest p)) l false).
  split_and!; try done. unfold server_status. cbn. unfold get_true_earliest_persisted.
  rewrite (get_u64_opt_ok _ _ _ (proj1 Hgo) Hte). cbn. by rewrite Hl.
Qed.

(** C13: A gap check makes the node whole.  If the peers are faithful and some peer
    serves each recorded gap, then after one [run_single_gap_check] every block from
    the start block between the contiguous mark and the latest block can be read,
    and no stored block was lost. *)
Theorem gap_check_completes svc m peers h l n :
  holds svc m → Forall faithful peers →
  get_highest_contiguous_block_number svc = Ok h →
  get_latest_persisted_block_number svc = Ok (Some l) →
  (∀ gaps a b, get_all_gaps (t_db (svc_tiers svc)) = Ok gaps → (a, b) ∈ gaps →
     Exists (serves (Z.max a (svc_start svc)) b) peers) →
  svc_start svc ≤ n → h < n ≤ l →
  ∃ svc' m' b, run_single_gap_check svc (svc_start svc) peers
                 (get_all_gaps (t_db (svc_tiers svc))) = (svc', Ok tt) ∧
    holds svc' m' ∧ dom m ⊆ dom m' ∧ get_block_number b = Ok n ∧
    read_block svc' n = Ok (Some (encode_to_vec b)).
Proof.
  intros Hs Hf Hh Hl Hserve Hstart Hn.
  pose proof Hs as (Hst & _ & _ & p & _ & Hp & (_ & HB & _) & HL & _).
  cbn in Hh, Hl. rewrite (get_highest_contiguous_ok _ _ Hp) in Hh. injection Hh as <-.
  pose proof Hp as (Hg & Hla & _). unfold get_latest_persisted in Hl.
  rewrite (get_u64_opt_ok _ _ _ (proj1 Hg) Hla) in Hl. injection Hl as Hl.
  destruct (get_all_gaps_ok _ _ Hg) as (gaps & Egaps & _ & Hin).
  destruct (fill_gaps_ok svc m (svc_start svc) peers gaps Hf Hs) as (m' & Hm' & Hsub & Hall).
  assert (n ∈ dom m') as [c Hc]%elem_of_dom.
  { destruct (HB n) as [Hd|(a & b & Hab & Hr)]; [unfold eff_latest; rewrite Hl; cbn; lia| |].
    - by apply Hsub.
    - apply Hin in Hab. apply (Hall a b); [done|by eapply Hserve|done|done]. }
  destruct (holds_block _ _ _ _ Hm' Hc) as (b & Hwf & Hb & ->).
  exists (fill_gaps svc (svc_start svc) peers gaps), m', b. rewrite Egaps.
  split_and!; try done.
  by rewrite (read_block_holds _ _ _ Hm' (get_block_number_u64 _ _ Hwf Hb)), Hc.
Qed.

(** State changes are applied as one atomic batch: for complete changes it succeeds,
    the state family holds the effect of the block's changes one after the other and
    the block is recorded as the last one processed. *)
Lemma state_block_applied db n b :
  db_ok db → wf_block b → Forall complete_item (items b) → is_u64 n →
  ∃ db', apply_state_changes db n (encode_to_vec b) = Ok db' ∧
    entries db' CF_STATE_DATA = block_spec (entries db CF_STATE_DATA) b ∧
    get_last_processed_block db' = Ok (Some n) ∧
    ∀ cf, cf ≠ CF_STATE_DATA → cf ≠ CF_METADATA → entries db' cf = entries db cf.
Proof.
  intros Hdb Hwf Hi Hn. destruct (apply_state_changes_ok db n b Hdb Hwf Hi)
    as (db' & E & Hdb' & Es & Em & Ho).
  exists db'. split_and!; [done|done| |done].
  apply get_last_processed_block_ok; [done|done|]. by rewrite Em, lookup_insert_eq.
Qed.

(** C34: Catching up replays the chain.  When the missing blocks are in storage and
    their state changes carry their parts (a key, a value, a timestamp; the loop stops
    at a block that lacks one), the catch-up loop leaves the state that results from
    applying their changes in order, and the last block recorded.  A queue pop is
    applied as the code does it: it deletes the first key at or after the queue's
    prefix in the state before the block. *)
Theorem state_catch_up_replays svc m db b bs :
  holds svc m → db_ok db → 0 ≤ b → b + Z.of_nat (length bs) < u64_modulus →
  stored_complete m b bs → bs ≠ [] →
  let db' := catch_up svc db b (length bs) in
  entries db' CF_STATE_DATA = foldl block_spec (entries db CF_STATE_DATA) bs ∧
  get_last_processed_block db' = Ok (Some (b + Z.of_nat (length bs) - 1)).
Proof.
  intros Hs Hdb Hb Hmax Hst Hne db'.
  destruct (catch_up_ok svc m db b bs Hs Hdb Hb Hmax Hst) as (H1 & H2 & H3).
  split; [done|]. apply get_last_processed_block_ok; [done| |by apply H3].
  destruct bs; [done|]. cbn [length] in *. u64_lia.
Qed.

(** The state plugin depends on winning a race: once the persistence plugin
    has finished with an event, the block data is no longer in the cache and the
    state plugin cannot apply the very event it was sent. *)
Lemma state_event_after_persistence_fails {R : Type} `{BlockWriter R} c (s : R) ev c' s' e db :
  process_event c s ev = (c', s', Some e) →
  is_ok (apply_state_from_block_event db c' e) = false.
Proof.
  unfold process_event. destruct (Cache.get c (event_cache_key ev)) as [d|] eqn:Ed; [|done].
  destruct (decode_block (bd_contents d)); [|done].
  destruct (writer_write_block s a) as [s1 [[]|]]; [|done]. intros [= <- <- <-].
  unfold apply_state_from_block_event. cbn. unfold Cache.get, Cache.mark_for_removal in *.
  destruct (cache c !! event_cache_key ev) as [[]|]; [|done]. cbn.
  by rewrite lookup_delete_eq.
Qed.
End node_theorems.

(** A cleanup turn of the block-data cache removes exactly the entries queued
    for removal and those older than the time to live, and empties the queue. *)
Lemma cache_cleanup_exact c now k d t :
  cleanup_queue (Cache.run_cleanup c now) = ∅ ∧
  (cache (Cache.run_cleanup c now) !! k = Some (d, t) ↔
   cache c !! k = Some (d, t) ∧ k ∉ cleanup_queue c ∧ now - t ≤ CACHE_TTL_SECONDS * 1000).
Proof.
  split; [done|]. rewrite Cache.run_cleanup_lookup.
  destruct (cache c !! k) as [[d' t']|]; [|naive_solver].
  case_decide as Hd; split.
  - done.
  - intros ([= -> ->] & Hq & Ht). destruct Hd; [done|lia].
  - intros [= -> ->]. split_and!; [done|tauto|]. apply Z.nlt_ge. tauto.
  - naive_solver.
Qed.

(** ** Shortcomings, on the reference node *)
Definition change_block (n : Z) (c : StateChange) : Block :=
  MkBlock [Some (IBlockHeader (Header n (Pb "h" [])));
           Some (IStateChanges (MkStateChanges (Some (Pb "ts" [])) [c]))].
Definition set_singleton (sid : Z) : StateChange :=
  MkStateChange sid (Some (SingletonUpdate (Some (BlockInfoValue, Pb "v" [Init.Byte.x01])))).
Definition pop_queue (sid : Z) : StateChange := MkStateChange sid (Some QueuePop).

(** A queue pop can delete another state: the iterator is not bounded by its
    prefix, so popping the empty queue 7 deletes the singleton of state 8. *)
Lemma queue_pop_deletes_other_state :
  (db0 ← apply_state_changes fresh 0 (encode_to_vec (change_block 0 (set_singleton 8)));
   db1 ← apply_state_changes db0 1 (encode_to_vec (change_block 1 (pop_queue 7)));
   before ← get_state_value db0 (state_prefix 8);
   after ← get_state_value db1 (state_prefix 8);
   Ok (before, after)) = Ok (Some [Init.Byte.x01], None).
Proof. vm_compute. reflexivity. Qed.

Definition empty_node : Service := RefNode.svc_of 100 (RefNode.boot 100).

(** A failed catch-up does not halt the state plugin: its [break] only leaves
    the catch-up loop, so on a node that lacks blocks 0 to 101 the event for 102 is
    applied and recorded as processed. *)
Lemma failed_catch_up_is_skipped :
  let c := Cache.insert Cache.new 7 0 (MkBlockData 102 (encode_to_vec (block_of 102))) in
  read_block empty_node 0 = Ok None ∧
  last_processed_block <$>
    handle_persisted empty_node (MkStateTask fresh c None) (MkPersisted 102 7)
  = Some (Some 102).
Proof. split; vm_compute; reflexivity. Qed.

(** A peer that answers every subscription with a status message only, and one
    that serves blocks below 1000. *)
Definition refusing_peer : Peer := λ _,
  MkAttempt (Ok (Some (MkServerStatus 0 999 false))) (λ _ _, Ok [Ok SubStatus]).
Definition block_message (n : Z) : Result Error SubMessage :=
  Ok (SubBlockItems (items (block_of n))).
Definition serving_peer : Peer := λ _,
  MkAttempt (Ok (Some (MkServerStatus 0 999 false)))
    (λ a b, if (0 <=? a) && (b <? 1000)
            then Ok (block_message <$> seqZ a (b - a + 1)) else Err EIo).

(** A refusal counts as success: a peer that ends the stream with a status
    instead of blocks makes the gap count as filled, and the peers after it, one of
    which has the blocks, are not asked. *)
Lemma refusal_counts_as_filled :
  let '(svc, filled) := peer_loop empty_node [refusing_peer; serving_peer] 100 101 in
  filled = true ∧ read_block svc 100 = Ok None ∧
  (peer_loop empty_node [serving_peer] 100 101).2 = true ∧
  read_block (peer_loop empty_node [serving_peer] 100 101).1 100
  = Ok (Some (encode_to_vec (block_of 100))).
Proof. split_and!; vm_compute; reflexivity. Qed.

(** ** The theorems at work *)
Definition node2 : Service := RefNode.svc_of 100 (RefNode.writes 100 [100; 101]).
Definition map2 : gmap Z bytes := RefNode.blocks_map [100; 101].
Lemma node2_holds : holds node2 map2.
Proof.
  unfold node2, map2. apply RefNode.history_holds; [|lia].
  apply RefNode.writes_history; [u64_lia|vm_compute; reflexivity].
Qed.

Definition request2 : SubscribeStreamRequest := MkSubscribe 100 101.
Definition turns2 : list (Turn Service) := replicate 3 (MkTurn false node2 true []).
Definition sub_cfg : SubscriberServiceConfig := SubscriberServiceConfig_default.

Lemma subscription_in_order_witness :
  in_order turns2 100 (execute_stream sub_cfg request2 node2 turns2).1 ∧
  ((execute_stream sub_cfg request2 node2 turns2).2 = Some (Ok tt) →
   end_block_number request2 ≠ u64_MAX ∧
   100 + Z.of_nat (length (execute_stream sub_cfg request2 node2 turns2).1)
   = end_block_number request2 + 1).
Proof.
  refine (subscription_in_order sub_cfg request2 node2 turns2 100 _ _ _ _ _ _ _).
  - vm_compute. reflexivity.
  - lia.
  - cbn. lia.
  - repeat constructor; exists map2; exact node2_holds.
  - apply surjective_pairing.
Defined.


Lemma subscription_accepted_iff_witness :
  validate_and_check_fulfillment sub_cfg (MkSubscribe 100 101) node2 = Ok 100 ↔
  100 = 100 ∧ (101 = u64_MAX ∨ 100 ≤ 101) ∧ 100 ≤ 100 ≤ 101 + 250.
Proof.
  refine (subscription_accepted_iff sub_cfg 100 101 node2 100 101 100 _ _ _ _).
  - vm_compute. reflexivity.
  - vm_compute. reflexivity.
  - discriminate.
  - cbn. u64_lia.
Defined.

Lemma block_access_by_number_witness :
  match map2 !! 101 with
  | Some c => ∃ b, get_block_number b = Ok 101 ∧ c = encode_to_vec b ∧
      get_block node2 (Some (ByNumber 101)) = MkBlockResponse ASuccess (Some b)
  | None => ∃ code, (code = ANotFound ∨ code = ANotAvailable) ∧
      get_block node2 (Some (ByNumber 101)) = MkBlockResponse code None
  end.
Proof.
  refine (block_access_by_number node2 map2 101 _ _ _);
    [exact node2_holds|u64_lia|discriminate].
Defined.

Lemma latest_block_served_witness :
  ∃ l b status, (∀ n, is_Some (map2 !! n) → n ≤ l) ∧ get_block_number b = Ok l ∧
    get_block node2 (Some (RetrieveLatest true)) = MkBlockResponse ASuccess (Some b) ∧
    server_status node2 = Ok status ∧ last_available_block status = l.
Proof.
  refine (latest_block_served node2 map2 100 _ _ _).
  - exact node2_holds.
  - vm_compute. eauto.
  - unfold first_counted. cbn. lia.
Defined.

Lemma small_storable n : 0 ≤ n < 1000 → storable (block_of n) n.
Proof.
  intros Hn. apply RefNode.storable_of.
  assert (forallb RefNode.storableb (seqZ 0 1000) = true) as H by (vm_compute; reflexivity).
  rewrite forallb_forall in H. apply H. apply list_elem_of_In, elem_of_seqZ. lia.
Qed.

Lemma serving_peer_faithful : faithful serving_peer.
Proof.
  intros t a b stream. cbn. destruct (Z.leb_spec 0 a); [|done].
  destruct (Z.ltb_spec b 1000); [|done]. intros [= <-]. split.
  - apply Forall_fmap, Forall_forall. intros n Hn%elem_of_seqZ.
    split; [|by exists n]. exists n. apply small_storable. lia.
  - intros _ n Hn. exists (block_message n). split.
    + apply list_elem_of_fmap. exists n. split; [done|]. apply elem_of_seqZ. lia.
    + by exists (items (block_of n)).
Qed.

Definition gapped : Service := RefNode.svc_of 100 (RefNode.writes 100 [100; 103]).
Definition gapped_map : gmap Z bytes := RefNode.blocks_map [100; 103].

Lemma gap_check_completes_witness :
  ∃ svc' m' b, run_single_gap_check gapped 100 [serving_peer]
                 (get_all_gaps (t_db (svc_tiers gapped))) = (svc', Ok tt) ∧
    holds svc' m' ∧ dom gapped_map ⊆ dom m' ∧ get_block_number b = Ok 101 ∧
    read_block svc' 101 = Ok (Some (encode_to_vec b)).
Proof.
  refine (gap_check_completes gapped gapped_map [serving_peer] 100 103 101 _ _ _ _ _ _ _).
  - unfold gapped, gapped_map. apply RefNode.history_holds; [|lia].
    apply RefNode.writes_history; [u64_lia|vm_compute; reflexivity].
  - apply Forall_singleton. exact serving_peer_faithful.
  - vm_compute. reflexivity.
  - vm_compute. reflexivity.
  - intros gaps a b E Hin. assert (gaps = [(101, 102)]) as -> by (vm_compute in E; congruence).
    apply list_elem_of_singleton in Hin as [= -> ->]. apply Exists_cons_hd. split.
    + eexists. split; [reflexivity|]. cbn. lia.
    + eexists. split; [reflexivity|]. cbn. by repeat constructor.
  - cbn. lia.
  - lia.
Defined.

Lemma state_block_applied_witness :
  ∃ db', apply_state_changes fresh 0 (encode_to_vec (change_block 0 (set_singleton 8))) = Ok db' ∧
    entries db' CF_STATE_DATA
      = block_spec (entries fresh CF_STATE_DATA) (change_block 0 (set_singleton 8)) ∧
    get_last_processed_block db' = Ok (Some 0) ∧
    ∀ cf, cf ≠ CF_STATE_DATA → cf ≠ CF_METADATA → entries db' cf = entries fresh cf.
Proof.
  refine (state_block_applied fresh 0 (change_block 0 (set_singleton 8)) _ _ _ _).
  - exact fresh_ok.
  - unfold wf_block. cbn. rewrite !Forall_cons. cbn. split_and!; try done.
    rewrite Forall_singleton. cbn. lia.
  - repeat constructor; cbn; eauto.
  - u64_lia.
Defined.

(** A node with a block that sets state 8 and one that pops the empty queue 7. *)
Definition changes8 : Block := change_block 100 (set_singleton 8).
Definition pops7 : Block := change_block 101 (pop_queue 7).
Definition change_node : Service :=
  RefNode.svc_of 100 (tiers_write_block RefNode.cfg 100
    (tiers_write_block RefNode.cfg 100 (RefNode.boot 100) changes8).1 pops7).1.
Definition change_map : gmap Z bytes :=
  <[101 := encode_to_vec pops7]> (<[100 := encode_to_vec changes8]> ∅).

Lemma change_block_ok n c : 0 ≤ n < 1000 → complete_change c → 0 ≤ state_id c < 4294967296 →
  wf_block (change_block n c) ∧ Forall complete_item (items (change_block n c)).
Proof.
  intros Hn Hc Hs. split; repeat constructor; cbn; eauto; u64_lia.
Qed.

Lemma change_node_holds : holds change_node change_map.
Proof.
  apply RefNode.history_holds; [|lia]. unfold change_map.
  apply RefNode.write_history; [apply RefNode.write_history;
    [apply RefNode.boot_history; u64_lia|]|]; apply RefNode.storable_block; try reflexivity;
    apply change_block_ok; cbn; eauto; lia.
Qed.

Lemma state_catch_up_replays_witness :
  let db' := catch_up change_node fresh 100 2 in
  entries db' CF_STATE_DATA
    = foldl block_spec (entries fresh CF_STATE_DATA) [changes8; pops7] ∧
  get_last_processed_block db' = Ok (Some (100 + Z.of_nat 2 - 1)).
Proof.
  refine (state_catch_up_replays change_node change_map fresh 100 [changes8; pops7] _ _ _ _ _ _).
  - exact change_node_holds.
  - exact fresh_ok.
  - lia.
  - cbn. lia.
  - intros [|[|i]] blk Hi; cbn in Hi; [| |done]; injection Hi as <-.
    + split; [reflexivity|]. apply change_block_ok; [lia|cbn; eauto|cbn; lia].
    + split; [reflexivity|]. apply change_block_ok; [lia|done|cbn; lia].
  - discriminate.
Defined.

Definition event_cache : BlockDataCache :=
  Cache.insert Cache.new 7 0 (MkBlockData 100 (encode_to_vec (block_of 100))).
Definition event_100 : InboundEvent := Verified (MkVerified 100 7).

Lemma state_event_after_persistence_fails_witness :
  is_ok (apply_state_from_block_event fresh
    (process_event event_cache empty_node event_100).1.1 (MkPersisted 100 7)) = false.
Proof.
  refine (state_event_after_persistence_fails event_cache empty_node event_100
    (process_event event_cache empty_node event_100).1.1
    (process_event event_cache empty_node event_100).1.2 (MkPersisted 100 7) fresh _).
  assert ((process_event event_cache empty_node event_100).2 = Some (MkPersisted 100 7))
    as E by (vm_compute; reflexivity).
  rewrite <-E. by destruct (process_event event_cache empty_node event_100) as [[]].
Defined.
