(* ===== verification/QueryTheorems.v ===== *)
(** What the query plugin guarantees: its answers are the state of the applied
    chain, one entity's changes do not show in another's answers, the account
    queries agree with each other, and every service answers its own kind of
    query. *)
From stdpp Require Import pretty.
From Stdlib Require Import Strings.Byte.
From S2P Require Import Prelude Config Database Block StateManager HotTier ColdStorage.
From S2P Require Import Core PersistenceService Archiver Persistence Recovery Fixtures.
From S2P Require Import Pipeline StatePlugin QueryTypes QueryHandlers QueryServices.
From S2P Require Import QueryState.

#[local] Ltac unfold_handlers :=
  unfold QueryHandlers.get_account_info, QueryHandlers.get_account_balance,
    QueryHandlers.get_file_info, QueryHandlers.get_file_content, QueryHandlers.get_topic_info,
    QueryHandlers.get_schedule_info, QueryHandlers.get_token_info,
    QueryHandlers.get_token_nft_info, QueryHandlers.get_contract_info,
    QueryHandlers.get_contract_bytecode, QueryHandlers.get_version_info,
    QueryHandlers.get_account_details.

Section query_theorems.
Context {RDB : RocksDB} {LAWS : RocksDBLaws} {CODEC : Codec} {CLAWS : CodecLaws}.
Context {QC : QueryCodec} {QLAWS : QueryCodecLaws}.


(** Entities do not interfere.  A block whose state changes concern other
    entities, singletons or the queues of other states leaves the stored value of an
    entity, and so every answer about it, as it was. *)
Lemma other_changes_invisible db n b db' s k :
  db_ok db → wf_block b → Forall complete_item (items b) → wf_key k →
  Forall (λ i, match i with
    | Some (IStateChanges set) => Forall (elsewhere s k) (state_changes set)
    | _ => True end) (items b) →
  apply_state_changes db n (encode_to_vec b) = Ok db' →
  query_state db' s k = query_state db s k.
Proof.
  intros Hdb Hwf Hp Hk He E. rewrite (query_after_block db n b db' s k Hdb Hwf Hp E).
  by rewrite elsewhere_block.
Qed.

Context {R : Type} {READER : StateReader R}.
Implicit Types (rd : R).

(** C30: The token relationships of an account are its list.  When the stored
    relations form a chain from the head token on, the loop of
    [get_token_relationships] returns the chain in order, cut to the number of
    associations the account records. *)
Theorem token_relationships_follow_chain rd account rels :
  token_chain rd account (acc_head_token_id account) rels →
  get_token_relationships rd account
  = Ok (relationship_of <$> take (Z.to_nat (acc_number_associations account)) rels).
Proof. intros H. unfold get_token_relationships. by rewrite (relationships_chain _ _ _ rels). Qed.

(** Reported numbers fit their fields: balances and supplies are u64, decimals
    u32, and an account never has more relationships than it records, whatever the
    stored chain looks like. *)
Lemma reported_numbers_in_range rd q :
  (∀ r info, QueryHandlers.get_account_info rd q = Ok r → cgi_account_info r = Some info →
     is_u64 (ai_balance info)) ∧
  (∀ acc rels, get_token_relationships rd acc = Ok rels →
     Z.of_nat (length rels) ≤ Z.max 0 (acc_number_associations acc) ∧
     Forall (λ r, is_u64 (rs_balance r)) rels) ∧
  (∀ tok info, token_info_of tok = Ok info →
     is_u64 (tki_total_supply info) ∧ is_u32 (tki_decimals info)).
Proof.
  split_and!.
  - intros r info H Hi. unfold QueryHandlers.get_account_info in H. ok_inv.
    repeat case_match; try done; ok_inv; subst; cbn in Hi; simplify_eq.
    match goal with H : account_info_of _ = Ok _ |- _ => unfold account_info_of in H; ok_inv end.
    subst. apply wrap64_u64.
  - intros acc rels H. apply relationships_bound in H as [H1 H2]; [|constructor].
    cbn in H1. split; [lia|done].
  - intros tok info H. unfold token_info_of in H. ok_inv. subst. cbn.
    split; [apply wrap64_u64|]. unfold is_u32, as_u32. apply Z.mod_pos_bound. lia.
Qed.

(** C35: The account queries agree.  For an account with an id and readable
    relationships, [get_account_info], [get_account_balance] and
    [get_account_details] succeed and report the same balance, the first and the last
    of them also the same memo, key, alias and deletion mark; and for a contract
    [get_contract_info] reports the same balance, memo, key and deletion mark. *)
Theorem account_queries_agree rd a id acc rels :
  query_state rd StateIdAccounts (AccountIdKey a) = Ok (Some (Some (AccountValue acc))) →
  acc_account_id acc = Some id → get_token_relationships rd acc = Ok rels →
  ∃ info details bal,
    QueryHandlers.get_account_info rd (MkCryptoGetInfoQuery (Some a))
      = Ok (MkCryptoGetInfoResponse (Some (build_response_header RcOk 0)) (Some info)) ∧
    QueryHandlers.get_account_details rd (MkAccountDetailsQuery (Some a))
      = Ok (MkAccountDetailsResponse (Some (build_response_header RcOk 0)) (Some details)) ∧
    QueryHandlers.get_account_balance rd (MkBalanceQuery (Some (BsAccountId a))) = Ok bal ∧
    ai_balance info = bal_balance bal ∧ ad_balance details = bal_balance bal ∧
    ai_memo info = ad_memo details ∧ ai_key info = ad_key details ∧
    ai_alias info = ad_alias details ∧ ai_deleted info = ad_deleted details ∧
    ad_token_relationships details = rels ∧
    ∀ c num, contract c = Some (ContractNum num) → acc_smart_contract acc = true →
      a = MkAccountId (contract_shard_num c) (contract_realm_num c) (Some (AccountNum num)) →
      ∃ cinfo, QueryHandlers.get_contract_info rd (MkContractInfoQuery (Some c))
          = Ok (MkContractInfoResponse (Some (build_response_header RcOk 0)) (Some cinfo)) ∧
        ci_balance cinfo = bal_balance bal ∧ ci_memo cinfo = ai_memo info ∧
        ci_admin_key cinfo = ai_key info ∧ ci_deleted cinfo = ai_deleted info.
Proof.
  intros Hq Hid Hrels.
  destruct (contract_account_id_total acc id Hid) as [cid Hcid].
  unfold QueryHandlers.get_account_info, QueryHandlers.get_account_details,
    QueryHandlers.get_account_balance. cbn. rewrite Hq. cbn.
  unfold account_info_of, account_details_of. rewrite Hrels, Hid, Hcid. cbn.
  do 3 eexists. split_and!; try done. intros c num Hc Hs ->.
  unfold QueryHandlers.get_contract_info, contract_account. cbn. rewrite Hc. cbn.
  rewrite Hq. cbn. rewrite Hs. cbn. eexists. by split_and!.
Qed.

(** Every service answers its own kind.  A query method answers only the variant
    of the query it is registered for, with the same variant of the response; any
    other query, or none, is refused as an invalid argument. *)
Lemma services_answer_their_kind rd kind f request :
  (kind, f) ∈ query_methods →
  (∀ r, f rd request = Ok r → response_kind r = kind ∧ (request ≫= query_kind) = Some kind) ∧
  ((request ≫= query_kind) ≠ Some kind → ∃ msg, f rd request = Err (InvalidArgument msg)).
Proof.
  unfold query_methods. rewrite !elem_of_cons, elem_of_nil. intros H.
  repeat destruct H as [[= -> ->]|H];
    (destruct request as [[]|]; cbn;
     (split; [intros r Hr; ok_inv; by subst|by intros Hne; eauto])).
Qed.

(** C37: A failing store is not an empty one.  When the state reader fails, every query
    method that reads the state returns an error, so that a missing entity is only
    reported when the state was read. *)
Theorem failed_reads_are_errors rd (err : bytes → Error) kind f request :
  (∀ key, reader_get_state_value rd key = Err (err key)) →
  (kind, f) ∈ query_methods →
  kind ∉ [KCryptoGetAccountRecords; KTransactionGetReceipt; KTransactionGetRecord] →
  is_ok (f rd request) = false.
Proof.
  intros Hfail Hin Hk.
  assert (∀ s k, query_state rd s k = Err (Internal "Failed to query state" (Some (err (db_key s k)))))
    as Hq by (intros s k; unfold query_state; by rewrite Hfail).
  unfold query_methods in Hin. rewrite !elem_of_cons, elem_of_nil in Hin.
  rewrite !elem_of_cons, elem_of_nil in Hk.
  repeat destruct Hin as [[= -> ->]|Hin]; try (by destruct Hk; tauto); clear Hk;
    (destruct request as [[]|]; try done; cbn; unfold_handlers;
     repeat match goal with
     | |- context [ok_or ?o _] => destruct o as [[]|]; cbn
     | |- context [contract_account ?c] => destruct (contract_account c); cbn
     end; rewrite ?Hq, ?Hfail; done).
Qed.

(** A stored account without an id makes the account queries panic. *)
Lemma account_without_id_panics rd a acc :
  query_state rd StateIdAccounts (AccountIdKey a) = Ok (Some (Some (AccountValue acc))) →
  acc_account_id acc = None →
  QueryHandlers.get_account_info rd (MkCryptoGetInfoQuery (Some a)) = Err Panicked.
Proof.
  intros Hq Hid. unfold QueryHandlers.get_account_info. cbn. rewrite Hq. cbn.
  unfold account_info_of. by rewrite Hid.
Qed.

(** For a contract without an alias, the account query names the contract by its number
    and the details query by an empty string. *)
Lemma contract_ids_differ rd a id num acc rels :
  query_state rd StateIdAccounts (AccountIdKey a) = Ok (Some (Some (AccountValue acc))) →
  acc_account_id acc = Some id → account id = Some (AccountNum num) →
  acc_smart_contract acc = true → acc_alias acc = [] → get_token_relationships rd acc = Ok rels →
  ∃ r info d details,
    QueryHandlers.get_account_info rd (MkCryptoGetInfoQuery (Some a)) = Ok r ∧
    cgi_account_info r = Some info ∧ ai_contract_account_id info = "0.0." +:+ pretty num ∧
    QueryHandlers.get_account_details rd (MkAccountDetailsQuery (Some a)) = Ok d ∧
    gad_account_details d = Some details ∧ ad_contract_account_id details = "".
Proof.
  intros Hq Hid Hnum Hc Hal Hr.
  unfold QueryHandlers.get_account_info, QueryHandlers.get_account_details. cbn. rewrite Hq. cbn.
  unfold account_info_of, account_details_of, contract_account_id_of.
  rewrite Hc, Hal, Hr, Hid. cbn. rewrite Hnum. cbn. do 4 eexists. by split_and!.
Qed.
End query_theorems.

(** ** A reference codec for queries *)
Module RefQuery.
#[export] Instance EntityId_countable : Countable EntityId.
Proof.
  refine (inj_countable' (λ i, (shard_num i, realm_num i, entity_num i))
    (λ '(a, b, c), MkEntityId a b c) _). by intros [].
Defined.
#[export] Instance AccountIdType_countable : Countable AccountIdType.
Proof.
  refine (inj_countable' (λ i, match i with AccountNum n => inl n | Alias a => inr a end)
    (λ s, match s with inl n => AccountNum n | inr a => Alias a end) _). by intros [].
Defined.
#[export] Instance ContractIdType_countable : Countable ContractIdType.
Proof.
  refine (inj_countable' (λ i, match i with ContractNum n => inl n | EvmAddress a => inr a end)
    (λ s, match s with inl n => ContractNum n | inr a => EvmAddress a end) _). by intros [].
Defined.
#[export] Instance AccountId_countable : Countable AccountId.
Proof.
  refine (inj_countable' (λ i, (account_shard_num i, account_realm_num i, account i))
    (λ '(a, b, c), MkAccountId a b c) _). by intros [].
Defined.
#[export] Instance ContractId_countable : Countable ContractId.
Proof.
  refine (inj_countable' (λ i, (contract_shard_num i, contract_realm_num i, contract i))
    (λ '(a, b, c), MkContractId a b c) _). by intros [].
Defined.
#[export] Instance NftId_countable : Countable NftId.
Proof.
  refine (inj_countable' (λ i, (nft_token_id i, serial_number i))
    (λ '(a, b), MkNftId a b) _). by intros [].
Defined.
#[export] Instance TokenAssociation_countable : Countable TokenAssociation.
Proof.
  refine (inj_countable' (λ i, (assoc_token_id i, assoc_account_id i))
    (λ '(a, b), MkTokenAssociation a b) _). by intros [].
Defined.
#[export] Instance KeyChoice_countable : Countable KeyChoice.
Proof.
  refine (inj_countable'
    (λ k, match k with
          | AccountIdKey i => inl (inl (inl i)) | FileIdKey i => inl (inl (inr i))
          | TopicIdKey i => inl (inr (inl i)) | ScheduleIdKey i => inl (inr (inr i))
          | TokenIdKey i => inr (inl (inl i)) | NftIdKey i => inr (inl (inr i))
          | ContractIdKey i => inr (inr (inl i)) | TokenRelationshipKey i => inr (inr (inr i))
          end)
    (λ s, match s with
          | inl (inl (inl i)) => AccountIdKey i | inl (inl (inr i)) => FileIdKey i
          | inl (inr (inl i)) => TopicIdKey i | inl (inr (inr i)) => ScheduleIdKey i
          | inr (inl (inl i)) => TokenIdKey i | inr (inl (inr i)) => NftIdKey i
          | inr (inr (inl i)) => ContractIdKey i | inr (inr (inr i)) => TokenRelationshipKey i
          end) _).
  by intros [].
Defined.

Definition account_no (n : Z) : AccountId := MkAccountId 0 0 (Some (AccountNum n)).
Definition token_no (n : Z) : TokenId := MkEntityId 0 0 n.

(** An account with number, balance, first token (0 for none) and number of tokens. *)
Definition simple_account (num balance token count : Z) : Account := {|
  acc_account_id := Some (account_no num); acc_alias := []; acc_key := None;
  acc_expiration_second := 0; acc_tinybar_balance := balance; acc_memo := "";
  acc_deleted := false; acc_staked_to_me := 0; acc_stake_period_start := 0;
  acc_staked_id := None; acc_decline_reward := false; acc_receiver_sig_required := false;
  acc_head_token_id := if token =? 0 then None else Some (token_no token);
  acc_number_owned_nfts := 0; acc_max_auto_associations := 0;
  acc_number_associations := count; acc_smart_contract := num =? 7; acc_ethereum_nonce := 0;
  acc_auto_renew_seconds := 0; acc_contract_kv_pairs_number := 0;
  acc_crypto_allowances := []; acc_approve_for_all_nft_allowances := [];
  acc_token_allowances := [] |}.

Definition simple_relation (token balance next : Z) : TokenRelation :=
  MkTokenRelation (Some (token_no token)) balance false true false
    (if next =? 0 then None else Some (token_no next)).

(** Values are a tag and one byte per number. *)
Definition num (b : Byte.byte) : Z := Z.of_N (Byte.to_N b).
Definition parse_value (l : bytes) : option ValueChoice :=
  match l with
  | [x01; n; b; t; c] => Some (AccountValue (simple_account (num n) (num b) (num t) (num c)))
  | [x02; t; b; n] => Some (TokenRelationValue (simple_relation (num t) (num b) (num n)))
  | x03 :: c => Some (BytecodeValue (MkBytecode c))
  | _ => None
  end.

#[export] Instance ref_query_codec : QueryCodec := {|
  state_identifier_u32 s :=
    match s with
    | StateIdAccounts => 2 | StateIdFiles => 4 | StateIdTopics => 0
    | StateIdSchedulesById => 9 | StateIdTokens => 14 | StateIdNfts => 7
    | StateIdContractBytecode => 22 | StateIdTokenRelations => 13
    | StateIdBlockStreamInfo => 19
    end;
  response_code_i32 c :=
    match c with
    | RcOk => 0 | InvalidAccountId => 1 | InvalidFileId => 2 | InvalidTopicId => 3
    | InvalidScheduleId => 4 | InvalidTokenId => 5 | InvalidNftId => 6
    | InvalidContractId => 7 | ReceiptNotFound => 8 | RecordNotFound => 9
    | NotSupported => 10
    end;
  map_change_key k := Pb "MapChangeKey" (x0a :: pos_bytes (encode k));
  value_choice m := parse_value (pb_body m);
  stream_info m := Some (MkBlockStreamInfo (Some (Pb "SemanticVersion" (pb_body m))));
  decode_map_change_value l := Ok (parse_value l);
  decode_block_stream_info l := Ok (MkBlockStreamInfo (Some (Pb "SemanticVersion" l)));
|}.

#[export] Instance ref_query_laws : QueryCodecLaws.
Proof.
  constructor; cbn.
  - intros []; unfold is_u32; lia.
  - by intros [] [].
  - by intros [] [].
  - intros k k' _ _ [= E]. apply (f_equal bytes_pos) in E. rewrite !bytes_pos_bytes in E.
    injection E as E. by apply (inj encode) in E.
  - done.
  - by intros m v ->.
  - by intros m i [= <-].
Qed.
End RefQuery.

(** ** The theorems at work on the reference node *)
Module QueryExamples.
Import RefQuery RefNode.

Definition state_block (n : Z) (changes : list StateChange) : Block :=
  MkBlock [Some (IBlockHeader (Header n (Pb "h" [])));
           Some (IStateChanges (MkStateChanges (Some (Pb "ts" [])) changes))].
Definition set_value (s : StateIdentifier) (k : KeyChoice) (body : bytes) : StateChange :=
  MkStateChange (state_identifier_u32 s)
    (Some (MapUpdate (Some (map_change_key k)) (Some (Pb "MapChangeValue" body)))).
Definition set_account (num balance : Byte.byte) : StateChange :=
  set_value StateIdAccounts (AccountIdKey (account_no (RefQuery.num num)))
    [x01; num; balance; x08; x02].
Definition set_relation (acc token balance next : Byte.byte) : StateChange :=
  set_value StateIdTokenRelations
    (TokenRelationshipKey (MkTokenAssociation (Some (token_no (RefQuery.num token)))
      (Some (account_no (RefQuery.num acc)))))
    [x02; token; balance; next].

(** Account 7 gets balance 100, then 200, and two tokens. *)
Definition block0 : Block := state_block 0 [set_account x07 x64].
Definition block1 : Block :=
  state_block 1 [set_account x07 xc8; set_relation x07 x08 x05 x09; set_relation x07 x09 x06 x00].

Definition chain_tiers : Tiers :=
  (tiers_write_block cfg 0 (tiers_write_block cfg 0 (boot 0) block0).1 block1).1.
Definition chain_map : gmap Z bytes :=
  <[1 := encode_to_vec block1]> (<[0 := encode_to_vec block0]> ∅).

Lemma block0_ok : wf_block block0 ∧ Forall complete_item (items block0).
Proof. split; repeat constructor; cbn; eauto; lia. Qed.
Lemma block1_ok : wf_block block1 ∧ Forall complete_item (items block1).
Proof. split; repeat constructor; cbn; eauto; lia. Qed.

Lemma chain_holds : holds (svc_of 0 chain_tiers) chain_map.
Proof.
  apply history_holds; [|lia]. unfold chain_tiers, chain_map.
  apply write_history; [apply write_history; [apply boot_history; u64_lia|]|];
    apply storable_block; try apply block0_ok; try apply block1_ok; done.
Qed.

Lemma chain_stored : stored_complete chain_map 0 [block0; block1].
Proof.
  intros [|[|i]] b Hi; cbn in Hi; [| |done]; injection Hi as <-.
  - split_and!; [reflexivity|apply block0_ok..].
  - split_and!; [reflexivity|apply block1_ok..].
Qed.

Definition chain_db : DB := catch_up (svc_of 0 chain_tiers) fresh 0 2.


Lemma other_changes_invisible_witness :
  ∃ db', apply_state_changes chain_db 2 (encode_to_vec (state_block 2 [set_account x06 x01]))
      = Ok db' ∧
    query_state db' StateIdAccounts (AccountIdKey (account_no 7))
    = query_state chain_db StateIdAccounts (AccountIdKey (account_no 7)).
Proof.
  assert (db_ok chain_db) as Hdb.
  { eapply (catch_up_ok (RDB := ref_rocksdb) (svc_of 0 chain_tiers) chain_map fresh 0 [block0; block1]);
      [exact chain_holds|exact fresh_ok|lia|cbn; lia|exact chain_stored]. }
  assert (wf_block (state_block 2 [set_account x06 x01])) as Hwf
    by (repeat constructor; cbn; lia).
  assert (Forall complete_item (items (state_block 2 [set_account x06 x01]))) as Hp
    by (repeat constructor; cbn; eauto).
  destruct (apply_state_changes_ok chain_db 2 _ Hdb Hwf Hp) as (db' & E & _).
  exists db'. split; [exact E|].
  refine (other_changes_invisible chain_db 2 (state_block 2 [set_account x06 x01]) db'
    StateIdAccounts (AccountIdKey (account_no 7)) Hdb Hwf Hp _ _ E).
  - repeat split; cbn; u64_lia.
  - constructor; [done|]. constructor; [|done]. constructor; [|done].
    split; [cbn; unfold is_u32; lia|]. right.
    exists (AccountIdKey (account_no 6)). split; [done|].
    split; [repeat split; cbn; u64_lia|discriminate].
Defined.

Lemma token_relationships_follow_chain_witness :
  get_token_relationships chain_db (simple_account 7 200 8 2)
  = Ok (relationship_of <$> [simple_relation 8 5 9; simple_relation 9 6 0]).
Proof.
  refine (token_relationships_follow_chain chain_db (simple_account 7 200 8 2)
    [simple_relation 8 5 9; simple_relation 9 6 0] _).
  apply (chain_cons _ _ (token_no 8)); [vm_compute; reflexivity|].
  apply (chain_cons _ _ (token_no 9)); [vm_compute; reflexivity|]. constructor.
Defined.

Lemma account_queries_agree_witness :
  ∃ bal cinfo,
    QueryHandlers.get_account_balance chain_db (MkBalanceQuery (Some (BsAccountId (account_no 7))))
      = Ok bal ∧
    QueryHandlers.get_contract_info chain_db
      (MkContractInfoQuery (Some (MkContractId 0 0 (Some (ContractNum 7)))))
      = Ok (MkContractInfoResponse (Some (build_response_header RcOk 0)) (Some cinfo)) ∧
    ci_balance cinfo = bal_balance bal.
Proof.
  destruct (account_queries_agree chain_db (account_no 7) (account_no 7)
    (simple_account 7 200 8 2) (relationship_of <$> [simple_relation 8 5 9; simple_relation 9 6 0]))
    as (info & details & bal & _ & _ & Hb & _ & _ & _ & _ & _ & _ & _ & Hc).
  - vm_compute. reflexivity.
  - reflexivity.
  - vm_compute. reflexivity.
  - destruct (Hc (MkContractId 0 0 (Some (ContractNum 7))) 7 eq_refl eq_refl eq_refl)
      as (cinfo & H1 & H2 & _). exists bal, cinfo. split; [exact Hb|]. split; [exact H1|exact H2].
Defined.

Lemma services_answer_their_kind_witness :
  ∃ msg, QueryServices.get_account_info chain_db
    (Some (FileGetInfo (MkFileInfoQuery None))) = Err (InvalidArgument msg).
Proof.
  destruct (services_answer_their_kind chain_db KCryptoGetInfo QueryServices.get_account_info
    (Some (FileGetInfo (MkFileInfoQuery None)))) as [_ H].
  - unfold query_methods. left.
  - apply H. discriminate.
Defined.

(** A reader whose database fails. *)
#[local] Instance broken_reader : StateReader unit := {|
  reader_get_state_value _ _ := Err ERocksDB |}.

Lemma failed_reads_are_errors_witness :
  is_ok (QueryServices.get_account_info tt
    (Some (CryptoGetInfo (MkCryptoGetInfoQuery (Some (account_no 7)))))) = false.
Proof.
  refine (failed_reads_are_errors tt (λ _, ERocksDB) KCryptoGetInfo QueryServices.get_account_info
    _ _ _ _).
  - reflexivity.
  - unfold query_methods. left.
  - set_solver.
Defined.
End QueryExamples.
