(* ===== verification/QueryTests.v ===== *)
(** The unit tests of the query plugin (crates/rock-node-query-plugin/src/handlers and
    services/crypto_service.rs), run on the model.

    A test stores some values under the keys the handlers look up, asks one query and
    inspects the answer.  The stored bytes of the i-th value are the number i, which
    the codec of the test decodes to that value; keys, codes and the version message
    are those of the reference codec.  Fields a test leaves at their default have the
    default of protobuf. *)
From S2P Require Import Prelude Block QueryTypes QueryHandlers QueryServices Fixtures.
From S2P Require Import StatePlugin QueryTheorems UnitTests.
From Stdlib Require Import Strings.Byte.
Open Scope Z_scope.
Open Scope unit_scope.

(** ** Mock state *)
Record MockStateReader := MkMockState { mock_state : list (bytes * bytes) }.
Definition mock_insert (r : MockStateReader) (key value : bytes) : MockStateReader :=
  MkMockState ((key, value) :: mock_state r).
#[export] Instance mock_state_reader : StateReader MockStateReader := {|
  reader_get_state_value r key := Ok (snd <$> find (λ e, e.1 == key) (mock_state r));
|}.

Definition test_codec (values : list ValueChoice) : QueryCodec := {|
  state_identifier_u32 := @state_identifier_u32 RefQuery.ref_query_codec;
  response_code_i32 := @response_code_i32 RefQuery.ref_query_codec;
  map_change_key := @map_change_key RefQuery.ref_query_codec;
  value_choice _ := None;
  stream_info := @stream_info RefQuery.ref_query_codec;
  decode_map_change_value l :=
    match u64_from_be l with
    | Some i => Ok (values !! Z.to_nat i)
    | None => Err (EOther "decode")
    end;
  decode_block_stream_info := @decode_block_stream_info RefQuery.ref_query_codec;
|}.

Definition generate_db_key (state : StateIdentifier) (key : KeyChoice) : bytes :=
  db_key (QC := RefQuery.ref_query_codec) state key.

(** Runs a test on the reader that holds the given values. *)
Definition with_state (entries : list (bytes * ValueChoice))
    (test : QueryCodec → MockStateReader → bool) : bool :=
  test (test_codec entries.*2)
    (foldl (λ r e, mock_insert r e.1 e.2) (MkMockState [])
       (zip entries.*1 (u64_to_be <$> seqZ 0 (Z.of_nat (length entries))))).

Definition code_is `{QueryCodec} (h : option ResponseHeader) (c : ResponseCodeEnum) : bool :=
  (node_transaction_precheck_code <$> h) == Some (response_code_i32 c).

Definition account_no (n : Z) : AccountId := MkAccountId 0 0 (Some (AccountNum n)).
Definition entity_no (n : Z) : EntityId := MkEntityId 0 0 n.
Definition contract_no (n : Z) : ContractId := MkContractId 0 0 (Some (ContractNum n)).

Definition account_of (id : AccountId) (memo : string) (balance : Z) (smart_contract : bool)
    (head_token : option TokenId) (number_associations : Z) : Account := {|
  acc_account_id := Some id; acc_alias := []; acc_key := None; acc_expiration_second := 0;
  acc_tinybar_balance := balance; acc_memo := memo; acc_deleted := false;
  acc_staked_to_me := 0; acc_stake_period_start := 0; acc_staked_id := None;
  acc_decline_reward := false; acc_receiver_sig_required := false;
  acc_head_token_id := head_token; acc_number_owned_nfts := 0; acc_max_auto_associations := 0;
  acc_number_associations := number_associations; acc_smart_contract := smart_contract;
  acc_ethereum_nonce := 0; acc_auto_renew_seconds := 0; acc_contract_kv_pairs_number := 0;
  acc_crypto_allowances := []; acc_approve_for_all_nft_allowances := [];
  acc_token_allowances := [] |}.

Definition account_key (id : AccountId) : bytes := generate_db_key StateIdAccounts (AccountIdKey id).

(** ** handlers/crypto_handler.rs *)
Module CryptoTests.
Definition test_get_account_info_found : bool :=
  let account_id := account_no 1001 in
  let account := account_of account_id "test_memo" 0 false None 0 in
  with_state [(account_key account_id, AccountValue account)] (λ QC reader,
    let! response :=
      QueryHandlers.get_account_info reader (MkCryptoGetInfoQuery (Some account_id)) in
    let? account_info := cgi_account_info response in
    code_is (cgi_header response) RcOk && (ai_memo account_info == "test_memo")
    && (ai_account_id account_info == Some account_id)).

Definition test_get_account_info_not_found : bool :=
  with_state [] (λ QC reader,
    let! response :=
      QueryHandlers.get_account_info reader (MkCryptoGetInfoQuery (Some (account_no 1002))) in
    code_is (cgi_header response) InvalidAccountId && is_none (cgi_account_info response)).

Definition test_get_account_balance_found : bool :=
  let account_id := account_no 1003 in
  let account := account_of account_id "" 5000 false None 0 in
  with_state [(account_key account_id, AccountValue account)] (λ QC reader,
    let! response :=
      QueryHandlers.get_account_balance reader (MkBalanceQuery (Some (BsAccountId account_id))) in
    code_is (bal_header response) RcOk && (bal_balance response == 5000)
    && (bal_account_id response == Some account_id)).

Definition test_get_account_balance_not_found : bool :=
  with_state [] (λ QC reader,
    let! response := QueryHandlers.get_account_balance reader
                       (MkBalanceQuery (Some (BsAccountId (account_no 1004)))) in
    code_is (bal_header response) InvalidAccountId && (bal_balance response == 0)).

Definition test_get_account_records_returns_ok_empty : bool :=
  with_state [] (λ QC reader,
    let! response := QueryHandlers.get_account_records reader
                       (MkRecordsQuery (Some (MkAccountId 0 0 None))) in
    code_is (recs_header response) RcOk && (length (recs_records response) == 0%nat)).

Definition test_get_transaction_receipt_not_found : bool :=
  with_state [] (λ QC reader,
    let! response := QueryHandlers.get_transaction_receipt reader (MkReceiptQuery (Some dflt)) in
    code_is (rcpt_header response) ReceiptNotFound).

Definition test_get_transaction_record_not_found : bool :=
  with_state [] (λ QC reader,
    let! response := QueryHandlers.get_transaction_record reader (MkRecordQuery (Some dflt)) in
    code_is (rec_header response) RecordNotFound).

Lemma crypto_tests_pass :
  forallb (λ b, b) [test_get_account_info_found; test_get_account_info_not_found;
    test_get_account_balance_found; test_get_account_balance_not_found;
    test_get_account_records_returns_ok_empty; test_get_transaction_receipt_not_found;
    test_get_transaction_record_not_found] = true.
Proof. vm_compute. reflexivity. Qed.
End CryptoTests.

(** ** handlers/file_handler.rs *)
Module FileTests.
Definition file_key (id : FileId) : bytes := generate_db_key StateIdFiles (FileIdKey id).

Definition test_get_file_info_found : bool :=
  let file_id := entity_no 42 in
  let file := MkFile 0 None [x01; x02; x03] "test-file" false in
  with_state [(file_key file_id, FileValue file)] (λ QC reader,
    let! response := QueryHandlers.get_file_info reader (MkFileInfoQuery (Some file_id)) in
    let? file_info := fgi_file_info response in
    code_is (fgi_header response) RcOk && (fi_memo file_info == "test-file")
    && (fi_size file_info == 3) && (fi_file_id file_info == Some file_id)).

Definition test_get_file_info_not_found : bool :=
  with_state [] (λ QC reader,
    let! response := QueryHandlers.get_file_info reader (MkFileInfoQuery (Some (entity_no 99))) in
    code_is (fgi_header response) InvalidFileId && is_none (fgi_file_info response)).

Definition test_get_file_content_found : bool :=
  let file_id := entity_no 43 in
  let file_content_bytes := [x0a; x14; x1e; x28; x32] in
  let file := MkFile 0 None file_content_bytes "" false in
  with_state [(file_key file_id, FileValue file)] (λ QC reader,
    let! response := QueryHandlers.get_file_content reader (MkFileContentsQuery (Some file_id)) in
    let? file_contents := fgc_file_contents response in
    code_is (fgc_header response) RcOk && (fc_contents file_contents == file_content_bytes)
    && (fc_file_id file_contents == Some file_id)).

Definition test_get_file_content_not_found : bool :=
  with_state [] (λ QC reader,
    let! response :=
      QueryHandlers.get_file_content reader (MkFileContentsQuery (Some (entity_no 100))) in
    code_is (fgc_header response) InvalidFileId && is_none (fgc_file_contents response)).

Lemma file_tests_pass :
  forallb (λ b, b) [test_get_file_info_found; test_get_file_info_not_found;
    test_get_file_content_found; test_get_file_content_not_found] = true.
Proof. vm_compute. reflexivity. Qed.
End FileTests.

(** ** handlers/consensus_handler.rs and schedule_handler.rs *)
Module TopicScheduleTests.
Definition test_get_topic_info_found : bool :=
  let topic_id := entity_no 1001 in
  let topic := MkTopic 0 0 0 None [] "test_memo" None None None [] [] in
  with_state [(generate_db_key StateIdTopics (TopicIdKey topic_id), TopicValue topic)] (λ QC reader,
    let! response := QueryHandlers.get_topic_info reader (MkTopicInfoQuery (Some topic_id)) in
    let? topic_info := cti_topic_info response in
    code_is (cti_header response) RcOk && (ti_memo topic_info == "test_memo")
    && (cti_topic_id response == Some topic_id)).

Definition test_get_topic_info_not_found : bool :=
  with_state [] (λ QC reader,
    let! response := QueryHandlers.get_topic_info reader (MkTopicInfoQuery (Some (entity_no 1002))) in
    code_is (cti_header response) InvalidTopicId && is_none (cti_topic_info response)).

Definition test_get_schedule_info_found : bool :=
  let schedule_id := entity_no 3001 in
  let schedule := MkSchedule "test_schedule" None None None None [] false in
  with_state [(generate_db_key StateIdSchedulesById (ScheduleIdKey schedule_id),
               ScheduleValue schedule)] (λ QC reader,
    let! response := QueryHandlers.get_schedule_info reader (MkScheduleInfoQuery (Some schedule_id)) in
    let? info := sgi_schedule_info response in
    code_is (sgi_header response) RcOk && (sc_memo info == "test_schedule")
    && (sc_schedule_id info == Some schedule_id)).

Definition test_get_schedule_info_not_found : bool :=
  with_state [] (λ QC reader,
    let! response :=
      QueryHandlers.get_schedule_info reader (MkScheduleInfoQuery (Some (entity_no 3002))) in
    code_is (sgi_header response) InvalidScheduleId && is_none (sgi_schedule_info response)).

Lemma topic_schedule_tests_pass :
  forallb (λ b, b) [test_get_topic_info_found; test_get_topic_info_not_found;
    test_get_schedule_info_found; test_get_schedule_info_not_found] = true.
Proof. vm_compute. reflexivity. Qed.
End TopicScheduleTests.

(** ** handlers/token_handler.rs *)
Module TokenTests.
Definition token_of (id : TokenId) (name symbol : string) : Token := {|
  tok_token_id := Some id; tok_name := name; tok_symbol := symbol; tok_decimals := 0;
  tok_total_supply := 0; tok_treasury_account_id := None; tok_admin_key := None;
  tok_kyc_key := None; tok_freeze_key := None; tok_wipe_key := None; tok_supply_key := None;
  tok_fee_schedule_key := None; tok_pause_key := None; tok_metadata_key := None;
  tok_deleted := false; tok_paused := false; tok_accounts_frozen_by_default := false;
  tok_accounts_kyc_granted_by_default := false; tok_auto_renew_account_id := None;
  tok_auto_renew_seconds := 0; tok_expiration_second := 0; tok_memo := "";
  tok_token_type := 0; tok_supply_type := 0; tok_max_supply := 0; tok_custom_fees := [];
  tok_metadata := [] |}.

Definition test_get_token_info_found : bool :=
  let token_id := entity_no 3001 in
  let token := token_of token_id "Test Token" "TST" in
  with_state [(generate_db_key StateIdTokens (TokenIdKey token_id), TokenValue token)] (λ QC reader,
    let! response := QueryHandlers.get_token_info reader (MkTokenInfoQuery (Some token_id)) in
    let? info := tgi_token_info response in
    code_is (tgi_header response) RcOk && (tki_name info == "Test Token")
    && (tki_symbol info == "TST") && (tki_token_id info == Some token_id)).

Definition test_get_token_info_not_found : bool :=
  with_state [] (λ QC reader,
    let! response := QueryHandlers.get_token_info reader (MkTokenInfoQuery (Some (entity_no 3002))) in
    code_is (tgi_header response) InvalidTokenId && is_none (tgi_token_info response)).

Definition test_get_token_nft_info_found : bool :=
  let nft_id := MkNftId (Some (entity_no 4001)) 1 in
  let owner_id := account_no 101 in
  let nft := MkNft (Some nft_id) (Some owner_id) None None [x01; x02; x03] in
  with_state [(generate_db_key StateIdNfts (NftIdKey nft_id), NftValue nft)] (λ QC reader,
    let! response := QueryHandlers.get_token_nft_info reader (MkNftInfoQuery (Some nft_id)) in
    let? info := tgn_nft response in
    code_is (tgn_header response) RcOk && (ni_nft_id info == Some nft_id)
    && (ni_account_id info == Some owner_id) && (ni_metadata info == [x01; x02; x03])).

Definition test_get_token_nft_info_not_found : bool :=
  with_state [] (λ QC reader,
    let! response := QueryHandlers.get_token_nft_info reader
                       (MkNftInfoQuery (Some (MkNftId (Some (entity_no 4002)) 1))) in
    code_is (tgn_header response) InvalidNftId && is_none (tgn_nft response)).

Lemma token_tests_pass :
  forallb (λ b, b) [test_get_token_info_found; test_get_token_info_not_found;
    test_get_token_nft_info_found; test_get_token_nft_info_not_found] = true.
Proof. vm_compute. reflexivity. Qed.
End TokenTests.

(** ** handlers/contract_handler.rs *)
Module ContractTests.
Definition generate_contract_info_db_key (contract_id : ContractId) : bytes :=
  account_key (MkAccountId (contract_shard_num contract_id) (contract_realm_num contract_id)
    (Some (AccountNum match contract contract_id with Some (ContractNum num) => num | _ => 0 end))).
Definition generate_bytecode_db_key (contract_id : ContractId) : bytes :=
  generate_db_key StateIdContractBytecode (ContractIdKey contract_id).

Definition test_get_contract_info_found : bool :=
  let contract_id := contract_no 7001 in
  let account := account_of (account_no 7001) "test_contract" 0 true None 0 in
  with_state [(generate_contract_info_db_key contract_id, AccountValue account)] (λ QC reader,
    let! response := QueryHandlers.get_contract_info reader (MkContractInfoQuery (Some contract_id)) in
    let? info := kgi_contract_info response in
    code_is (kgi_header response) RcOk && (ci_memo info == "test_contract")
    && (ci_contract_id info == Some contract_id)).

Definition test_get_contract_info_not_found : bool :=
  with_state [] (λ QC reader,
    let! response :=
      QueryHandlers.get_contract_info reader (MkContractInfoQuery (Some (contract_no 7002))) in
    code_is (kgi_header response) InvalidContractId && is_none (kgi_contract_info response)).

Definition test_get_contract_bytecode_found : bool :=
  let contract_id := contract_no 7003 in
  let bytecode := MkBytecode [xde; xad; xbe; xef] in
  with_state [(generate_bytecode_db_key contract_id, BytecodeValue bytecode)] (λ QC reader,
    let! response :=
      QueryHandlers.get_contract_bytecode reader (MkBytecodeQuery (Some contract_id)) in
    code_is (kgb_header response) RcOk && (kgb_bytecode response == [xde; xad; xbe; xef])).

Definition test_get_contract_bytecode_not_found : bool :=
  with_state [] (λ QC reader,
    let! response :=
      QueryHandlers.get_contract_bytecode reader (MkBytecodeQuery (Some (contract_no 7004))) in
    code_is (kgb_header response) InvalidContractId && (kgb_bytecode response == [])).

Lemma contract_tests_pass :
  forallb (λ b, b) [test_get_contract_info_found; test_get_contract_info_not_found;
    test_get_contract_bytecode_found; test_get_contract_bytecode_not_found] = true.
Proof. vm_compute. reflexivity. Qed.
End ContractTests.

(** ** handlers/network_handler.rs *)
Module NetworkTests.
(** The reference codec writes a [BlockStreamInfo] as the body of its version. *)
Definition test_get_version_info_found : bool :=
  let version := Pb "SemanticVersion" [x01; x02; x03] in
  let mock_reader := mock_insert (MkMockState [])
    (state_prefix (state_identifier_u32 (QueryCodec := RefQuery.ref_query_codec)
                     StateIdBlockStreamInfo)) (pb_body version) in
  with_state [] (λ QC _,
    let! response := QueryHandlers.get_version_info mock_reader MkVersionInfoQuery in
    code_is (nvi_header response) RcOk && (nvi_hapi_proto_version response == Some version)
    && (nvi_hedera_services_version response == Some version)).

Definition test_get_version_info_not_found : bool :=
  with_state [] (λ QC reader,
    let! response := QueryHandlers.get_version_info reader MkVersionInfoQuery in
    code_is (nvi_header response) RcOk && is_none (nvi_hapi_proto_version response)
    && is_none (nvi_hedera_services_version response)).

Definition test_get_account_details_found : bool :=
  let account_id := account_no 1001 in
  let account := account_of account_id "test_memo" 0 false None 0 in
  with_state [(account_key account_id, AccountValue account)] (λ QC reader,
    let! response :=
      QueryHandlers.get_account_details reader (MkAccountDetailsQuery (Some account_id)) in
    let? details := gad_account_details response in
    code_is (gad_header response) RcOk && (ad_memo details == "test_memo")
    && (ad_account_id details == Some account_id)).

Definition rel_key (token_id : TokenId) (account_id : AccountId) : bytes :=
  generate_db_key StateIdTokenRelations
    (TokenRelationshipKey (MkTokenAssociation (Some token_id) (Some account_id))).

Definition test_get_account_details_with_token_rels : bool :=
  let account_id := account_no 1002 in
  let token_id1 := entity_no 2001 in
  let token_id2 := entity_no 2002 in
  let account := account_of account_id "" 0 false (Some token_id1) 2 in
  let token_rel1 := MkTokenRelation (Some token_id1) 100 false false false (Some token_id2) in
  let token_rel2 := MkTokenRelation (Some token_id2) 200 false false false None in
  with_state [(account_key account_id, AccountValue account);
              (rel_key token_id1 account_id, TokenRelationValue token_rel1);
              (rel_key token_id2 account_id, TokenRelationValue token_rel2)] (λ QC reader,
    let! response :=
      QueryHandlers.get_account_details reader (MkAccountDetailsQuery (Some account_id)) in
    let? details := gad_account_details response in
    (rs_balance <$> ad_token_relationships details) == [100; 200]).

Lemma network_tests_pass :
  forallb (λ b, b) [test_get_version_info_found; test_get_version_info_not_found;
    test_get_account_details_found; test_get_account_details_with_token_rels] = true.
Proof. vm_compute. reflexivity. Qed.
End NetworkTests.

(** ** services/crypto_service.rs *)
Module CryptoServiceTests.
Definition test_get_account_info_found : bool :=
  let account_id := account_no 1001 in
  let account := account_of account_id "test" 0 false None 0 in
  with_state [(account_key account_id, AccountValue account)] (λ QC reader,
    match QueryServices.get_account_info reader
            (Some (CryptoGetInfo (MkCryptoGetInfoQuery (Some account_id)))) with
    | Ok (RCryptoGetInfo info) =>
        code_is (cgi_header info) RcOk && ((ai_memo <$> cgi_account_info info) == Some "test")
    | _ => false
    end).

Definition test_get_account_info_not_found : bool :=
  with_state [] (λ QC reader,
    match QueryServices.get_account_info reader
            (Some (CryptoGetInfo (MkCryptoGetInfoQuery (Some (account_no 1002))))) with
    | Ok (RCryptoGetInfo info) =>
        code_is (cgi_header info) InvalidAccountId && is_none (cgi_account_info info)
    | _ => false
    end).

Definition test_get_account_balance_found : bool :=
  let account_id := account_no 1003 in
  let account := account_of account_id "" 1000000 false None 0 in
  with_state [(account_key account_id, AccountValue account)] (λ QC reader,
    match crypto_get_balance reader
            (Some (CryptogetAccountBalance (MkBalanceQuery (Some (BsAccountId account_id))))) with
    | Ok (RCryptogetAccountBalance balance_info) =>
        code_is (bal_header balance_info) RcOk && (bal_balance balance_info == 1000000)
    | _ => false
    end).

Definition test_get_account_records_empty : bool :=
  with_state [] (λ QC reader,
    match QueryServices.get_account_records reader
            (Some (CryptoGetAccountRecords (MkRecordsQuery (Some (MkAccountId 0 0 None))))) with
    | Ok (RCryptoGetAccountRecords records_info) =>
        code_is (recs_header records_info) RcOk && (length (recs_records records_info) == 0%nat)
    | _ => false
    end).

Definition test_get_transaction_receipt_not_found : bool :=
  with_state [] (λ QC reader,
    match get_transaction_receipts reader
            (Some (TransactionGetReceipt (MkReceiptQuery (Some dflt)))) with
    | Ok (RTransactionGetReceipt receipt_info) => code_is (rcpt_header receipt_info) ReceiptNotFound
    | _ => false
    end).

Definition test_get_transaction_record_not_found : bool :=
  with_state [] (λ QC reader,
    match get_tx_record_by_tx_id reader
            (Some (TransactionGetRecord (MkRecordQuery (Some dflt)))) with
    | Ok (RTransactionGetRecord record_info) => code_is (rec_header record_info) RecordNotFound
    | _ => false
    end).

Definition test_unsupported_transactions : bool :=
  with_state [] (λ QC _,
    let! created := crypto_transaction Crypto_create_account dflt in
    let! updated := crypto_transaction Crypto_update_account dflt in
    (tx_precheck_code created == response_code_i32 NotSupported)
    && (tx_precheck_code updated == response_code_i32 NotSupported)).

Lemma crypto_service_tests_pass :
  forallb (λ b, b) [test_get_account_info_found; test_get_account_info_not_found;
    test_get_account_balance_found; test_get_account_records_empty;
    test_get_transaction_receipt_not_found; test_get_transaction_record_not_found;
    test_unsupported_transactions] = true.
Proof. vm_compute. reflexivity. Qed.
End CryptoServiceTests.
