(* ===== verification/SystemTheorems.v ===== *)
(** Components together: publishers and subscribers over one store, a subscriber
    beside the writers, two nodes, the backfill loops, and the metrics. *)
From S2P Require Import Prelude Config Database Block StateManager HotTier ColdStorage.
From S2P Require Import Core PersistenceService Archiver Persistence Recovery Fixtures.
From S2P Require Import Pipeline Publish Ingest Subscriber LiveSession Access Backfill Peering.
From S2P Require Import BackfillLoop Metrics Accounting IngestTheorems ServingTheorems.

Section system_theorems.
Context {S : Type} {READER : BlockReader S} {WRITER : BlockWriter S}
  {CODEC : Codec} {CLAWS : CodecLaws} {STORE : BlockStore S}.
Implicit Types (s : S) (m : gmap Z bytes).

(** What validation answers to a request for one block. *)
Lemma validate_one cfg n s oe ol : n ≠ u64_MAX →
  get_earliest_persisted_block_number s = Ok oe → get_latest_persisted_block_number s = Ok ol →
  validate_and_check_fulfillment cfg (MkSubscribe n n) s =
    if from_option (λ e, n <? e) false oe then Err (Validation CInvalidStartBlockNumber)
    else if from_option (λ l, u64_add l (max_future_block_lookahead cfg) <? n) false ol
    then Err (Validation CNotAvailable) else Ok n.
Proof.
  intros Hn He Hl. unfold validate_and_check_fulfillment. cbn [start_block_number end_block_number].
  rewrite He, Hl. cbn. destruct (Z.eqb_spec n u64_MAX); [done|]. rewrite Z.ltb_irrefl. cbn.
  by destruct oe as [e|], ol as [l|]; cbn; repeat case_match.
Qed.

(** A session for one stored block sends it. *)
Lemma one_block_sent cfg s m n b : holds s m → is_u64 n → n ≠ u64_MAX → wf_block b →
  m !! n = Some (encode_to_vec b) →
  validate_and_check_fulfillment cfg (MkSubscribe n n) s = Ok n →
  Subscriber.run cfg (MkSubscribe n n) s (replicate 2 (MkTurn false s true []))
    = [BlockItems (items b); StatusCode CSuccess].
Proof.
  intros Hm Hn Hmax Hwf Hmn Hv.
  destruct (stream_loop_sends (λ n c, m !! n = Some c) (MkSubscribe n n)
    (replicate 2 (MkTurn false s true [])) n) as (bs & El & Hbs); [cbn; u64_lia|cbn; u64_lia| |cbn; lia|].
  { apply Forall_replicate. split_and!; [done|done|]. exists m. split; [done|].
    intros n' Hn'. cbn in Hn'. replace n' with n by lia. eauto. }
  unfold Subscriber.run, execute_stream. rewrite Hv. cbn [end_block_number] in *.
  destruct (Z.eqb_spec n u64_MAX); [done|]. cbn [negb]. rewrite El.
  replace (n + 1 - n) with 1 in Hbs by lia. rewrite seqZ_cons, seqZ_nil in Hbs by lia.
  apply Forall2_cons_inv_r in Hbs as (b' & bs' & (Hwf' & _ & Hm') & Hnil & ->).
  apply Forall2_nil_inv_r in Hnil as ->. rewrite Hmn in Hm'. injection Hm' as E.
  apply (f_equal decode_block) in E. rewrite !decode_encode_block in E by done.
  by injection E as ->.
Qed.

(** C5: From publisher to clients.  Take any interleaving of sessions, verifier,
    persistence, cleanup, timeouts, archiver and backfill writes, with publishers
    that finish a block before the next header, in which a publisher has been
    acknowledged block [n].  Then there is one published block with this number
    that block access returns; and an undisturbed subscription to [n, n] is answered
    with its items and the success status, unless [n] lies below the earliest number
    the store reports or more than the look-ahead beyond the latest, in which case
    it is refused with the status for that. *)
Theorem acknowledged_block_served max ve thr pub ig sid n cfg :
  let s := pl_store (ig_pipeline ig) in
  ingest_run max ve thr pub ig → 0 ≤ thr → (sid, Acknowledgement n) ∈ ig_sent ig →
  is_u64 n → n ≠ u64_MAX →
  ∃ k b, pub !! k = Some b ∧ get_block_number b = Ok n ∧
    get_block s (Some (ByNumber n)) = MkBlockResponse ASuccess (Some b) ∧
    ∀ oe ol, get_earliest_persisted_block_number s = Ok oe →
      get_latest_persisted_block_number s = Ok ol →
      Subscriber.run cfg (MkSubscribe n n) s (replicate 2 (MkTurn false s true [])) =
        if from_option (λ e, n <? e) false oe then [StatusCode CInvalidStartBlockNumber]
        else if from_option (λ l, u64_add l (max_future_block_lookahead cfg) <? n) false ol
        then [StatusCode CNotAvailable]
        else [BlockItems (items b); StatusCode CSuccess].
Proof.
  intros s Hrun Ht Hack Hn Hmax. destruct (ingest_run_inv _ _ _ _ _ Hrun Ht) as [Hinv _].
  destruct (igi_ack _ _ Hinv sid n Hack) as (e & He & <-).
  destruct (pli_store _ _ (igi_pipeline _ _ Hinv)) as (m & Hm & Hall).
  destruct (Hall e He) as [_ (k & b & (Hk & Hwf & _ & Hb) & Hmn)].
  pose proof (read_block_holds _ _ _ Hm Hn) as Hread. rewrite Hmn in Hread. fold s in Hread.
  exists k, b. split_and!; [done|done| |].
  - unfold get_block, get_target_block_number.
    destruct (Z.eqb_spec (bp_block_number e) u64_MAX); [done|].
    rewrite Hread. by eapply handle_found_block_ok.
  - intros oe ol Hoe Hol. pose proof (validate_one cfg _ s oe ol Hmax Hoe Hol) as Hv.
    destruct (from_option (λ e0, _ <? e0) false oe);
      [by unfold Subscriber.run, execute_stream; rewrite Hv|].
    destruct (from_option (λ l, _ <? _) false ol);
      [by unfold Subscriber.run, execute_stream; rewrite Hv|].
    by eapply one_block_sent.
Qed.

(** C17: A session beside the writers refines [execute_stream].  Let validation accept
    a request on a store in working order, and let the session run step by step while
    other tasks write and announce blocks and the world may end it.  What it has sent
    and, once it has ended, its result are those of [execute_stream] on turns whose
    stores are stores of this very run, all in working order. *)
Theorem live_session_refines capacity cfg request start s m l :
  holds s m → validate_and_check_fulfillment cfg request s = Ok start →
  let run := live_run capacity request (negb (end_block_number request =? u64_MAX)) in
  run (start_at s start) l →
  ∃ turns, execute_stream cfg request s turns
      = (l_sent l, match l_phase l with LEnded r => Some r | _ => None end) ∧
    working turns ∧
    Forall (λ t, ∃ l1, run (start_at s start) l1 ∧ run l1 l ∧ l_store l1 = turn_store t) turns.
Proof.
  intros Hm Hv run Hrun. destruct (live_run_inv _ _ _ _ _ _ Hrun) as (Ht & _).
  fold run in Ht. unfold execute_stream. rewrite Hv.
  set (fin := negb _) in *. set (P := λ s' : S, ∃ l1, _) in Ht.
  assert (∀ turns, Forall (λ t, P (turn_store t)) turns → working turns) as Hw.
  { intros turns Hall. eapply Forall_impl; [exact Hall|]. intros t (l1 & H1 & _ & <-).
    destruct (live_run_inv _ _ _ _ _ _ H1) as (_ & _ & _ & H). by eapply H. }
  assert (∀ n, turns_to request fin P start (l_sent l) n →
    ∃ turns, stream_loop request fin start turns = (l_sent l, None) ∧
      working turns ∧ Forall (λ t, P (turn_store t)) turns) as Hs.
  { intros n (turns & Hall & Hst). exists turns. specialize (Hst []).
    rewrite app_nil_r in Hst. cbn in Hst. rewrite app_nil_r in Hst. by split_and!; [|apply Hw|]. }
  unfold phase_turns in Ht. destruct (l_phase l) as [n|n s0|n s0 i recvs|r].
  - by eapply Hs.
  - destruct Ht as [Ht _]. by eapply Hs.
  - destruct Ht as [Ht _]. by eapply Hs.
  - destruct Ht as (turns & Hall & E). exists turns. by split_and!; [|apply Hw|].
Qed.

(** C18: A wait ends when it should.  In every run, a session that waits for block
    [n] since position [i] of the channel can time out only if every announcement
    since then was for an earlier block.  And if block [n] is stored and announcement
    [j], made since then, is for block [n] or a later one, sending block [n] is
    inevitable: in every continuation in which the world does not end the session,
    whatever the writers do, the session has either sent block [n] next, as it was
    stored at some moment of the continuation, or it has made fewer than
    [j + 2 - cursor] steps of its own and still has one to make. *)
Theorem announced_block_wakes capacity request is_finite start s0 m0 l n s i recvs :
  holds s0 m0 → is_u64 start →
  live_run capacity request is_finite (start_at s0 start) l →
  l_phase l = LWaiting n s i recvs →
  (cursor i recvs = length (l_announced l) → ∀ k, k ∈ drop i (l_announced l) → k < n) ∧
  (∀ j k c own l', read_block (l_store l) n = Ok (Some c) → (i ≤ j)%nat → l_announced l !! j = Some k → n ≤ k →
     undisturbed capacity request is_finite own l l' →
     (l_sent l' = l_sent l ∧ (own < j + 2 - cursor i recvs)%nat ∧
      ∃ l'', live_step capacity request is_finite OfSession l' l'') ∨
     ∃ b l1 own1, wf_block b ∧ get_block_number b = Ok n ∧
       undisturbed capacity request is_finite own1 l l1 ∧ (own1 < own)%nat ∧
       read_block (l_store l1) n = Ok (Some (encode_to_vec b)) ∧
       (l_sent l ++ [BlockItems (items b)]) `prefix_of` l_sent l').
Proof.
  intros Hm0 Hu Hrun E. destruct (live_run_inv _ _ _ _ _ _ Hrun) as (Ht & Hh & Hn & Hst). split.
  { by eapply timeout_unheard. }
  intros j k c own l' Hstored Hij Hk Hle Hund. destruct (Hst m0 Hm0) as [m Hm].
  specialize (Hn Hu). unfold phase_u64, phase_turns in Hn, Ht. rewrite E in Hn, Ht.
  destruct Ht as (_ & _ & Hf & _).
  assert (due request is_finite n (l_sent l) j (j + 2 - cursor i recvs) l) as Hdue.
  { split_and!; [done|done| |].
    - exists m. split; [done|]. rewrite (read_block_holds _ _ _ Hm Hn) in Hstored.
      by injection Hstored as ->.
    - right. exists s, i, recvs, k. split_and!; [done| |done|done|done].
      destruct (decide (cursor i recvs ≤ j)%nat) as [|Hlt]; [done|].
      pose proof (heard_old l n s i recvs j k Hh E ltac:(lia) Hk). lia. }
  destruct (due_sent capacity request is_finite _ _ _ _ _ _ _ Hn Hdue Hund)
    as [(steps' & Hsteps & Hd)|H]; [left|by right].
  pose proof (due_steps _ _ _ _ _ _ _ Hd). split_and!; [apply Hd|lia|by eapply due_progress].
Qed.

(** The wake-up can be lost: a block that is written and announced between the
    look-up and the subscription is not heard, and if no other block follows the
    session times out although the block is stored. *)
Lemma lost_wakeup capacity s m b n request is_finite :
  holds s m → m !! n = None → wf_block b → accepts b → get_block_number b = Ok n →
  (is_finite = true → n ≤ end_block_number request) →
  ∃ s', live_run capacity request is_finite (start_at s n)
      (MkLive s' [n] [] (LEnded (Err (TimeoutWaitingForBlock n))) []) ∧
    read_block s' n = Ok (Some (encode_to_vec b)).
Proof.
  intros Hm Hno Hwf Ha Hb He. pose proof (get_block_number_u64 b n Hwf Hb) as Hn.
  destruct (write_block_holds s m b n Hm Ha Hb) as (s' & Ew & Hm').
  exists s'. split; [|by rewrite (read_block_holds _ _ _ Hm' Hn), lookup_insert_eq].
  eapply rtc_l; [eexists; apply (live_miss _ _ _ _ n); [done| |]|].
  - destruct is_finite; [|done]. cbn. apply Z.ltb_ge. by apply He.
  - cbn. by rewrite (read_block_holds _ _ _ Hm Hn), Hno.
  - eapply rtc_l; [eexists; by apply (live_write _ _ _ _ b n s')|].
    eapply rtc_l; [eexists; by apply (live_announce _ _ _ _ n [] [])|].
    eapply rtc_l; [eexists; by apply (live_subscribe _ _ _ _ n s)|].
    eapply rtc_l; [eexists; by apply (live_timeout _ _ _ _ n s 1 [])|]. apply rtc_refl.
Qed.
End system_theorems.

(** ** Two nodes *)
Section node_theorems.
Context {RDB : RocksDB} {LAWS : RocksDBLaws} {CODEC : Codec} {CLAWS : CodecLaws}.
Implicit Types (svc : Service) (m : gmap Z bytes).

Lemma holds_accepts svc m x n : holds svc m → get_block_number x = Ok n →
  m !! n = Some (encode_to_vec x) → wf_block x → accepts (BlockStore := service_store) x.
Proof.
  intros (_ & _ & Hst & _) Hn Hm Hwf. destruct (Hst _ _ Hm) as (b & Hb & E).
  pose proof Hb as (Hwfb & _). apply (f_equal decode_block) in E.
  rewrite !decode_encode_block in E by done. injection E as ->. by exists n.
Qed.


(** C15: Continuous mode catches up.  If the first peer of a cycle is a Rock Node
    that is ahead, holds the blocks from ours on and serves them until its session
    times out, one cycle ends normally; afterwards the numbers above our latest and up
    to the peer's latest hold the peer's blocks.  Every other number is as before: a
    gap below our latest stays a gap. *)
Theorem continuous_catches_up cfg svc m svcA mA turns others fuel e l lA :
  holds svc m → holds svcA mA →
  get_latest_persisted_block_number svc = Ok (Some l) →
  get_earliest_persisted_block_number svcA = Ok (Some e) →
  get_latest_persisted_block_number svcA = Ok (Some lA) →
  0 ≤ e ≤ l + 1 → 0 ≤ l < lA → lA < 2 ^ 63 - 1 → 0 ≤ max_future_block_lookahead cfg < 2 ^ 63 →
  follows mA (turns 0%nat (l + 1) u64_MAX) (l + 1) (lA - l) →
  ∃ svc' m', run_continuous_stream_cycle (Datatypes.S fuel) svc
      (rock_peer cfg (λ _, svcA) turns :: others) = (svc', Some tt) ∧
    holds svc' m' ∧ ∀ n, m' !! n = if decide (l < n ≤ lA) then mA !! n else m !! n.
Proof.
  intros Hs HA Hl He HlA Hel Hll Hmax Hla Hf.
  destruct (continuous_copies cfg (λ _, svcA) turns others fuel svc m mA e l lA)
    as (svc' & m' & E & Hm' & Hin & Hout); [done..| |].
  { intros x n Hx Hwf HxA. by eapply holds_accepts. }
  exists svc', m'. split_and!; [done|done|]. intros n. case_decide as Hn; [|by apply Hout].
  destruct (Hin n Hn) as (c & -> & ->). done.
Qed.

(** Continuous mode does not start from nothing.  A node without blocks asks
    for block 0, whatever its configured start block; a peer whose first block is
    later refuses the subscription with a status, and every cycle ends at once, as
    if successful, with nothing fetched. *)
Lemma continuous_empty_node_stuck cfg svc svcA turns others fuel e lA k :
  get_latest_persisted_block_number svc = Ok None →
  get_earliest_persisted_block_number svcA = Ok (Some e) →
  get_latest_persisted_block_number svcA = Ok (Some lA) →
  0 < e → 0 ≤ lA < 2 ^ 63 → 0 ≤ max_future_block_lookahead cfg < 2 ^ 63 →
  run_cycles k (Datatypes.S fuel) svc (rock_peer cfg (λ _, svcA) turns :: others) = Some svc.
Proof.
  intros Hl He HlA H0 Hr Hla. induction k as [|k IH]; [done|]. cbn [run_cycles].
  by rewrite (continuous_empty_refused cfg (λ _, svcA) turns others fuel svc e lA).
Qed.
End node_theorems.


(** ** Metrics *)
Section metrics_theorems.
Context {PROM : Prometheus}.

(** The metrics can be registered once.  On a registry that has none of the
    node's names, in particular a new one, [with_registry] succeeds and adds exactly
    those names; a second call on the same registry fails. *)
Lemma metrics_registered_once r :
  (∀ x, x ∈ all_metrics → m_name x.2 ∉ registered_names r) →
  ∃ mr, with_registry r = Ok mr ∧
    registered_names (registry mr) = registered_names r ++ ((λ x, m_name x.2) <$> all_metrics) ∧
    ∃ e, with_registry (registry mr) = Err e.
Proof.
  intros Hno. destruct (register_metrics_ok r all_metrics) as (r' & E & En);
    [vm_compute; reflexivity| |done|].
  { apply (bool_decide_unpack _). vm_compute. exact I. }
  exists (MkMetrics r' all_metrics). unfold with_registry. rewrite E. cbn [registry mbind Result_bind].
  split_and!; [done|done|].
  destruct (register_metrics_again r' ("blocks_acknowledged", MkOpts KIntCounter "rocknode_blocks_acknowledged"
    "Total number of blocks acknowledged by the publish plugin after successful persistence." [])
    (tail all_metrics)) as [e Ee].
  { rewrite En. apply elem_of_app. right. by left. }
  exists e. change all_metrics with (("blocks_acknowledged", MkOpts KIntCounter "rocknode_blocks_acknowledged"
    "Total number of blocks acknowledged by the publish plugin after successful persistence." [])
    :: tail all_metrics). by rewrite Ee.
Qed.
End metrics_theorems.

Section accounting_theorems.
Context {RDB : RocksDB} {CODEC : Codec}.
Context {S : Type} {READER : BlockReader S} {WRITER : BlockWriter S}.

(** C24: No metric update panics.  Every update of a read, write, batch, persistence
    event or archival cycle, of a load or scan of the cold tier, of a publisher or
    subscriber session, of a block access or status request and of a gap check names
    a registered metric of the right kind and gives as many label values as it has
    labels. *)
Theorem metric_updates_fit :
  (∀ (st : Tiers) n, fits_table (read_updates st n)) ∧
  (∀ cfg start (st : Tiers) c ev, fits_table (event_updates cfg start c st ev)) ∧
  (∀ (st : Tiers) fault bs, fits_table (write_batch_updates st fault bs)) ∧
  (∀ cfg fuel (st : Tiers) faults, fits_table (cycle_updates cfg fuel st faults)) ∧
  (∀ fs listing idx, fits_table (scan_updates fs listing idx)) ∧
  (∀ max key sid turns last, fits_table (session_updates max key sid turns last)) ∧
  (∀ cfg sid req (s : S) turns, fits_table (run_updates cfg sid req s turns)) ∧
  (∀ (s : S) request, fits_table (get_block_updates s request)) ∧
  (∀ s : S, fits_table (server_status_updates s)) ∧
  (∀ (s : S) start peers gaps, fits_table (gap_check_updates s start peers gaps)).
Proof.
  split_and!; intros.
  - apply read_updates_fits.
  - apply event_updates_fits.
  - apply write_batch_fits.
  - apply cycle_updates_fits.
  - apply scan_updates_fits.
  - apply session_updates_fits.
  - apply run_updates_fits.
  - apply record_metrics_fits.
  - apply server_status_fits.
  - apply gap_check_fits.
Qed.

End accounting_theorems.

(** ** The theorems at work on the reference node *)
Module SystemExamples.
(** The node that the others fetch from. *)
Definition nodeA : Service := RefNode.svc_of 100 (RefNode.writes 100 [100; 101; 102; 103]).
Definition mapA : gmap Z bytes := RefNode.blocks_map [100; 101; 102; 103].
Definition calm (k : nat) : list (Turn Service) := replicate k (MkTurn false nodeA true []).
Definition turnsA (_ : nat) (a b : Z) : list (Turn Service) :=
  if b =? u64_MAX then calm 2 ++ [MkTurn false nodeA true [RTimeout]]
  else calm (Z.to_nat (b + 2 - a)).

Lemma writes_holds start ns : 0 ≤ start < u64_MAX → forallb RefNode.storableb ns = true →
  holds (RefNode.svc_of start (RefNode.writes start ns)) (RefNode.blocks_map ns).
Proof. intros Hs Hb. apply RefNode.history_holds; [|done]. apply RefNode.writes_history; [u64_lia|done]. Qed.

Lemma nodeA_holds : holds nodeA mapA.
Proof. apply writes_holds; [u64_lia|vm_compute; reflexivity]. Qed.

Lemma mapA_has n : 100 ≤ n ≤ 103 → is_Some (mapA !! n).
Proof.
  intros Hn. assert (n = 100 ∨ n = 101 ∨ n = 102 ∨ n = 103) as [->|[->|[->| ->]]] by lia;
    vm_compute; eauto.
Qed.

Lemma calm_serves k a b : 100 ≤ a → b ≤ 103 →
  Forall (λ t, turn_shutdown t = false ∧ turn_connected t = true ∧
    ∃ m, holds (turn_store t) m ∧ ∀ n, a ≤ n ≤ b → ∃ c, m !! n = Some c ∧ mapA !! n = Some c) (calm k).
Proof.
  intros Ha Hb. apply Forall_replicate. split_and!; [done|done|]. exists mapA.
  split; [exact nodeA_holds|]. intros n Hn. destruct (mapA_has n) as [c Hc]; [lia|]. eauto.
Qed.

Lemma acknowledged_block_served_witness :
  let s := pl_store (ig_pipeline ig_acked) in
  ∃ k b, piped_pub !! k = Some b ∧ get_block_number b = Ok 100 ∧
    get_block s (Some (ByNumber 100)) = MkBlockResponse ASuccess (Some b) ∧
    Subscriber.run sub_cfg (MkSubscribe 100 100) s (replicate 2 (MkTurn false s true []))
      = [BlockItems (items b); StatusCode CSuccess].
Proof.
  destruct (acknowledged_block_served 100 false 1000 piped_pub ig_acked 1 100 sub_cfg)
    as (k & b & Hk & Hb & Hg & Hrun).
  - exact ig_acked_run.
  - lia.
  - vm_compute. first [left | right; left].
  - u64_lia.
  - discriminate.
  - exists k, b. split_and!; [exact Hk|exact Hb|exact Hg|].
    apply (Hrun (Some 100) (Some 100)); vm_compute; reflexivity.
Defined.

(** A block below the first one stored is refused to subscribers although it is
    stored and block access serves it: the earliest number is never lowered. *)
Lemma early_block_refused_to_subscribers :
  let svc := RefNode.svc_of 100 (RefNode.writes 100 [105; 100]) in
  get_block svc (Some (ByNumber 100)) = MkBlockResponse ASuccess (Some (block_of 100)) ∧
  Subscriber.run sub_cfg (MkSubscribe 100 100) svc (replicate 2 (MkTurn false svc true []))
    = [StatusCode CInvalidStartBlockNumber].
Proof. split; vm_compute; reflexivity. Qed.

(** A session for block 102 that has to wait for it, with a channel of 100. *)
Definition node3 : Service := (writer_write_block node2 (block_of 102)).1.
Definition live_woken : Live Service :=
  MkLive node3 [102] [] (LWaiting 102 node2 0 []) [].
Definition live_done : Live Service :=
  MkLive node3 [102] [] (LEnded (Ok tt)) [BlockItems (items (block_of 102))].

Lemma live_woken_run :
  live_run 100 (MkSubscribe 102 102) true (start_at node2 102) live_woken.
Proof.
  eapply rtc_l; [eexists; apply (live_miss _ _ _ _ 102); [reflexivity|reflexivity|vm_compute; reflexivity]|].
  eapply rtc_l; [eexists; by apply (live_subscribe _ _ _ _ 102 node2)|].
  eapply rtc_l; [eexists; apply (live_write _ _ _ _ (block_of 102) 102 node3); [|reflexivity|]|].
  { exists 102. apply RefNode.storable_of. vm_compute. reflexivity. }
  { cbn [l_store at_phase start_at]. unfold node3.
    rewrite (surjective_pairing (writer_write_block node2 (block_of 102))). f_equal. }
  eapply rtc_l; [eexists; by apply (live_announce _ _ _ _ 102 [] [])|]. apply rtc_refl.
Qed.

(** It hears of the block, sends it, and is done. *)
Lemma live_woken_sends :
  undisturbed 100 (MkSubscribe 102 102) true 3 live_woken live_done.
Proof.
  eapply undisturbed_own; [eapply undisturbed_own; [eapply undisturbed_own; [apply undisturbed_nil|]|]|].
  - apply (live_recv _ _ _ live_woken 102 node2 0 [] 102); [reflexivity| |reflexivity|lia].
    unfold lags. cbn. lia.
  - eapply (live_send _ _ _ _ 102 (encode_to_vec (block_of 102)) (items (block_of 102)));
      [reflexivity|reflexivity|vm_compute; reflexivity|vm_compute; reflexivity].
  - exact (live_finish 100 (MkSubscribe 102 102) true (at_phase (at_phase live_woken (LReading 102) [])
      (LReading 103) [BlockItems (items (block_of 102))]) 103 eq_refl eq_refl).
Qed.

Lemma live_done_run : live_run 100 (MkSubscribe 102 102) true (start_at node2 102) live_done.
Proof. etrans; [exact live_woken_run|exact (undisturbed_run _ _ _ _ _ _ live_woken_sends)]. Qed.

Lemma live_session_refines_witness :
  ∃ turns, execute_stream sub_cfg (MkSubscribe 102 102) node2 turns
      = ([BlockItems (items (block_of 102))], Some (Ok tt)) ∧ working turns.
Proof.
  destruct (live_session_refines 100 sub_cfg (MkSubscribe 102 102) 102 node2 map2 live_done)
    as (turns & E & Hw & _).
  - exact node2_holds.
  - vm_compute. reflexivity.
  - exact live_done_run.
  - exists turns. split; [exact E|exact Hw].
Defined.

Lemma announced_block_wakes_witness :
  ∃ b, get_block_number b = Ok 102 ∧ [BlockItems (items b)] `prefix_of` l_sent live_done.
Proof.
  destruct (announced_block_wakes 100 (MkSubscribe 102 102) true 102 node2 map2 live_woken 102 node2 0 []
    node2_holds ltac:(u64_lia) live_woken_run eq_refl) as [_ H].
  destruct (H 0%nat 102 (encode_to_vec (block_of 102)) 3%nat live_done) as [(_ & Hlt & _)|(b & l1 & own1 & _ & Hb & _ & _ & _ & Hp)].
  - vm_compute. reflexivity.
  - lia.
  - reflexivity.
  - lia.
  - exact live_woken_sends.
  - cbn in Hlt. lia.
  - exists b. split; [exact Hb|exact Hp].
Defined.


Lemma continuous_catches_up_witness :
  ∃ svc' m', run_continuous_stream_cycle 1 node2 [rock_peer sub_cfg (λ _, nodeA) turnsA]
      = (svc', Some tt) ∧ holds svc' m' ∧ m' !! 103 = mapA !! 103.
Proof.
  destruct (continuous_catches_up sub_cfg node2 map2 nodeA mapA turnsA [] 0 100 101 103)
    as (svc' & m' & E & Hm & Hall).
  - exact node2_holds.
  - exact nodeA_holds.
  - vm_compute. reflexivity.
  - vm_compute. reflexivity.
  - vm_compute. reflexivity.
  - lia.
  - lia.
  - lia.
  - split; [vm_compute; discriminate|vm_compute; reflexivity].
  - exists (calm 2), (MkTurn false nodeA true [RTimeout]).
    split_and!; [reflexivity|reflexivity| |reflexivity|reflexivity|].
    + eapply Forall_impl; [apply (calm_serves 2 102 103); lia|].
      intros t (? & ? & m & ? & Hd). split_and!; [done|done|]. exists m. split; [done|].
      intros n Hn. apply Hd. lia.
    + exists mapA. split; [exact nodeA_holds|]. vm_compute. reflexivity.
  - exists svc', m'. split_and!; [exact E|exact Hm|]. rewrite Hall. by rewrite decide_True by lia.
Defined.

Lemma continuous_empty_node_stuck_witness :
  run_cycles 5 1 empty_node [rock_peer sub_cfg (λ _, nodeA) turnsA] = Some empty_node.
Proof.
  refine (continuous_empty_node_stuck sub_cfg empty_node nodeA turnsA [] 0 100 103 5 _ _ _ _ _ _).
  - vm_compute. reflexivity.
  - vm_compute. reflexivity.
  - vm_compute. reflexivity.
  - lia.
  - lia.
  - split; [vm_compute; discriminate|vm_compute; reflexivity].
Defined.

Import RefPrometheus.

Lemma metrics_registered_once_witness :
  ∃ mr, with_registry new_registry = Ok mr ∧
    registered_names (registry mr) = [] ++ ((λ x, m_name x.2) <$> all_metrics) ∧
    ∃ e, with_registry (registry mr) = Err e.
Proof.
  refine (metrics_registered_once new_registry _). intros x _. apply not_elem_of_nil.
Defined.

(** A stop during a gap check is lost: the loop goes on, and a later check still
    writes blocks. *)
Lemma stop_during_check_lost :
  let st := gap_loop 100 (λ svc, get_all_gaps (t_db (svc_tiers svc))) (gap_loop_init 60, gapped)
              [Tick; StopNotified; CheckDone [refusing_peer]; Tick; CheckDone [serving_peer]] in
  gt_phase st.1 = GWaiting ∧ read_block gapped 101 = Ok None ∧
  read_block st.2 101 = Ok (Some (encode_to_vec (block_of 101))).
Proof. split_and!; vm_compute; reflexivity. Qed.

(** A peer that is shut down during the session counts as having filled the gap, and
    the next peer is not asked. *)
Lemma shutdown_skips_other_peers :
  let closing := rock_peer sub_cfg (λ _, nodeA) (λ _ _ _, [MkTurn true nodeA true []]) in
  let svc := (run_single_gap_check gapped 100 [closing; serving_peer] (Ok [(101, 102)])).1 in
  read_block svc 101 = Ok None ∧
  read_block (run_single_gap_check gapped 100 [serving_peer] (Ok [(101, 102)])).1 101
    = Ok (Some (encode_to_vec (block_of 101))).
Proof. split; vm_compute; reflexivity. Qed.

(** A block that a session had to wait for is counted as live and as historical. *)
Lemma live_block_counted_twice :
  let turns := [MkTurn false node2 true [REvent 102]; MkTurn false node3 true [];
                MkTurn false node3 true []] in
  let us := run_updates sub_cfg "id" (MkSubscribe 102 102) node2 turns in
  length (execute_stream sub_cfg (MkSubscribe 102 102) node2 turns).1 = 1%nat ∧
  updates_value "subscriber_blocks_sent_total" ["historical"] 0 us = 1 ∧
  updates_value "subscriber_blocks_sent_total" ["live"] 0 us = 1.
Proof. split_and!; vm_compute; reflexivity. Qed.

(** The gauge of the hot tier counts missing blocks: 4 for blocks 100 and 103. *)
Lemma hot_gauge_counts_gaps :
  updates_value "persistence_hot_tier_block_count" [] 0
    (cycle_updates (svc_cfg gapped) 1 (svc_tiers gapped) (λ _, None)) = 4 ∧
  read_block gapped 101 = Ok None ∧ read_block gapped 102 = Ok None.
Proof. split_and!; vm_compute; reflexivity. Qed.
End SystemExamples.
