(* ===== verification/NodeTheorems.v ===== *)
(** What holds of the node as a whole: how the configuration file is read, which
    configurations boot and what runs then, what every schedule of the spawned tasks keeps, and what a shutdown does. *)
From stdpp Require Import pretty.
From S2P Require Import Prelude Config ConfigFile Database Block StateManager HotTier ColdStorage.
From S2P Require Import Core PersistenceService Archiver Persistence Recovery Publish Subscriber.
From S2P Require Import Plugins Node Startup NodeRun Fixtures.

(** ** The configuration file *)
Section config_theorems.
Context {F : Format}.

(** How a section of the configuration is read, given what serde derives.  For the whole configuration and
    for each section of it, a table decodes exactly when no field is given twice and
    every field that is given decodes; then each given field has its decoded value,
    each other field its default, and keys that name no field have no effect. *)
Lemma sections_decode T fs missing v l t :
  config_struct T fs missing → de_struct v = Ok (Entries l) →
  deserialize (struct_serde fs missing) v = Ok t ↔
  NoDup (filter (λ k, k ∈ field_name <$> fs) l.*1) ∧
  Forall (λ f, match assoc (field_name f) l with
               | Some w => deserialize (field_serde f) w = Ok (field_get f t)
               | None => field_get f t = field_get f missing
               end) fs.
Proof.
  intros Hc Ev. cbn [deserialize struct_serde]. rewrite Ev. cbn [mbind Result_bind].
  rewrite visit_map_spec by (by eapply config_struct_lawful). unfold known, field_from.
  split; [by intros (? & _ & ?)|]. intros [? ?]. split_and!; [done|set_solver|done].
Qed.

(** C21: A configuration survives being written and read.  Over every format that
    reads back what it writes, a configuration whose numbers are at most [i64::MAX]
    (and whose port is 16 bits) is written without error and read back unchanged; and
    whatever is read has numbers of the types of the source. *)
Theorem config_roundtrip `{!FormatLaws F} cfg :
  (config_in i64_MAX cfg →
   ∃ v, serialize serde_Config cfg = Ok v ∧ deserialize serde_Config v = Ok cfg) ∧
  (∀ v, deserialize serde_Config v = Ok cfg → config_in u64_MAX cfg).
Proof. split; [apply config_back|intros v; apply config_range]. Qed.
End config_theorems.

Section node_theorems.
Context {RDB : RocksDB} {CODEC : Codec} {V6 : SocketAddrV6}.
Implicit Types (cfg : Config) (w : World).

(** The names in the order of the plugin list. *)
Definition plugin_names cfg : list string :=
  [PERSISTENCE] ++ (if sw_verification cfg then [VERIFIER] else []) ++
  [PUBLISH; SUBSCRIBER; BLOCK_ACCESS; STATUS; OBSERVABILITY; STATE_MANAGEMENT; QUERY; BACKFILL].

(** Storage that opens: what [initialize] of the persistence plugin needs. *)
Definition storage_opens cfg (db : DB) (fs : FS) (listing : list fname) (svc : Service) : Prop :=
  Persistence.initialize (persistence_service (plugins cfg)) (core_start_block_number (core cfg))
    db fs listing = Ok svc.

Lemma plugins_in_names b cfg : name <$> plugins_in b cfg = plugin_names cfg.
Proof. unfold plugins_in, plugin_names. by destruct (sw_verification cfg). Qed.






(** C22: A bad configuration stops the start-up.  A missing file, settings that cannot
    be built, a value anywhere in the file that its field does not accept (a wrong type,
    a number out of range, an unknown backfill mode), a field given twice and a log
    level that does not parse each end the start-up with an error, before anything is
    printed and whatever the database and the archive directory hold. *)
Theorem bad_config_stops_start `{ConfigCrate, Display} exists_ args :
  (exists_ (config_path args) = false ∨
   (∃ e, build_settings (config_path args) = Err e) ∨
   (∃ st, build_settings (config_path args) = Ok st ∧
      (rejects (F := settings_format) Config serde_Config (settings_value st) ∨
       ∃ cfg, deserialize (F := settings_format) serde_Config (settings_value st) = Ok cfg ∧
         parses_as_directive (log_level (core cfg)) = false))) →
  ∃ e, load_config exists_ args = Err e ∧
    ∀ fs listing, launch exists_ args fs listing = ([], Err e).
Proof.
  intros Hbad. assert (∃ e, load_config exists_ args = Err e) as [e E].
  { unfold load_config, validate_config_file_exists.
    destruct (exists_ _) eqn:Ex; cbn [mbind Result_bind negb with_error]; [|by eauto].
    destruct Hbad as [|[[e ->]|(st & -> & Hst)]]; cbn [mbind Result_bind with_error];
      [done|by eauto|].
    destruct (settings_toml st); cbn [mbind Result_bind with_error]; [|by eauto].
    destruct Hst as [[e ->]%rejects_fails|(cfg & -> & Hd)]; cbn [mbind Result_bind with_error];
      [by eauto|]. rewrite Hd. by eauto. }
  exists e. split; [done|]. intros fs listing. unfold launch. by rewrite E.
Qed.

(** One plugin that refuses makes the collection of the services fail. *)
Lemma register_all_fails b ps w : b ∈ ps →
  (∀ w, is_ok (plugin_register_grpc_services (Plugin := box_methods b) (box_value b) w) = false) →
  is_ok (register_all ps w) = false.
Proof.
  intros Hin Hf. revert w. induction ps as [|b' ps IH]; intros w; [by apply elem_of_nil in Hin|].
  cbn. apply elem_of_cons in Hin as [<-|Hin].
  - specialize (Hf w). by destruct (plugin_register_grpc_services _ _).
  - destruct (plugin_register_grpc_services _ _) as [[found w1]|]; [|done]. cbn.
    specialize (IH Hin w1). by destruct (register_all ps w1) as [[]|].
Qed.

Lemma initialize_all_in cfg b ps w ps' w' : b ∈ ps → initialize_all cfg ps w = Ok (ps', w') →
  ∃ p w1 w2, plugin_initialize (Plugin := box_methods b) (box_value b) cfg w1 = Ok (p, w2) ∧
    Box (box_methods b) p ∈ ps'.
Proof.
  revert w ps'. induction ps as [|b' ps IH]; intros w ps' Hin E; [by apply elem_of_nil in Hin|].
  cbn in E. destruct (plugin_initialize _ _ _) as [[p w1]|] eqn:Ep; [|done]. cbn in E.
  destruct (initialize_all cfg ps w1) as [[ps1 w2]|] eqn:E1; [|done]. cbn in E. injection E as <- <-.
  apply elem_of_cons in Hin as [->|Hin].
  - exists p, w, w1. split; [done|]. by left.
  - destruct (IH _ _ Hin E1) as (p' & w3 & w4 & H1 & H2). exists p', w3, w4. split; [done|]. by right.
Qed.

(** Without the publish service nothing boots.  Whatever the storage, a
    configuration with [publish_service.enabled = false] makes the boot fail: the
    publish plugin skips its initialisation and then refuses to be asked for its
    services. *)
Lemma disabled_publish_aborts_boot cfg w : sw_publish cfg = false → is_ok (boot cfg w) = false.
Proof.
  intros Hp. unfold boot.
  destruct (initialize_all cfg (assemble cfg) w) as [[ps w1]|] eqn:E; [|done].
  cbn [plugin_failed mbind Result_bind]. destruct (is_socket_addr _); [|done].
  cbn [mbind Result_bind].
  destruct (initialize_all_in cfg (Box publish_plugin PublishPlugin_new) (assemble cfg) w ps w1)
    as (p & w2 & w3 & Ei & Hin); [|done|].
  { unfold assemble. apply elem_of_app. right. by left. }
  cbn in Ei. unfold publish_initialize in Ei. fold (sw_publish cfg) in Ei.
  rewrite Hp in Ei. cbn in Ei. injection Ei as <- <-.
  pose proof (register_all_fails _ ps w1 Hin (λ _, eq_refl)) as Hf.
  by destruct (register_all ps w1).
Qed.

(** C29: The persistence loop reads the channel that is fed.  In every state a booted
    node reaches, a running persistence loop reads the verified blocks if the verifier
    is there and the received blocks otherwise; without the verifier the loop always
    starts. *)
Theorem persistence_reads_fed_channel cfg db fs listing svc w :
  storage_opens cfg db fs listing svc →
  rtc node_step (booted cfg svc (build_context db fs listing)) w →
  (∀ s, PersistenceLoop s ∈ w_tasks w → s = fed_stream cfg) ∧
  (∀ rx, PersistenceTask rx ∈ w_tasks w → sw_verification cfg = false →
     persistence_stream (w_capabilities w) rx = Some (fed_stream cfg)).
Proof.
  intros Hs Hrun.
  destruct (node_run_inv _ _ _ _ (build_context_opens _ _ _ _ _ Hs) (build_context_blank _ _ _) Hrun).
  split; [done|]. intros rx Hrx Hv. apply ni_task in Hrx as ->.
  unfold persistence_stream, fed_stream. rewrite Hv in *. cbn.
  destruct (is_registered _ _); [|done]. by specialize (ni_verified eq_refl).
Qed.

(** No step brings a persistence task back. *)
Definition persistence_gone w : Prop :=
  PERSISTENCE ∉ w_running w ∧
  ∀ t, t ∈ w_tasks w → (∀ rx, t ≠ PersistenceTask rx) ∧ (∀ s, t ≠ PersistenceLoop s).

Lemma persistence_gone_step w w' : persistence_gone w → node_step w w' → persistence_gone w'.
Proof.
  intros [Hr Ht] Hstep. destruct Hstep; unfold persistence_gone; cbn;
    try (split; [by set_solver|]; intros t' Hin; apply Ht; rewrite H; by apply elem_of_removed).
  - exfalso. destruct (Ht (PersistenceTask rx)) as [Hx _]; [rewrite H; set_solver|]. by apply (Hx rx).
  - done.
  - unfold subscribe_block_stream. destruct (get_reader w); [|done]. cbn. split; [done|].
    intros t' [Hin| ->%list_elem_of_singleton]%elem_of_app; [by apply Ht|done].
  - done.
Qed.

Lemma persistence_gone_run w w' : persistence_gone w → rtc node_step w w' → persistence_gone w'.
Proof. intros H Hrun. induction Hrun; eauto using persistence_gone_step. Qed.

(** With the verifier, the persistence task has no receiver of its own. *)
Lemma booted_persistence_task cfg : sw_verification cfg = true →
  ∃ l1 l2, boot_tasks cfg = l1 ++ PersistenceTask false :: l2 ∧
    ∀ t, t ∈ l1 ++ l2 → (∀ rx, t ≠ PersistenceTask rx) ∧ (∀ s, t ≠ PersistenceLoop s).
Proof.
  intros Hv. unfold boot_tasks. rewrite Hv.
  exists [ArchiverTask; RegisterCapability ProvidesBlockReader;
    RegisterCapability ProvidesVerifiedBlocks;
    GrpcServer (grpc_listen_address cfg) (services cfg)]. eexists.
  split; [reflexivity|]. intros t Ht. cbn [app] in Ht. by task_cases Ht.
Qed.

Lemma fmap_rev {A B} (f : A → B) (l : list A) : f <$> rev l = rev (f <$> l).
Proof. induction l as [|x l IH]; cbn; [done|]. by rewrite fmap_app, IH. Qed.

Lemma running_names_sub cfg : running_names cfg ⊆ plugin_names cfg.
Proof.
  intros n H. unfold plugin_names. rewrite !elem_of_app, elem_of_if.
  task_cases H; set_solver.
Qed.

Lemma plugin_names_nodup cfg : NoDup (plugin_names cfg).
Proof. unfold plugin_names. destruct (sw_verification cfg); by apply (bool_decide_unpack _). Qed.

Lemma booted_stoppable cfg w : node_inv cfg w →
  Forall (stoppable w) (plugins_in true cfg).
Proof.
  intros Hi. unfold plugins_in. rewrite !Forall_app. split_and!.
  - repeat constructor. by exists persistence_lawful.
  - destruct (sw_verification cfg); repeat constructor. by exists verifier_lawful.
  - repeat constructor.
    + by exists publish_lawful.
    + by exists subscriber_lawful.
    + by exists block_access_lawful.
    + by exists status_lawful.
    + exists observability_lawful. intros Hr _. unfold is_running in Hr. cbn in Hr.
      apply bool_decide_eq_true in Hr. destruct (ni_server _ _ Hi Hr) as [a Ha].
      unfold server_listening. cbn. apply existsb_exists. exists (ObservabilityServer a).
      split; [|done]. by apply list_elem_of_In.
    + by exists state_lawful.
    + by exists query_lawful.
    + by exists backfill_lawful.
Qed.

(** With the verifier the node can lose its persistence.  If the persistence task
    starts to run before the task that registers the verifier's capability, it finds
    neither channel and ends; from then on nothing is ever stored, although the node
    keeps accepting blocks. *)
Lemma verifier_race_ends_persistence cfg db fs listing svc :
  storage_opens cfg db fs listing svc → sw_verification cfg = true →
  ∃ w, rtc node_step (booted cfg svc (build_context db fs listing)) w ∧
    ∀ w', rtc node_step w w' →
      PERSISTENCE ∉ w_running w' ∧ (∀ s, PersistenceLoop s ∉ w_tasks w') ∧
      w_routes w' = services cfg.
Proof.
  intros Hs Hv. pose proof (build_context_opens _ _ _ _ _ Hs) as Ho.
  pose proof (build_context_blank db fs listing) as Hb.
  set (w0 := booted cfg svc (build_context db fs listing)).
  pose proof (booted_tasks cfg svc _ Hb) as Et. fold w0 in Et.
  pose proof (booted_persistence_task cfg Hv) as (l1 & l2 & El & Hl). rewrite El in Et.
  assert (persistence_stream (w_capabilities w0) false = None) as En
    by (unfold w0; by rewrite booted_capabilities).
  pose proof (step_persistence_without_stream w0 l1 false l2 Et En) as Hstep.
  eexists. split; [by apply rtc_once|]. intros w' Hrun.
  assert (persistence_gone w') as [H1 H2].
  { eapply persistence_gone_run; [|exact Hrun]. split; [set_solver|exact Hl]. }
  split; [done|]. split; [intros s Hin; by apply H2 in Hin as [_ Hx]; eapply Hx|].
  eapply ni_routes, (node_run_inv cfg svc); [done..|]. eapply rtc_l; [exact Hstep|exact Hrun].
Qed.

(** C23: A shutdown stops everything.  From every state a booted node reaches, the
    shutdown stops each running plugin once, in the reverse of the start order and
    without an error; afterwards no plugin runs, and if the publish plugin ran every
    connected publisher was told that the stream ends. *)
Theorem shutdown_stops_all cfg db fs listing svc w :
  storage_opens cfg db fs listing svc →
  rtc node_step (booted cfg svc (build_context db fs listing)) w →
  ∃ w', shutdown (plugins_in true cfg) w
      = (w', filter (λ n, n ∈ w_running w) (rev (plugin_names cfg)), []) ∧
    w_running w' = ∅ ∧
    (PUBLISH ∈ w_running w → w_sent w' = w_sent w ++ stop_publish (w_publish w) ∧
       ∀ sid, sid ∈ active_sessions (w_publish w) →
         ∃ n, (sid, EndStream CodeError n) ∈ w_sent w').
Proof.
  intros Hs Hrun.
  pose proof (node_run_inv _ _ _ _ (build_context_opens _ _ _ _ _ Hs) (build_context_blank _ _ _) Hrun)
    as Hi.
  destruct (stop_plugins_ok (rev (plugins_in true cfg)) (notify_waiters GRPC w))
    as (w' & E & Er & _ & Es).
  { apply Forall_rev, booted_stoppable. by apply (inv_same cfg w). }
  { rewrite fmap_rev, plugins_in_names. rewrite <-Permutation_rev. apply plugin_names_nodup. }
  exists w'. unfold shutdown. rewrite fmap_rev, plugins_in_names in *.
  split; [exact E|]. split.
  - rewrite Er. cbn. pose proof (ni_running _ _ Hi). pose proof (running_names_sub cfg).
    apply set_eq. intros n. rewrite elem_of_difference, elem_of_list_to_set, <-Permutation_rev.
    set_solver.
  - intros Hp. cbn in Es. rewrite decide_True in Es.
    2: { split; [|done]. rewrite <-Permutation_rev. unfold plugin_names. set_solver. }
    split; [done|]. intros sid Hsid. eexists. rewrite Es. apply elem_of_app. right.
    unfold stop_publish, broadcast. apply list_elem_of_fmap. exists sid. split; [done|].
    by apply elem_of_elements.
Qed.

(** C36: A node is ready exactly once its block reader is announced.  In every state a
    booted node reaches, the block reader is in the provider table; the readiness
    answer is READY if the task that registers the reader's capability has run and
    NOT_READY while it has not; in the latter case that task can run next and makes
    the node ready; and a node that is ready stays so whatever its tasks do. *)
Theorem ready_means_readable cfg db fs listing svc w :
  storage_opens cfg db fs listing svc →
  rtc node_step (booted cfg svc (build_context db fs listing)) w →
  is_Some (get_reader w) ∧
  (RegisterCapability ProvidesBlockReader ∉ w_tasks w →
   readiness_check w = (200, "READY") ∧
   ∀ w', rtc node_step w w' → readiness_check w' = (200, "READY")) ∧
  (RegisterCapability ProvidesBlockReader ∈ w_tasks w →
   readiness_check w = (503, "NOT_READY") ∧
   ∃ w', node_step w w' ∧ RegisterCapability ProvidesBlockReader ∉ w_tasks w' ∧
     readiness_check w' = (200, "READY")).
Proof.
  intros Hs Hrun.
  assert (∀ w, rtc node_step (booted cfg svc (build_context db fs listing)) w →
    node_inv cfg w) as Hinv
    by (intros w0; by apply node_run_inv; [by apply build_context_opens|apply build_context_blank]).
  pose proof (Hinv w Hrun) as Hi. split_and!.
  - destruct (ni_reader _ _ Hi) as (c & st & E). unfold get_reader. rewrite E. by eexists.
  - intros Hgone. assert (is_registered (w_capabilities w) ProvidesBlockReader = true) as E.
    { rewrite (registration_pending w (ni_block_reader _ _ Hi)) in Hgone.
      by destruct (is_registered _ _). }
    assert (∀ w', rtc node_step w w' → readiness_check w' = (200, "READY")) as Hstay;
      [|by split; [apply Hstay, rtc_refl|]].
    intros w' Hr. unfold readiness_check. by rewrite (registered_stays w w').
  - intros Hin. pose proof Hin as Hno. rewrite (registration_pending w (ni_block_reader _ _ Hi)) in Hno.
    split; [unfold readiness_check; by rewrite Hno|].
    apply list_elem_of_split in Hin as (l1 & l2 & E).
    pose proof (step_capability w l1 _ l2 E) as Hstep. eexists. split; [exact Hstep|].
    assert (node_inv cfg (with_capabilities (with_tasks w (l1 ++ l2))
      (register (w_capabilities w) ProvidesBlockReader))) as Hi' by (by eapply node_step_inv).
    assert (is_registered (register (w_capabilities w) ProvidesBlockReader) ProvidesBlockReader = true)
      as Er by (by rewrite is_registered_register, bool_decide_true).
    split; [|unfold readiness_check; cbn; by rewrite Er].
    intros Hin'. apply (registration_pending _ (ni_block_reader _ _ Hi')) in Hin'.
    cbn in Hin'. congruence.
Qed.

(** The session table of the subscriber service holds the running sessions. *)
Theorem subscriber_table_exact cfg db fs listing svc w :
  storage_opens cfg db fs listing svc →
  rtc node_step (booted cfg svc (build_context db fs listing)) w →
  ∀ id, id ∈ w_subscribers w ↔ SubscriberTask id ∈ w_tasks w.
Proof.
  intros Hs Hrun id.
  destruct (node_run_inv _ _ _ _ (build_context_opens _ _ _ _ _ Hs) (build_context_blank _ _ _) Hrun).
  destruct ni_sessions as [_ ->]. rewrite elem_of_list_to_set, list_elem_of_omap. split.
  - intros ([] & Hin & [= <-]); done.
  - intros H. by exists (SubscriberTask id).
Qed.

(** With a start block above zero the state plugin never runs, but the query services
    are offered: they answer from a state that no block reaches. *)
Theorem queries_without_state cfg db fs listing svc w :
  storage_opens cfg db fs listing svc → 0 < core_start_block_number (core cfg) →
  sw_state cfg = true → sw_query cfg = true →
  rtc node_step (booted cfg svc (build_context db fs listing)) w →
  CryptoService ∈ w_routes w ∧ STATE_MANAGEMENT ∉ w_running w.
Proof.
  intros Hs Hst Hs1 Hq Hrun.
  destruct (node_run_inv _ _ _ _ (build_context_opens _ _ _ _ _ Hs) (build_context_blank _ _ _) Hrun).
  split.
  - rewrite ni_routes. unfold services. rewrite Hs1, Hq. cbn [andb]. unfold query_services.
    rewrite !elem_of_app. do 4 right. by left.
  - intros H%ni_running. unfold running_names, sw_state_runs in H. rewrite Hs1 in H.
    assert ((0 <? core_start_block_number (core cfg)) = true) as E by lia. rewrite E in H.
    cbn [andb negb] in H. by task_cases H.
Qed.

Lemma split_running_stoppable ps w : Forall (stoppable w) ps →
  split_running ps w
  = (filter (λ n, n ∈ w_running w) (name <$> ps), filter (λ n, n ∉ w_running w) (name <$> ps)).
Proof.
  induction ps as [|b ps IH]; intros Hall; [done|].
  apply Forall_cons in Hall as [Hb Hall]. cbn. rewrite IH, (box_running w b Hb) by done.
  destruct (decide (name b ∈ w_running w)) as [H|H];
    [rewrite bool_decide_true by done|rewrite bool_decide_false by done];
    repeat case_decide; tauto || done.
Qed.

(** The start-up report calls every plugin that is switched off a failed one. *)
Theorem idle_plugins_reported_failed cfg db fs listing svc :
  storage_opens cfg db fs listing svc →
  let running := filter (λ n, n ∈ running_names cfg) (plugin_names cfg) in
  let failed := filter (λ n, n ∉ running_names cfg) (plugin_names cfg) in
  head (report_plugin_startup_status (plugins_in true cfg)
          (booted cfg svc (build_context db fs listing)))
  = Some (analyze_plugin_startup_results (length (plugin_names cfg)) running failed).1.
Proof.
  intros Hs running failed. pose proof (build_context_blank db fs listing) as Hb.
  pose proof (booted_inv cfg svc _ (build_context_opens _ _ _ _ _ Hs) Hb) as Hi.
  unfold report_plugin_startup_status.
  rewrite (split_running_stoppable _ _ (booted_stoppable _ _ Hi)), plugins_in_names.
  rewrite (booted_running cfg svc _ Hb). rewrite <-(length_fmap name), plugins_in_names.
  rewrite (list_filter_iff (λ n, n ∈ (list_to_set (running_names cfg) : gset string))
    (λ n, n ∈ running_names cfg)) by (intros; by rewrite elem_of_list_to_set).
  rewrite (list_filter_iff (λ n, n ∉ (list_to_set (running_names cfg) : gset string))
    (λ n, n ∉ running_names cfg)) by (intros; by rewrite elem_of_list_to_set).
  done.
Qed.
End node_theorems.

(** ** The theorems at work on the reference store *)
Module NodeExamples.
Import RefNode.

#[local] Instance no_v6 : SocketAddrV6 := {| is_socket_addr_v6 _ := false |}.

(** The default configuration, with the verifier on or off, from block [start]. *)
Definition node_cfg (verification : bool) (start : Z) : Config := {|
  core := {| log_level := "INFO"; database_path := "data/database";
             core_start_block_number := start; grpc_address := "0.0.0.0"; grpc_port := 8090 |};
  plugins := {|
    observability := ObservabilityConfig_default;
    persistence_service := PersistenceServiceConfig_default;
    publish_service := PublishServiceConfig_default;
    verification_service := {| verification_enabled := verification |};
    block_access_service := BlockAccessServiceConfig_default;
    server_status_service := ServerStatusServiceConfig_default;
    state_management_service := StateManagementServiceConfig_default;
    subscriber_service := SubscriberServiceConfig_default;
    query_service := QueryServiceConfig_default;
    backfill := BackfillConfig_default |} |}.

Example addresses_parsed :
  parse_socket_addr_v4 (lit "127.0.0.1:50051") = Some (127, 0, 0, 1, 50051) ∧
  parse_socket_addr_v4 (lit "0.0.0.0:9600") = Some (0, 0, 0, 0, 9600) ∧
  parse_socket_addr_v4 (lit "invalid:address:99999") = None ∧
  parse_socket_addr_v4 (lit "256.0.0.1:80") = None ∧ parse_socket_addr_v4 (lit "1.2.3.4:65536") = None.
Proof. by vm_compute. Qed.

Example plugin_list_formatted :
  format_plugin_list [] "✅" = "None" ∧
  format_plugin_list ["Plugin1"; "Plugin2"] "❌"
  = "  ❌ Plugin1 - FAILED" +:+ newline +:+ "  ❌ Plugin2 - FAILED".
Proof. by vm_compute. Qed.

Lemma node_opens verification start : is_u64 start →
  ∃ svc, storage_opens (RDB := ref_rocksdb) (node_cfg verification start) fresh empty_fs [] svc.
Proof.
  intros Hs. destruct (initialize_fresh (RDB := ref_rocksdb) PersistenceServiceConfig_default start
    fresh empty_fs fresh_fresh Hs) as (svc & E & _).
  exists svc. exact E.
Qed.

(** A file with a few settings, as a TOML value. *)
Definition small_file (mode : string) : Value :=
  VTable [("core", VTable [("log_level", VString "WARN")]);
          ("plugins", VTable [("backfill", VTable [("mode", VString mode); ("enabled", VBoolean true);
             ("peers", VArray [VString "http://localhost:8080"]); ("colour", VInteger 3)])])].

(** A crate that reads TOML values strictly, and ignores the environment. *)
Definition toml_crate (file : Value) : ConfigCrate := {|
  Settings := Value;
  build_settings path := Ok file;
  settings_toml v := Ok v;
  settings_format := toml_format;
  settings_value v := v;
  parses_as_directive s := bool_decide (s ∈ ["INFO"; "WARN"; "DEBUG"]);
|}.

#[local] Instance plain_display : Display := {|
  show_value v := match v with VString s => s | _ => "?" end;
  debug_path p := p;
  unicode_upper s := s;
|}.

(** The configuration the test of the source writes and reads. *)
Definition written_config : Config := {|
  core := {| log_level := "DEBUG"; database_path := "/custom/path"; core_start_block_number := 42;
             grpc_address := "0.0.0.0"; grpc_port := 8090 |};
  plugins := {|
    observability := ObservabilityConfig_default;
    persistence_service := PersistenceServiceConfig_default;
    publish_service := PublishServiceConfig_default;
    verification_service := VerificationServiceConfig_default;
    block_access_service := BlockAccessServiceConfig_default;
    server_status_service := ServerStatusServiceConfig_default;
    state_management_service := StateManagementServiceConfig_default;
    subscriber_service := SubscriberServiceConfig_default;
    query_service := QueryServiceConfig_default;
    backfill := {| backfill_enabled := true; mode := Continuous;
      peers := ["peer1:8080"; "peer2:9090"]; check_interval_seconds := 30;
      max_batch_size := 500 |} |} |}.

Lemma sections_decode_witness :
  deserialize (F := toml_format) serde_BackfillConfig
    (VTable [("mode", VString "CONTINUOUS"); ("colour", VInteger 3)])
  = Ok {| backfill_enabled := false; mode := Continuous; peers := []; check_interval_seconds := 60;
          max_batch_size := 1000 |}.
Proof.
  apply (sections_decode (F := toml_format) BackfillConfig BackfillConfig_fields
    BackfillConfig_missing _ [("mode", VString "CONTINUOUS"); ("colour", VInteger 3)]);
    [constructor|reflexivity|]. split.
  - by apply (bool_decide_unpack _).
  - repeat constructor.
Defined.

Lemma config_roundtrip_witness :
  ∃ v, serialize (F := toml_format) serde_Config written_config = Ok v ∧
    deserialize (F := toml_format) serde_Config v = Ok written_config.
Proof.
  apply (config_roundtrip (F := toml_format) written_config).
  unfold config_in, core_in, plugins_below, below. by apply (bool_decide_unpack _).
Defined.


Lemma bad_config_stops_start_witness :
  ∃ e, ∀ fs listing, launch (H := toml_crate (small_file "invalid-mode")) (RDB := ref_rocksdb)
    (λ _, true) (Args_parse None) fs listing = ([], Err e).
Proof.
  destruct (bad_config_stops_start (H := toml_crate (small_file "invalid-mode"))
    (RDB := ref_rocksdb) (λ _, true) (Args_parse None)) as (e & _ & H); [|by exists e].
  right. right. exists (small_file "invalid-mode"). split; [reflexivity|]. left.
  apply (rejects_here (F := toml_format) _ _ _ (UnknownVariant "invalid-mode")).
  vm_compute. reflexivity.
Defined.

Lemma disabled_publish_aborts_boot_witness :
  is_ok (Node.boot (RDB := ref_rocksdb)
    {| core := CoreConfig_default;
       plugins := {|
         observability := ObservabilityConfig_default;
         persistence_service := PersistenceServiceConfig_default;
         publish_service := {| publish_enabled := false; publish_max_concurrent_streams := 250;
           persistence_ack_timeout_seconds := 60; stale_winner_timeout_seconds := 10;
           winner_cleanup_interval_seconds := 150; winner_cleanup_threshold_blocks := 1000;
           max_message_size_bytes := 1024; max_items_per_set := 10000 |};
         verification_service := VerificationServiceConfig_default;
         block_access_service := BlockAccessServiceConfig_default;
         server_status_service := ServerStatusServiceConfig_default;
         state_management_service := StateManagementServiceConfig_default;
         subscriber_service := SubscriberServiceConfig_default;
         query_service := QueryServiceConfig_default;
         backfill := BackfillConfig_default |} |}
    (build_context fresh empty_fs [])) = false.
Proof. apply disabled_publish_aborts_boot. reflexivity. Defined.

Lemma persistence_reads_fed_channel_witness :
  ∃ svc, persistence_stream (w_capabilities (booted (RDB := ref_rocksdb) (node_cfg false 0) svc
      (build_context fresh empty_fs []))) true = Some UnverifiedStream.
Proof.
  destruct (node_opens false 0) as [svc E]; [u64_lia|]. exists svc.
  destruct (persistence_reads_fed_channel (RDB := ref_rocksdb) (node_cfg false 0) fresh empty_fs []
    svc _ E (rtc_refl _ _)) as [_ H].
  apply H; [|reflexivity].
  rewrite booted_tasks by apply build_context_blank. unfold boot_tasks. cbn. set_solver.
Defined.

Lemma verifier_race_ends_persistence_witness :
  ∃ svc w, rtc node_step (booted (RDB := ref_rocksdb) (node_cfg true 0) svc
      (build_context fresh empty_fs [])) w ∧
    PERSISTENCE ∉ w_running w ∧ BlockStreamPublishService ∈ w_routes w.
Proof.
  destruct (node_opens true 0) as [svc E]; [u64_lia|]. exists svc.
  destruct (verifier_race_ends_persistence (RDB := ref_rocksdb) (node_cfg true 0) fresh empty_fs []
    svc E eq_refl) as (w & Hrun & H).
  exists w. destruct (H w (rtc_refl _ _)) as (H1 & _ & H2). split; [exact Hrun|]. split; [exact H1|].
  rewrite H2. by left.
Defined.

Lemma shutdown_stops_all_witness :
  ∃ svc w', shutdown (plugins_in true (node_cfg false 0))
      (booted (RDB := ref_rocksdb) (node_cfg false 0) svc (build_context fresh empty_fs []))
    = (w', [QUERY; STATE_MANAGEMENT; OBSERVABILITY; STATUS; BLOCK_ACCESS; SUBSCRIBER; PUBLISH;
            PERSISTENCE], []) ∧ w_running w' = ∅.
Proof.
  destruct (node_opens false 0) as [svc E]; [u64_lia|]. exists svc.
  destruct (shutdown_stops_all (RDB := ref_rocksdb) (node_cfg false 0) fresh empty_fs [] svc _ E
    (rtc_refl _ _)) as (w' & H1 & H2 & _).
  exists w'. split; [|exact H2]. rewrite H1.
  rewrite booted_running by apply build_context_blank.
  apply (f_equal (λ l, (w', l, []))). vm_compute. reflexivity.
Defined.

Lemma ready_means_readable_witness :
  ∃ svc w, readiness_check (booted (RDB := ref_rocksdb) (node_cfg false 0) svc
      (build_context fresh empty_fs [])) = (503, "NOT_READY") ∧
    node_step (booted (RDB := ref_rocksdb) (node_cfg false 0) svc
      (build_context fresh empty_fs [])) w ∧ readiness_check w = (200, "READY").
Proof.
  destruct (node_opens false 0) as [svc E]; [u64_lia|]. exists svc.
  destruct (ready_means_readable (RDB := ref_rocksdb) (node_cfg false 0) fresh empty_fs [] svc _ E
    (rtc_refl _ _)) as (_ & _ & H).
  destruct H as (H1 & w & H2 & _ & H3).
  - rewrite booted_tasks by apply build_context_blank. unfold boot_tasks. cbn. set_solver.
  - exists w. split; [exact H1|]. split; [exact H2|exact H3].
Defined.
End NodeExamples.
